(* ===== verification/_CoqProject ===== *)
-Q . S2P
Prelude.v
Bits.v
Rv32.v
Rvc.v
Decoder.v
DivUnit.v
CpuUnits.v
Cpu.v
CpuSpec.v
CpuMem.v
CpuEx.v
CpuFront.v
CpuRefine.v
CpuLive.v
CpuCorrect.v
Zephyr.v
Dcache.v
DcacheFsm.v
Tcm.v
Icache.v
DcachePort.v
CacheLive.v
Arbiter.v
Chip.v
ChipCorrect.v
ChipLive.v
Fabric.v
CacheDriver.v
CacheTest.v
MmAccel.v
Gemm.v
GemmDemo.v
Intc.v
Uart.v
UartRx.v
CoreUtil.v
Matrix.v
StateMachine.v
ListJoin.v
ListBench.v
PortTime.v
EeFloat.v
EeFloatSpec.v
EeFloatText.v
EePrintf.v
CoreMain.v
