(* ===== verification/Prelude.v ===== *)
(** * rv32imac-soc: software and device models

    A verification library for the processor of the repository ([src/src]), for
    the devices around it ([src/src], [src/chisel]), and for the C code that
    runs on it (the CoreMark port under [src/fpga], the Zephyr drivers and
    samples under [src/zephyr]).  The core is modelled register by register
    and wire by wire; the C code function by function; a device as far as its
    driver observes it, register by register where the RTL is small.

    ** The parts and how they interact

    The core is a five-stage pipeline: fetch with a branch predictor and the
    decompressor, decode, execute with a multi-cycle divider and the trap
    logic, memory with an AMO sequencer and the LR/SC monitor, write-back.  Its
    clock advances all stages unless one of seven stall sources freezes it.

    Fetches and data accesses go to a tightly coupled memory in its range of
    addresses and elsewhere through an instruction and a data cache, both of
    which are addressed one cycle ahead with a speculated address.

    The CPU reaches DRAM through a write-back data cache that has no
    maintenance instruction.  The cache driver evicts lines by loading other
    addresses of the same sets; the GEMM driver uses it to keep operands and
    results coherent with the accelerator, which reads and writes DRAM behind
    the cache; two sample programs are clients of the two drivers.  Peripheral
    interrupts go through an interrupt controller with its own driver; text
    leaves through the UART.  CoreMark runs on the bare core: a main program
    that sets up, iterates and validates three kernels (lists, matrices, a
    state machine), over service routines, a timing port and a formatter that
    prints to the UART.

    - [Bits]: bit fields, concatenation and replication of Verilog.
    - [Rv32]: the architecture, independent of the pipeline: instructions,
      [decode] and [decode16], and the meaning of one instruction.
    - [Rvc], [Decoder], [DivUnit], [CpuUnits]: [rvc_expansion.v];
      [control_logic.v], [immgen.v], [alu.v], [branch_comp.v],
      [partial_load.v], [partial_store.v]; [div_unit.v]; [csr_file.v],
      [trap_controller.v], [reservation_monitor.v], [clint_timer.v],
      [hazard_unit.v].
    - [Cpu]: [cpu.v] and [regfile.v]: the registers ([cpu]), the wires under
      their names, one clock edge ([clock]), and the chip with its memory and
      the log of device accesses ([tick], [run]).
    - [CpuSpec]: the sequential machine the pipeline promises to be
      ([arch_step]: one instruction, one trap or one interrupt), with the
      programs the promise is for ([well_behaved]).
    - [CpuMem], [CpuEx], [CpuFront], [CpuRefine], [CpuLive], [CpuCorrect]: the
      proof that it is, stage by stage: the invariant of each stage, what one
      clock edge does to the machine a pipeline state stands for
      ([corresponds], [steps_to]), the bound on its stalls, the theorems.
    - [Zephyr]: what the drivers use of the kernel, which is not in the
      repository: type classes of operations ([SysUtil], [KernelSync], [Mmio])
      with classes of documented laws and a concrete instance of each.
    - [Dcache]: [src/src/dcache_bram.v] as software sees it, a byte access at a
      time ([cpu_load], [cpu_store], [dma_write_range]); [view] is what the CPU
      reads, [wbval] what eviction puts in DRAM, [coherent] that they agree.
    - [DcacheFsm]: the same RTL register by register ([step], [clock]), with the
      pipeline that holds a request ([access]) and a memory behind the port.
    - [Tcm], [Icache]: [tcm.v] and [icache_bram.v], register by register.
    - [DcachePort]: what one cycle of [DcacheFsm] does for a request that the
      pipeline holds; the invariant of its port ([serving]).
    - [Chip], [ChipCorrect]: the instances of [cpu.v]: the core with [icache.v],
      [dcache.v] and the tightly coupled memory, its inputs in a cycle being
      their answers ([chip_inputs], [chip_clock]); the proof that they keep the
      protocol the core's theorems ask for, and the theorem of the composition.
    - [CacheLive], [ChipLive]: each cache answers a held request if the memory
      behind it answers; the reasons for the pipeline to stand still, one by one,
      and the proof that they all end ([soon], [stable], [free]).
    - [Arbiter], [Fabric]: [mem_arbiter_rw.v], register by register, with the
      waiting time of a request as a measure ([Section Rotation]); the default
      memory path of [fpga_top.v]: the chip and the arbiter on one DRAM
      ([fabric_clock]), which cycle by cycle is the chip of [Chip]
      ([fabric_is_chip]) in surroundings that are fair to it ([met_fair]).
    - [CacheDriver]: [cache_rv32_5stage.c]; [Class CacheMaint] is the contract
      the displacement driver fulfils and other code relies on.
    - [CacheTest]: the cache driver's client,
      [src/zephyr/samples/cache_test/src/main.c].
    - [MmAccel]: the registers and a descriptor queue of
      [src/chisel/src/MmAccel.scala] as their effect on DRAM.
    - [Gemm]: [gemm_rv32_5stage.c] and [gemm.h] over cache, cache driver,
      accelerator, semaphore and mutex.
    - [GemmDemo]: its client, [src/zephyr/samples/gemm_threads/src/main.c].
    - [Intc]: [src/src/intc.v] cycle by cycle ([Module IntcHw]) and
      [intc_rv32_5stage.c] against it.
    - [Uart]: [uart_tx.v] and [uart_mmio.v] cycle by cycle ([Module UartTx],
      [Module UartMmio]), [uart_rv32_5stage.c], and the senders of
      [src/fpga/tests/uart.c] and [ee_printf.c].
    - [UartRx]: [uart_rx.v] cycle by cycle, on a wire with the transmitter.
    - [CoreUtil]: [core_util.c] (CRC, seeds, number parser).
    - [Matrix]: [core_matrix.c].
    - [StateMachine]: [core_state.c].
    - [ListJoin], [ListBench]: [core_list_join.c], the list primitives with the
      mergesort, and the benchmark that runs the other two kernels from its
      comparison function.
    - [PortTime]: run kinds, seeds and clock of [core_portme.c]/[.h].
    - [EeFloat], [EePrintf]: [cvt.c] and [ee_printf.c].  [EeFloatSpec] has the
      rounding error of the [double] operations [cvt.c] uses, [EeFloatText] what
      its digits and the text of [%f] say.
    - [CoreMain]: [core_main.c].

    This file has what all of them share: machine integers, bit operators, the
    state monad [M] with its loops, arrays, and their lemmas and tactics.

    ** How code is modelled

    A [w]-bit integer is a [Z] wrapped by [uwrap] or [swrap] where the code
    wraps it; [double] is the executable binary64 of [SpecFloat].  Code with
    effects runs in [M W A = W -> option (A * W)]: [None] is a fault (an access
    outside an object, an undefined argument) or a loop that does not end.
    Devices are worlds: an access of a driver is a bus request at some cycle,
    with arbitrary delays around it.  Early returns and error codes are values
    ([rc], sums, options).  C functions keep their names.

    Loops run by structural recursion where the bound is in the code
    ([for_upto], [for_M], [for_MS]) and by fuel otherwise ([while_fuel],
    [while_M]).  Fuel is never part of a promise: each theorem about a fuelled
    definition says that it returns with a stated amount of fuel, or for every
    fuel from some point on: [displace_fuel size] (one unit per line of the
    range and three more) for the cache walk, one unit per character of the
    format for the formatter, 81 (digits before the point), 400 (leading zeros:
    each step multiplies the smallest [double], 2^-1074, by at least 8) and 160
    (carries) for [cvt], [poll_fuel] (a frame time) for the UART polls, one
    more than the number of cells for every loop over a list, one more than the
    block size for the scanner.  The core has no fuel: a run is a list of
    inputs, one per cycle, and the progress theorem of the core bounds the cycles
    of an instruction by 176 when caches and peripherals answer at once; the one
    of the chip is about infinite runs and assumes only that they answer.

    ** What the theorems show

    - Processor: for every program whose executed words the decoder supports,
      and for any timing of caches, peripherals and interrupts, each cycle of
      the pipeline from reset stands for a run of the sequential machine: the
      same device accesses in the same order, and the same registers, CSRs and
      memory whenever no access is half done
      ([CpuCorrect.core_refines_architecture]); when the rest of the chip
      answers, it cannot livelock ([CpuCorrect.core_makes_progress]); the
      decompressor agrees with the C extension on all 2^16 parcels; the divider
      computes the architectural results within 33 cycles ([Rvc], [DivUnit]).
    - Chip: with both caches and the tightly coupled memory around the core, the
      same holds on one flat memory, for any contents of the arrays at reset and
      any DRAM latency ([ChipCorrect.chip_refines_architecture]), and in
      surroundings that answer every request at some time it executes any number
      of instructions ([ChipLive.chip_makes_progress]); both hold when the two
      caches share one DRAM through the arbiter with the reads of the accelerator
      ([Fabric.fabric_makes_progress]); a ready fetch shows
      memory ([Icache]), and the two banks with their two ports are a byte memory
      with a latency of one cycle ([Tcm]).
    - Memory: the cache RTL, from reset and for any memory latency, address
      speculation and RAM collision value, implements the byte-level cache
      ([DcacheFsm.dcache_refines]); a flush leaves the range in DRAM and
      nothing else changed; the documented DMA protocol delivers what the
      device wrote, and the hazard it warns of is real ([CacheDriver]).
    - Accelerator: a batch leaves exactly the product of the operand panels as
      the CPU saw them at the destinations, in both wait modes and whenever the
      interrupt comes; timeouts and refusals leave the driver ready; the demo
      reports PASS ([Gemm], [GemmDemo]).
    - Interrupts and UART: an edge is pending exactly until a bus write clears
      it, which the write in its own cycle does as well; unmasking a source
      discards its events up to the clearing write; the handler dispatches one
      snapshot; a polled byte is sent and framed, a receiver on the wire delivers
      it (at 19 to 2^16 clocks per bit: the transmitter counts them in 16 bits),
      enabling the transmit interrupt loses no wake-up ([Intc], [Uart],
      [UartRx]).
    - CoreMark: the CRC is CRC-16/ARC and detects any single change; the matrix
      routines compute their element formulas; the scanner recognises a given
      token language and stays inside its buffer; the mergesort sorts for any
      comparison that follows an order, and for the two that are used; an
      iteration leaves list and blocks as it found them; the performance, the
      validation and the profile run end with the CRCs the program expects; the
      verdict it prints is right; calibration ends ([CoreUtil] to [CoreMain]).
    - Text: [ee_vsprintf] implements a grammar of formats; with arguments of the
      right types it returns a text within a computed length, and [ee_printf]
      sends it; its integers parse back, and [%f] prints the number within half a
      unit of the last place and 2^-52.  These hold for [%f] of numbers below 2^48
      with at most 60 places; with more the text can outgrow [char tmp[80]]
      ([flt_overruns_tmp]) ([EePrintf], [EeFloatText]).

    Where the code does not do what a comment says, a lemma shows it on a
    concrete input next to the component ([w1c_drops_same_cycle_edge],
    [undersized_config_misses], [matrix_block_overrun],
    [core_bench_state_not_restored], [short_unknown_run_passes],
    [start_bit_stuck], [flt_overruns_tmp],
    [zero_parcel_executes] and others).

    ** What is not modelled, and why

    - The AXI engine and bridge behind the arbiter's two channels, and the
      superseded memory path ([MEM_PATH_RW = 0]: [mem_arbiter.v],
      [accel_port_join.v], [axi_cache_adapter.v]): a channel answers after any
      number of cycles, a read with the line as DRAM holds it in the cycle of the
      answer.  The accelerator's stores to DRAM are in [Dcache] and [DcacheFsm],
      not in the compositions of [Chip] and [Fabric].  The superseded
      [cache_core.v], the ASIC RAM macros and the debug outputs of [cpu.v] are
      left out.
    - Self-modifying code: on the addresses of the program ([code]) memory keeps
      its initial contents; the core has no way to invalidate its instruction
      cache.
    - The C code is taken at the semantics of C, not compiled to the core;
      drivers reach devices through the bus handshakes of [cpu.v]
      ([Intc.transact], [Uart.transact]).
    - Inside the accelerator, the systolic schedule, the load and store engines,
      prefetching and the manual (non-queue) operation: [MmAccel] has the effect
      of a whole batch.  The driver only uses the queue.  A batch whose
      destinations are operands of its own tiles is excluded by the theorems.
    - The bytes that [uart_rx.v] delivers to the register window are a schedule
      there; [UartRx] is the receiver by itself.
    - Zephyr's threads, timeouts and accounting: parameters (moments of
      completion, clock and usage readings).
    - [CORE_DEBUG] output and the multi-context paths of CoreMark: not compiled
      in this port.
    - The test programs under [src/fpga/tests] other than [uart.c], assembly,
      linker scripts, test benches, physical design and board files: they are
      not part of the shipped C code. *)

From Stdlib Require Export ZArith Lia.
From Stdlib Require Export Sorting.Sorted.
From stdpp Require Export base list gmap strings sorting.
From stdpp Require Import options.

(** stdpp's [options] sets a bullet discipline and default goal selector; the
    library keeps [Z_scope] open everywhere because machine integers are [Z]. *)
#[global] Open Scope Z_scope.
#[global] Unset Default Goal Selector.

(** ** Machine-width integers

    A C integer of width [w] is a [Z] kept in range by the wrap-around written
    out here: [u8], [u16], [u32] for the unsigned types and [s8], [s16], [s32]
    for the two's-complement conversions the target's compiler performs. *)

Definition uwrap (w z : Z) : Z := z mod 2 ^ w.
Definition swrap (w z : Z) : Z := (z + 2 ^ (w - 1)) mod 2 ^ w - 2 ^ (w - 1).

Definition u8 (z : Z) : Z := uwrap 8 z.
Definition u16 (z : Z) : Z := uwrap 16 z.
Definition u32 (z : Z) : Z := uwrap 32 z.
Definition s8 (z : Z) : Z := swrap 8 z.
Definition s16 (z : Z) : Z := swrap 16 z.
Definition s32 (z : Z) : Z := swrap 32 z.

Definition is_uint (w z : Z) : Prop := 0 <= z < 2 ^ w.
Definition is_sint (w z : Z) : Prop := - 2 ^ (w - 1) <= z < 2 ^ (w - 1).

(** ** Bit operators, in a scope of the library's own *)

Declare Scope soc_scope.
Delimit Scope soc_scope with soc.
Notation "x .& y" := (Z.land x y) (at level 40, left associativity) : soc_scope.
Notation "x .| y" := (Z.lor x y) (at level 50, left associativity) : soc_scope.
Notation "x .^ y" := (Z.lxor x y) (at level 45, left associativity) : soc_scope.
Notation "x .<< y" := (Z.shiftl x y) (at level 34, left associativity) : soc_scope.
Notation "x .>> y" := (Z.shiftr x y) (at level 34, left associativity) : soc_scope.
#[global] Open Scope soc_scope.

(** C truth of an integer expression. *)
Definition truthy (z : Z) : bool := negb (z =? 0).

Lemma truthy_nonzero (z : Z) : z <> 0 -> truthy z = true.
Proof. unfold truthy. by destruct (Z.eqb_spec z 0). Qed.

(** ** Range and bit lemmas of the wrap-arounds *)

Lemma pow2_pos (w : Z) : 0 < 2 ^ w \/ w < 0.
Proof. destruct (Z.lt_ge_cases w 0); [by right|left]. by apply Z.pow_pos_nonneg. Qed.

Lemma uwrap_range (w z : Z) : 0 <= w -> is_uint w (uwrap w z).
Proof. intros. apply Z.mod_pos_bound, Z.pow_pos_nonneg; lia. Qed.

Lemma uwrap_id (w z : Z) : is_uint w z -> uwrap w z = z.
Proof. apply Z.mod_small. Qed.

Lemma uwrap_uwrap (w z : Z) : uwrap w (uwrap w z) = uwrap w z.
Proof. apply Zmod_mod. Qed.

Lemma pow2_half (w : Z) : 0 < w -> 2 ^ w = 2 * 2 ^ (w - 1).
Proof. intros. rewrite <-Z.pow_succ_r by lia. f_equal; lia. Qed.

Lemma swrap_range (w z : Z) : 0 < w -> is_sint w (swrap w z).
Proof.
  intros Hw. unfold is_sint, swrap. pose proof (pow2_half w Hw).
  pose proof (Z.mod_pos_bound (z + 2 ^ (w - 1)) (2 ^ w)
                ltac:(apply Z.pow_pos_nonneg; lia)). lia.
Qed.

Lemma swrap_id (w z : Z) : 0 < w -> is_sint w z -> swrap w z = z.
Proof.
  unfold is_sint, swrap. intros Hw ?. pose proof (pow2_half w Hw).
  rewrite Z.mod_small by lia. lia.
Qed.

(** [swrap w z] and [z] agree modulo [2 ^ w]. *)
Lemma swrap_mod (w z : Z) : 0 < w -> swrap w z mod 2 ^ w = z mod 2 ^ w.
Proof.
  intros. unfold swrap. rewrite Zminus_mod_idemp_l. f_equal; lia.
Qed.

Lemma swrap_cong (w x y : Z) : x mod 2 ^ w = y mod 2 ^ w -> swrap w x = swrap w y.
Proof.
  intros H. unfold swrap. f_equal.
  by rewrite <-Zplus_mod_idemp_l, H, Zplus_mod_idemp_l.
Qed.

Lemma swrap_uwrap (w z : Z) : swrap w (uwrap w z) = swrap w z.
Proof. apply swrap_cong, Zmod_mod. Qed.

Lemma uwrap_swrap (w z : Z) : 0 < w -> uwrap w (swrap w z) = uwrap w z.
Proof. apply swrap_mod. Qed.

Lemma uwrap_testbit (w z i : Z) :
  0 <= w -> Z.testbit (uwrap w z) i = (i <? w) && Z.testbit z i.
Proof.
  intros. unfold uwrap. destruct (Z.lt_ge_cases i 0).
  - by rewrite !Z.testbit_neg_r, andb_false_r by lia.
  - destruct (Z.ltb_spec i w).
    + by rewrite Z.mod_pow2_bits_low by lia.
    + by rewrite Z.mod_pow2_bits_high by lia.
Qed.

(** A bit above the width of an unsigned value is clear. *)
Lemma uint_testbit_high (w z i : Z) : is_uint w z -> w <= i -> Z.testbit z i = false.
Proof.
  intros Hz Hi. destruct (Z.lt_ge_cases w 0) as [Hw|Hw].
  { unfold is_uint in Hz. rewrite Z.pow_neg_r in Hz by lia. lia. }
  rewrite <-(uwrap_id w z Hz), uwrap_testbit by lia.
  by destruct (Z.ltb_spec i w); [lia|].
Qed.

(** A non-negative integer whose bits above [w] are clear fits in [w] bits. *)
Lemma uint_of_testbit (w z : Z) :
  0 <= w -> (forall i, w <= i -> Z.testbit z i = false) -> is_uint w z.
Proof.
  intros Hw Hb. assert (z = uwrap w z) as ->; [|by apply uwrap_range].
  apply Z.bits_inj'. intros i Hi. rewrite uwrap_testbit by lia.
  destruct (Z.ltb_spec i w); [done|]. rewrite Hb by lia. done.
Qed.

Lemma land_uint_r (w x y : Z) : 0 <= w -> is_uint w y -> is_uint w (x .& y).
Proof.
  intros Hw Hy. apply uint_of_testbit; [done|]. intros i Hi.
  by rewrite Z.land_spec, (uint_testbit_high w y i), andb_false_r.
Qed.

Lemma lor_uint (w x y : Z) : 0 <= w -> is_uint w x -> is_uint w y -> is_uint w (x .| y).
Proof.
  intros Hw Hx Hy. apply uint_of_testbit; [done|]. intros i Hi.
  by rewrite Z.lor_spec, (uint_testbit_high w x i), (uint_testbit_high w y i).
Qed.

Lemma lxor_uint (w x y : Z) : 0 <= w -> is_uint w x -> is_uint w y -> is_uint w (x .^ y).
Proof.
  intros Hw Hx Hy. apply uint_of_testbit; [done|]. intros i Hi.
  by rewrite Z.lxor_spec, (uint_testbit_high w x i), (uint_testbit_high w y i).
Qed.

Lemma shiftr_uint (w x n : Z) : 0 <= n -> is_uint w x -> is_uint w (x .>> n).
Proof.
  unfold is_uint. intros Hn Hx. rewrite Z.shiftr_div_pow2 by lia.
  pose proof (Z.pow_pos_nonneg 2 n ltac:(lia) Hn).
  split; [apply Z.div_pos; lia|].
  apply Z.le_lt_trans with x; [apply Z.div_le_upper_bound; nia|lia].
Qed.

(** [x & (x - 1) = 0] is how C tests for a power of two. *)
Lemma land_pred_pow2 (x : Z) : 0 < x -> x .& (x - 1) = 0 -> x = 2 ^ Z.log2 x.
Proof.
  intros Hx E. pose proof (Z.log2_spec x Hx) as [Hlo Hhi].
  destruct (Z.eq_dec x (2 ^ Z.log2 x)) as [|Hne]; [done|exfalso].
  assert (Z.log2 (x - 1) = Z.log2 x) as Hl by (apply Z.log2_unique; [apply Z.log2_nonneg|lia]).
  pose proof (Z.pow_pos_nonneg 2 (Z.log2 x) ltac:(lia) (Z.log2_nonneg x)).
  assert (Z.testbit (x .& (x - 1)) (Z.log2 x) = true) as Hb.
  { rewrite Z.land_spec, Z.bit_log2 by lia. rewrite <-Hl, Z.bit_log2 by lia. done. }
  rewrite E, Z.bits_0 in Hb. done.
Qed.

(** Masking with a power of two minus one is the remainder. *)
Lemma land_pow2_pred (x n : Z) : 0 < n -> n .& (n - 1) = 0 -> x .& (n - 1) = x mod n.
Proof.
  intros Hn E. rewrite (land_pred_pow2 n Hn E).
  rewrite <-Z.land_ones by apply Z.log2_nonneg. f_equal. rewrite Z.ones_equiv. lia.
Qed.

(** Mixed-radix digits are unique. *)
Lemma radix_unique (n t i t' i' : Z) :
  0 <= i < n -> 0 <= i' < n -> t * n + i = t' * n + i' -> t = t' /\ i = i'.
Proof.
  intros Hi Hi' E.
  assert (t = t') as ->; [|lia].
  replace t with ((t * n + i) / n) by (rewrite Z.div_add_l, Z.div_small; lia).
  rewrite E, Z.div_add_l, Z.div_small; lia.
Qed.

(** A shifted value with a small one in its low bits. *)
Lemma shiftl_lor_add (x low n : Z) :
  0 <= n -> is_uint n low -> (x .<< n) .| low = x * 2 ^ n + low.
Proof.
  intros Hn Hl. rewrite <-Z.shiftl_mul_pow2, <-Z.add_lor_land by done.
  assert ((x .<< n) .& low = 0) as ->; [|lia].
  apply Z.bits_inj'. intros i Hi. rewrite Z.land_spec, Z.bits_0, Z.shiftl_spec by done.
  destruct (Z.lt_ge_cases i n); [by rewrite Z.testbit_neg_r by lia|].
  by rewrite (uint_testbit_high n low i), andb_false_r.
Qed.

(** ** The development's hint database and tactics *)

Create HintDb soc discriminated.
Create Rewrite HintDb soc.
#[export] Hint Resolve uwrap_range land_uint_r lor_uint lxor_uint shiftr_uint : soc.
#[export] Hint Extern 1 (_ <= _) => lia : soc.
#[export] Hint Extern 1 (_ < _) => lia : soc.
#[export] Hint Extern 2 (is_uint _ _) => (unfold is_uint; cbn; lia) : soc.

Create Rewrite HintDb zbits.
#[export] Hint Rewrite Z.land_spec Z.lor_spec Z.lxor_spec Z.bits_0 : zbits.
#[export] Hint Rewrite Z.shiftr_spec Z.shiftl_spec Z.lnot_spec using lia : zbits.
#[export] Hint Rewrite uwrap_testbit using lia : zbits.

(** [bitwise] proves an equality of integers bit by bit. *)
Ltac bitwise i Hi :=
  apply Z.bits_inj'; intros i Hi; autorewrite with zbits.

(** [lia] modulo division and remainder by constants. *)
Ltac divlia := Z.to_euclidean_division_equations; lia.

(** [zbool] turns boolean comparisons in the context and the goal into [Prop]. *)
Ltac zbool :=
  repeat match goal with
  | H : context [Z.eqb ?a ?b] |- _ => destruct (Z.eqb_spec a b)
  | H : context [Z.ltb ?a ?b] |- _ => destruct (Z.ltb_spec a b)
  | H : context [Z.leb ?a ?b] |- _ => destruct (Z.leb_spec a b)
  | |- context [Z.eqb ?a ?b] => destruct (Z.eqb_spec a b)
  | |- context [Z.ltb ?a ?b] => destruct (Z.ltb_spec a b)
  | |- context [Z.leb ?a ?b] => destruct (Z.leb_spec a b)
  end.

(** ** Stateful, possibly non-terminating code

    [M W A] is code that runs in a world [W]: it either finishes with a result
    and a new world, or ([None]) has not finished within the fuel its loops
    were given.  The [MRet]/[MBind] instances give it stdpp's notations
    [x <- m; k]. *)

Definition M (W A : Type) : Type := W -> option (A * W).

#[export] Instance M_ret (W : Type) : MRet (M W) := fun A x w => Some (x, w).
#[export] Instance M_bind (W : Type) : MBind (M W) := fun A B k m w =>
  match m w with
  | Some (x, w') => k x w'
  | None => None
  end.

Definition get_world {W : Type} : M W W := fun w => Some (w, w).
Definition modify_world {W : Type} (f : W -> W) : M W () := fun w => Some ((), f w).

Lemma M_bind_Some {W A B : Type} (m : M W A) (k : A -> M W B) (w w' : W) (x : A) :
  m w = Some (x, w') -> (m ≫= k) w = k x w'.
Proof. unfold mbind, M_bind. by intros ->. Qed.

Lemma M_bind_assoc {W A B C : Type} (m : M W A) (k : A -> M W B) (h : B -> M W C) (w : W) :
  ((m ≫= k) ≫= h) w = (m ≫= (fun x => k x ≫= h)) w.
Proof. unfold mbind, M_bind. by destruct (m w) as [[]|]. Qed.

Lemma M_bind_ext {W A B : Type} (m : M W A) (k1 k2 : A -> M W B) (w : W) :
  (forall x w', k1 x w' = k2 x w') -> (m ≫= k1) w = (m ≫= k2) w.
Proof. intros E. unfold mbind, M_bind. by destruct (m w) as [[]|]. Qed.

Lemma M_ret_bind {W A B : Type} (x : A) (k : A -> M W B) (w : W) :
  ((mret x : M W A) ≫= k) w = k x w.
Proof. done. Qed.

Lemma M_bind_inv {W A B : Type} (m : M W A) (k : A -> M W B) (w w' : W) (y : B) :
  (m ≫= k) w = Some (y, w') ->
  exists x w1, m w = Some (x, w1) /\ k x w1 = Some (y, w').
Proof. unfold mbind, M_bind. destruct (m w) as [[x w1]|]; [eauto|done]. Qed.

(** ** Loops

    [for_from n i body s] is [for (k = i; k < i + n; k++) s = body(k, s)];
    [while_fuel] and [while_M] are [while] loops with fuel. *)

Fixpoint for_from {S : Type} (n : nat) (i : Z) (body : Z -> S -> S) (s : S) : S :=
  match n with
  | O => s
  | Datatypes.S n' => for_from n' (i + 1) body (body i s)
  end.

Definition for_upto {S : Type} (n : Z) (body : Z -> S -> S) (s : S) : S :=
  for_from (Z.to_nat n) 0 body s.

Fixpoint while_fuel {S : Type} (fuel : nat) (cond : S -> bool) (body : S -> S) (s : S)
  : option S :=
  match fuel with
  | O => None
  | Datatypes.S f => if cond s then while_fuel f cond body (body s) else Some s
  end.

Fixpoint while_M {W S : Type} (fuel : nat) (cond : S -> M W bool) (body : S -> M W S)
    (s : S) : M W S :=
  match fuel with
  | O => fun _ => None
  | Datatypes.S f =>
      b ← cond s;
      if b : bool then (s' ← body s; while_M f cond body s') else mret s
  end.

(** [for (k = i; k < i + n; k++) body(k)]. *)
Fixpoint for_M {W : Type} (n : nat) (i : Z) (body : Z -> M W ()) : M W () :=
  match n with
  | O => mret ()
  | Datatypes.S n' => body i ≫= fun _ => for_M n' (i + 1) body
  end.

(** The same with loop-carried data. *)
Fixpoint for_MS {W S : Type} (n : nat) (i : Z) (body : Z -> S -> M W S) (s : S) : M W S :=
  match n with
  | O => mret s
  | Datatypes.S n' => body i s ≫= fun s' => for_MS n' (i + 1) body s'
  end.

Lemma for_MS_inv {W S : Type} (I : Z -> S -> W -> Prop) (n : nat) (i : Z)
    (body : Z -> S -> M W S) (s : S) (w : W) :
  I i s w ->
  (forall j t v, i <= j < i + Z.of_nat n -> I j t v ->
     exists t' v', body j t v = Some (t', v') /\ I (j + 1) t' v') ->
  exists s' w', for_MS n i body s w = Some (s', w') /\ I (i + Z.of_nat n) s' w'.
Proof.
  revert i s w. induction n as [|n IH]; intros i s w H0 Hstep; cbn [for_MS].
  - exists s, w. by rewrite Z.add_0_r.
  - destruct (Hstep i s w) as (t' & v' & Hb & HI); [lia|done|].
    rewrite (M_bind_Some _ _ _ _ _ Hb).
    replace (i + Z.of_nat (Datatypes.S n)) with (i + 1 + Z.of_nat n) by lia.
    apply IH; [done|]. intros j t v Hj. apply Hstep. lia.
Qed.

Lemma for_M_inv {W : Type} (I : Z -> W -> Prop) (n : nat) (i : Z)
    (body : Z -> M W ()) (w : W) :
  I i w ->
  (forall j v, i <= j < i + Z.of_nat n -> I j v ->
     exists v', body j v = Some ((), v') /\ I (j + 1) v') ->
  exists w', for_M n i body w = Some ((), w') /\ I (i + Z.of_nat n) w'.
Proof.
  revert i w. induction n as [|n IH]; intros i w H0 Hstep; cbn [for_M].
  - exists w. by rewrite Z.add_0_r.
  - destruct (Hstep i w) as (v' & Hb & HI); [lia|done|].
    rewrite (M_bind_Some _ _ _ _ _ Hb).
    replace (i + Z.of_nat (Datatypes.S n)) with (i + 1 + Z.of_nat n) by lia.
    apply IH; [done|]. intros j v Hj. apply Hstep. lia.
Qed.

Lemma for_from_inv {S : Type} (I : Z -> S -> Prop) (n : nat) (i : Z)
    (body : Z -> S -> S) (s : S) :
  I i s ->
  (forall j t, i <= j < i + Z.of_nat n -> I j t -> I (j + 1) (body j t)) ->
  I (i + Z.of_nat n) (for_from n i body s).
Proof.
  revert i s. induction n as [|n IH]; intros i s H0 Hstep; cbn.
  - by rewrite Z.add_0_r.
  - replace (i + Z.of_nat (Datatypes.S n)) with (i + 1 + Z.of_nat n) by lia.
    apply IH; [apply Hstep; [lia|done]|]. intros j t Hj. apply Hstep. lia.
Qed.

Lemma for_upto_inv {S : Type} (I : Z -> S -> Prop) (n : Z) (body : Z -> S -> S) (s : S) :
  0 <= n -> I 0 s ->
  (forall j t, 0 <= j < n -> I j t -> I (j + 1) (body j t)) ->
  I n (for_upto n body s).
Proof.
  intros Hn H0 Hstep. unfold for_upto.
  replace (I n) with (I (0 + Z.of_nat (Z.to_nat n))) by (f_equal; lia).
  apply for_from_inv; [done|]. intros j t Hj. apply Hstep. lia.
Qed.

Lemma for_from_S {S : Type} (n : nat) (i : Z) (body : Z -> S -> S) (s : S) :
  for_from (Datatypes.S n) i body s = body (i + Z.of_nat n) (for_from n i body s).
Proof.
  revert i s. induction n as [|n IH]; intros i s; [cbn; f_equal; lia|].
  change (for_from (Datatypes.S (Datatypes.S n)) i body s)
    with (for_from (Datatypes.S n) (i + 1) body (body i s)).
  rewrite IH. cbn. f_equal; lia.
Qed.

Lemma for_from_ext {S : Type} (n : nat) (i : Z) (b1 b2 : Z -> S -> S) (s : S) :
  (forall j t, i <= j < i + Z.of_nat n -> b1 j t = b2 j t) ->
  for_from n i b1 s = for_from n i b2 s.
Proof.
  revert i s. induction n as [|n IH]; intros i s E; [done|]. cbn [for_from].
  rewrite E by lia. apply IH. intros. apply E. lia.
Qed.

Lemma for_upto_ext {S : Type} (n : Z) (b1 b2 : Z -> S -> S) (s : S) :
  (forall j t, 0 <= j < n -> b1 j t = b2 j t) -> for_upto n b1 s = for_upto n b2 s.
Proof. intros E. apply for_from_ext. intros. apply E. lia. Qed.

(** Sums over [0 <= k < n]. *)
Definition zsum (n : Z) (g : Z -> Z) : Z := for_upto n (fun k s => s + g k) 0.

Lemma zsum_s32 (n : Z) (g h : Z -> Z) :
  0 <= n -> (forall k, 0 <= k < n -> h k mod 2 ^ 32 = g k mod 2 ^ 32) ->
  for_upto n (fun k s => s32 (s + h k)) 0 = s32 (zsum n g).
Proof.
  intros Hn Hg. unfold zsum.
  assert (forall k s t, 0 <= k < n -> s = s32 t -> s32 (s + h k) = s32 (t + g k)) as Hs.
  { intros k s t Hk ->. apply swrap_cong.
    by rewrite Zplus_mod, (swrap_mod 32) by lia; rewrite Hg, <-Zplus_mod. }
  unfold for_upto. set (m := Z.to_nat n).
  assert (forall d i s t, 0 <= i -> i + Z.of_nat d <= n -> s = s32 t ->
    for_from d i (fun k s => s32 (s + h k)) s = s32 (for_from d i (fun k s => s + g k) t)) as H.
  { induction d as [|d IH]; intros i s t Hi Hd E; [done|]. cbn [for_from].
    apply IH; [lia|lia|]. apply Hs; [lia|done]. }
  apply H; [lia|unfold m; lia|done].
Qed.

Lemma zsum_ext (n : Z) (g h : Z -> Z) : (forall k, 0 <= k < n -> g k = h k) -> zsum n g = zsum n h.
Proof. intros E. apply for_upto_ext. intros j t Hj. by rewrite E. Qed.

(** Total correctness of a fuelled loop: an invariant and a decreasing measure
    give a result within the fuel, on which the condition is false. *)
Lemma while_fuel_total {S : Type} (I : S -> Prop) (measure : S -> nat)
    (cond : S -> bool) (body : S -> S) (fuel : nat) (s : S) :
  I s ->
  (forall t, I t -> cond t = true -> I (body t) /\ (measure (body t) < measure t)%nat) ->
  (measure s < fuel)%nat ->
  exists s', while_fuel fuel cond body s = Some s' /\ I s' /\ cond s' = false.
Proof.
  intros Hs Hstep. revert s Hs. induction fuel as [|f IH]; intros s Hs Hf; [lia|].
  cbn. destruct (cond s) eqn:Hc; [|eauto].
  destruct (Hstep s Hs Hc) as [Hb Hm]. apply IH; [done|lia].
Qed.

Lemma while_fuel_mono {S : Type} (cond : S -> bool) (body : S -> S) (f1 f2 : nat) (s s' : S) :
  (f1 <= f2)%nat -> while_fuel f1 cond body s = Some s' ->
  while_fuel f2 cond body s = Some s'.
Proof.
  revert f2 s. induction f1 as [|f1 IH]; intros [|f2] s Hf H; [done|done|lia|].
  cbn in *. destruct (cond s); [|done]. apply IH; [lia|done].
Qed.

(** Total correctness of a monadic loop. *)
Lemma while_M_total {W S : Type} (I : S -> W -> Prop) (measure : S -> W -> nat)
    (cond : S -> M W bool) (body : S -> M W S) (Q : S -> W -> Prop) (fuel : nat)
    (s : S) (w : W) :
  I s w ->
  (forall t v, I t v -> exists b v', cond t v = Some (b, v') /\
     if b : bool
     then exists t' v'', body t v' = Some (t', v'') /\ I t' v'' /\
            (measure t' v'' < measure t v)%nat
     else Q t v') ->
  (measure s w < fuel)%nat ->
  exists s' w', while_M fuel cond body s w = Some (s', w') /\ Q s' w'.
Proof.
  intros Hs Hstep. revert s w Hs. induction fuel as [|f IH]; intros s w Hs Hf; [lia|].
  destruct (Hstep s w Hs) as (b & v' & Hc & Hb). cbn.
  rewrite (M_bind_Some _ _ _ _ _ Hc). destruct b.
  - destruct Hb as (t' & v'' & Hbody & HI & Hm).
    rewrite (M_bind_Some _ _ _ _ _ Hbody). apply IH; [done|lia].
  - exists s, v'. done.
Qed.

(** ** Byte-addressed memories

    A memory is a total function from byte addresses to bytes; two memories
    are compared pointwise, with [mem_equiv] on a set of addresses. *)

Definition mem : Type := Z -> Z.

(** Functional update of a total [Z]-indexed array. *)
Definition fupd {A : Type} (f : Z -> A) (k : Z) (v : A) : Z -> A :=
  fun j => if j =? k then v else f j.

Lemma fupd_eq {A : Type} (f : Z -> A) (k : Z) (v : A) : fupd f k v k = v.
Proof. unfold fupd. by rewrite Z.eqb_refl. Qed.

Lemma fupd_ne {A : Type} (f : Z -> A) (j k : Z) (v : A) : k <> j -> fupd f k v j = f j.
Proof. unfold fupd. intros. destruct (Z.eqb_spec j k); congruence. Qed.

Definition mem_equiv (P : Z -> Prop) (m1 m2 : mem) : Prop := forall a, P a -> m1 a = m2 a.

#[export] Instance mem_equiv_equivalence (P : Z -> Prop) : Equivalence (mem_equiv P).
Proof.
  split; unfold mem_equiv.
  - done.
  - intros ?? H a Ha. symmetry. auto.
  - intros ??? H1 H2 a Ha. rewrite H1 by done. auto.
Qed.

#[export] Instance fupd_proper (P : Z -> Prop) :
  Proper (mem_equiv P ==> eq ==> eq ==> mem_equiv P) (@fupd Z).
Proof. intros m1 m2 Hm ? a -> ? v -> b Hb. unfold fupd. by rewrite (Hm b Hb). Qed.

#[export] Hint Rewrite @fupd_eq : soc.

(** ** Arrays

    A C array is a list; [aget] and [aset] index it with a C integer.  Out of
    range (undefined behaviour in C) [aget] gives [0] and [aset] does nothing;
    the theorems about array code show the indices in range. *)

Definition alen {A : Type} (l : list A) : Z := Z.of_nat (length l).
Definition aget (l : list Z) (i : Z) : Z := if i <? 0 then 0 else nth (Z.to_nat i) l 0.
Definition aset (l : list Z) (i v : Z) : list Z :=
  if i <? 0 then l else <[Z.to_nat i := v]> l.

Lemma alen_app {A : Type} (l1 l2 : list A) : alen (l1 ++ l2) = alen l1 + alen l2.
Proof. unfold alen. rewrite length_app. lia. Qed.

Lemma alen_cons {A : Type} (c : A) (l : list A) : alen (c :: l) = alen l + 1.
Proof. unfold alen. cbn [length]. lia. Qed.

Lemma alen_snoc {A : Type} (l : list A) (c : A) : alen (l ++ [c]) = alen l + 1.
Proof. unfold alen. rewrite length_app. cbn [length]. lia. Qed.

Lemma alen_nonneg {A : Type} (l : list A) : 0 <= alen l.
Proof. unfold alen. lia. Qed.

Lemma alen_repeat (c : Z) (j : nat) : alen (repeat c j) = Z.of_nat j.
Proof. unfold alen. by rewrite repeat_length. Qed.

Lemma alen_aset (l : list Z) (i v : Z) : alen (aset l i v) = alen l.
Proof. unfold alen, aset. by destruct (i <? 0); rewrite ?length_insert. Qed.

Lemma aget_nth (l : list Z) (n : nat) : aget l (Z.of_nat n) = nth n l 0.
Proof. unfold aget. destruct (Z.ltb_spec (Z.of_nat n) 0); [lia|]. by rewrite Nat2Z.id. Qed.

Lemma aget_aset_eq (l : list Z) (i v : Z) : 0 <= i < alen l -> aget (aset l i v) i = v.
Proof.
  unfold alen, aget, aset. intros Hi. destruct (Z.ltb_spec i 0); [lia|].
  rewrite nth_lookup, list_lookup_insert_eq by lia. done.
Qed.

Lemma aget_aset_ne (l : list Z) (i j v : Z) : i <> j -> aget (aset l i v) j = aget l j.
Proof.
  unfold aget, aset. intros Hi. destruct (Z.ltb_spec j 0), (Z.ltb_spec i 0); try done.
  by rewrite !nth_lookup, list_lookup_insert_ne by lia.
Qed.

Lemma aget_aset (l : list Z) (i j v : Z) :
  0 <= i < alen l -> aget (aset l i v) j = if j =? i then v else aget l j.
Proof.
  intros. destruct (Z.eqb_spec j i) as [->|]; [by apply aget_aset_eq|].
  by apply aget_aset_ne.
Qed.

Lemma aset_aset (l : list Z) (i u v : Z) : aset (aset l i u) i v = aset l i v.
Proof. unfold aset. destruct (i <? 0); [done|]. apply list_insert_insert_eq. Qed.

Lemma aget_ext (l1 l2 : list Z) :
  alen l1 = alen l2 -> (forall i, 0 <= i < alen l1 -> aget l1 i = aget l2 i) -> l1 = l2.
Proof.
  unfold alen. intros Hl Hg. apply (nth_ext _ _ 0 0); [lia|]. intros n Hn.
  rewrite <-!aget_nth. apply Hg. lia.
Qed.

Lemma aset_aget (l : list Z) (i : Z) : 0 <= i < alen l -> aset l i (aget l i) = l.
Proof.
  intros Hi. apply aget_ext; [apply alen_aset|]. intros j _. rewrite aget_aset by done.
  by destruct (Z.eqb_spec j i) as [->|].
Qed.

Lemma aget_elem (l : list Z) (i : Z) : 0 <= i < alen l -> aget l i ∈ l.
Proof.
  unfold alen, aget. intros Hi. destruct (Z.ltb_spec i 0); [lia|].
  apply list_elem_of_In, nth_In. lia.
Qed.

(** The array [f 0, ..., f (n - 1)]. *)
Definition tabulate (n : Z) (f : Z -> Z) : list Z := f <$> seqZ 0 n.

Lemma alen_tabulate (n : Z) (f : Z -> Z) : 0 <= n -> alen (tabulate n f) = n.
Proof. unfold alen, tabulate. intros. rewrite length_fmap, length_seqZ. lia. Qed.

Lemma aget_tabulate (n i : Z) (f : Z -> Z) : 0 <= i < n -> aget (tabulate n f) i = f i.
Proof.
  intros Hi. unfold aget, tabulate. destruct (Z.ltb_spec i 0); [lia|].
  rewrite nth_lookup, list_lookup_fmap, lookup_seqZ_lt by lia. cbn. f_equal; lia.
Qed.

(** Bounds-checked reads and writes. *)
Definition aread (l : list Z) (i : Z) : option Z :=
  if (0 <=? i) && (i <? alen l) then Some (aget l i) else None.
Definition awrite (l : list Z) (i v : Z) : option (list Z) :=
  if (0 <=? i) && (i <? alen l) then Some (aset l i v) else None.

Lemma aread_Some (l : list Z) (i : Z) : 0 <= i < alen l -> aread l i = Some (aget l i).
Proof. unfold aread. zbool; cbn; (done || lia). Qed.

Lemma awrite_Some (l : list Z) (i v : Z) : 0 <= i < alen l -> awrite l i v = Some (aset l i v).
Proof. unfold awrite. zbool; cbn; (done || lia). Qed.

#[export] Hint Rewrite alen_aset : soc.
