(* ===== verification/Bits.v ===== *)
(** * Bit fields of hardware words

    Verilog's part selects and concatenations on [Z]: [bits hi lo w] is
    [w[hi:lo]], [cat] is [{..., ...}] most significant part first, [rep] the
    replication [{n{b}}].  The lemmas read a concatenation bit by bit and
    relate replicated sign bits to [swrap]. *)

From S2P Require Import Prelude.

(** The low [n] bits, by masking: [uwrap] in a form that evaluates faster. *)
Definition low (n w : Z) : Z := w .& Z.ones n.

Definition bits (hi lo w : Z) : Z := low (hi - lo + 1) (w .>> lo).
Definition bit (n w : Z) : bool := Z.testbit w n.

(** A part of a concatenation: its width and value. *)
Definition part : Type := Z * Z.
Definition field (hi lo w : Z) : part := (hi - lo + 1, bits hi lo w).
Definition lit (n v : Z) : part := (n, v).
Definition one_bit (n w : Z) : part := (1, Z.b2z (bit n w)).
Definition rep (n : Z) (b : bool) : part := (n, if b then Z.ones n else 0).

(** [{p1, p2, ...}]: each part is shifted in from the right. *)
Definition cat (l : list part) : Z :=
  fold_left (fun acc p => (acc .<< p.1) .| low p.1 p.2) l 0.

Lemma low_uwrap (n w : Z) : 0 <= n -> low n w = uwrap n w.
Proof. intros. unfold low, uwrap. by apply Z.land_ones. Qed.

Lemma low_testbit (n w i : Z) : 0 <= n -> Z.testbit (low n w) i = (i <? n) && Z.testbit w i.
Proof. intros. rewrite low_uwrap by done. by apply uwrap_testbit. Qed.

Lemma bits_range (hi lo w : Z) : lo <= hi + 1 -> is_uint (hi - lo + 1) (bits hi lo w).
Proof. intros. unfold bits. rewrite low_uwrap by lia. apply uwrap_range. lia. Qed.

Lemma bits_testbit (hi lo w i : Z) :
  0 <= i -> lo <= hi -> Z.testbit (bits hi lo w) i = (i <=? hi - lo) && Z.testbit w (i + lo).
Proof.
  intros. unfold bits. rewrite low_testbit by lia. rewrite Z.shiftr_spec by lia.
  by destruct (Z.ltb_spec i (hi - lo + 1)), (Z.leb_spec i (hi - lo)); try lia.
Qed.

Lemma bits_arith (hi lo w : Z) :
  0 <= lo <= hi + 1 -> bits hi lo w = w / 2 ^ lo mod 2 ^ (hi - lo + 1).
Proof. intros. unfold bits. rewrite low_uwrap by lia. unfold uwrap. by rewrite Z.shiftr_div_pow2 by lia. Qed.

(** A part select of a part select. *)
Lemma bits_bits (h l h' l' w : Z) :
  0 <= l -> 0 <= l' -> l' <= h' -> h' <= h - l -> bits h' l' (bits h l w) = bits (h' + l) (l' + l) w.
Proof.
  intros. apply Z.bits_inj'. intros i Hi. rewrite !bits_testbit by lia.
  replace (h' + l - (l' + l)) with (h' - l') by lia.
  destruct (Z.leb_spec i (h' - l')), (Z.leb_spec (i + l') (h - l)); cbn; try lia; try done.
  f_equal; lia.
Qed.

Lemma bit_bits (n h l w : Z) : 0 <= n <= h - l -> 0 <= l -> bit n (bits h l w) = bit (n + l) w.
Proof. intros. unfold bit. rewrite bits_testbit by lia. by destruct (Z.leb_spec n (h - l)); [|lia]. Qed.

Lemma bits_small (hi w : Z) : 0 <= hi -> is_uint (hi + 1) w -> bits hi 0 w = w.
Proof.
  intros ? Hw. unfold bits. rewrite Z.shiftr_0_r, low_uwrap by lia.
  apply uwrap_id. by replace (hi - 0 + 1) with (hi + 1) by lia.
Qed.

(** ** Sign extension *)

Lemma swrap_testbit (w z i : Z) :
  0 < w -> 0 <= i -> Z.testbit (swrap w z) i = Z.testbit z (if i <? w then i else w - 1).
Proof.
  intros Hw Hi. unfold swrap.
  assert (Hd : forall b : bool, Z.testbit z (w - 1) = b ->
    (z + 2 ^ (w - 1)) mod 2 ^ w - 2 ^ (w - 1) = uwrap (w - 1) z - Z.b2z b * 2 ^ (w - 1)).
  { intros b Hb. unfold uwrap. pose proof (pow2_half w Hw) as Hp.
    pose proof (Z.pow_pos_nonneg 2 (w - 1) ltac:(lia) ltac:(lia)) as Hq.
    assert (z mod 2 ^ w = z mod 2 ^ (w - 1) + Z.b2z b * 2 ^ (w - 1)) as Ez.
    { rewrite Hp, (Z.mul_comm 2), Z.rem_mul_r by lia.
      rewrite <-Hb, Z.testbit_spec' by lia. lia. }
    rewrite <-(Zplus_mod_idemp_l z), Ez.
    pose proof (Z.mod_pos_bound z (2 ^ (w - 1)) Hq). destruct b; cbn [Z.b2z].
    - replace (z mod 2 ^ (w - 1) + 1 * 2 ^ (w - 1) + 2 ^ (w - 1))
        with (z mod 2 ^ (w - 1) + 1 * 2 ^ w) by lia.
      rewrite Z.mod_add, Z.mod_small by lia. lia.
    - rewrite Z.mod_small by lia. lia. }
  rewrite (Hd _ eq_refl). destruct (Z.testbit z (w - 1)) eqn:Hb; cbn [Z.b2z].
  - rewrite Z.mul_1_l.
    assert (uwrap (w - 1) z - 2 ^ (w - 1) = Z.lnot (Z.lxor (Z.ones (w - 1)) (uwrap (w - 1) z))) as ->.
    { assert (Z.lxor (Z.ones (w - 1)) (uwrap (w - 1) z) = Z.ones (w - 1) - uwrap (w - 1) z) as ->.
      { rewrite (Z.sub_nocarry_ldiff (Z.ones (w - 1)) (uwrap (w - 1) z)).
        - bitwise j Hj. rewrite Z.ldiff_spec, uwrap_testbit by lia.
          destruct (Z.ltb_spec j (w - 1)).
          + rewrite Z.ones_spec_low by lia. by destruct (Z.testbit z j).
          + by rewrite Z.ones_spec_high by lia.
        - bitwise j Hj. rewrite Z.ldiff_spec, uwrap_testbit by lia.
          destruct (Z.ltb_spec j (w - 1)); cbn; [|done]. rewrite Z.ones_spec_low by lia.
          by rewrite andb_false_r. }
      rewrite Z.ones_equiv. unfold Z.lnot. lia. }
    rewrite Z.lnot_spec, Z.lxor_spec, uwrap_testbit by lia.
    destruct (Z.ltb_spec i (w - 1)); cbn.
    + rewrite Z.ones_spec_low by lia. rewrite (proj2 (Z.ltb_lt i w)) by lia.
      by destruct (Z.testbit z i).
    + rewrite Z.ones_spec_high by lia. destruct (Z.ltb_spec i w); [|by rewrite Hb].
      replace i with (w - 1) by lia. by rewrite Hb.
  - rewrite Z.mul_0_l, Z.sub_0_r, uwrap_testbit by lia.
    destruct (Z.ltb_spec i (w - 1)); cbn.
    + by rewrite (proj2 (Z.ltb_lt i w)) by lia.
    + destruct (Z.ltb_spec i w); [|by rewrite Hb]. replace i with (w - 1) by lia. by rewrite Hb.
Qed.

(** ** Reading a concatenation *)

Lemma cat_app (l l' : list part) :
  cat (l ++ l') = fold_left (fun acc p => (acc .<< p.1) .| low p.1 p.2) l' (cat l).
Proof. apply fold_left_app. Qed.

Lemma cat_snoc (l : list part) (p : part) : cat (l ++ [p]) = (cat l .<< p.1) .| low p.1 p.2.
Proof. by rewrite cat_app. Qed.

(** The bits of [acc] shifted left by a part, and of the part itself. *)
Lemma shift_in_testbit (acc n v i : Z) :
  0 <= n -> 0 <= i ->
  Z.testbit ((acc .<< n) .| low n v) i = if i <? n then Z.testbit v i else Z.testbit acc (i - n).
Proof.
  intros. rewrite Z.lor_spec, Z.shiftl_spec, low_testbit by lia.
  destruct (Z.ltb_spec i n); cbn; [|by rewrite orb_false_r].
  by rewrite Z.testbit_neg_r by lia.
Qed.

Lemma shift_in_range (m acc n v : Z) :
  0 <= n -> 0 <= m -> is_uint m acc -> is_uint (m + n) ((acc .<< n) .| low n v).
Proof.
  intros Hn Hm Ha. apply uint_of_testbit; [lia|]. intros i Hi.
  rewrite shift_in_testbit by lia. rewrite (proj2 (Z.ltb_ge i n)) by lia.
  apply (uint_testbit_high m); [done|lia].
Qed.

(** The width of a concatenation. *)
Definition width (l : list part) : Z := fold_left (fun acc p => acc + p.1) l 0.

Lemma width_nonneg (l : list part) (acc : Z) :
  Forall (fun p => 0 <= p.1) l -> 0 <= acc -> 0 <= fold_left (fun a p => a + p.1) l acc.
Proof. induction 1 in acc |- *; intros; cbn; [done|]. apply IHForall. lia. Qed.

Lemma cat_range_from (l : list part) (m acc : Z) :
  Forall (fun p => 0 <= p.1) l -> 0 <= m -> is_uint m acc ->
  is_uint (fold_left (fun a p => a + p.1) l m)
    (fold_left (fun acc p => (acc .<< p.1) .| low p.1 p.2) l acc).
Proof.
  induction 1 in m, acc |- *; intros Hm Ha; cbn; [done|].
  apply IHForall; [lia|]. by apply shift_in_range.
Qed.

Lemma cat_range (l : list part) : Forall (fun p => 0 <= p.1) l -> is_uint (width l) (cat l).
Proof. intros. apply cat_range_from; [done|lia|]. by split. Qed.

(** [rep_testbit] reads a replicated bit. *)
Lemma rep_testbit (n i : Z) (b : bool) :
  0 <= i -> Z.testbit (if b then Z.ones n else 0) i = b && Z.testbit (Z.ones n) i.
Proof. intros. destruct b; [done|]. by rewrite Z.bits_0. Qed.

Lemma b2z_testbit (b : bool) (i : Z) : 0 <= i -> Z.testbit (Z.b2z b) i = b && (i =? 0).
Proof.
  intros. destruct b; cbn [Z.b2z andb]; [|by rewrite Z.bits_0].
  destruct (Z.eqb_spec i 0); [by subst|]. apply (Z.pow2_bits_false 0). lia.
Qed.

Lemma ones_testbit (n i : Z) : 0 <= n -> 0 <= i -> Z.testbit (Z.ones n) i = (i <? n).
Proof.
  intros. destruct (Z.ltb_spec i n); [by apply Z.ones_spec_low|by apply Z.ones_spec_high].
Qed.

(** Two [w]-bit values with the same bits are equal. *)
Lemma uint_eq_bits (w x y : Z) :
  0 <= w -> is_uint w x -> is_uint w y ->
  (forall i, 0 <= i < w -> Z.testbit x i = Z.testbit y i) -> x = y.
Proof.
  intros Hw Hx Hy H. apply Z.bits_inj'. intros i Hi.
  destruct (Z.lt_ge_cases i w); [by apply H|].
  by rewrite (uint_testbit_high w x i), (uint_testbit_high w y i).
Qed.

(** ** Concatenations as sums *)

Lemma shift_in_arith (acc n v : Z) :
  0 <= n -> (acc .<< n) .| low n v = acc * 2 ^ n + v mod 2 ^ n.
Proof.
  intros. rewrite shiftl_lor_add; [|done|rewrite low_uwrap by done; by apply uwrap_range].
  by rewrite low_uwrap.
Qed.

Lemma bits_split (h m l w : Z) :
  0 <= l -> l < m -> m <= h -> bits h l w = bits h m w * 2 ^ (m - l) + bits (m - 1) l w.
Proof.
  intros. assert (is_uint (m - l) (bits (m - 1) l w)) as Hr.
  { replace (m - l) with (m - 1 - l + 1) by lia. apply bits_range. lia. }
  rewrite <-shiftl_lor_add by (lia || done).
  apply Z.bits_inj'. intros i Hi.
  rewrite Z.lor_spec, Z.shiftl_spec, (bits_testbit h l), (bits_testbit (m - 1) l) by lia.
  destruct (Z.lt_ge_cases i (m - l)).
  - rewrite (Z.testbit_neg_r _ (i - (m - l))) by lia. cbn.
    destruct (Z.leb_spec i (h - l)), (Z.leb_spec i (m - 1 - l)); try lia; done.
  - rewrite bits_testbit by lia. replace (i - (m - l) + m) with (i + l) by lia.
    destruct (Z.leb_spec i (h - l)), (Z.leb_spec i (m - 1 - l)), (Z.leb_spec (i - (m - l)) (h - m));
      try lia; cbn; by rewrite ?orb_false_r.
Qed.

Lemma bits_bit (n w : Z) : 0 <= n -> bits n n w = Z.b2z (bit n w).
Proof.
  intros. apply Z.bits_inj'. intros i Hi. rewrite bits_testbit, b2z_testbit by lia.
  unfold bit. destruct (Z.leb_spec i (n - n)), (Z.eqb_spec i 0); try lia; cbn;
    rewrite ?andb_false_r, ?andb_true_r; subst; done.
Qed.

(** [cat_arith] turns concatenations in the goal into sums. *)
Ltac cat_arith :=
  unfold cat, field, one_bit, lit, rep; cbn [fold_left fst snd];
  repeat rewrite shift_in_arith by lia.

(** [bits_known h l w] adds the range of a part select. *)
Ltac bits_known h l w :=
  let H := fresh "Hr" in
  pose proof (bits_range h l w ltac:(lia)) as H; unfold is_uint in H;
  let n := eval cbv in (2 ^ (h - l + 1)) in change (2 ^ (h - l + 1)) with n in H.

(** [eval_pow2] evaluates the closed powers of two of the goal. *)
Ltac eval_pow2 :=
  repeat match goal with |- context [2 ^ ?e] =>
    let v := eval vm_compute in (2 ^ e) in
    lazymatch v with Zpos _ => change (2 ^ e) with v end
  end.

(** The top bit of an [n]-bit value. *)
Lemma bit_top (n x : Z) : 0 < n -> is_uint n x -> bit (n - 1) x = (2 ^ (n - 1) <=? x).
Proof.
  intros Hn Hx. unfold bit. unfold is_uint in Hx.
  rewrite (pow2_half n Hn) in Hx. pose proof (Z.pow_pos_nonneg 2 (n - 1) ltac:(lia) ltac:(lia)).
  rewrite Z.testbit_odd, Z.shiftr_div_pow2 by lia. destruct (Z.leb_spec (2 ^ (n - 1)) x).
  - assert (x / 2 ^ (n - 1) = 1) as -> by (symmetry; apply (Z.div_unique _ _ _ (x - 2 ^ (n - 1))); lia). done.
  - rewrite Z.div_small by lia. done.
Qed.
