(* ===== verification/Rv32.v ===== *)
(** * The architecture the core implements

    An executable specification, independent of the RTL: RV32IMA with Zba,
    the C encodings and Zicsr, as the instruction set manual describes them,
    and the machine-mode subset that [src/src/csr_file.v] and
    [src/src/trap_controller.v] document (six CSRs, direct [mtvec], [mepc] the
    address of the trapping instruction).  One instruction or one interrupt is
    one step; the answer of a device and the interrupt lines are inputs of the
    step, accesses to devices its output. *)

From S2P Require Import Prelude Bits.

(** ** Instructions *)

Inductive alu_op : Type :=
  ADD | SUB | SLL | SLT | SLTU | XOR | SRL | SRA | OR | AND |
  MUL | MULH | MULHSU | MULHU | DIV | DIVU | REM | REMU | SH1ADD | SH2ADD | SH3ADD.
Inductive branch_op : Type := BEQ | BNE | BLT | BGE | BLTU | BGEU.
Inductive load_op : Type := LB | LH | LW | LBU | LHU.
Inductive store_op : Type := SB | SH | SW.
Inductive amo_op : Type :=
  SWAP | AADD | AXOR | AAND | AOR | AMIN | AMAX | AMINU | AMAXU.
Inductive csr_op : Type := CSRRW | CSRRS | CSRRC.
(** The source of a CSR instruction: a register or a five-bit constant. *)
Inductive csr_src : Type := FromReg (rs1 : Z) | FromImm (uimm : Z).

Inductive instr : Type :=
  | Op (o : alu_op) (rd rs1 rs2 : Z)
  | OpImm (o : alu_op) (rd rs1 imm : Z)
  | Lui (rd imm : Z)
  | Auipc (rd imm : Z)
  | Jal (rd imm : Z)
  | Jalr (rd rs1 imm : Z)
  | Branch (o : branch_op) (rs1 rs2 imm : Z)
  | Load (o : load_op) (rd rs1 imm : Z)
  | Store (o : store_op) (rs1 rs2 imm : Z)
  | Lr (rd rs1 : Z)
  | Sc (rd rs1 rs2 : Z)
  | Amo (o : amo_op) (rd rs1 rs2 : Z)
  | Csr (o : csr_op) (rd csr : Z) (src : csr_src)
  | Ecall
  | Mret
  | Nop.

#[export] Instance alu_op_eq : EqDecision alu_op.
Proof. solve_decision. Defined.
#[export] Instance branch_op_eq : EqDecision branch_op.
Proof. solve_decision. Defined.
#[export] Instance load_op_eq : EqDecision load_op.
Proof. solve_decision. Defined.
#[export] Instance store_op_eq : EqDecision store_op.
Proof. solve_decision. Defined.
#[export] Instance amo_op_eq : EqDecision amo_op.
Proof. solve_decision. Defined.
#[export] Instance csr_op_eq : EqDecision csr_op.
Proof. solve_decision. Defined.
#[export] Instance csr_src_eq : EqDecision csr_src.
Proof. solve_decision. Defined.
#[export] Instance instr_eq : EqDecision instr.
Proof. solve_decision. Defined.

(** ** Decoding a 32-bit instruction *)

Definition opcode (w : Z) : Z := bits 6 0 w.
Definition rd_of (w : Z) : Z := bits 11 7 w.
Definition funct3 (w : Z) : Z := bits 14 12 w.
Definition rs1_of (w : Z) : Z := bits 19 15 w.
Definition rs2_of (w : Z) : Z := bits 24 20 w.
Definition funct7 (w : Z) : Z := bits 31 25 w.

(** The immediates of the six formats, as signed numbers. *)
Definition imm_i (w : Z) : Z := swrap 12 (bits 31 20 w).
Definition imm_s (w : Z) : Z := swrap 12 (cat [field 31 25 w; field 11 7 w]).
Definition imm_b (w : Z) : Z :=
  swrap 13 (cat [field 31 31 w; field 7 7 w; field 30 25 w; field 11 8 w; lit 1 0]).
Definition imm_u (w : Z) : Z := bits 31 12 w * 2 ^ 12.
Definition imm_j (w : Z) : Z :=
  swrap 21 (cat [field 31 31 w; field 19 12 w; field 20 20 w; field 30 21 w; lit 1 0]).

Definition decode_op (f3 f7 : Z) : option alu_op :=
  if f7 =? 0 then
    nth_error [ADD; SLL; SLT; SLTU; XOR; SRL; OR; AND] (Z.to_nat f3)
  else if f7 =? 1 then
    nth_error [MUL; MULH; MULHSU; MULHU; DIV; DIVU; REM; REMU] (Z.to_nat f3)
  else if f7 =? 32 then
    if f3 =? 0 then Some SUB else if f3 =? 5 then Some SRA else None
  else if f7 =? 16 then
    if f3 =? 2 then Some SH1ADD else if f3 =? 4 then Some SH2ADD
    else if f3 =? 6 then Some SH3ADD else None
  else None.

Definition decode_op_imm (f3 f7 : Z) : option alu_op :=
  if f3 =? 1 then if f7 =? 0 then Some SLL else None
  else if f3 =? 5 then
    if f7 =? 0 then Some SRL else if f7 =? 32 then Some SRA else None
  else nth_error [ADD; SLL; SLT; SLTU; XOR; SRL; OR; AND] (Z.to_nat f3).

Definition decode_branch (f3 : Z) : option branch_op :=
  nth_error [Some BEQ; Some BNE; None; None; Some BLT; Some BGE; Some BLTU; Some BGEU]
    (Z.to_nat f3) ≫= id.

Definition decode_load (f3 : Z) : option load_op :=
  nth_error [Some LB; Some LH; Some LW; None; Some LBU; Some LHU] (Z.to_nat f3) ≫= id.

Definition decode_store (f3 : Z) : option store_op := nth_error [SB; SH; SW] (Z.to_nat f3).

Definition decode_amo (f5 : Z) : option amo_op :=
  if f5 =? 1 then Some SWAP else if f5 =? 0 then Some AADD else if f5 =? 4 then Some AXOR
  else if f5 =? 12 then Some AAND else if f5 =? 8 then Some AOR
  else if f5 =? 16 then Some AMIN else if f5 =? 20 then Some AMAX
  else if f5 =? 24 then Some AMINU else if f5 =? 28 then Some AMAXU else None.

Definition decode_csr (f3 : Z) (w : Z) : option (csr_op * csr_src) :=
  if f3 =? 1 then Some (CSRRW, FromReg (rs1_of w))
  else if f3 =? 2 then Some (CSRRS, FromReg (rs1_of w))
  else if f3 =? 3 then Some (CSRRC, FromReg (rs1_of w))
  else if f3 =? 5 then Some (CSRRW, FromImm (rs1_of w))
  else if f3 =? 6 then Some (CSRRS, FromImm (rs1_of w))
  else if f3 =? 7 then Some (CSRRC, FromImm (rs1_of w))
  else None.

(** SYSTEM: [wfi] may complete at once.  [ebreak] and the CSR numbers of
    absent extensions ([ustatus], [medeleg]) are not instructions of this
    architecture. *)
Definition decode_system (w : Z) : option instr :=
  if funct3 w =? 0 then
    if (rd_of w =? 0) && (rs1_of w =? 0) then
      if bits 31 20 w =? 0 then Some Ecall
      else if bits 31 20 w =? 0x302 then Some Mret
      else if bits 31 20 w =? 0x105 then Some Nop
      else None
    else None
  else if (bits 31 20 w =? 0) || (bits 31 20 w =? 0x302) then None
  else p ← decode_csr (funct3 w) w; Some (Csr p.1 (rd_of w) (bits 31 20 w) p.2).

(** Atomics: [aq] and [rl] order accesses of other harts and have no effect. *)
Definition decode_atomic (w : Z) : option instr :=
  if negb (funct3 w =? 2) then None
  else if bits 31 27 w =? 2 then
    if rs2_of w =? 0 then Some (Lr (rd_of w) (rs1_of w)) else None
  else if bits 31 27 w =? 3 then Some (Sc (rd_of w) (rs1_of w) (rs2_of w))
  else o ← decode_amo (bits 31 27 w); Some (Amo o (rd_of w) (rs1_of w) (rs2_of w)).

Definition decode (w : Z) : option instr :=
  let opc := opcode w in
  if opc =? 0x33 then
    o ← decode_op (funct3 w) (funct7 w); Some (Op o (rd_of w) (rs1_of w) (rs2_of w))
  else if opc =? 0x13 then
    o ← decode_op_imm (funct3 w) (funct7 w);
    Some (OpImm o (rd_of w) (rs1_of w)
            (match o with SLL | SRL | SRA => rs2_of w | _ => imm_i w end))
  else if opc =? 0x03 then
    o ← decode_load (funct3 w); Some (Load o (rd_of w) (rs1_of w) (imm_i w))
  else if opc =? 0x23 then
    o ← decode_store (funct3 w); Some (Store o (rs1_of w) (rs2_of w) (imm_s w))
  else if opc =? 0x63 then
    o ← decode_branch (funct3 w); Some (Branch o (rs1_of w) (rs2_of w) (imm_b w))
  else if opc =? 0x37 then Some (Lui (rd_of w) (imm_u w))
  else if opc =? 0x17 then Some (Auipc (rd_of w) (imm_u w))
  else if opc =? 0x6f then Some (Jal (rd_of w) (imm_j w))
  else if opc =? 0x67 then
    if funct3 w =? 0 then Some (Jalr (rd_of w) (rs1_of w) (imm_i w)) else None
  else if opc =? 0x2f then decode_atomic w
  else if opc =? 0x73 then decode_system w
  else if opc =? 0x0f then
    if (funct3 w <=? 1) && (rd_of w =? 0) then Some Nop else None
  else None.

(** ** Decoding a 16-bit instruction

    From the tables of the C extension: the register fields, the scattered
    immediates, and the encodings that are reserved on RV32. *)
Section Compressed.
Variable w : Z.

Definition c_rd : Z := bits 11 7 w.
Definition c_rs2 : Z := bits 6 2 w.
Definition c_rs1' : Z := 8 + bits 9 7 w.
Definition c_rs2' : Z := 8 + bits 4 2 w.

Definition c_imm6 : Z := swrap 6 (bits 12 12 w * 2 ^ 5 + bits 6 2 w).
Definition c_addi4spn_imm : Z :=
  bits 12 11 w * 2 ^ 4 + bits 10 7 w * 2 ^ 6 + bits 6 6 w * 2 ^ 2 + bits 5 5 w * 2 ^ 3.
Definition c_lw_imm : Z := bits 12 10 w * 2 ^ 3 + bits 6 6 w * 2 ^ 2 + bits 5 5 w * 2 ^ 6.
Definition c_lwsp_imm : Z := bits 12 12 w * 2 ^ 5 + bits 6 4 w * 2 ^ 2 + bits 3 2 w * 2 ^ 6.
Definition c_swsp_imm : Z := bits 12 9 w * 2 ^ 2 + bits 8 7 w * 2 ^ 6.
Definition c_addi16sp_imm : Z :=
  swrap 10 (bits 12 12 w * 2 ^ 9 + bits 6 6 w * 2 ^ 4 + bits 5 5 w * 2 ^ 6
            + bits 4 3 w * 2 ^ 7 + bits 2 2 w * 2 ^ 5).
Definition c_j_imm : Z :=
  swrap 12 (bits 12 12 w * 2 ^ 11 + bits 11 11 w * 2 ^ 4 + bits 10 9 w * 2 ^ 8
            + bits 8 8 w * 2 ^ 10 + bits 7 7 w * 2 ^ 6 + bits 6 6 w * 2 ^ 7
            + bits 5 3 w * 2 + bits 2 2 w * 2 ^ 5).
Definition c_b_imm : Z :=
  swrap 9 (bits 12 12 w * 2 ^ 8 + bits 11 10 w * 2 ^ 3 + bits 6 5 w * 2 ^ 6
           + bits 4 3 w * 2 + bits 2 2 w * 2 ^ 5).

Definition decode16_q0 : option instr :=
  let f3 := bits 15 13 w in
  if f3 =? 0 then
    if c_addi4spn_imm =? 0 then None else Some (OpImm ADD c_rs2' 2 c_addi4spn_imm)
  else if f3 =? 2 then Some (Load LW c_rs2' c_rs1' c_lw_imm)
  else if f3 =? 6 then Some (Store SW c_rs1' c_rs2' c_lw_imm)
  else None.

Definition decode16_arith : option instr :=
  let sel := bits 11 10 w in
  if sel =? 2 then Some (OpImm AND c_rs1' c_rs1' c_imm6)
  else if bits 12 12 w =? 1 then None
  else if sel =? 0 then Some (OpImm SRL c_rs1' c_rs1' c_rs2)
  else if sel =? 1 then Some (OpImm SRA c_rs1' c_rs1' c_rs2)
  else o ← nth_error [SUB; XOR; OR; AND] (Z.to_nat (bits 6 5 w));
       Some (Op o c_rs1' c_rs1' c_rs2').

Definition decode16_q1 : option instr :=
  let f3 := bits 15 13 w in
  if f3 =? 0 then Some (OpImm ADD c_rd c_rd c_imm6)
  else if f3 =? 1 then Some (Jal 1 c_j_imm)
  else if f3 =? 2 then Some (OpImm ADD c_rd 0 c_imm6)
  else if f3 =? 3 then
    if c_rd =? 2 then
      if c_addi16sp_imm =? 0 then None else Some (OpImm ADD 2 2 c_addi16sp_imm)
    else if c_imm6 =? 0 then None else Some (Lui c_rd (u32 (c_imm6 * 2 ^ 12)))
  else if f3 =? 4 then decode16_arith
  else if f3 =? 5 then Some (Jal 0 c_j_imm)
  else if f3 =? 6 then Some (Branch BEQ c_rs1' 0 c_b_imm)
  else Some (Branch BNE c_rs1' 0 c_b_imm).

Definition decode16_q2 : option instr :=
  let f3 := bits 15 13 w in
  if f3 =? 0 then if bits 12 12 w =? 1 then None else Some (OpImm SLL c_rd c_rd c_rs2)
  else if f3 =? 2 then if c_rd =? 0 then None else Some (Load LW c_rd 2 c_lwsp_imm)
  else if f3 =? 6 then Some (Store SW 2 c_rs2 c_swsp_imm)
  else if f3 =? 4 then
    if bits 12 12 w =? 0 then
      if c_rs2 =? 0 then if c_rd =? 0 then None else Some (Jalr 0 c_rd 0)
      else Some (Op ADD c_rd 0 c_rs2)
    else if c_rs2 =? 0 then if c_rd =? 0 then None else Some (Jalr 1 c_rd 0)
    else Some (Op ADD c_rd c_rd c_rs2)
  else None.

Definition decode16 : option instr :=
  let q := bits 1 0 w in
  if q =? 0 then decode16_q0
  else if q =? 1 then decode16_q1
  else if q =? 2 then decode16_q2
  else None.
End Compressed.

(** ** Operations *)

Definition alu_sem (o : alu_op) (a b : Z) : Z :=
  let sh := b mod 32 in
  match o with
  | ADD => u32 (a + b)
  | SUB => u32 (a - b)
  | SLL => u32 (a * 2 ^ sh)
  | SLT => if s32 a <? s32 b then 1 else 0
  | SLTU => if a <? b then 1 else 0
  | XOR => a .^ b
  | SRL => a / 2 ^ sh
  | SRA => u32 (s32 a / 2 ^ sh)
  | OR => a .| b
  | AND => a .& b
  | MUL => u32 (a * b)
  | MULH => u32 (s32 a * s32 b / 2 ^ 32)
  | MULHSU => u32 (s32 a * b / 2 ^ 32)
  | MULHU => a * b / 2 ^ 32
  | DIV => if b =? 0 then 2 ^ 32 - 1 else u32 (Z.quot (s32 a) (s32 b))
  | DIVU => if b =? 0 then 2 ^ 32 - 1 else a / b
  | REM => if b =? 0 then a else u32 (Z.rem (s32 a) (s32 b))
  | REMU => if b =? 0 then a else a mod b
  | SH1ADD => u32 (a * 2 + b)
  | SH2ADD => u32 (a * 4 + b)
  | SH3ADD => u32 (a * 8 + b)
  end.

Definition branch_sem (o : branch_op) (a b : Z) : bool :=
  match o with
  | BEQ => a =? b
  | BNE => negb (a =? b)
  | BLT => s32 a <? s32 b
  | BGE => negb (s32 a <? s32 b)
  | BLTU => a <? b
  | BGEU => negb (a <? b)
  end.

Definition amo_sem (o : amo_op) (old x : Z) : Z :=
  match o with
  | SWAP => x
  | AADD => u32 (old + x)
  | AXOR => old .^ x
  | AAND => old .& x
  | AOR => old .| x
  | AMIN => if s32 old <? s32 x then old else x
  | AMAX => if s32 old >? s32 x then old else x
  | AMINU => Z.min old x
  | AMAXU => Z.max old x
  end.

(** ** Memory

    Byte-addressed and little-endian. *)

Definition mem_byte (m : mem) (a : Z) : Z := u8 (m a).
Definition mem_half (m : mem) (a : Z) : Z := mem_byte m a + 2 ^ 8 * mem_byte m (a + 1).
Definition mem_word (m : mem) (a : Z) : Z := mem_half m a + 2 ^ 16 * mem_half m (a + 2).

Definition load_size (o : load_op) : Z :=
  match o with LB | LBU => 1 | LH | LHU => 2 | LW => 4 end.
Definition store_size (o : store_op) : Z := match o with SB => 1 | SH => 2 | SW => 4 end.

(** The register value of [n] loaded bytes with value [x]. *)
Definition extend (o : load_op) (x : Z) : Z :=
  match o with LB => u32 (s8 x) | LH => u32 (s16 x) | _ => x end.

Definition load_mem (o : load_op) (m : mem) (a : Z) : Z :=
  extend o (match o with
            | LB | LBU => mem_byte m a | LH | LHU => mem_half m a | LW => mem_word m a
            end).

(** A load from a device: the lanes of the word it answers with. *)
Definition load_lanes (o : load_op) (a v : Z) : Z :=
  extend o (v / 2 ^ (8 * (a mod 4)) mod 2 ^ (8 * load_size o)).

(** The low [n] bytes of [v] at [a]. *)
Definition store_bytes (n : Z) (m : mem) (a v : Z) : mem := fun b =>
  if (a <=? b) && (b <? a + n) then u8 (v .>> (8 * (b - a))) else m b.

(** ** Machine state *)

Record csrs : Type := {
  mstatus : Z; mie : Z; mtvec : Z; mepc : Z; mcause : Z; mtval : Z;
}.

Record arch : Type := {
  a_pc : Z;
  a_regs : Z -> Z;            (* [a_regs 0] is never read *)
  a_csr : csrs;
  a_mem : mem;
  a_resv : option Z;
}.

Definition getreg (a : arch) (r : Z) : Z := if r =? 0 then 0 else a_regs a r.
Definition setreg (r v : Z) (f : Z -> Z) : Z -> Z := if r =? 0 then f else fupd f r v.

(** The interrupt lines as an instruction reads them in [mip]. *)
Record lines : Type := { timer_line : bool; external_line : bool }.

Definition mip (l : lines) : Z :=
  (if external_line l then 2 ^ 11 else 0) + (if timer_line l then 2 ^ 7 else 0).

Definition csr_read (l : lines) (c : csrs) (n : Z) : Z :=
  if n =? 0x300 then mstatus c else if n =? 0x304 then mie c
  else if n =? 0x305 then mtvec c else if n =? 0x341 then mepc c
  else if n =? 0x342 then mcause c else if n =? 0x343 then mtval c
  else if n =? 0x344 then mip l else 0.

Definition set_mstatus (v : Z) (c : csrs) : csrs :=
  {| mstatus := v; mie := mie c; mtvec := mtvec c; mepc := mepc c; mcause := mcause c; mtval := mtval c |}.

Definition csr_update (f : Z -> Z) (n : Z) (c : csrs) : csrs :=
  if n =? 0x300 then set_mstatus (f (mstatus c)) c
  else if n =? 0x304 then
    {| mstatus := mstatus c; mie := f (mie c); mtvec := mtvec c; mepc := mepc c; mcause := mcause c; mtval := mtval c |}
  else if n =? 0x305 then
    {| mstatus := mstatus c; mie := mie c; mtvec := f (mtvec c); mepc := mepc c; mcause := mcause c; mtval := mtval c |}
  else if n =? 0x341 then
    {| mstatus := mstatus c; mie := mie c; mtvec := mtvec c; mepc := f (mepc c); mcause := mcause c; mtval := mtval c |}
  else if n =? 0x342 then
    {| mstatus := mstatus c; mie := mie c; mtvec := mtvec c; mepc := mepc c; mcause := f (mcause c); mtval := mtval c |}
  else if n =? 0x343 then
    {| mstatus := mstatus c; mie := mie c; mtvec := mtvec c; mepc := mepc c; mcause := mcause c; mtval := f (mtval c) |}
  else c.

Definition csr_sem (o : csr_op) (x old : Z) : Z :=
  match o with CSRRW => x | CSRRS => old .| x | CSRRC => Z.ldiff old x end.

(** [mstatus] bits: MIE is bit 3, MPIE bit 7. *)
Definition put_bit (n : Z) (b : bool) (z : Z) : Z := if b then Z.setbit z n else Z.clearbit z n.

Definition enter_trap (cause tval epc : Z) (c : csrs) : csrs :=
  {| mstatus := put_bit 3 false (put_bit 7 (bit 3 (mstatus c)) (mstatus c));
     mie := mie c; mtvec := mtvec c; mepc := epc; mcause := cause; mtval := tval |}.

(** The core restores MIE and leaves MPIE as it is. *)
Definition leave_trap (c : csrs) : csrs :=
  set_mstatus (put_bit 3 (bit 7 (mstatus c)) (mstatus c)) c.

(** ** One instruction *)

(** Accesses to devices, in program order. *)
Inductive event : Type :=
  | DevRead (addr v : Z)
  | DevWrite (addr data : Z).

#[export] Instance event_eq : EqDecision event.
Proof. solve_decision. Defined.

Definition trap (cause tval : Z) (a : arch) : arch :=
  {| a_pc := mtvec (a_csr a); a_regs := a_regs a; a_csr := enter_trap cause tval (a_pc a) (a_csr a);
     a_mem := a_mem a; a_resv := None |}.

Section Step.
(** Which addresses are devices. *)
Variable dev : Z -> bool.
(** What the device answers in this step, and the interrupt lines. *)
Variables (l : lines) (v : Z).

Definition goto (next : Z) (rd val : Z) (a : arch) : arch :=
  {| a_pc := next; a_regs := setreg rd val (a_regs a); a_csr := a_csr a; a_mem := a_mem a;
     a_resv := a_resv a |}.

Definition misaligned (size ea : Z) : bool := negb (ea mod size =? 0).

Definition exec_load (next : Z) (o : load_op) (rd ea : Z) (a : arch) : arch * list event :=
  if misaligned (load_size o) ea then (trap 4 ea a, [])
  else if dev ea then (goto next rd (load_lanes o ea v) a, [DevRead ea v])
  else (goto next rd (load_mem o (a_mem a) ea) a, []).

(** A device receives the whole register; any store ends the reservation. *)
Definition exec_store (next : Z) (o : store_op) (ea x : Z) (a : arch) : arch * list event :=
  if misaligned (store_size o) ea then (trap 6 ea a, [])
  else
    ({| a_pc := next; a_regs := a_regs a; a_csr := a_csr a;
        a_mem := if dev ea then a_mem a else store_bytes (store_size o) (a_mem a) ea x;
        a_resv := None |},
     if dev ea then [DevWrite ea x] else []).

(** A misaligned atomic is a store fault, whatever its direction. *)
Definition exec_lr (next : Z) (rd ea : Z) (a : arch) : arch * list event :=
  if misaligned 4 ea then (trap 6 ea a, [])
  else
    ({| a_pc := next; a_regs := setreg rd (mem_word (a_mem a) ea) (a_regs a); a_csr := a_csr a;
        a_mem := a_mem a; a_resv := Some ea |}, []).

Definition sc_succeeds (ea : Z) (a : arch) : bool := bool_decide (a_resv a = Some ea).

Definition exec_sc (next : Z) (rd ea x : Z) (a : arch) : arch * list event :=
  if misaligned 4 ea then (trap 6 ea a, [])
  else
    ({| a_pc := next; a_regs := setreg rd (if sc_succeeds ea a then 0 else 1) (a_regs a); a_csr := a_csr a;
        a_mem := if sc_succeeds ea a then store_bytes 4 (a_mem a) ea x else a_mem a;
        a_resv := None |}, []).

Definition exec_amo (next : Z) (o : amo_op) (rd ea x : Z) (a : arch) : arch * list event :=
  if misaligned 4 ea then (trap 6 ea a, [])
  else
    let old := mem_word (a_mem a) ea in
    ({| a_pc := next; a_regs := setreg rd old (a_regs a); a_csr := a_csr a;
        a_mem := store_bytes 4 (a_mem a) ea (amo_sem o old x);
        a_resv := None |}, []).

Definition exec_csr (next : Z) (o : csr_op) (rd n : Z) (src : csr_src) (a : arch)
    : arch * list event :=
  let x := match src with FromReg r => getreg a r | FromImm u => u end in
  ({| a_pc := next; a_regs := setreg rd (csr_read l (a_csr a) n) (a_regs a);
      a_csr := csr_update (csr_sem o x) n (a_csr a); a_mem := a_mem a;
      a_resv := a_resv a |}, []).

Definition exec (i : instr) (len : Z) (a : arch) : arch * list event :=
  let r := getreg a in
  let next := u32 (a_pc a + len) in
  match i with
  | Op o rd rs1 rs2 => (goto next rd (alu_sem o (r rs1) (r rs2)) a, [])
  | OpImm o rd rs1 imm => (goto next rd (alu_sem o (r rs1) (u32 imm)) a, [])
  | Lui rd imm => (goto next rd imm a, [])
  | Auipc rd imm => (goto next rd (u32 (a_pc a + imm)) a, [])
  | Jal rd imm => (goto (u32 (a_pc a + imm)) rd next a, [])
  | Jalr rd rs1 imm => (goto (Z.clearbit (u32 (r rs1 + imm)) 0) rd next a, [])
  | Branch o rs1 rs2 imm =>
      (goto (if branch_sem o (r rs1) (r rs2) then u32 (a_pc a + imm) else next) 0 0 a, [])
  | Load o rd rs1 imm => exec_load next o rd (u32 (r rs1 + imm)) a
  | Store o rs1 rs2 imm => exec_store next o (u32 (r rs1 + imm)) (r rs2) a
  | Lr rd rs1 => exec_lr next rd (u32 (r rs1)) a
  | Sc rd rs1 rs2 => exec_sc next rd (u32 (r rs1)) (r rs2) a
  | Amo o rd rs1 rs2 => exec_amo next o rd (u32 (r rs1)) (r rs2) a
  | Csr o rd n src => exec_csr next o rd n src a
  | Ecall => (trap 11 0 a, [])
  | Mret => ({| a_pc := mepc (a_csr a); a_regs := a_regs a; a_csr := leave_trap (a_csr a);
               a_mem := a_mem a; a_resv := a_resv a |}, [])
  | Nop => (goto next 0 0 a, [])
  end.
End Step.
