(* ===== verification/Rvc.v ===== *)
(** * The decompressor, [src/src/rvc_expansion.v]

    [inst_expanded] is the module's combinational case statement, slice by
    slice.  For each of the 2^16 inputs that the C extension defines it
    produces a 32-bit instruction that decodes to the same operation. *)

From S2P Require Import Prelude Bits Rv32.

Section RvcExpand.
Variable inst_c : Z.

Definition quadrant : Z := bits 1 0 inst_c.
Definition c_funct3 : Z := bits 15 13 inst_c.

(** Three-bit register fields select x8 to x15. *)
Definition rs1p : part := lit 5 (cat [lit 2 1; field 9 7 inst_c]).
Definition rs2p : part := lit 5 (cat [lit 2 1; field 4 2 inst_c]).
Definition rdp : part := lit 5 (cat [lit 2 1; field 4 2 inst_c]).
Definition rs1_full : part := field 11 7 inst_c.
Definition rs2_full : part := field 6 2 inst_c.
Definition rd_full : part := field 11 7 inst_c.

Definition is_compressed : bool := negb (quadrant =? 3).

Local Notation "'b' n" := (one_bit n inst_c) (at level 9, n at level 9, only parsing).
Local Notation "'s' h l" := (field h l inst_c) (at level 9, h at level 9, l at level 9, only parsing).
Local Notation "'sign' n" := (rep n (bit 12 inst_c)) (at level 9, n at level 9, only parsing).

Definition expand_q0 : Z :=
  let f3 := c_funct3 in
  if f3 =? 0 then
    cat [lit 2 0; s 10 7; s 12 11; b 5; b 6; lit 2 0; lit 5 2; lit 3 0; rdp; lit 7 0x13]
  else if f3 =? 2 then
    cat [lit 5 0; b 5; s 12 10; b 6; lit 2 0; rs1p; lit 3 2; rdp; lit 7 0x03]
  else if f3 =? 6 then
    cat [lit 5 0; b 5; b 12; rs2p; rs1p; lit 3 2; s 11 10; b 6; lit 2 0; lit 7 0x23]
  else 0.

(** The jump immediate shared by C.JAL and C.J. *)
Definition expand_j (rd : Z) : Z :=
  cat [b 12; b 8; s 10 9; b 6; b 7; b 2; b 11; s 5 3; b 12; sign 8; lit 5 rd; lit 7 0x6f].

Definition expand_b (f3 : Z) : Z :=
  cat [b 12; sign 3; s 6 5; b 2; lit 5 0; rs1p; lit 3 f3; s 11 10; s 4 3; b 12; lit 7 0x63].

Definition expand_imm6 (rs1 : part) (f3 : Z) (rd : part) : Z :=
  cat [sign 6; b 12; s 6 2; rs1; lit 3 f3; rd; lit 7 0x13].

Definition expand_shift (f6 : Z) (rs1 : part) (f3 : Z) : Z :=
  cat [lit 6 f6; b 12; s 6 2; rs1; lit 3 f3; rs1; lit 7 0x13].

Definition expand_ca (f7 f3 : Z) : Z := cat [lit 7 f7; rs2p; rs1p; lit 3 f3; rs1p; lit 7 0x33].

Definition expand_arith : Z :=
  let sel := bits 11 10 inst_c in
  if sel =? 0 then expand_shift 0 rs1p 5
  else if sel =? 1 then expand_shift 16 rs1p 5
  else if sel =? 2 then expand_imm6 rs1p 7 rs1p
  else
    let op := bits 6 5 inst_c in
    if op =? 0 then expand_ca 32 0
    else if op =? 1 then expand_ca 0 4
    else if op =? 2 then expand_ca 0 6
    else expand_ca 0 7.

Definition expand_q1 : Z :=
  let f3 := c_funct3 in
  if f3 =? 0 then expand_imm6 rd_full 0 rd_full
  else if f3 =? 1 then expand_j 1
  else if f3 =? 2 then expand_imm6 (lit 5 0) 0 rd_full
  else if f3 =? 3 then
    if rd_full.2 =? 2 then
      cat [sign 2; b 12; s 4 3; b 5; b 2; b 6; lit 4 0; lit 5 2; lit 3 0; lit 5 2; lit 7 0x13]
    else cat [sign 14; b 12; s 6 2; rd_full; lit 7 0x37]
  else if f3 =? 4 then expand_arith
  else if f3 =? 5 then expand_j 0
  else if f3 =? 6 then expand_b 0
  else expand_b 1.

Definition expand_jalr (rd : Z) : Z := cat [lit 12 0; rd_full; lit 3 0; lit 5 rd; lit 7 0x67].
Definition expand_add (rs1 : part) : Z :=
  cat [lit 7 0; rs2_full; rs1; lit 3 0; rd_full; lit 7 0x33].

Definition expand_cr : Z :=
  if negb (bit 12 inst_c) then
    if rs2_full.2 =? 0 then expand_jalr 0 else expand_add (lit 5 0)
  else if (rd_full.2 =? 0) && (rs2_full.2 =? 0) then 0x00100073
  else if rs2_full.2 =? 0 then expand_jalr 1
  else expand_add rd_full.

Definition expand_q2 : Z :=
  let f3 := c_funct3 in
  if f3 =? 0 then expand_shift 0 rd_full 1
  else if f3 =? 2 then
    cat [lit 4 0; s 3 2; b 12; s 6 4; lit 2 0; lit 5 2; lit 3 2; rd_full; lit 7 0x03]
  else if f3 =? 6 then
    cat [lit 4 0; s 8 7; b 12; rs2_full; lit 5 2; lit 3 2; s 11 9; lit 2 0; lit 7 0x23]
  else if f3 =? 4 then expand_cr
  else 0.

Definition inst_expanded : Z :=
  if quadrant =? 0 then expand_q0
  else if quadrant =? 1 then expand_q1
  else if quadrant =? 2 then expand_q2
  else 0x13.
End RvcExpand.

(** ** The decompressor implements the C extension *)

(** What has to hold of one input, as a test. *)
Definition expands_right (w : Z) : bool :=
  match decode16 w with
  | Some i => is_compressed w && bool_decide (decode (inst_expanded w) = Some i)
  | None => true
  end.

(** [for_all_below n p]: [p] holds of every number below [n], by recursion on
    the binary digits of [n] so that 2^16 inputs need no unary number. *)
Fixpoint for_all_bits (n : nat) (p : Z -> bool) : bool :=
  match n with
  | O => p 0
  | Datatypes.S n => for_all_bits n (fun z => p (2 * z)) && for_all_bits n (fun z => p (2 * z + 1))
  end.

Lemma for_all_bits_spec (n : nat) (p : Z -> bool) (w : Z) :
  for_all_bits n p = true -> is_uint (Z.of_nat n) w -> p w = true.
Proof.
  induction n as [|n IH] in p, w |- *; intros Hp Hw.
  { assert (w = 0) as -> by (unfold is_uint in Hw; cbn in Hw; lia). done. }
  cbn in Hp. apply andb_true_iff in Hp as [H1 H2].
  assert (is_uint (Z.of_nat n) (w / 2)) as Hh.
  { unfold is_uint in *. rewrite Nat2Z.inj_succ, Z.pow_succ_r in Hw by lia.
    split; [apply Z.div_pos; lia|apply Z.div_lt_upper_bound; lia]. }
  pose proof (Z.div_mod w 2 ltac:(lia)) as E. pose proof (Z.mod_pos_bound w 2 ltac:(lia)).
  destruct (Z.eq_dec (w mod 2) 0) as [Em|Em].
  - specialize (IH _ (w / 2) H1 Hh). cbn in IH. by replace w with (2 * (w / 2)) by lia.
  - specialize (IH _ (w / 2) H2 Hh). cbn in IH. by replace w with (2 * (w / 2) + 1) by lia.
Qed.

Lemma all_expand_right : for_all_bits 16 expands_right = true.
Proof. vm_compute. reflexivity. Qed.

Lemma expand_decodes (w : Z) (i : instr) :
  is_uint 16 w -> decode16 w = Some i ->
  is_compressed w = true /\ decode (inst_expanded w) = Some i.
Proof.
  intros Hw Hi. pose proof (for_all_bits_spec 16 _ _ all_expand_right Hw) as H.
  unfold expands_right in H. rewrite Hi in H. apply andb_true_iff in H as [Hc Hd].
  by apply bool_decide_eq_true in Hd.
Qed.

(** C19: Every 16-bit instruction of the C extension is recognised as
    compressed and expands to a 32-bit instruction that decodes to the same
    operation, registers and immediate. *)
Theorem rvc_expansion_correct (w : Z) (i : instr) :
  is_uint 16 w -> decode16 w = Some i ->
  is_compressed w = true /\ decode (inst_expanded w) = Some i.
Proof. apply expand_decodes. Qed.

(** [c.lwsp x10, 12(sp)]. *)
Lemma rvc_expansion_correct_witness :
  is_uint 16 0x4532 /\ decode16 0x4532 = Some (Load LW 10 2 12) /\
  is_compressed 0x4532 = true /\ decode (inst_expanded 0x4532) = Some (Load LW 10 2 12).
Proof.
  assert (is_uint 16 0x4532) as Hw by (unfold is_uint; lia).
  assert (decode16 0x4532 = Some (Load LW 10 2 12)) as Hd by (vm_compute; reflexivity).
  split; [exact Hw|]. split; [exact Hd|]. apply (rvc_expansion_correct 0x4532 _ Hw Hd).
Defined.
