(* ===== verification/Decoder.v ===== *)
(** * Decode and datapath of the core

    The combinational modules an instruction passes through:
    [control_logic.v] (with [rom] and [rom_decoder]), [immgen.v], [alu.v],
    [branch_comp.v], [partial_load.v] and [partial_store.v], and the proofs
    that on every instruction of [Rv32.decode] they select and compute what
    the architecture says. *)

From S2P Require Import Prelude Bits Rv32 Rvc.

(** ** control_logic.v *)

(** The control word of an instruction, as [rom] splits it. *)
Record ctrl : Type := mk_ctrl {
  reg_wen : bool; a_sel : bool; b_sel : bool; mem_rw : bool;
  wb_sel : Z; imm_sel : Z; alu_sel : Z;
}.

Definition rom_out (rom_address : Z) : Z :=
  nth (Z.to_nat rom_address)
   [0x1001; 0x1401; 0x1601; 0x1081; 0x1481; 0x1581; 0x1101; 0x1201; 0x1281; 0x1681;
    0x1301; 0x1381; 0x0041; 0x0041; 0x0041; 0x1041; 0x10C1; 0x1141; 0x1241; 0x12C1;
    0x16C1; 0x1341; 0x13C1; 0x0842; 0x0842; 0x0842; 0x0064; 0x0064; 0x0064; 0x0064;
    0x0074; 0x0074; 0x1067; 0x17C7; 0x2069; 0x2041; 0x004F; 0x184F; 0x8030; 0x5001;
    0x5081; 0x5101; 0x5181; 0x1181; 0x11C1; 0x5201; 0x5281; 0x5301; 0x1501] 0.

Definition rom (rom_address : Z) : ctrl :=
  let out := rom_out rom_address in
  {| reg_wen := bit 0 out; imm_sel := bits 3 1 out; a_sel := bit 5 out; b_sel := bit 6 out;
     alu_sel := cat [one_bit 14 out; field 10 7 out]; mem_rw := bit 11 out;
     wb_sel := bits 13 12 out |}.

(** The [casex] on [{opcode, funct3, inst[30], inst[25]}]; [None] is its
    default arm. *)
Definition decode_table (opc f3 : Z) (b30 b25 : bool) : option Z :=
  if opc =? 12 then
    match b30, b25 with
    | false, false => nth_error [0; 3; 6; 43; 7; 8; 10; 11] (Z.to_nat f3)
    | false, true => nth_error [1; 4; 48; 5; 39; 40; 41; 42] (Z.to_nat f3)
    | true, false => if f3 =? 0 then Some 2 else if f3 =? 5 then Some 9 else None
    | true, true => None
    end
  else if opc =? 0 then
    nth_error [Some 12; Some 13; Some 14; None; Some 12; Some 13] (Z.to_nat f3) ≫= id
  else if opc =? 8 then nth_error [23; 24; 25] (Z.to_nat f3)
  else if opc =? 4 then
    if f3 =? 1 then if b30 then None else Some 16
    else if f3 =? 5 then Some (if b30 then 20 else 19)
    else nth_error [15; 0; 17; 44; 18; 0; 21; 22] (Z.to_nat f3)
  else if opc =? 24 then
    nth_error [Some 26; Some 27; None; None; Some 28; Some 29; Some 30; Some 31] (Z.to_nat f3)
    ≫= id
  else if opc =? 5 then Some 32
  else if opc =? 13 then Some 33
  else if opc =? 27 then Some 34
  else if opc =? 25 then if f3 =? 0 then Some 35 else None
  else None.

(** [rom_decoder]: the ROM address, or [None] when [illegal] is raised (the
    address is then 0). *)
Definition rom_decoder (inst : Z) : option Z :=
  let opc := bits 6 2 inst in
  let f3 := bits 14 12 inst in
  if (inst =? 0) || (inst =? 0xFFFFFFFF) then None
  else if opc =? 11 then Some (if bits 31 27 inst =? 3 then 37 else 36)
  else if opc =? 28 then Some 0
  else if opc =? 3 then Some 0
  else if (opc =? 12) && (bits 31 25 inst =? 16) then
    if f3 =? 2 then Some 45 else if f3 =? 4 then Some 46 else if f3 =? 6 then Some 47 else None
  else decode_table opc f3 (bit 30 inst) (bit 25 inst).

Definition illegal_inst (inst : Z) : bool :=
  match rom_decoder inst with Some _ => false | None => true end.

Definition control (inst : Z) : ctrl := rom (default 0 (rom_decoder inst)).

Definition is_atomic_inst (inst : Z) : bool := bits 6 0 inst =? 0x2f.
Definition atomic_funct5 (inst : Z) : Z := bits 31 27 inst.
Definition out_is_lr (inst : Z) : bool := is_atomic_inst inst && (atomic_funct5 inst =? 2).
Definition out_is_sc (inst : Z) : bool := is_atomic_inst inst && (atomic_funct5 inst =? 3).
Definition out_is_amo (inst : Z) : bool :=
  is_atomic_inst inst && negb (out_is_lr inst) && negb (out_is_sc inst).
Definition is_system_inst (inst : Z) : bool := bits 6 0 inst =? 0x73.
Definition csr_wen (inst : Z) : bool :=
  is_system_inst inst && negb (bits 14 12 inst =? 0) && negb (bits 14 12 inst =? 4).
Definition csr_op_of (inst : Z) : Z := bits 13 12 inst.
Definition csr_use_imm (inst : Z) : bool := is_system_inst inst && bit 14 inst.
Definition csr_uimm (inst : Z) : Z := bits 19 15 inst.

(** ** immgen.v *)

Definition immgen (inst imm_sel : Z) : Z :=
  if imm_sel =? 0 then cat [rep 21 (bit 31 inst); field 30 20 inst]
  else if imm_sel =? 1 then cat [rep 21 (bit 31 inst); field 30 25 inst; field 11 7 inst]
  else if imm_sel =? 2 then
    cat [rep 20 (bit 31 inst); field 7 7 inst; field 30 25 inst; field 11 8 inst; lit 1 0]
  else if imm_sel =? 3 then cat [field 31 12 inst; lit 12 0]
  else if imm_sel =? 4 then
    cat [rep 12 (bit 31 inst); field 19 12 inst; field 20 20 inst; field 30 21 inst; lit 1 0]
  else 0.

(** ** alu.v *)

(** The 33-bit operands of the shared multiplier. *)
Definition mul_operand (signed : bool) (a : Z) : Z := if signed then s32 a else a.
Definition mul_res (alu_sel a b : Z) : Z :=
  mul_operand ((alu_sel =? 8) || (alu_sel =? 9) || (alu_sel =? 10)) a
  * mul_operand ((alu_sel =? 8) || (alu_sel =? 9)) b.

Definition alu (alu_sel a b : Z) : Z :=
  if alu_sel =? 0 then u32 (a + b)
  else if alu_sel =? 1 then u32 (a .<< bits 4 0 b)
  else if alu_sel =? 2 then Z.b2z (s32 a <? s32 b)
  else if alu_sel =? 3 then Z.b2z (a <? b)
  else if alu_sel =? 4 then a .^ b
  else if alu_sel =? 5 then a .>> bits 4 0 b
  else if alu_sel =? 6 then a .| b
  else if alu_sel =? 7 then a .& b
  else if alu_sel =? 8 then bits 31 0 (mul_res alu_sel a b)
  else if alu_sel =? 9 then bits 63 32 (mul_res alu_sel a b)
  else if alu_sel =? 10 then bits 63 32 (mul_res alu_sel a b)
  else if alu_sel =? 11 then bits 63 32 (mul_res alu_sel a b)
  else if alu_sel =? 12 then u32 (a - b)
  else if alu_sel =? 13 then u32 (s32 a .>> bits 4 0 b)
  else if alu_sel =? 15 then b
  else if alu_sel =? 20 then u32 (u32 (a .<< 1) + b)
  else if alu_sel =? 21 then u32 (u32 (a .<< 2) + b)
  else if alu_sel =? 22 then u32 (u32 (a .<< 3) + b)
  else u32 (a + b).

(** ** branch_comp.v *)

Definition br_eq (br_data1 br_data2 : Z) : bool := br_data1 =? br_data2.
Definition br_lt (br_data1 br_data2 : Z) (br_un : bool) : bool :=
  if br_un then br_data1 <? br_data2 else s32 br_data1 <? s32 br_data2.

(** ** partial_load.v *)

Definition byte_sel (mem_address data_from_mem : Z) : Z :=
  let off := bits 1 0 mem_address in
  if off =? 0 then bits 7 0 data_from_mem
  else if off =? 1 then bits 15 8 data_from_mem
  else if off =? 2 then bits 23 16 data_from_mem
  else bits 31 24 data_from_mem.
Definition half_sel (mem_address data_from_mem : Z) : Z :=
  if bit 1 mem_address then bits 31 16 data_from_mem else bits 15 0 data_from_mem.

Definition partial_load (inst mem_address data_from_mem : Z) : Z :=
  let select := bits 14 12 inst in
  let b := byte_sel mem_address data_from_mem in
  let h := half_sel mem_address data_from_mem in
  if select =? 0 then cat [rep 24 (bit 7 b); lit 8 b]
  else if select =? 1 then cat [rep 16 (bit 15 h); lit 16 h]
  else if select =? 2 then data_from_mem
  else if select =? 4 then b
  else if select =? 5 then h
  else 0.

(** ** partial_store.v *)

Definition data_to_mem (inst data_from_reg : Z) : Z :=
  let size := bits 13 12 inst in
  if size =? 0 then
    cat [lit 8 data_from_reg; lit 8 data_from_reg; lit 8 data_from_reg; lit 8 data_from_reg]
  else if size =? 1 then cat [lit 16 data_from_reg; lit 16 data_from_reg]
  else data_from_reg.

Definition mem_write_mask (inst mem_address : Z) (mem_rw : bool) : Z :=
  let size := bits 13 12 inst in
  let temp :=
    if size =? 0 then 1 .<< bits 1 0 mem_address
    else if size =? 1 then if bit 1 mem_address then 12 else 3
    else 15 in
  temp .& (if mem_rw then 15 else 0).

(** ** The control word of every instruction *)

(** [rom_decoder] through the opcode, [funct3] and [funct7] fields. *)
Definition rom_fields (opc f3 f7 : Z) : option Z :=
  let opc := bits 6 2 opc in
  if opc =? 11 then Some (if bits 6 2 f7 =? 3 then 37 else 36)
  else if opc =? 28 then Some 0
  else if opc =? 3 then Some 0
  else if (opc =? 12) && (f7 =? 16) then
    if f3 =? 2 then Some 45 else if f3 =? 4 then Some 46 else if f3 =? 6 then Some 47 else None
  else decode_table opc f3 (bit 5 f7) (bit 0 f7).

Lemma rom_decoder_fields (w : Z) :
  opcode w <> 0 -> opcode w <> 127 ->
  rom_decoder w = rom_fields (opcode w) (funct3 w) (funct7 w).
Proof.
  intros H0 H127. unfold rom_decoder, rom_fields, opcode, funct3, funct7 in *.
  destruct (Z.eqb_spec w 0) as [->|_]; [done|].
  destruct (Z.eqb_spec w 0xFFFFFFFF) as [->|_]; [done|]. cbn [orb].
  rewrite (bits_bits 6 0 6 2), (bits_bits 31 25 6 2), !(bit_bits _ 31 25) by lia. done.
Qed.

(** The codes of [alu_sel]. *)
Definition alu_code (o : alu_op) : Z :=
  match o with
  | ADD => 0 | SLL => 1 | SLT => 2 | SLTU => 3 | XOR => 4 | SRL => 5 | OR => 6 | AND => 7
  | MUL => 8 | MULH => 9 | MULHSU => 10 | MULHU => 11 | SUB => 12 | SRA => 13
  | DIV => 16 | DIVU => 17 | REM => 18 | REMU => 19 | SH1ADD => 20 | SH2ADD => 21 | SH3ADD => 22
  end.

Definition ctrl_of (i : instr) : ctrl :=
  match i with
  | Op o _ _ _ => mk_ctrl true false false false 1 0 (alu_code o)
  | OpImm o _ _ _ => mk_ctrl true false true false 1 0 (alu_code o)
  | Lui _ _ => mk_ctrl true false true false 1 3 15
  | Auipc _ _ => mk_ctrl true true true false 1 3 0
  | Jal _ _ => mk_ctrl true true true false 2 4 0
  | Jalr _ _ _ => mk_ctrl true false true false 2 0 0
  | Branch _ _ _ _ => mk_ctrl false true true false 0 2 0
  | Load _ _ _ _ => mk_ctrl true false true false 0 0 0
  | Store _ _ _ _ => mk_ctrl false false true true 0 1 0
  | Lr _ _ | Amo _ _ _ _ => mk_ctrl true false true false 0 7 0
  | Sc _ _ _ => mk_ctrl true false true true 1 7 0
  | Csr _ _ _ _ | Ecall | Mret | Nop => mk_ctrl true false false false 1 0 0
  end.

Lemma field3_cases (x : Z) :
  is_uint 3 x -> x = 0 \/ x = 1 \/ x = 2 \/ x = 3 \/ x = 4 \/ x = 5 \/ x = 6 \/ x = 7.
Proof. unfold is_uint. lia. Qed.

Lemma funct3_cases (w : Z) :
  funct3 w = 0 \/ funct3 w = 1 \/ funct3 w = 2 \/ funct3 w = 3 \/
  funct3 w = 4 \/ funct3 w = 5 \/ funct3 w = 6 \/ funct3 w = 7.
Proof. apply field3_cases. by apply (bits_range 14 12). Qed.

(** [decode_cases H] splits [decode w = Some i] into one goal per line of the
    decoding tables. *)
Ltac split_ifs H :=
  repeat match type of H with
  | context [if Z.eqb ?x ?y then _ else _] =>
      let E := fresh "E" in destruct (Z.eqb_spec x y) as [E|E]
  | context [if negb ?b then _ else _] => destruct b eqn:?; cbn [negb] in H
  | context [if ?b then _ else _] => destruct b eqn:?
  end.

Lemma decode_op_rom (f3 f7 : Z) (o : alu_op) :
  is_uint 3 f3 -> decode_op f3 f7 = Some o -> rom_fields 0x33 f3 f7 ≫= Some ∘ rom =
  Some (mk_ctrl true false false false 1 0 (alu_code o)).
Proof.
  intros Hf H. unfold decode_op in H.
  destruct (field3_cases f3 Hf) as [->|[->|[->|[->|[->|[->|[->| ->]]]]]]];
    split_ifs H; try lia; cbv in H; simplify_eq; reflexivity.
Qed.

Lemma decode_op_imm_rom (f3 f7 : Z) (o : alu_op) :
  is_uint 3 f3 -> decode_op_imm f3 f7 = Some o -> rom_fields 0x13 f3 f7 ≫= Some ∘ rom =
  Some (mk_ctrl true false true false 1 0 (alu_code o)).
Proof.
  intros Hf H. unfold decode_op_imm in H.
  destruct (field3_cases f3 Hf) as [->|[->|[->|[->|[->|[->|[->| ->]]]]]]];
    split_ifs H; try lia; cbv in H; simplify_eq; reflexivity.
Qed.

Definition ctrl_at (opc f3 f7 : Z) : option ctrl := rom_fields opc f3 f7 ≫= Some ∘ rom.

Lemma control_fields (w : Z) (c : ctrl) :
  opcode w <> 0 -> opcode w <> 127 -> ctrl_at (opcode w) (funct3 w) (funct7 w) = Some c ->
  control w = c /\ illegal_inst w = false.
Proof.
  intros H0 H1. unfold ctrl_at, control, illegal_inst. rewrite rom_decoder_fields by done.
  destruct (rom_fields _ _ _); cbn; [|done]. by intros [= <-].
Qed.

Lemma decode_branch_rom (f3 f7 : Z) (o : branch_op) :
  is_uint 3 f3 -> decode_branch f3 = Some o ->
  ctrl_at 0x63 f3 f7 = Some (mk_ctrl false true true false 0 2 0).
Proof.
  intros Hf H.
  by destruct (field3_cases f3 Hf) as [->|[->|[->|[->|[->|[->|[->| ->]]]]]]].
Qed.

Lemma decode_load_rom (f3 f7 : Z) (o : load_op) :
  is_uint 3 f3 -> decode_load f3 = Some o ->
  ctrl_at 0x03 f3 f7 = Some (mk_ctrl true false true false 0 0 0).
Proof.
  intros Hf H.
  by destruct (field3_cases f3 Hf) as [->|[->|[->|[->|[->|[->|[->| ->]]]]]]].
Qed.

Lemma decode_store_rom (f3 f7 : Z) (o : store_op) :
  is_uint 3 f3 -> decode_store f3 = Some o ->
  ctrl_at 0x23 f3 f7 = Some (mk_ctrl false false true true 0 1 0).
Proof.
  intros Hf H.
  by destruct (field3_cases f3 Hf) as [->|[->|[->|[->|[->|[->|[->| ->]]]]]]].
Qed.

Lemma atomic_rom (w : Z) :
  ctrl_at 0x2f (funct3 w) (funct7 w) =
  Some (if bits 31 27 w =? 3 then mk_ctrl true false true true 1 7 0
        else mk_ctrl true false true false 0 7 0).
Proof.
  unfold ctrl_at, rom_fields, funct7. rewrite (bits_bits 31 25 6 2) by lia.
  change (bits 6 2 0x2f =? 11) with true. cbv iota. by destruct (Z.eqb _ 3).
Qed.

(** [opcode_case H k] enters the arm of [decode] for opcode [k]. *)
Ltac opcode_case H k :=
  match type of H with (if Z.eqb (opcode ?w) _ then _ else _) = _ =>
    let E := fresh "E" in
    destruct (Z.eqb_spec (opcode w) k) as [E|_];
    [split; [rewrite E; discriminate|split; [rewrite E; discriminate|rewrite E]]|]
  end.

Lemma decode_ctrl_at (w : Z) (i : instr) :
  decode w = Some i ->
  opcode w <> 0 /\ opcode w <> 127 /\ ctrl_at (opcode w) (funct3 w) (funct7 w) = Some (ctrl_of i).
Proof.
  intros H. pose proof (bits_range 14 12 w ltac:(lia)) as Hf. change (14 - 12 + 1) with 3 in Hf.
  fold (funct3 w) in Hf. unfold decode in H. cbv zeta in H.
  opcode_case H 0x33.
  { destruct (decode_op _ _) eqn:D; [|done]. injection H as <-. by apply decode_op_rom. }
  opcode_case H 0x13.
  { destruct (decode_op_imm _ _) eqn:D; [|done]. injection H as <-. by apply decode_op_imm_rom. }
  opcode_case H 0x03.
  { destruct (decode_load _) eqn:D; [|done]. injection H as <-. by eapply decode_load_rom. }
  opcode_case H 0x23.
  { destruct (decode_store _) eqn:D; [|done]. injection H as <-. by eapply decode_store_rom. }
  opcode_case H 0x63.
  { destruct (decode_branch _) eqn:D; [|done]. injection H as <-. by eapply decode_branch_rom. }
  opcode_case H 0x37. { by injection H as <-. }
  opcode_case H 0x17. { by injection H as <-. }
  opcode_case H 0x6f. { by injection H as <-. }
  opcode_case H 0x67.
  { destruct (Z.eqb_spec (funct3 w) 0) as [->|]; [|done]. by injection H as <-. }
  opcode_case H 0x2f.
  { rewrite atomic_rom. f_equal. unfold decode_atomic in H.
    destruct (negb _); [done|]. destruct (Z.eqb_spec (bits 31 27 w) 2) as [->|].
    { destruct (rs2_of w =? 0); [|done]. by injection H as <-. }
    destruct (bits 31 27 w =? 3); [by injection H as <-|].
    destruct (decode_amo _); [|done]. by injection H as <-. }
  opcode_case H 0x73.
  { unfold decode_system in H. split_ifs H; try done; try by injection H as <-.
    destruct (decode_csr _ _); [|done]. by injection H as <-. }
  opcode_case H 0x0f.
  { destruct (_ && _); [|done]. by injection H as <-. }
  done.
Qed.

Lemma control_of (w : Z) (i : instr) : decode w = Some i -> control w = ctrl_of i /\ illegal_inst w = false.
Proof. intros (H0 & H1 & H)%decode_ctrl_at. by apply control_fields. Qed.

(** ** Immediates *)

(** [sign_bit_solve w] proves that a replicated sign bit is the wrapped sign
    extension, once the field with the sign bit is split off. *)
Ltac sign_bit_solve w :=
  rewrite ?bits_bit by lia; destruct (bit 31 w); cbn [Z.b2z];
  unfold u32, uwrap, swrap;
  repeat match goal with |- context [Z.ones ?n] =>
    let k := eval cbv in (Z.ones n) in change (Z.ones n) with k end;
  divlia.

Lemma immgen_i (w : Z) : immgen w 0 = u32 (imm_i w).
Proof.
  unfold immgen, imm_i. cbn [Z.eqb]. cat_arith.
  rewrite (bits_split 31 31 20) by lia. change (31 - 1) with 30. bits_known 30 20 w.
  sign_bit_solve w.
Qed.

Lemma immgen_s (w : Z) : immgen w 1 = u32 (imm_s w).
Proof.
  unfold immgen, imm_s. cbn [Z.eqb Pos.eqb]. cat_arith.
  rewrite (bits_split 31 31 25) by lia. change (31 - 1) with 30.
  bits_known 30 25 w. bits_known 11 7 w. sign_bit_solve w.
Qed.

Lemma immgen_b (w : Z) : immgen w 2 = u32 (imm_b w).
Proof.
  unfold immgen, imm_b. cbn [Z.eqb Pos.eqb]. cat_arith.
  bits_known 7 7 w. bits_known 30 25 w. bits_known 11 8 w. rewrite (bits_bit 31) by lia.
  destruct (bit 31 w); cbn [Z.b2z]; unfold u32, uwrap, swrap;
    [change (Z.ones 20) with 0xfffff|]; divlia.
Qed.

Lemma immgen_u (w : Z) : immgen w 3 = imm_u w.
Proof.
  unfold immgen, imm_u. cbn [Z.eqb Pos.eqb]. cat_arith. bits_known 31 12 w. divlia.
Qed.

Lemma immgen_j (w : Z) : immgen w 4 = u32 (imm_j w).
Proof.
  unfold immgen, imm_j. cbn [Z.eqb Pos.eqb]. cat_arith.
  bits_known 19 12 w. bits_known 20 20 w. bits_known 30 21 w. rewrite (bits_bit 31) by lia.
  destruct (bit 31 w); cbn [Z.b2z]; unfold u32, uwrap, swrap;
    [change (Z.ones 12) with 0xfff|]; divlia.
Qed.

Lemma imm_b_even (w : Z) : imm_b w mod 2 = 0.
Proof. unfold imm_b, swrap. cat_arith. divlia. Qed.

Lemma imm_j_even (w : Z) : imm_j w mod 2 = 0.
Proof. unfold imm_j, swrap. cat_arith. divlia. Qed.

(** The shift amount is the low five bits of the I immediate. *)
Lemma shamt_field (w : Z) : rs2_of w mod 32 = u32 (imm_i w) mod 32.
Proof.
  unfold rs2_of, imm_i. rewrite (bits_split 31 25 20) by lia. change (25 - 1) with 24.
  bits_known 24 20 w. bits_known 31 25 w. unfold u32, uwrap, swrap. divlia.
Qed.

Lemma immgen_range (w s : Z) : is_uint 32 (immgen w s).
Proof.
  unfold immgen. repeat case_match; try (by split); match goal with |- is_uint _ (cat ?l) =>
    refine (cat_range l _); repeat constructor; cbn; lia end.
Qed.

(** ** The ALU *)

Definition multi_cycle (o : alu_op) : bool :=
  match o with DIV | DIVU | REM | REMU => true | _ => false end.

Lemma bits_low5 (b : Z) : bits 4 0 b = b mod 32.
Proof. rewrite bits_arith by lia. by rewrite Z.div_1_r. Qed.

Lemma mul_high (x : Z) : bits 63 32 x = u32 (x / 2 ^ 32).
Proof. by rewrite bits_arith by lia. Qed.

Lemma mul_low (x y a b : Z) :
  x mod 2 ^ 32 = a mod 2 ^ 32 -> y mod 2 ^ 32 = b mod 2 ^ 32 -> bits 31 0 (x * y) = u32 (a * b).
Proof.
  intros Hx Hy. rewrite bits_arith, Z.div_1_r by lia. unfold u32, uwrap.
  change (31 - 0 + 1) with 32. by rewrite (Zmult_mod x), (Zmult_mod a), Hx, Hy.
Qed.

Lemma alu_sem_shift (o : alu_op) (a b b' : Z) :
  (match o with SLL | SRL | SRA => True | _ => False end) -> b mod 32 = b' mod 32 ->
  alu_sem o a b = alu_sem o a b'.
Proof. intros Ho E. destruct o; try done; unfold alu_sem; cbv zeta; by rewrite E. Qed.

(** Every single-cycle operation: the ALU computes its architectural value. *)
Lemma alu_correct (o : alu_op) (a b : Z) :
  multi_cycle o = false -> is_uint 32 a -> is_uint 32 b -> alu (alu_code o) a b = alu_sem o a b.
Proof.
  intros Hm Ha Hb. pose proof (Z.mod_pos_bound b 32 ltac:(lia)).
  destruct o; try done; unfold alu, alu_code, alu_sem; cbn [Z.eqb Pos.eqb]; cbv zeta.
  - by rewrite bits_low5, Z.shiftl_mul_pow2 by lia.
  - rewrite bits_low5. by rewrite Z.shiftr_div_pow2 by lia.
  - rewrite bits_low5. by rewrite Z.shiftr_div_pow2 by lia.
  - apply mul_low; by apply swrap_mod.
  - apply mul_high.
  - apply mul_high.
  - rewrite mul_high. apply uwrap_id. unfold is_uint, mul_res, mul_operand in *. cbn in *.
    split; [apply Z.div_pos; nia|apply Z.div_lt_upper_bound; nia].
  - rewrite Z.shiftl_mul_pow2 by lia. unfold u32, uwrap. by rewrite Zplus_mod_idemp_l.
  - rewrite Z.shiftl_mul_pow2 by lia. unfold u32, uwrap. by rewrite Zplus_mod_idemp_l.
  - rewrite Z.shiftl_mul_pow2 by lia. unfold u32, uwrap. by rewrite Zplus_mod_idemp_l.
Qed.

Lemma alu_range (s a b : Z) : is_uint 32 a -> is_uint 32 b -> is_uint 32 (alu s a b).
Proof.
  intros Ha Hb. unfold alu. assert (forall c : bool, is_uint 32 (Z.b2z c)) by (intros []; by split).
  repeat case_match; auto with soc;
    try (by apply uwrap_range); try (by apply (bits_range 31 0)); try (by apply (bits_range 63 32)).
  apply shiftr_uint; [|done]. by apply (bits_range 4 0).
Qed.

(** ** The fields of every instruction *)

Definition branch_code (o : branch_op) : Z :=
  match o with BEQ => 0 | BNE => 1 | BLT => 4 | BGE => 5 | BLTU => 6 | BGEU => 7 end.
Definition load_code (o : load_op) : Z :=
  match o with LB => 0 | LH => 1 | LW => 2 | LBU => 4 | LHU => 5 end.
Definition store_code (o : store_op) : Z := match o with SB => 0 | SH => 1 | SW => 2 end.
Definition amo_code (o : amo_op) : Z :=
  match o with
  | SWAP => 1 | AADD => 0 | AXOR => 4 | AAND => 12 | AOR => 8
  | AMIN => 16 | AMAX => 20 | AMINU => 24 | AMAXU => 28
  end.
Definition csr_code (o : csr_op) : Z := match o with CSRRW => 1 | CSRRS => 2 | CSRRC => 3 end.

(** What the word of an instruction holds in the fields the core reads. *)
Definition decoded_as (w : Z) (i : instr) : Prop :=
  match i with
  | Op o rd rs1 rs2 => opcode w = 0x33 /\ rd_of w = rd /\ rs1_of w = rs1 /\ rs2_of w = rs2
  | OpImm o rd rs1 imm => opcode w = 0x13 /\ rd_of w = rd /\ rs1_of w = rs1 /\
      multi_cycle o = false /\ forall a, alu_sem o a (immgen w 0) = alu_sem o a (u32 imm)
  | Lui rd imm => opcode w = 0x37 /\ rd_of w = rd /\ immgen w 3 = imm
  | Auipc rd imm => opcode w = 0x17 /\ rd_of w = rd /\ immgen w 3 = imm
  | Jal rd imm => opcode w = 0x6f /\ rd_of w = rd /\ imm = imm_j w
  | Jalr rd rs1 imm => opcode w = 0x67 /\ rd_of w = rd /\ rs1_of w = rs1 /\ immgen w 0 = u32 imm
  | Branch o rs1 rs2 imm => opcode w = 0x63 /\ funct3 w = branch_code o /\
      rs1_of w = rs1 /\ rs2_of w = rs2 /\ imm = imm_b w
  | Load o rd rs1 imm => opcode w = 0x03 /\ funct3 w = load_code o /\
      rd_of w = rd /\ rs1_of w = rs1 /\ immgen w 0 = u32 imm
  | Store o rs1 rs2 imm => opcode w = 0x23 /\ funct3 w = store_code o /\
      rs1_of w = rs1 /\ rs2_of w = rs2 /\ immgen w 1 = u32 imm
  | Lr rd rs1 => opcode w = 0x2f /\ funct3 w = 2 /\ atomic_funct5 w = 2 /\
      rd_of w = rd /\ rs1_of w = rs1
  | Sc rd rs1 rs2 => opcode w = 0x2f /\ funct3 w = 2 /\ atomic_funct5 w = 3 /\
      rd_of w = rd /\ rs1_of w = rs1 /\ rs2_of w = rs2
  | Amo o rd rs1 rs2 => opcode w = 0x2f /\ funct3 w = 2 /\ atomic_funct5 w = amo_code o /\
      rd_of w = rd /\ rs1_of w = rs1 /\ rs2_of w = rs2
  | Csr o rd n src => opcode w = 0x73 /\ csr_wen w = true /\ rd_of w = rd /\
      bits 31 20 w = n /\ n <> 0 /\ n <> 0x302 /\ csr_op_of w = csr_code o /\
      match src with
      | FromReg r => csr_use_imm w = false /\ rs1_of w = r
      | FromImm u => csr_use_imm w = true /\ csr_uimm w = u
      end
  | Ecall => opcode w = 0x73 /\ csr_wen w = false /\ rd_of w = 0 /\ bits 31 20 w = 0
  | Mret => opcode w = 0x73 /\ csr_wen w = false /\ rd_of w = 0 /\ bits 31 20 w = 0x302
  | Nop => (opcode w = 0x0f \/ opcode w = 0x73 /\ bits 31 20 w = 0x105) /\
      csr_wen w = false /\ rd_of w = 0
  end.

Lemma decode_op_imm_single (f3 f7 : Z) (o : alu_op) :
  is_uint 3 f3 -> decode_op_imm f3 f7 = Some o -> multi_cycle o = false.
Proof.
  intros Hf H. unfold decode_op_imm in H.
  destruct (field3_cases f3 Hf) as [->|[->|[->|[->|[->|[->|[->| ->]]]]]]];
    split_ifs H; try lia; cbv in H; by simplify_eq.
Qed.

Ltac opcode_arm H k :=
  match type of H with (if Z.eqb (opcode ?w) _ then _ else _) = _ =>
    let E := fresh "E" in destruct (Z.eqb_spec (opcode w) k) as [E|_]
  end.

(** The [funct3] of SYSTEM instructions, as [control_logic] slices it. *)
Lemma csr_fields (w : Z) (p : csr_op * csr_src) :
  opcode w = 0x73 -> decode_csr (funct3 w) w = Some p ->
  csr_wen w = true /\ csr_op_of w = csr_code p.1 /\
  match p.2 with
  | FromReg r => csr_use_imm w = false /\ rs1_of w = r
  | FromImm u => csr_use_imm w = true /\ csr_uimm w = u
  end.
Proof.
  intros E H. unfold csr_wen, csr_op_of, csr_use_imm, csr_uimm, is_system_inst.
  fold (opcode w) (funct3 w). rewrite E. change (0x73 =? 0x73) with true.
  assert (bits 13 12 w = bits 1 0 (funct3 w)) as ->.
  { unfold funct3. by rewrite (bits_bits 14 12 1 0) by lia. }
  assert (bit 14 w = bit 2 (funct3 w)) as ->.
  { unfold funct3. by rewrite (bit_bits 2 14 12) by lia. }
  unfold decode_csr in H.
  destruct (funct3_cases w) as [F|[F|[F|[F|[F|[F|[F|F]]]]]]]; rewrite F in *; by simplify_eq/=.
Qed.

Lemma csr_wen_system0 (w : Z) : funct3 w = 0 -> csr_wen w = false.
Proof. unfold csr_wen. fold (funct3 w). intros ->. cbn. by rewrite andb_false_r. Qed.

Lemma csr_wen_other (w : Z) : opcode w <> 0x73 -> csr_wen w = false.
Proof. unfold csr_wen, is_system_inst. fold (opcode w). intros. by destruct (Z.eqb_spec (opcode w) 0x73). Qed.

Lemma decode_system_as (w : Z) (i : instr) :
  opcode w = 0x73 -> decode_system w = Some i -> decoded_as w i.
Proof.
  intros E H. unfold decode_system in H. destruct (Z.eqb_spec (funct3 w) 0) as [F|F].
  - pose proof (csr_wen_system0 w F).
    destruct (Z.eqb_spec (rd_of w) 0), (Z.eqb_spec (rs1_of w) 0); try done. cbn in H.
    destruct (Z.eqb_spec (bits 31 20 w) 0); [by simplify_eq|].
    destruct (Z.eqb_spec (bits 31 20 w) 0x302); [by simplify_eq|].
    destruct (Z.eqb_spec (bits 31 20 w) 0x105); [|done]. simplify_eq. cbn. eauto.
  - destruct (Z.eqb_spec (bits 31 20 w) 0), (Z.eqb_spec (bits 31 20 w) 0x302); try done.
    cbn in H. destruct (decode_csr _ _) as [p|] eqn:D; [|done]. injection H as <-.
    apply csr_fields in D as (Hw & Hop & Hs); [|done]. by repeat split.
Qed.

Lemma decode_atomic_as (w : Z) (i : instr) :
  opcode w = 0x2f -> decode_atomic w = Some i -> decoded_as w i.
Proof.
  intros E H. unfold decode_atomic in H. destruct (Z.eqb_spec (funct3 w) 2) as [F|]; [|done].
  cbn [negb] in H. fold (atomic_funct5 w) in H.
  destruct (Z.eqb_spec (atomic_funct5 w) 2).
  { destruct (rs2_of w =? 0); [|done]. by injection H as <-. }
  destruct (Z.eqb_spec (atomic_funct5 w) 3); [by injection H as <-|].
  destruct (decode_amo (atomic_funct5 w)) eqn:D; [|done]. injection H as <-.
  repeat split; try done. unfold decode_amo in D. split_ifs D; by simplify_eq.
Qed.

Lemma decode_fields (w : Z) (i : instr) : decode w = Some i -> decoded_as w i.
Proof.
  intros H. unfold decode in H. cbv zeta in H.
  pose proof (bits_range 14 12 w ltac:(lia)) as Hf. change (14 - 12 + 1) with 3 in Hf.
  fold (funct3 w) in Hf.
  opcode_arm H 0x33. { destruct (decode_op _ _); [|done]. by injection H as <-. }
  opcode_arm H 0x13.
  { destruct (decode_op_imm _ _) as [o|] eqn:D; [|done]. injection H as <-.
    apply decode_op_imm_single in D; [|done]. repeat split; [done..|]. intros a.
    destruct o; try done; rewrite immgen_i; try done; apply alu_sem_shift; try done;
      rewrite <-shamt_field; unfold u32, uwrap; divlia. }
  opcode_arm H 0x03.
  { destruct (decode_load _) eqn:D; [|done]. injection H as <-.
    repeat split; try done; try apply immgen_i. by destruct (funct3_cases w) as [F|[F|[F|[F|[F|[F|[F|F]]]]]]];
      rewrite F in *; cbv in D; simplify_eq. }
  opcode_arm H 0x23.
  { destruct (decode_store _) eqn:D; [|done]. injection H as <-.
    repeat split; try done; try apply immgen_s. by destruct (funct3_cases w) as [F|[F|[F|[F|[F|[F|[F|F]]]]]]];
      rewrite F in *; cbv in D; simplify_eq. }
  opcode_arm H 0x63.
  { destruct (decode_branch _) eqn:D; [|done]. injection H as <-.
    repeat split; try done. by destruct (funct3_cases w) as [F|[F|[F|[F|[F|[F|[F|F]]]]]]];
      rewrite F in *; cbv in D; simplify_eq. }
  opcode_arm H 0x37. { injection H as <-. repeat split; [done|apply immgen_u]. }
  opcode_arm H 0x17. { injection H as <-. repeat split; [done|apply immgen_u]. }
  opcode_arm H 0x6f. { by injection H as <-. }
  opcode_arm H 0x67. { destruct (funct3 w =? 0); [|done]. injection H as <-. repeat split; [done|apply immgen_i]. }
  opcode_arm H 0x2f. { by apply decode_atomic_as. }
  opcode_arm H 0x73. { by apply decode_system_as. }
  opcode_arm H 0x0f; [|done].
  destruct (funct3 w <=? 1), (Z.eqb_spec (rd_of w) 0); try done. injection H as <-.
  cbn. rewrite csr_wen_other by lia. eauto.
Qed.

(** ** Loads and stores *)

(** What a word memory does with a request: it writes the bytes of the aligned
    word whose mask bit is set. *)
Definition write_lanes (m : mem) (addr mask data : Z) : mem := fun b =>
  let wa := addr - addr mod 4 in
  if (wa <=? b) && (b <? wa + 4) && Z.testbit mask (b - wa)
  then u8 (data .>> (8 * (b - wa))) else m b.

Lemma bits_low2 (a : Z) : bits 1 0 a = a mod 4.
Proof. rewrite bits_arith by lia. by rewrite Z.div_1_r. Qed.

Lemma bit1_mod4 (a : Z) : bit 1 a = (2 <=? a mod 4).
Proof.
  unfold bit. rewrite Z.testbit_odd. rewrite Z.shiftr_div_pow2 by lia. change (2 ^ 1) with 2.
  rewrite Zodd_mod. destruct (Z.leb_spec 2 (a mod 4)).
  - assert ((a / 2) mod 2 = 1) as -> by divlia. done.
  - assert ((a / 2) mod 2 = 0) as -> by divlia. done.
Qed.

(** Sign extension of a byte and of a halfword in the load path. *)

Lemma sext_byte (b : Z) : is_uint 8 b -> cat [rep 24 (bit 7 b); lit 8 b] = u32 (s8 b).
Proof.
  intros Hb. cat_arith. pose proof (bit_top 8 b ltac:(lia) Hb) as E.
  change (8 - 1) with 7 in E. rewrite E. unfold is_uint in Hb. unfold u32, s8, uwrap, swrap.
  change (2 ^ 7) with 128. destruct (Z.leb_spec 128 b); [change (Z.ones 24) with 0xffffff|]; divlia.
Qed.

Lemma sext_half (h : Z) : is_uint 16 h -> cat [rep 16 (bit 15 h); lit 16 h] = u32 (s16 h).
Proof.
  intros Hb. cat_arith. pose proof (bit_top 16 h ltac:(lia) Hb) as E.
  change (16 - 1) with 15 in E. rewrite E. unfold is_uint in Hb. unfold u32, s16, uwrap, swrap.
  change (2 ^ 15) with 32768. destruct (Z.leb_spec 32768 h); [change (Z.ones 16) with 0xffff|]; divlia.
Qed.

Lemma byte_sel_lane (ea v : Z) : byte_sel ea v = v / 2 ^ (8 * (ea mod 4)) mod 2 ^ 8.
Proof.
  unfold byte_sel. cbv zeta. rewrite bits_low2, !bits_arith by lia.
  pose proof (Z.mod_pos_bound ea 4 ltac:(lia)).
  assert (ea mod 4 = 0 \/ ea mod 4 = 1 \/ ea mod 4 = 2 \/ ea mod 4 = 3)
    as [->|[->|[->| ->]]] by lia; done.
Qed.

Lemma half_sel_lane (ea v : Z) :
  ea mod 2 = 0 -> half_sel ea v = v / 2 ^ (8 * (ea mod 4)) mod 2 ^ 16.
Proof.
  intros H2. unfold half_sel. rewrite bit1_mod4, !bits_arith by lia.
  assert (ea mod 4 = 0 \/ ea mod 4 = 2) as [->| ->] by divlia; done.
Qed.

Lemma misaligned_false (n ea : Z) : misaligned n ea = false -> ea mod n = 0.
Proof. unfold misaligned. by destruct (Z.eqb_spec (ea mod n) 0). Qed.

Lemma partial_load_lanes (inst ea v : Z) (o : load_op) :
  funct3 inst = load_code o -> is_uint 32 v -> misaligned (load_size o) ea = false ->
  partial_load inst ea v = load_lanes o ea v.
Proof.
  intros Hf Hv Ha%misaligned_false. unfold partial_load. fold (funct3 inst). rewrite Hf.
  unfold load_lanes. pose proof (Z.mod_pos_bound (v / 2 ^ (8 * (ea mod 4))) (2 ^ 8) ltac:(lia)).
  pose proof (Z.mod_pos_bound (v / 2 ^ (8 * (ea mod 4))) (2 ^ 16) ltac:(lia)).
  destruct o; cbn [load_code load_size extend Z.eqb Pos.eqb] in *; cbv zeta.
  - rewrite sext_byte; rewrite byte_sel_lane; [done|by unfold is_uint].
  - rewrite sext_half; rewrite half_sel_lane by done; [done|by unfold is_uint].
  - rewrite Ha. change (8 * 0) with 0. rewrite Z.div_1_r. symmetry. by apply Z.mod_small.
  - by rewrite byte_sel_lane.
  - by rewrite half_sel_lane.
Qed.

Lemma mem_byte_range (m : mem) (a : Z) : 0 <= mem_byte m a < 256.
Proof. apply Z.mod_pos_bound. lia. Qed.

Lemma mem_word_range (m : mem) (a : Z) : is_uint 32 (mem_word m a).
Proof.
  unfold mem_word, mem_half, is_uint. pose proof (mem_byte_range m a).
  pose proof (mem_byte_range m (a + 1)). pose proof (mem_byte_range m (a + 2)).
  pose proof (mem_byte_range m (a + 2 + 1)). lia.
Qed.

(** Only the four bytes of a word matter. *)
Lemma mem_word_ext (m m' : mem) (a : Z) :
  (forall k, 0 <= k < 4 -> m (a + k) = m' (a + k)) -> mem_word m a = mem_word m' a.
Proof.
  intros Hk. unfold mem_word, mem_half, mem_byte. rewrite <-!Z.add_assoc. rewrite !Hk by lia.
  pose proof (Hk 0 ltac:(lia)) as H0. rewrite Z.add_0_r in H0. by rewrite H0.
Qed.

Lemma lane_cases (ea : Z) :
  exists wa, ea = wa + ea mod 4 /\
    (ea mod 4 = 0 \/ ea mod 4 = 1 \/ ea mod 4 = 2 \/ ea mod 4 = 3).
Proof. exists (ea - ea mod 4). pose proof (Z.mod_pos_bound ea 4 ltac:(lia)). lia. Qed.

(** The lanes of the aligned word are the bytes at the address. *)
Lemma load_mem_lanes (o : load_op) (m : mem) (ea : Z) :
  misaligned (load_size o) ea = false ->
  load_lanes o ea (mem_word m (ea - ea mod 4)) = load_mem o m ea.
Proof.
  intros Ha%misaligned_false. unfold load_lanes, load_mem. f_equal.
  destruct (lane_cases ea) as (wa & Hw & Hc). replace (ea - ea mod 4) with wa by lia.
  unfold mem_word, mem_half. pose proof (mem_byte_range m wa).
  pose proof (mem_byte_range m (wa + 1)). pose proof (mem_byte_range m (wa + 2)).
  pose proof (mem_byte_range m (wa + 2 + 1)).
  destruct Hc as [Hc|[Hc|[Hc|Hc]]]; rewrite Hc in *; destruct o; cbn [load_size] in *;
    try (exfalso; clear -Ha Hc; divlia); rewrite Hw, ?Z.add_0_r; clear -H H0 H1 H2;
    try replace (wa + 3) with (wa + 2 + 1) by lia; try replace (wa + 1 + 1) with (wa + 2) by lia;
    try replace (wa + 2 + 1) with (wa + 3) in * by lia; divlia.
Qed.

(** The bytes of the replicated store data. *)
Lemma data_to_mem_byte (o : store_op) (inst x k : Z) :
  bits 13 12 inst = store_code o -> k = 0 \/ k = 1 \/ k = 2 \/ k = 3 ->
  u8 (data_to_mem inst x .>> (8 * k)) = u8 (x .>> (8 * (k mod store_size o))).
Proof.
  intros E Hk. unfold data_to_mem. rewrite E.
  destruct o; cbn [store_code store_size Z.eqb Pos.eqb]; cbv zeta; cat_arith;
    destruct Hk as [->|[->|[->| ->]]]; rewrite Z.shiftr_div_pow2, (Z.shiftr_div_pow2 x) by (vm_compute; discriminate);
    unfold u8, uwrap; eval_pow2; divlia.
Qed.

Lemma mask_lane (o : store_op) (inst ea off k : Z) :
  bits 13 12 inst = store_code o -> ea mod 4 = off -> off mod store_size o = 0 ->
  off = 0 \/ off = 1 \/ off = 2 \/ off = 3 -> k = 0 \/ k = 1 \/ k = 2 \/ k = 3 ->
  Z.testbit (mem_write_mask inst ea true) k = (off <=? k) && (k <? off + store_size o).
Proof.
  intros E Eo Ha Ho Hk. unfold mem_write_mask. rewrite E, bits_low2, bit1_mod4, Eo.
  destruct Ho as [->|[->|[->| ->]]], Hk as [->|[->|[->| ->]]], o; done.
Qed.

Lemma store_lanes (inst ea x b : Z) (o : store_op) (m : mem) :
  funct3 inst = store_code o -> misaligned (store_size o) ea = false ->
  write_lanes m ea (mem_write_mask inst ea true) (data_to_mem inst x) b =
  store_bytes (store_size o) m ea x b.
Proof.
  intros Hf Ha%misaligned_false. unfold write_lanes, store_bytes.
  assert (bits 13 12 inst = store_code o) as E.
  { assert (bits 13 12 inst = bits 1 0 (funct3 inst)) as ->
      by (unfold funct3; by rewrite (bits_bits 14 12 1 0) by lia).
    rewrite Hf. by destruct o. }
  destruct (lane_cases ea) as (wa & Hw & Hc). replace (ea - ea mod 4) with wa by lia.
  assert (ea mod 4 mod store_size o = 0) as Ha4 by (destruct o; cbn [store_size] in *; divlia).
  assert (ea mod 4 + store_size o <= 4) by (destruct o; cbn [store_size] in *; divlia).
  assert (0 < store_size o) by (by destruct o).
  destruct (decide (wa <= b < wa + 4)) as [Hb|Hb].
  - rewrite (proj2 (Z.leb_le wa b)), (proj2 (Z.ltb_lt b (wa + 4))) by lia. cbn [andb].
    rewrite (mask_lane o inst ea (ea mod 4)) by (done || lia).
    destruct (Z.leb_spec (ea mod 4) (b - wa)), (Z.leb_spec ea b); try lia; cbn [andb]; [|done].
    destruct (Z.ltb_spec (b - wa) (ea mod 4 + store_size o)), (Z.ltb_spec b (ea + store_size o));
      try lia.
    rewrite (data_to_mem_byte o) by (done || lia). do 3 f_equal.
    destruct o; cbn [store_size] in *; divlia.
  - assert ((ea <=? b) && (b <? ea + store_size o) = false) as ->.
    { destruct (Z.leb_spec ea b), (Z.ltb_spec b (ea + store_size o)); try done; lia. }
    by destruct (Z.leb_spec wa b), (Z.ltb_spec b (wa + 4)); try lia.
Qed.

(** ** Encodings that do not trap although they are not instructions

    The all-zero halfword is the C extension's illegal instruction; the
    decompressor turns it into [addi x8, x2, 0], so a jump into zeroed memory
    runs on.  [ebreak] and [fence] with a destination retire as an [add]. *)
Lemma zero_parcel_executes :
  decode16 0 = None /\ is_compressed 0 = true /\ illegal_inst (inst_expanded 0) = false /\
  decode (inst_expanded 0) = Some (OpImm ADD 8 2 0).
Proof. by vm_compute. Qed.

Lemma ebreak_is_add : illegal_inst 0x00100073 = false /\ control 0x00100073 = control 0x00000033.
Proof. by vm_compute. Qed.

Lemma fence_with_rd_writes :
  let w := 0x0ff5050f in   (* fence with rd = x10 and rs1 = x10 *)
  illegal_inst w = false /\ reg_wen (control w) = true /\ rd_of w = 10.
Proof. by vm_compute. Qed.
