(* ===== verification/DivUnit.v ===== *)
(** * The divider, [src/src/div_unit.v]

    A restoring divider, one quotient bit per cycle, cycle by cycle.  From a
    request it takes one cycle for the cases the specification fixes and 33
    for the others, and ends with the architectural quotient and remainder of
    any two 32-bit operands. *)

From S2P Require Import Prelude Bits Rv32.

Module DivUnit.

Record regs : Type := {
  busy : bool; done : bool;
  quotient : Z; remainder : Z;
  count : Z; divisor_abs : Z;
  rq : Z;                      (* {remainder in progress, quotient in progress} *)
  neg_q : bool; neg_r : bool;
}.

(** The state after reset; the data registers are not reset. *)
Definition reset (q r c d x : Z) (nq nr : bool) : regs :=
  {| busy := false; done := false; quotient := q; remainder := r; count := c;
     divisor_abs := d; rq := x; neg_q := nq; neg_r := nr |}.

Definition negate (x : Z) : Z := u32 (Z.lnot x + 1).
Definition abs_of (is_signed : bool) (a : Z) : Z := if is_signed && bit 31 a then negate a else a.

(** One subtraction step: [{rq[62:0], 0}], a 33-bit trial subtraction of the
    upper half, and the new quotient bit. *)
Definition rq_shifted (rq : Z) : Z := cat [field 62 0 rq; lit 1 0].
Definition trial33 (rq divisor_abs : Z) : Z := uwrap 33 (bits 63 32 (rq_shifted rq) - divisor_abs).
Definition rq_next (rq divisor_abs : Z) : Z :=
  if bit 32 (trial33 rq divisor_abs) then rq_shifted rq
  else cat [field 31 0 (trial33 rq divisor_abs); field 31 1 (rq_shifted rq); lit 1 1].

Definition step (start : bool) (a b : Z) (is_signed : bool) (s : regs) : regs :=
  if start && negb (busy s) && negb (done s) then
    if b =? 0 then
      {| busy := busy s; done := true; quotient := 0xFFFFFFFF; remainder := a; count := count s;
         divisor_abs := divisor_abs s; rq := rq s; neg_q := neg_q s; neg_r := neg_r s |}
    else if is_signed && (a =? 0x80000000) && (b =? 0xFFFFFFFF) then
      {| busy := busy s; done := true; quotient := 0x80000000; remainder := 0; count := count s;
         divisor_abs := divisor_abs s; rq := rq s; neg_q := neg_q s; neg_r := neg_r s |}
    else
      {| busy := true; done := false; quotient := quotient s; remainder := remainder s;
         count := 0; divisor_abs := abs_of is_signed b; rq := cat [lit 32 0; lit 32 (abs_of is_signed a)];
         neg_q := is_signed && xorb (bit 31 a) (bit 31 b); neg_r := is_signed && bit 31 a |}
  else if busy s then
    let next := rq_next (rq s) (divisor_abs s) in
    if count s =? 31 then
      {| busy := false; done := true;
         quotient := if neg_q s then negate (bits 31 0 next) else bits 31 0 next;
         remainder := if neg_r s then negate (bits 63 32 next) else bits 63 32 next;
         count := count s; divisor_abs := divisor_abs s; rq := next;
         neg_q := neg_q s; neg_r := neg_r s |}
    else
      {| busy := true; done := false; quotient := quotient s; remainder := remainder s;
         count := uwrap 5 (count s + 1); divisor_abs := divisor_abs s; rq := next;
         neg_q := neg_q s; neg_r := neg_r s |}
  else
    {| busy := busy s; done := false; quotient := quotient s; remainder := remainder s;
       count := count s; divisor_abs := divisor_abs s; rq := rq s; neg_q := neg_q s; neg_r := neg_r s |}.

End DivUnit.

(** ** The value of the working register *)

(** [rq] after [k] steps on [x / d]: the upper bits of [x] have been divided,
    the rest wait below the quotient bits. *)
Definition partial (x d k : Z) : Z :=
  let top := x / 2 ^ (32 - k) in
  (top mod d) * 2 ^ 32 + (x mod 2 ^ (32 - k)) * 2 ^ k + top / d.

Lemma rq_shifted_val (r : Z) : 0 <= r < 2 ^ 63 -> DivUnit.rq_shifted r = 2 * r.
Proof.
  intros Hr. unfold DivUnit.rq_shifted. cat_arith. change (62 - 0 + 1) with 63.
  rewrite bits_small by (lia || done). rewrite (Z.mod_small r) by done. eval_pow2.
  change (0 mod 2) with 0. lia.
Qed.

(** One step of the register, as a value: the upper half below 2^31 and the
    divisor. *)
Lemma rq_step (hi lo d : Z) :
  0 < d < 2 ^ 32 -> 0 <= hi < d -> hi < 2 ^ 31 -> 0 <= lo < 2 ^ 32 ->
  let top := 2 * hi + lo / 2 ^ 31 in
  DivUnit.rq_next (hi * 2 ^ 32 + lo) d =
  (top mod d) * 2 ^ 32 + (2 * lo) mod 2 ^ 32 + top / d.
Proof.
  intros Hd Hh Hh31 Hlo top. unfold DivUnit.rq_next, DivUnit.trial33.
  rewrite rq_shifted_val by lia.
  assert (bits 63 32 (2 * (hi * 2 ^ 32 + lo)) = top) as ->.
  { rewrite bits_arith by lia. subst top. eval_pow2. change (63 - 32 + 1) with 32. eval_pow2. divlia. }
  assert (0 <= top < 2 * d) as Ht by (subst top; clear -Hh Hlo; divlia).
  assert (top < 2 ^ 32) as Ht32 by (subst top; clear -Hh31 Hlo; divlia).
  assert ((2 * lo) mod 2 ^ 32 = 2 * (hi * 2 ^ 32 + lo) - top * 2 ^ 32) as ->.
  { subst top. clear -Hlo. divlia. }
  assert (bit 32 (uwrap 33 (top - d)) = (top <? d)) as ->.
  { pose proof (bit_top 33 (uwrap 33 (top - d)) ltac:(lia) (uwrap_range 33 (top - d) ltac:(lia))) as E.
    change (33 - 1) with 32 in E. rewrite E. unfold uwrap. destruct (Z.ltb_spec top d).
    - apply Z.leb_le. clear -Ht H Hd. divlia.
    - apply Z.leb_gt. clear -Ht H Hd Ht32. divlia. }
  destruct (Z.ltb_spec top d).
  - rewrite Z.mod_small, Z.div_small by lia. lia.
  - rewrite <-(Z.mod_unique top d 1 (top - d)), <-(Z.div_unique top d 1 (top - d)) by lia.
    cat_arith. rewrite !bits_arith by lia. unfold uwrap.
    change (31 - 0 + 1) with 32. change (31 - 1 + 1) with 31. eval_pow2.
    assert (2 * (hi * 4294967296 + lo) - top * 4294967296 = 2 * (lo mod 2 ^ 31)) as ->.
    { subst top. clear -Hlo. divlia. }
    clear -Ht Ht32 H Hd Hlo. eval_pow2. divlia.
Qed.

(** Every step of the working register divides one more bit. *)
Lemma partial_step (x d k : Z) :
  is_uint 32 x -> 0 < d < 2 ^ 32 -> 0 <= k < 32 ->
  DivUnit.rq_next (partial x d k) d = partial x d (k + 1).
Proof.
  intros Hx Hd Hk. unfold is_uint in Hx.
  set (P := 2 ^ (31 - k)). set (Q := 2 ^ k).
  assert (0 < P) by (apply Z.pow_pos_nonneg; lia). assert (0 < Q) by (apply Z.pow_pos_nonneg; lia).
  assert (P * Q = 2 ^ 31) as HPQ.
  { subst P Q. rewrite <-Z.pow_add_r by lia. f_equal. lia. }
  assert (Q <= 2 ^ 31) as HQ by nia.
  assert (2 ^ (32 - k) = 2 * P) as E1.
  { subst P. rewrite <-Z.pow_succ_r by lia. f_equal. lia. }
  assert (2 ^ (k + 1) = 2 * Q) as E2 by (subst Q; by rewrite Z.pow_add_r, Z.mul_comm by lia).
  unfold partial. replace (32 - (k + 1)) with (31 - k) by lia. rewrite E1, E2. fold P Q.
  assert (x mod (2 * P) = x mod P + (x / P) mod 2 * P) as Em.
  { rewrite (Z.mul_comm 2 P), Z.rem_mul_r by lia. lia. }
  pose proof (Z.mod_pos_bound x P ltac:(lia)).
  assert (x / P = 2 * (x / (2 * P)) + x mod (2 * P) / P) as Etop.
  { rewrite Em, Z.div_add, (Z.div_small (x mod P)) by lia.
    rewrite (Z.mul_comm 2 P), <-Z.div_div by lia. pose proof (Z.div_mod (x / P) 2 ltac:(lia)). lia. }
  assert (x mod P = (x mod (2 * P)) mod P) as Ey.
  { rewrite Em, Z.mod_add, Z.mod_mod by lia. done. }
  assert (0 <= x / (2 * P) < Q) as Ht by (split; [apply Z.div_pos; lia|apply Z.div_lt_upper_bound; lia]).
  rewrite Etop, Ey. revert Ht. generalize (x / (2 * P)). intros top Ht.
  pose proof (Z.mod_pos_bound x (2 * P) ltac:(lia)) as Hy. revert Hy.
  generalize (x mod (2 * P)). intros y Hy.
  pose proof (Z.div_mod y P ltac:(lia)) as EyP. pose proof (Z.mod_pos_bound y P ltac:(lia)) as Hy'.
  revert EyP Hy'. generalize (y / P) (y mod P). intros c y' EyP Hy'.
  pose proof (Z.div_mod top d ltac:(lia)) as Eq. pose proof (Z.mod_pos_bound top d ltac:(lia)) as Hhi.
  assert (0 <= top / d <= top) as Hq by (split; [apply Z.div_pos; lia|apply Z.div_le_upper_bound; nia]).
  revert Eq Hhi Hq. generalize (top / d) (top mod d). intros q hi Eq Hhi Hq.
  assert (0 <= y' * Q + q < P * Q) as Hlow by nia.
  assert (y * Q + q = c * (P * Q) + (y' * Q + q)) as Elo by nia.
  assert (0 <= c <= 1) as Hc by nia.
  rewrite <-Z.add_assoc, rq_step by nia.
  rewrite HPQ in Elo, Hlow.
  assert ((y * Q + q) / 2 ^ 31 = c) as ->.
  { symmetry. apply (Z.div_unique _ _ _ (y' * Q + q)); lia. }
  assert ((2 * (y * Q + q)) mod 2 ^ 32 = 2 * (y' * Q + q)) as ->.
  { symmetry. apply (Z.mod_unique _ _ c); lia. }
  replace (2 * top + c) with (2 * hi + c + 2 * q * d) by nia.
  rewrite Z.mod_add, Z.div_add by lia. lia.
Qed.

(** ** The result *)

Definition quot_of (is_signed : bool) (a b : Z) : Z := alu_sem (if is_signed then DIV else DIVU) a b.
Definition rem_of (is_signed : bool) (a b : Z) : Z := alu_sem (if is_signed then REM else REMU) a b.

Lemma s32_bit (a : Z) : is_uint 32 a -> s32 a = if bit 31 a then a - 2 ^ 32 else a.
Proof.
  intros Ha. pose proof (bit_top 32 a ltac:(lia) Ha) as E. change (32 - 1) with 31 in E. rewrite E.
  unfold is_uint in Ha. unfold s32, swrap. change (32 - 1) with 31.
  destruct (Z.leb_spec (2 ^ 31) a); divlia.
Qed.

Lemma negate_val (x : Z) : DivUnit.negate x = u32 (- x).
Proof. unfold DivUnit.negate. f_equal. unfold Z.lnot. lia. Qed.

(** The operands the divider works on, and the signs it restores. *)
Lemma abs_val (sg : bool) (a : Z) :
  is_uint 32 a -> DivUnit.abs_of sg a = if sg then Z.abs (s32 a) else a.
Proof.
  intros Ha. unfold DivUnit.abs_of. destruct sg; [|done]. cbn [andb]. rewrite s32_bit by done.
  pose proof (bit_top 32 a ltac:(lia) Ha) as E. change (32 - 1) with 31 in E.
  unfold is_uint in Ha. destruct (bit 31 a).
  - rewrite negate_val. symmetry in E. apply Z.leb_le in E. unfold u32, uwrap. divlia.
  - lia.
Qed.

Lemma sign_of (a : Z) : is_uint 32 a -> bit 31 a = (s32 a <? 0).
Proof.
  intros Ha. rewrite s32_bit by done. unfold is_uint in Ha.
  destruct (bit 31 a) eqn:E; destruct (Z.ltb_spec (a - 2 ^ 32) 0), (Z.ltb_spec a 0); try done; lia.
Qed.

Lemma signed_quot (x y : Z) :
  y <> 0 ->
  (if xorb (x <? 0) (y <? 0) then - (Z.abs x / Z.abs y) else Z.abs x / Z.abs y) = Z.quot x y.
Proof.
  intros Hy. rewrite Z.quot_div by done.
  destruct (Z.ltb_spec x 0), (Z.ltb_spec y 0); cbn;
    [rewrite !Z.sgn_neg by lia|rewrite Z.sgn_neg, (Z.sgn_pos y) by lia| |]; try lia.
  - destruct (Z.eq_dec x 0) as [->|]; [done|]. rewrite Z.sgn_pos, Z.sgn_neg by lia. lia.
  - destruct (Z.eq_dec x 0) as [->|]; [done|]. rewrite !Z.sgn_pos by lia. lia.
Qed.

Lemma signed_rem (x y : Z) :
  y <> 0 -> (if x <? 0 then - (Z.abs x mod Z.abs y) else Z.abs x mod Z.abs y) = Z.rem x y.
Proof.
  intros Hy. rewrite Z.rem_mod by done. destruct (Z.ltb_spec x 0).
  - rewrite Z.sgn_neg by lia. lia.
  - destruct (Z.eq_dec x 0) as [->|]; [done|]. rewrite Z.sgn_pos by lia. lia.
Qed.

Lemma restored_quot (sg : bool) (a b : Z) :
  is_uint 32 a -> is_uint 32 b -> b <> 0 ->
  u32 (if sg && xorb (bit 31 a) (bit 31 b)
       then - (DivUnit.abs_of sg a / DivUnit.abs_of sg b)
       else DivUnit.abs_of sg a / DivUnit.abs_of sg b) = quot_of sg a b.
Proof.
  intros Ha Hb Hb0. unfold quot_of. rewrite !abs_val, !sign_of by done.
  destruct sg; cbn [andb alu_sem]; cbv zeta; rewrite (proj2 (Z.eqb_neq b 0)) by done.
  - rewrite <-signed_quot; [done|]. rewrite s32_bit by done. unfold is_uint in Hb. destruct (bit 31 b); lia.
  - apply uwrap_id. unfold is_uint in *. split; [apply Z.div_pos; lia|].
    apply Z.div_lt_upper_bound; nia.
Qed.

Lemma restored_rem (sg : bool) (a b : Z) :
  is_uint 32 a -> is_uint 32 b -> b <> 0 ->
  u32 (if sg && bit 31 a
       then - (DivUnit.abs_of sg a mod DivUnit.abs_of sg b)
       else DivUnit.abs_of sg a mod DivUnit.abs_of sg b) = rem_of sg a b.
Proof.
  intros Ha Hb Hb0. unfold rem_of. rewrite !abs_val, !sign_of by done.
  destruct sg; cbn [andb alu_sem]; cbv zeta; rewrite (proj2 (Z.eqb_neq b 0)) by done.
  - rewrite <-(signed_rem (s32 a) (s32 b)); [done|].
    rewrite s32_bit by done. unfold is_uint in Hb. destruct (bit 31 b); lia.
  - apply uwrap_id. unfold is_uint in *. pose proof (Z.mod_pos_bound a b ltac:(lia)). lia.
Qed.

(** ** The states of a division *)

Definition idle (s : DivUnit.regs) : Prop := DivUnit.busy s = false /\ DivUnit.done s = false.

(** [k] quotient bits are known. *)
Record computing (sg : bool) (a b k : Z) (s : DivUnit.regs) : Prop := {
  c_busy : DivUnit.busy s = true;
  c_done : DivUnit.done s = false;
  c_count : DivUnit.count s = k;
  c_range : 0 <= k < 32;
  c_divisor : DivUnit.divisor_abs s = DivUnit.abs_of sg b;
  c_rq : DivUnit.rq s = partial (DivUnit.abs_of sg a) (DivUnit.abs_of sg b) k;
  c_neg_q : DivUnit.neg_q s = sg && xorb (bit 31 a) (bit 31 b);
  c_neg_r : DivUnit.neg_r s = sg && bit 31 a;
  c_nonzero : b <> 0;
}.

Definition holds_result (sg : bool) (a b : Z) (s : DivUnit.regs) : Prop :=
  DivUnit.busy s = false /\ DivUnit.quotient s = quot_of sg a b /\ DivUnit.remainder s = rem_of sg a b.

Definition finished (sg : bool) (a b : Z) (s : DivUnit.regs) : Prop :=
  DivUnit.done s = true /\ holds_result sg a b s.

Section Division.
Context (sg : bool) (a b : Z) (Ha : is_uint 32 a) (Hb : is_uint 32 b).

Lemma abs_range (x : Z) : is_uint 32 x -> is_uint 32 (DivUnit.abs_of sg x).
Proof.
  intros Hx. rewrite abs_val by done. destruct sg; [|done]. rewrite s32_bit by done.
  unfold is_uint in *. pose proof (bit_top 32 x ltac:(lia) Hx) as E. change (32 - 1) with 31 in E.
  destruct (bit 31 x); [symmetry in E; apply Z.leb_le in E|]; lia.
Qed.

Lemma abs_nonzero : b <> 0 -> 0 < DivUnit.abs_of sg b < 2 ^ 32.
Proof.
  intros H0. pose proof (abs_range b Hb) as Hr. unfold is_uint in Hr.
  assert (DivUnit.abs_of sg b <> 0); [|lia]. rewrite abs_val by done. destruct sg; [|done].
  rewrite s32_bit by done. unfold is_uint in Hb. destruct (bit 31 b); lia.
Qed.

Lemma start_step (s : DivUnit.regs) :
  idle s ->
  finished sg a b (DivUnit.step true a b sg s) \/ computing sg a b 0 (DivUnit.step true a b sg s).
Proof.
  intros [Hbu Hdo]. unfold DivUnit.step. rewrite Hbu, Hdo. cbn [negb andb].
  destruct (Z.eqb_spec b 0) as [E|E].
  { left. unfold finished, holds_result, quot_of, rem_of. rewrite E. by destruct sg. }
  destruct (sg && (a =? 0x80000000) && (b =? 0xFFFFFFFF)) eqn:Eo.
  { left. apply andb_true_iff in Eo as [[-> ->%Z.eqb_eq]%andb_true_iff ->%Z.eqb_eq]. done. }
  right. constructor; cbn; try done; try lia.
  unfold partial. pose proof (abs_range a Ha) as Hr. unfold is_uint in Hr. rewrite Z.sub_0_r.
  cat_arith. rewrite Z.div_small, Z.mod_small, Zmod_0_l, Zdiv_0_l by lia. lia.
Qed.

Lemma last_bits (r : Z) :
  b <> 0 -> r = partial (DivUnit.abs_of sg a) (DivUnit.abs_of sg b) 32 ->
  bits 31 0 r = DivUnit.abs_of sg a / DivUnit.abs_of sg b /\
  bits 63 32 r = DivUnit.abs_of sg a mod DivUnit.abs_of sg b.
Proof.
  intros H0 ->. pose proof (abs_nonzero H0). pose proof (abs_range a Ha) as Hr. unfold is_uint in Hr.
  unfold partial. rewrite !bits_arith by lia.
  change (2 ^ (32 - 32)) with 1. rewrite Z.div_1_r, Z.mod_1_r.
  revert Hr H. generalize (DivUnit.abs_of sg a) (DivUnit.abs_of sg b). intros x d Hx Hd.
  assert (0 <= x / d < 2 ^ 32).
  { split; [apply Z.div_pos; lia|]. apply Z.div_lt_upper_bound; nia. }
  pose proof (Z.mod_pos_bound x d ltac:(lia)). change (31 - 0 + 1) with 32.
  change (63 - 32 + 1) with 32. change (2 ^ 0) with 1. rewrite Z.div_1_r. split.
  - symmetry. apply (Z.mod_unique _ _ (x mod d)); lia.
  - rewrite (Z.add_comm _ (x / d)), Z.mul_0_l, Z.add_0_r, Z.div_add by lia.
    rewrite Z.div_small by lia. apply Z.mod_small. lia.
Qed.

Lemma computing_step (start sg' : bool) (a' b' k : Z) (s : DivUnit.regs) :
  computing sg a b k s ->
  if k =? 31 then finished sg a b (DivUnit.step start a' b' sg' s)
  else computing sg a b (k + 1) (DivUnit.step start a' b' sg' s).
Proof.
  intros [Hbu Hdo Hc Hk Hd Hrq Hq Hr H0]. unfold DivUnit.step. rewrite Hbu, Hdo, Hc, Hq, Hr, Hd, Hrq.
  cbn [negb]. rewrite andb_false_r. cbn [andb].
  rewrite partial_step by first [by apply abs_range | by apply abs_nonzero | lia].
  destruct (Z.eqb_spec k 31) as [->|Hk31].
  - destruct (last_bits _ H0 eq_refl) as [Eq Er]. change (31 + 1) with 32. rewrite Eq, Er, !negate_val.
    pose proof (restored_quot sg a b Ha Hb H0) as Rq. pose proof (restored_rem sg a b Ha Hb H0) as Rr.
    pose proof (abs_nonzero H0). pose proof (abs_range a Ha) as Hx. unfold is_uint in Hx.
    split; [done|]. split; [done|]. cbn [DivUnit.quotient DivUnit.remainder]. split.
    + revert Rq. destruct (sg && xorb (bit 31 a) (bit 31 b)); [done|]. intros Rq. rewrite <-Rq. symmetry. apply uwrap_id.
      split; [apply Z.div_pos; lia|]. apply Z.div_lt_upper_bound; nia.
    + revert Rr. destruct (sg && bit 31 a); [done|]. intros Rr. rewrite <-Rr. symmetry. apply uwrap_id.
      pose proof (Z.mod_pos_bound (DivUnit.abs_of sg a) (DivUnit.abs_of sg b) ltac:(lia)).
      unfold is_uint. lia.
  - constructor; cbn; try done; try lia. apply uwrap_id. unfold is_uint. lia.
Qed.

Lemma last_step (s : DivUnit.regs) :
  computing sg a b (Z.of_nat 31) s -> finished sg a b (DivUnit.step true a b sg s).
Proof. intros Hc. exact (computing_step true sg a b _ s Hc). Qed.

Lemma done_step (start sg' : bool) (a' b' : Z) (s : DivUnit.regs) :
  finished sg a b s ->
  DivUnit.done (DivUnit.step start a' b' sg' s) = false /\
  holds_result sg a b (DivUnit.step start a' b' sg' s).
Proof.
  intros [Hd (Hbu & Hq & Hr)]. unfold DivUnit.step. rewrite Hd, Hbu. cbn [negb].
  rewrite andb_false_r. by cbn.
Qed.

Lemma held_step (sg' : bool) (a' b' : Z) (s : DivUnit.regs) :
  DivUnit.done s = false -> holds_result sg a b s ->
  DivUnit.done (DivUnit.step false a' b' sg' s) = false /\
  holds_result sg a b (DivUnit.step false a' b' sg' s).
Proof. intros Hd (Hbu & Hq & Hr). unfold DivUnit.step. by rewrite Hbu. Qed.

(** [n] cycles with the request held. *)
Definition cycles (n : nat) (s : DivUnit.regs) : DivUnit.regs :=
  Nat.iter n (DivUnit.step true a b sg) s.

Lemma cycles_S (n : nat) (s : DivUnit.regs) :
  DivUnit.step true a b sg (cycles n s) = cycles (S n) s.
Proof. done. Qed.

Lemma computing_cycles (m : nat) (k : Z) (s : DivUnit.regs) :
  computing sg a b k s -> k + Z.of_nat m < 32 -> computing sg a b (k + Z.of_nat m) (cycles m s).
Proof.
  intros Hc. induction m as [|m IH]; intros Hm; [by rewrite Z.add_0_r|].
  specialize (IH ltac:(lia)). apply (computing_step true sg a b) in IH.
  destruct (Z.eqb_spec (k + Z.of_nat m) 31); [lia|].
  by replace (k + Z.of_nat (S m)) with (k + Z.of_nat m + 1) by lia.
Qed.
End Division.

(** C20: From any idle state and for any two 32-bit operands, a held request
    ends after at most 33 cycles, not signalling earlier, with the
    architectural quotient and remainder, division by zero and overflow
    included. *)
Theorem div_unit_correct (sg : bool) (a b : Z) (s : DivUnit.regs) :
  is_uint 32 a -> is_uint 32 b -> idle s ->
  exists n, (1 <= n <= 33)%nat /\ finished sg a b (cycles sg a b n s) /\
    forall m, (m < n)%nat -> DivUnit.done (cycles sg a b m s) = false.
Proof.
  intros Ha Hb Hs. destruct (start_step sg a b Ha Hb s Hs) as [Hf|Hc].
  - exists 1%nat. split_and!; [lia|lia|done|]. intros m Hm. assert (m = 0)%nat as -> by lia. apply Hs.
  - assert (forall m, (m < 32)%nat -> computing sg a b (Z.of_nat m) (cycles sg a b (S m) s)) as Hall.
    { intros m Hm. unfold cycles. rewrite Nat.iter_succ_r.
      apply (computing_cycles sg a b Ha Hb m 0 _ Hc). lia. }
    exists 33%nat. split_and!; [lia|lia| |].
    + rewrite <-(cycles_S sg a b 32). apply last_step; [done..|].
      apply (Hall 31%nat). lia.
    + intros [|m] Hm; [apply Hs|]. apply (c_done _ _ _ _ _ (Hall m ltac:(lia))).
Qed.

Module DivWitness.
Definition s0 : DivUnit.regs := DivUnit.reset 0 0 0 0 0 false false.

(** -7 divided by 2. *)
Lemma div_unit_correct_witness :
  idle s0 /\ exists n, (1 <= n <= 33)%nat /\
    finished true (2 ^ 32 - 7) 2 (cycles true (2 ^ 32 - 7) 2 n s0) /\
    forall m, (m < n)%nat -> DivUnit.done (cycles true (2 ^ 32 - 7) 2 m s0) = false.
Proof.
  split; [done|]. apply (div_unit_correct true (2 ^ 32 - 7) 2 s0); unfold is_uint; [lia|lia|done].
Defined.

Example minus_seven_by_two :
  quot_of true (2 ^ 32 - 7) 2 = 2 ^ 32 - 3 /\ rem_of true (2 ^ 32 - 7) 2 = 2 ^ 32 - 1.
Proof. by vm_compute. Qed.
End DivWitness.
