(* ===== verification/CpuUnits.v ===== *)
(** * The small units of the core

    [csr_file.v], [trap_controller.v], [reservation_monitor.v],
    [clint_timer.v] and [hazard_unit.v]: each as its registers, its
    combinational outputs and its clock edge.  [Cpu] wires them together. *)

From S2P Require Import Prelude Bits Rv32.

(** ** csr_file.v

    The six registers are [Rv32.csrs]. *)
Definition csr_reset : csrs :=
  {| mstatus := 0; mie := 0; mtvec := 0; mepc := 0; mcause := 0; mtval := 0 |}.

Definition csr_mip (external_pending timer_pending : bool) : Z :=
  cat [lit 20 0; lit 1 (Z.b2z external_pending); lit 3 0; lit 1 (Z.b2z timer_pending); lit 7 0].

Definition csr_rdata (c : csrs) (csr_addr : Z) (external_pending timer_pending : bool) : Z :=
  if csr_addr =? 0x300 then mstatus c
  else if csr_addr =? 0x304 then mie c
  else if csr_addr =? 0x305 then mtvec c
  else if csr_addr =? 0x341 then mepc c
  else if csr_addr =? 0x342 then mcause c
  else if csr_addr =? 0x343 then mtval c
  else if csr_addr =? 0x344 then csr_mip external_pending timer_pending
  else 0.

Definition csr_new (csr_op old actual_wdata : Z) : Z :=
  if csr_op =? 1 then actual_wdata
  else if csr_op =? 2 then old .| actual_wdata
  else old .& u32 (Z.lnot actual_wdata).

Definition csr_soft_write (csr_addr csr_op actual_wdata : Z) (c : csrs) : csrs :=
  let new old := csr_new csr_op old actual_wdata in
  {| mstatus := if csr_addr =? 0x300 then new (mstatus c) else mstatus c;
     mie := if csr_addr =? 0x304 then new (mie c) else mie c;
     mtvec := if csr_addr =? 0x305 then new (mtvec c) else mtvec c;
     mepc := if csr_addr =? 0x341 then new (mepc c) else mepc c;
     mcause := if csr_addr =? 0x342 then new (mcause c) else mcause c;
     mtval := if csr_addr =? 0x343 then new (mtval c) else mtval c |}.

(** ** trap_controller.v *)

Record trap_out : Type := {
  trap_taken : bool; trap_cause : Z; trap_val : Z; trap_pc : Z; mret_exec : bool;
  flush_if : bool; flush_id : bool; flush_ex : bool;
  pc_trap_override : bool; trap_target_pc : Z;
}.

Definition no_trap : trap_out :=
  {| trap_taken := false; trap_cause := 0; trap_val := 0; trap_pc := 0; mret_exec := false;
     flush_if := false; flush_id := false; flush_ex := false;
     pc_trap_override := false; trap_target_pc := 0 |}.

Definition take_trap (mret : bool) (cause val ex_pc target : Z) : trap_out :=
  {| trap_taken := true; trap_cause := cause; trap_val := val; trap_pc := ex_pc; mret_exec := mret;
     flush_if := true; flush_id := true; flush_ex := true;
     pc_trap_override := true; trap_target_pc := target |}.

Definition is_system (ex_inst : Z) : bool := bits 6 0 ex_inst =? 0x73.
Definition is_ecall (ex_inst : Z) : bool := is_system ex_inst && (bits 31 20 ex_inst =? 0).
Definition is_mret (ex_inst : Z) : bool := is_system ex_inst && (bits 31 20 ex_inst =? 0x302).

Definition trap_controller
    (ex_pc ex_inst : Z) (timer_irq external_irq : bool) (mtvec_out mepc_out : Z)
    (mem_stall ex_valid illegal_inst misalign_load misalign_store : bool) (fault_addr : Z)
    : trap_out :=
  let mret_fires := is_mret ex_inst && negb mem_stall in
  let ecall_fires := is_ecall ex_inst && negb mem_stall in
  let fault_illegal := ex_valid && illegal_inst && negb mem_stall in
  let fault_ld_align := ex_valid && misalign_load && negb mem_stall in
  let fault_st_align := ex_valid && misalign_store && negb mem_stall in
  let hw_irq := (timer_irq || external_irq) && negb (is_mret ex_inst) in
  if hw_irq then
    take_trap mret_fires (if external_irq then 0x8000000B else 0x80000007) 0 ex_pc mtvec_out
  else if fault_illegal then take_trap mret_fires 2 ex_inst ex_pc mtvec_out
  else if fault_ld_align || fault_st_align then
    take_trap mret_fires (if fault_ld_align then 4 else 6) fault_addr ex_pc mtvec_out
  else if ecall_fires then take_trap mret_fires 11 0 ex_pc mtvec_out
  else if mret_fires then
    {| trap_taken := false; trap_cause := 0; trap_val := 0; trap_pc := 0; mret_exec := true;
       flush_if := true; flush_id := true; flush_ex := true;
       pc_trap_override := true; trap_target_pc := mepc_out |}
  else no_trap.

(** The clock edge of [csr_file]: a trap wins over [mret], which wins over a
    CSR instruction. *)
Definition csr_clock (t : trap_out) (csr_wen : bool) (csr_addr csr_op actual_wdata : Z)
    (c : csrs) : csrs :=
  if trap_taken t then
    {| mstatus := put_bit 3 false (put_bit 7 (bit 3 (mstatus c)) (mstatus c));
       mie := mie c; mtvec := mtvec c;
       mepc := trap_pc t; mcause := trap_cause t; mtval := trap_val t |}
  else if mret_exec t then
    {| mstatus := put_bit 3 (bit 7 (mstatus c)) (mstatus c);
       mie := mie c; mtvec := mtvec c; mepc := mepc c; mcause := mcause c; mtval := mtval c |}
  else if csr_wen then csr_soft_write csr_addr csr_op actual_wdata c
  else c.

(** ** reservation_monitor.v *)

Record monitor : Type := { lock_valid : bool; reserved_addr : Z }.
Definition monitor_reset : monitor := {| lock_valid := false; reserved_addr := 0 |}.
Definition sc_successful (m : monitor) (mem_addr : Z) : bool :=
  lock_valid m && (mem_addr =? reserved_addr m).
Definition monitor_clock (lr_en sc_en any_store_en trap_taken : bool) (mem_addr : Z) (m : monitor)
    : monitor :=
  if trap_taken then {| lock_valid := false; reserved_addr := reserved_addr m |}
  else if lr_en then {| lock_valid := true; reserved_addr := mem_addr |}
  else if sc_en then {| lock_valid := false; reserved_addr := reserved_addr m |}
  else if any_store_en then {| lock_valid := false; reserved_addr := reserved_addr m |}
  else m.

(** ** clint_timer.v *)

Record clint : Type := { mtime : Z; mtimecmp : Z }.
Definition clint_reset : clint := {| mtime := 0; mtimecmp := 0xFFFFFFFF |}.
Definition timer_interrupt (c : clint) : bool := mtimecmp c <=? mtime c.
Definition clint_rdata (c : clint) (addr : Z) : Z :=
  let off := bits 3 0 addr in
  if off =? 0 then bits 31 0 (mtime c) else if off =? 4 then bits 63 32 (mtime c)
  else if off =? 8 then bits 31 0 (mtimecmp c) else if off =? 12 then bits 63 32 (mtimecmp c)
  else 0.
Definition clint_clock (wen : bool) (addr wdata : Z) (c : clint) : clint :=
  let off := bits 3 0 addr in
  let t := uwrap 64 (mtime c + 1) in
  {| mtime := if wen && (off =? 0) then cat [field 63 32 t; lit 32 wdata]
              else if wen && (off =? 4) then cat [lit 32 wdata; field 31 0 t]
              else t;
     mtimecmp := if wen && (off =? 8) then cat [field 63 32 (mtimecmp c); lit 32 wdata]
                 else if wen && (off =? 12) then cat [lit 32 wdata; field 31 0 (mtimecmp c)]
                 else mtimecmp c |}.

(** ** hazard_unit.v *)

Definition load_use_stall (id_ex_mem_read : bool) (id_ex_rd if_id_rs1 if_id_rs2 : Z)
    (if_id_rs1_used if_id_rs2_used : bool) : bool :=
  id_ex_mem_read && negb (id_ex_rd =? 0) &&
  ((if_id_rs1_used && (id_ex_rd =? if_id_rs1)) || (if_id_rs2_used && (id_ex_rd =? if_id_rs2))).

(** 0 the register file, 1 EX/MEM, 2 MEM/WB. *)
Definition forward (ex_mem_rd mem_wb_rd : Z) (ex_mem_reg_wen mem_wb_reg_wen : bool)
    (ex_mem_wb_sel : Z) (id_ex_rs : Z) : Z :=
  if ex_mem_reg_wen && negb (ex_mem_wb_sel =? 0) && (ex_mem_rd =? id_ex_rs) && negb (ex_mem_rd =? 0)
  then 1
  else if mem_wb_reg_wen && (mem_wb_rd =? id_ex_rs) && negb (mem_wb_rd =? 0) then 2
  else 0.
