(* ===== verification/Cpu.v ===== *)
(** * The processor core, [src/src/cpu.v]

    The five-stage pipeline, register by register and wire by wire, under the
    names of the source.  [cpu] holds every register of [cpu_pipelined] and of
    the modules it instantiates that are not devices; the caches, the serial
    port, the interrupt controller and the accelerator answer through
    [inputs].  The data side is a word memory that performs an access in the
    cycle it reports ready; [log] records the accesses that reach a device. *)

From S2P Require Import Prelude Bits Rv32 Rvc Decoder DivUnit CpuUnits.

(** ** Registers *)

Record if_id_reg : Type := mk_if_id {
  if_id_pc : Z; if_id_inst : Z; if_id_compressed : bool;
  if_id_predicted_taken : bool; if_id_predicted_target : Z; if_id_pht_index : Z;
  if_id_valid : bool;
}.

Record id_ex_reg : Type := mk_id_ex {
  id_ex_pc : Z; id_ex_rs1 : Z; id_ex_rs2 : Z; id_ex_imm : Z; id_ex_rd : Z; id_ex_inst : Z;
  id_ex_ctrl : ctrl;              (* the control word; its imm_sel is used in ID only *)
  id_ex_compressed : bool;
  id_ex_predicted_taken : bool; id_ex_predicted_target : Z; id_ex_pht_index : Z;
  id_ex_is_lr : bool; id_ex_is_sc : bool; id_ex_is_amo : bool; id_ex_atomic_op : Z;
  id_ex_csr_wen : bool; id_ex_illegal : bool;
  id_ex_csr_op : Z; id_ex_csr_use_imm : bool; id_ex_csr_uimm : Z;
  id_ex_valid : bool;
}.

Record ex_mem_reg : Type := mk_ex_mem {
  ex_mem_alu : Z; ex_mem_rs2 : Z; ex_mem_inst : Z; ex_mem_pc : Z; ex_mem_compressed : bool;
  ex_mem_rd : Z; ex_mem_reg_wen : bool; ex_mem_mem_rw : bool; ex_mem_wb_sel : Z;
  ex_mem_is_lr : bool; ex_mem_is_sc : bool; ex_mem_is_amo : bool; ex_mem_atomic_op : Z;
  ex_mem_valid : bool;
}.

Record mem_wb_reg : Type := mk_mem_wb {
  mem_wb_alu : Z; mem_wb_memdata : Z; mem_wb_pc : Z; mem_wb_inst : Z; mem_wb_compressed : bool;
  mem_wb_rd : Z; mem_wb_reg_wen : bool; mem_wb_wb_sel : Z; mem_wb_valid : bool;
}.

(** The branch predictor: pattern history, global history, return stack. *)
Record predictor : Type := {
  pht : Z -> Z; ghr : Z; ras_stack : Z -> Z; ras_sp : Z; ras_count : Z;
}.

Inductive amo_fsm : Type := AMO_IDLE | AMO_READ | AMO_WRITE.

(** The handshake with a peripheral: [*_pending], [*_done], [*_rdata_latched]. *)
Record port : Type := { pending : bool; done : bool; rdata_latched : Z }.

Record cpu : Type := mk_cpu {
  pc : Z;
  if_id : if_id_reg; id_ex : id_ex_reg; ex_mem : ex_mem_reg; mem_wb : mem_wb_reg;
  rf : Z -> Z;
  csr : csrs;
  bp : predictor;
  div : DivUnit.regs; div_result_ready : bool;
  amo_state : amo_fsm; amo_old_value : Z; amo_result_ready : bool;
  rm : monitor;
  uart : port; intc : port; accel : port;
  clint_regs : clint;
  leds_sw : Z; stall_watchdog : Z; stall_hung : bool;
}.

(** What the rest of the chip answers in a cycle. *)
Record inputs : Type := {
  cache_ready : bool; if_inst : Z;
  dcache_ready : bool; dcache_read_data : Z;
  uart_ready : bool; uart_rdata : Z;
  intc_ready : bool; intc_rdata : Z;
  accel_ready : bool; accel_rdata : Z;
  intc_irq_out : bool;
}.

(** ** Address map *)

Definition LED_ADDR : Z := 0x2000.
Definition is_led (a : Z) : bool := a =? LED_ADDR.
Definition is_uart (a : Z) : bool := a .& 0xFFFFFFF0 =? 0x40001000.
Definition is_clint (a : Z) : bool := a .& 0xFFFFFFF0 =? 0x02000000.
Definition is_intc (a : Z) : bool := a .& 0xFFFFFFF8 =? 0x00004000.
Definition is_accel (a : Z) : bool := a .& 0xFFFFFF00 =? 0x00005000.
Definition is_mmio (a : Z) : bool := is_led a || is_clint a.
Definition mem_addr_is_cacheable (a : Z) : bool :=
  negb (is_mmio a) && negb (is_uart a) && negb (is_intc a) && negb (is_accel a).

(** ** MEM stage, without the answers of this cycle *)

Section Mem.
Variable s : cpu.
Let m := ex_mem s.

Definition is_load : bool := (ex_mem_wb_sel m =? 0) && ex_mem_reg_wen m && negb (ex_mem_is_amo m).
Definition is_store : bool := ex_mem_mem_rw m.
Definition sc_success_flag : bool := sc_successful (rm s) (ex_mem_alu m).
Definition store_commits : bool := is_store && (negb (ex_mem_is_sc m) || sc_success_flag).

Definition amo_read_phase : bool :=
  ex_mem_is_amo m && match amo_state s with AMO_READ => true | _ => false end.
Definition amo_write_phase : bool :=
  ex_mem_is_amo m && match amo_state s with AMO_WRITE => true | _ => false end
  && negb (amo_result_ready s).
Definition amo_stall : bool := ex_mem_is_amo m && negb (amo_result_ready s).

Definition amo_new_value : Z :=
  let op := ex_mem_atomic_op m in
  let old := amo_old_value s in
  let x := ex_mem_rs2 m in
  if op =? 1 then x
  else if op =? 0 then u32 (old + x)
  else if op =? 4 then old .^ x
  else if op =? 12 then old .& x
  else if op =? 8 then old .| x
  else if op =? 16 then if s32 old <? s32 x then old else x
  else if op =? 20 then if s32 old >? s32 x then old else x
  else if op =? 24 then if old <? x then old else x
  else if op =? 28 then if old >? x then old else x
  else x.

Definition dcache_ren : bool := (is_load || amo_read_phase) && mem_addr_is_cacheable (ex_mem_alu m).
Definition dcache_wen : bool := (store_commits || amo_write_phase) && mem_addr_is_cacheable (ex_mem_alu m).
Definition dcache_valid : bool := dcache_ren || dcache_wen.

Definition store_data : Z :=
  if amo_write_phase then amo_new_value else data_to_mem (ex_mem_inst m) (ex_mem_rs2 m).
Definition raw_write_mask : Z := mem_write_mask (ex_mem_inst m) (ex_mem_alu m) (ex_mem_mem_rw m).
Definition block_sc_store : bool := ex_mem_is_sc m && negb sc_success_flag.
Definition mem_write_mask_out : Z :=
  if amo_write_phase then 15 else if block_sc_store then 0 else raw_write_mask.

Definition final_alu_to_wb : Z :=
  if ex_mem_is_sc m then if sc_success_flag then 0 else 1 else ex_mem_alu m.

(** A peripheral is asked once per access: [*_valid], [*_req], [*_stall]. *)
Definition port_valid (sel : Z -> bool) : bool := sel (ex_mem_alu m) && (is_load || store_commits).
Definition uart_valid : bool := port_valid is_uart.
Definition intc_valid : bool := port_valid is_intc.
Definition accel_valid : bool := port_valid is_accel.
Definition uart_stall : bool := uart_valid && negb (done (uart s)).
Definition intc_stall : bool := intc_valid && negb (done (intc s)).
Definition accel_stall : bool := accel_valid && negb (done (accel s)).
End Mem.

Definition port_clock (valid gms ready : bool) (rdata : Z) (p : port) : port :=
  let req := valid && negb (pending p) && negb (done p) in
  {| pending := if req then true else if ready then false else pending p;
     done := if ready then true else if negb gms then false else done p;
     rdata_latched := if ready then rdata else rdata_latched p |}.

(** ** WB stage *)

Section Wb.
Variable s : cpu.
Let b := mem_wb s.

Definition inc_of (compressed : bool) : Z := if compressed then 2 else 4.

Definition partial_load_out : Z := partial_load (mem_wb_inst b) (mem_wb_alu b) (mem_wb_memdata b).
Definition wb_data : Z :=
  if mem_wb_wb_sel b =? 1 then mem_wb_alu b
  else if mem_wb_wb_sel b =? 0 then partial_load_out
  else if mem_wb_wb_sel b =? 2 then u32 (mem_wb_pc b + inc_of (mem_wb_compressed b))
  else 0.

(** [regfile.v]: the read ports bypass the write of this cycle. *)
Definition read_data (index : Z) : Z :=
  if index =? 0 then 0
  else if mem_wb_reg_wen b && (mem_wb_rd b =? index) then wb_data
  else rf s index.
Definition rf_clock : Z -> Z :=
  if mem_wb_reg_wen b && negb (mem_wb_rd b =? 0) then fupd (rf s) (mem_wb_rd b) wb_data else rf s.
End Wb.

(** ** EX stage *)

Section Ex.
Variable s : cpu.
Let e := id_ex s.
Let m := ex_mem s.

Definition fwd_a : Z :=
  forward (ex_mem_rd m) (mem_wb_rd (mem_wb s)) (ex_mem_reg_wen m) (mem_wb_reg_wen (mem_wb s))
    (ex_mem_wb_sel m) (rs1_of (id_ex_inst e)).
Definition fwd_b : Z :=
  forward (ex_mem_rd m) (mem_wb_rd (mem_wb s)) (ex_mem_reg_wen m) (mem_wb_reg_wen (mem_wb s))
    (ex_mem_wb_sel m) (rs2_of (id_ex_inst e)).

Definition ex_mem_forward_data : Z :=
  if ex_mem_is_sc m then final_alu_to_wb s
  else if ex_mem_wb_sel m =? 2 then u32 (ex_mem_pc m + inc_of (ex_mem_compressed m))
  else ex_mem_alu m.

Definition fwd_rs1 : Z :=
  if fwd_a =? 1 then ex_mem_forward_data else if fwd_a =? 2 then wb_data s else id_ex_rs1 e.
Definition fwd_rs2 : Z :=
  if fwd_b =? 1 then ex_mem_forward_data else if fwd_b =? 2 then wb_data s else id_ex_rs2 e.

Definition alu_a : Z := if a_sel (id_ex_ctrl e) then id_ex_pc e else fwd_rs1.
Definition alu_b : Z := if b_sel (id_ex_ctrl e) then id_ex_imm e else fwd_rs2.
Definition redirect_target_adder : Z := u32 (alu_a + alu_b).

Definition ex_op_load : bool := bits 6 0 (id_ex_inst e) =? 0x03.
Definition ex_op_store : bool := bits 6 0 (id_ex_inst e) =? 0x23.
Definition ex_op_atomic : bool := bits 6 0 (id_ex_inst e) =? 0x2f.
Definition ex_acc_size : Z := bits 13 12 (id_ex_inst e).
Definition ex_data_addr : Z := redirect_target_adder.
Definition ex_size_misaligned : bool :=
  if ex_acc_size =? 1 then bit 0 ex_data_addr
  else if ex_acc_size =? 2 then negb (bits 1 0 ex_data_addr =? 0)
  else false.
Definition ex_misalign_load : bool := ex_op_load && ex_size_misaligned.
Definition ex_misalign_store : bool :=
  (ex_op_store && ex_size_misaligned) || (ex_op_atomic && negb (bits 1 0 ex_data_addr =? 0)).

Definition alu_out : Z := alu (alu_sel (id_ex_ctrl e)) alu_a alu_b.

Definition is_div_op : bool := bits 4 2 (alu_sel (id_ex_ctrl e)) =? 4.
Definition div_is_signed : bool := negb (bit 0 (alu_sel (id_ex_ctrl e))).
Definition div_want_rem : bool := bit 1 (alu_sel (id_ex_ctrl e)).
Definition div_start : bool :=
  is_div_op && negb (DivUnit.busy (div s)) && negb (DivUnit.done (div s))
  && negb (div_result_ready s).
Definition div_stall : bool := is_div_op && negb (div_result_ready s).
Definition div_clock : DivUnit.regs := DivUnit.step div_start alu_a alu_b div_is_signed (div s).

Definition ex_result : Z :=
  if is_div_op then if div_want_rem then DivUnit.remainder (div s) else DivUnit.quotient (div s)
  else alu_out.

Definition ex_opcode : Z := bits 6 0 (id_ex_inst e).
Definition ex_funct3 : Z := bits 14 12 (id_ex_inst e).
Definition id_ex_is_branch : bool := ex_opcode =? 0x63.
Definition id_ex_is_jal : bool := ex_opcode =? 0x6f.
Definition id_ex_is_jalr : bool := ex_opcode =? 0x67.
Definition id_ex_br_eq : bool := br_eq fwd_rs1 fwd_rs2.
Definition id_ex_br_lt : bool := br_lt fwd_rs1 fwd_rs2 (bit 1 ex_funct3).

Definition branch_actual_taken : bool :=
  (id_ex_br_eq && (id_ex_is_branch && (ex_funct3 =? 0)))
  || (negb id_ex_br_eq && (id_ex_is_branch && (ex_funct3 =? 1)))
  || (id_ex_br_lt && (id_ex_is_branch && (ex_funct3 =? 4) || id_ex_is_branch && (ex_funct3 =? 6)))
  || (negb id_ex_br_lt && (id_ex_is_branch && (ex_funct3 =? 5) || id_ex_is_branch && (ex_funct3 =? 7))).

Definition branch_mispredicted : bool :=
  id_ex_is_branch && negb (eqb branch_actual_taken (id_ex_predicted_taken e)).
Definition jalr_ras_mispredicted : bool :=
  id_ex_is_jalr && id_ex_predicted_taken e
  && negb (redirect_target_adder =? id_ex_predicted_target e).
Definition pc_sel : bool :=
  (id_ex_is_jal && negb (id_ex_predicted_taken e))
  || (id_ex_is_jalr && (negb (id_ex_predicted_taken e) || jalr_ras_mispredicted))
  || branch_mispredicted.
Definition id_ex_pc_plus_inc : Z := u32 (id_ex_pc e + inc_of (id_ex_compressed e)).
Definition ex_redirect_target : Z :=
  (if id_ex_is_jal || id_ex_is_jalr || branch_actual_taken
   then redirect_target_adder else id_ex_pc_plus_inc) .& 0xFFFFFFFE.

(** Load-use hazards, with the instruction in ID. *)
Definition if_id_opc : Z := bits 6 2 (if_id_inst (if_id s)).
Definition if_id_rs2_used : bool :=
  (if_id_opc =? 12) || (if_id_opc =? 8) || (if_id_opc =? 24) || (if_id_opc =? 11).
Definition if_id_rs1_used : bool :=
  negb ((if_id_opc =? 27) || (if_id_opc =? 13) || (if_id_opc =? 5)).
Definition id_ex_mem_read : bool :=
  (wb_sel (id_ex_ctrl e) =? 0) && reg_wen (id_ex_ctrl e).
Definition stall : bool :=
  load_use_stall id_ex_mem_read (id_ex_rd e) (rs1_of (if_id_inst (if_id s)))
    (rs2_of (if_id_inst (if_id s))) if_id_rs1_used if_id_rs2_used.
End Ex.

(** What MEM hands to WB, given the word the data cache shows. *)
Definition led_rdata (s : cpu) : Z :=
  cat [lit 1 (Z.b2z (stall_hung s)); lit 11 0; lit 16 (stall_watchdog s); lit 4 (leds_sw s)].
Definition final_mem_read_data (s : cpu) (dcache_word : Z) : Z :=
  let m := ex_mem s in
  let a := ex_mem_alu m in
  if ex_mem_is_amo m then amo_old_value s
  else if is_clint a then clint_rdata (clint_regs s) a
  else if is_led a then led_rdata s
  else if is_uart a then rdata_latched (uart s)
  else if is_intc a then rdata_latched (intc s)
  else if is_accel a then rdata_latched (accel s)
  else dcache_word.

(** ** The cycle, with the answers of the rest of the chip *)
Section Cycle.
Variable (s : cpu) (i : inputs).

Definition imem_stall : bool := negb (cache_ready i).
Definition dmem_stall : bool := dcache_valid s && negb (dcache_ready i).
Definition global_mem_stall : bool :=
  dmem_stall || imem_stall || div_stall s || uart_stall s || intc_stall s || amo_stall s
  || accel_stall s.

(** IF *)
Definition raw_inst : Z := if_inst i.
Definition if_compressed : bool := is_compressed (bits 15 0 raw_inst).
Definition muxed_if_inst : Z := if if_compressed then inst_expanded (bits 15 0 raw_inst) else raw_inst.
Definition pc_inc : Z := inc_of if_compressed.

(** Traps and interrupts *)
Definition ex_irq (line_enable line : bool) : bool :=
  bit 3 (mstatus (csr s)) && line_enable && line && id_ex_valid (id_ex s)
  && negb global_mem_stall && negb (stall s).
Definition timer_fires : bool := ex_irq (bit 7 (mie (csr s))) (timer_interrupt (clint_regs s)).
Definition external_fires : bool := ex_irq (bit 11 (mie (csr s))) (intc_irq_out i).
Definition TRAP_CTRL : trap_out :=
  trap_controller (id_ex_pc (id_ex s)) (id_ex_inst (id_ex s)) timer_fires external_fires
    (mtvec (csr s)) (mepc (csr s)) global_mem_stall (id_ex_valid (id_ex s))
    (id_ex_illegal (id_ex s)) (ex_misalign_load s) (ex_misalign_store s) (ex_data_addr s).

(** Prediction *)
Definition if_opcode : Z := bits 6 0 muxed_if_inst.
Definition if_is_branch : bool := if_opcode =? 0x63.
Definition if_is_jal : bool := if_opcode =? 0x6f.
Definition if_is_jalr : bool := if_opcode =? 0x67.
Definition link_reg (r : Z) : bool := (r =? 1) || (r =? 5).
Definition if_rd_is_link : bool := link_reg (rd_of muxed_if_inst).
Definition if_rs1_is_link : bool := link_reg (rs1_of muxed_if_inst).
Definition if_ras_push_pattern : bool := if_rd_is_link && (if_is_jal || if_is_jalr).
Definition if_ras_pop_pattern : bool := if_is_jalr && if_rs1_is_link && negb if_rd_is_link.
Definition if_jal_taken : bool := if_is_jal && negb (stall s) && negb global_mem_stall.
Definition if_b_imm : Z :=
  cat [rep 20 (bit 31 muxed_if_inst); field 7 7 muxed_if_inst; field 30 25 muxed_if_inst;
       field 11 8 muxed_if_inst; lit 1 0].
Definition if_j_imm : Z :=
  cat [rep 12 (bit 31 muxed_if_inst); field 19 12 muxed_if_inst; field 20 20 muxed_if_inst;
       field 30 21 muxed_if_inst; lit 1 0].
Definition if_branch_or_jal_target : Z :=
  if if_is_branch then u32 (pc s + if_b_imm) else u32 (pc s + if_j_imm).
Definition if_predict_commit : bool :=
  negb (stall s) && negb global_mem_stall && negb (pc_sel s) && negb (flush_if TRAP_CTRL)
  && negb (flush_id TRAP_CTRL).
Definition if_pht_index : Z := bits 10 1 (pc s) .^ ghr (bp s).
Definition ras_empty : bool := ras_count (bp s) =? 0.
Definition ras_top : Z := ras_stack (bp s) (uwrap 3 (ras_sp (bp s) - 1)).
Definition if_ras_hit : bool := if_ras_pop_pattern && negb ras_empty && if_predict_commit.
Definition if_predicted_taken : bool :=
  (if_is_branch && bit 1 (pht (bp s) if_pht_index) && negb (stall s) && negb global_mem_stall)
  || if_jal_taken || if_ras_hit.
Definition if_predicted_target : Z := if if_ras_hit then ras_top else if_branch_or_jal_target.

Definition ghr_before : Z := id_ex_pht_index (id_ex s) .^ bits 10 1 (id_ex_pc (id_ex s)).
Definition ghr_clock : Z :=
  if branch_mispredicted s then cat [field 8 0 ghr_before; lit 1 (Z.b2z (branch_actual_taken s))]
  else if if_is_branch && if_predict_commit
  then cat [field 8 0 (ghr (bp s)); lit 1 (Z.b2z if_predicted_taken)]
  else ghr (bp s).
Definition pht_clock : Z -> Z :=
  let k := id_ex_pht_index (id_ex s) in
  let c := pht (bp s) k in
  if id_ex_is_branch s && id_ex_valid (id_ex s) && negb global_mem_stall then
    if branch_actual_taken s then fupd (pht (bp s)) k (if c =? 3 then 3 else c + 1)
    else fupd (pht (bp s)) k (if c =? 0 then 0 else c - 1)
  else pht (bp s).
Definition bp_clock : predictor :=
  let push := if_ras_push_pattern && if_predict_commit in
  let pop := if_ras_pop_pattern && if_predict_commit && negb ras_empty in
  {| pht := pht_clock; ghr := ghr_clock;
     ras_stack := if push then fupd (ras_stack (bp s)) (ras_sp (bp s)) (u32 (pc s + pc_inc))
                  else ras_stack (bp s);
     ras_sp := if push then uwrap 3 (ras_sp (bp s) + 1)
               else if pop then uwrap 3 (ras_sp (bp s) - 1) else ras_sp (bp s);
     ras_count := if push then if ras_count (bp s) =? 8 then 8 else ras_count (bp s) + 1
                  else if pop then ras_count (bp s) - 1 else ras_count (bp s) |}.

(** program_counter *)
Definition actual_pc_sel : bool := pc_trap_override TRAP_CTRL || pc_sel s || if_predicted_taken.
Definition actual_jump_target : Z :=
  if pc_trap_override TRAP_CTRL then trap_target_pc TRAP_CTRL
  else if pc_sel s then ex_redirect_target s
  else if_predicted_target.
Definition pc_stall : bool := (stall s && negb (pc_trap_override TRAP_CTRL)) || global_mem_stall.
Definition pc_clock : Z :=
  if pc_stall then pc s
  else if actual_pc_sel then actual_jump_target else u32 (pc s + pc_inc).

(** ** Clock edges *)

(** The bubbles that a flush leaves in a stage register. *)
Definition if_id_clear : if_id_reg := mk_if_id 0 0x13 false false 0 0 false.
Definition ctrl_clear : ctrl := mk_ctrl false false false false 0 0 0.
Definition id_ex_clear : id_ex_reg :=
  mk_id_ex 0 0 0 0 0 0x13 ctrl_clear false false 0 0 false false false 0 false false 0 false 0 false.

Definition if_id_clock : if_id_reg :=
  if global_mem_stall then if_id s
  else if pc_sel s || flush_if TRAP_CTRL then if_id_clear
  else if stall s then if_id s
  else
    {| if_id_pc := pc s; if_id_inst := muxed_if_inst; if_id_compressed := if_compressed;
       if_id_predicted_taken := if_predicted_taken; if_id_predicted_target := if_predicted_target;
       if_id_pht_index := if_pht_index; if_id_valid := true |}.

Definition id_ex_load : id_ex_reg :=
  let d := if_id s in
  let inst := if_id_inst d in
  {| id_ex_pc := if_id_pc d; id_ex_rs1 := read_data s (rs1_of inst);
     id_ex_rs2 := read_data s (rs2_of inst); id_ex_imm := immgen inst (imm_sel (control inst));
     id_ex_rd := rd_of inst; id_ex_inst := inst; id_ex_ctrl := control inst;
     id_ex_compressed := if_id_compressed d; id_ex_predicted_taken := if_id_predicted_taken d;
     id_ex_predicted_target := if_id_predicted_target d; id_ex_pht_index := if_id_pht_index d;
     id_ex_is_lr := out_is_lr inst; id_ex_is_sc := out_is_sc inst; id_ex_is_amo := out_is_amo inst;
     id_ex_atomic_op := atomic_funct5 inst; id_ex_csr_wen := csr_wen inst;
     id_ex_illegal := illegal_inst inst; id_ex_csr_op := csr_op_of inst;
     id_ex_csr_use_imm := csr_use_imm inst; id_ex_csr_uimm := csr_uimm inst;
     id_ex_valid := if_id_valid d |}.
Definition id_ex_clock : id_ex_reg :=
  if global_mem_stall then id_ex s
  else if pc_sel s || stall s || flush_id TRAP_CTRL then id_ex_clear
  else id_ex_load.

Definition ex_csr_wen : bool := id_ex_csr_wen (id_ex s) && negb global_mem_stall && negb (stall s).
Definition csr_operand : Z :=
  if id_ex_csr_use_imm (id_ex s) then id_ex_csr_uimm (id_ex s) else fwd_rs1 s.
Definition csr_addr : Z := bits 31 20 (id_ex_inst (id_ex s)).
Definition csr_out : Z :=
  csr_rdata (csr s) csr_addr (intc_irq_out i) (timer_interrupt (clint_regs s)).
Definition csr_next : csrs :=
  csr_clock TRAP_CTRL ex_csr_wen csr_addr (id_ex_csr_op (id_ex s)) csr_operand (csr s).
Definition actual_ex_result : Z := if id_ex_csr_wen (id_ex s) then csr_out else ex_result s.

(** A flush clears only the fields that have side effects. *)
Definition ex_mem_clock : ex_mem_reg :=
  let e := id_ex s in
  let m := ex_mem s in
  if global_mem_stall then m
  else if flush_ex TRAP_CTRL then
    {| ex_mem_alu := ex_mem_alu m; ex_mem_rs2 := ex_mem_rs2 m; ex_mem_inst := 0x13;
       ex_mem_pc := ex_mem_pc m; ex_mem_compressed := ex_mem_compressed m; ex_mem_rd := ex_mem_rd m;
       ex_mem_reg_wen := false; ex_mem_mem_rw := false; ex_mem_wb_sel := ex_mem_wb_sel m;
       ex_mem_is_lr := false; ex_mem_is_sc := false; ex_mem_is_amo := false;
       ex_mem_atomic_op := ex_mem_atomic_op m; ex_mem_valid := false |}
  else
    {| ex_mem_alu := actual_ex_result; ex_mem_rs2 := fwd_rs2 s; ex_mem_inst := id_ex_inst e;
       ex_mem_pc := id_ex_pc e; ex_mem_compressed := id_ex_compressed e; ex_mem_rd := id_ex_rd e;
       ex_mem_reg_wen := reg_wen (id_ex_ctrl e); ex_mem_mem_rw := mem_rw (id_ex_ctrl e);
       ex_mem_wb_sel := wb_sel (id_ex_ctrl e);
       ex_mem_is_lr := id_ex_is_lr e; ex_mem_is_sc := id_ex_is_sc e; ex_mem_is_amo := id_ex_is_amo e;
       ex_mem_atomic_op := id_ex_atomic_op e; ex_mem_valid := id_ex_valid e |}.

Definition mem_wb_clock : mem_wb_reg :=
  let m := ex_mem s in
  if global_mem_stall then mem_wb s
  else
    {| mem_wb_alu := final_alu_to_wb s; mem_wb_memdata := final_mem_read_data s (dcache_read_data i);
       mem_wb_pc := ex_mem_pc m; mem_wb_inst := ex_mem_inst m;
       mem_wb_compressed := ex_mem_compressed m; mem_wb_rd := ex_mem_rd m;
       mem_wb_reg_wen := ex_mem_reg_wen m; mem_wb_wb_sel := ex_mem_wb_sel m;
       mem_wb_valid := ex_mem_valid m |}.

Definition div_result_ready_clock : bool :=
  if DivUnit.done (div s) then true
  else if div_result_ready s && negb global_mem_stall then false
  else div_result_ready s.

(** The AMO sequencer: state, old value, result flag. *)
Definition amo_restart : bool :=
  negb (ex_mem_is_amo (ex_mem s)) || (amo_result_ready s && negb global_mem_stall).
Definition amo_state_clock : amo_fsm :=
  if amo_restart then AMO_IDLE
  else match amo_state s with
       | AMO_IDLE => AMO_READ
       | AMO_READ => if dcache_ready i then AMO_WRITE else AMO_READ
       | AMO_WRITE => AMO_WRITE
       end.
Definition amo_old_value_clock : Z :=
  if amo_restart then amo_old_value s
  else match amo_state s with
       | AMO_READ => if dcache_ready i then dcache_read_data i else amo_old_value s
       | _ => amo_old_value s
       end.
Definition amo_result_ready_clock : bool :=
  if amo_restart then false
  else match amo_state s with
       | AMO_WRITE => if dcache_ready i then true else amo_result_ready s
       | _ => amo_result_ready s
       end.

Definition lr_reservation_set : bool :=
  ex_mem_is_lr (ex_mem s) && dcache_ren s && dcache_ready i.
Definition sc_reservation_clear : bool := ex_mem_is_sc (ex_mem s) && negb global_mem_stall.
Definition normal_store_reservation_clear : bool :=
  let a := ex_mem_alu (ex_mem s) in
  (is_store s && negb (ex_mem_is_sc (ex_mem s)) &&
   (is_mmio a || (dcache_wen s && dcache_ready i) || (is_uart a && uart_ready i)
    || (is_intc a && intc_ready i) || (is_accel a && accel_ready i)))
  || (amo_write_phase s && dcache_ready i).
Definition rm_clock : monitor :=
  monitor_clock lr_reservation_set sc_reservation_clear normal_store_reservation_clear
    (trap_taken TRAP_CTRL) (ex_mem_alu (ex_mem s)) (rm s).

Definition clint_wen : bool :=
  store_commits s && is_clint (ex_mem_alu (ex_mem s)) && negb global_mem_stall.
Definition leds_clock : Z :=
  if negb global_mem_stall && store_commits s && is_led (ex_mem_alu (ex_mem s))
  then bits 3 0 (ex_mem_rs2 (ex_mem s)) else leds_sw s.

(** The watchdog counts cycles of unbroken stall up to its limit. *)
Definition STALL_WATCHDOG_LIMIT : Z := 0xFFFF.
Definition watchdog_clock : Z :=
  if negb global_mem_stall then 0
  else if stall_watchdog s <? STALL_WATCHDOG_LIMIT then stall_watchdog s + 1 else stall_watchdog s.
Definition hung_clock : bool :=
  if negb global_mem_stall then stall_hung s
  else if stall_watchdog s <? STALL_WATCHDOG_LIMIT then stall_hung s else true.

Definition clock : cpu :=
  let gms := global_mem_stall in
  {| pc := pc_clock; if_id := if_id_clock; id_ex := id_ex_clock; ex_mem := ex_mem_clock;
     mem_wb := mem_wb_clock; rf := rf_clock s; csr := csr_next; bp := bp_clock;
     div := div_clock s; div_result_ready := div_result_ready_clock;
     amo_state := amo_state_clock; amo_old_value := amo_old_value_clock;
     amo_result_ready := amo_result_ready_clock; rm := rm_clock;
     uart := port_clock (uart_valid s) gms (uart_ready i) (uart_rdata i) (uart s);
     intc := port_clock (intc_valid s) gms (intc_ready i) (intc_rdata i) (intc s);
     accel := port_clock (accel_valid s) gms (accel_ready i) (accel_rdata i) (accel s);
     clint_regs := clint_clock clint_wen (ex_mem_alu (ex_mem s)) (ex_mem_rs2 (ex_mem s)) (clint_regs s);
     leds_sw := leds_clock; stall_watchdog := watchdog_clock; stall_hung := hung_clock |}.

(** ** The memory and the devices *)

(** The memory acts in the cycle the data cache is ready. *)
Definition ram_clock (ram : mem) : mem :=
  if dcache_wen s && dcache_ready i
  then write_lanes ram (ex_mem_alu (ex_mem s)) (mem_write_mask_out s) (store_data s) else ram.

(** The accesses that devices see completed in this cycle: a peripheral when it
    answers, the timer and the LEDs when the instruction leaves MEM. *)
Definition device_event (rdata : Z) : event :=
  let m := ex_mem s in
  if store_commits s then DevWrite (ex_mem_alu m) (ex_mem_rs2 m) else DevRead (ex_mem_alu m) rdata.
Definition events : list event :=
  (if uart_valid s && uart_ready i then [device_event (uart_rdata i)] else []) ++
  (if intc_valid s && intc_ready i then [device_event (intc_rdata i)] else []) ++
  (if accel_valid s && accel_ready i then [device_event (accel_rdata i)] else []) ++
  (if is_mmio (ex_mem_alu (ex_mem s)) && (is_load s || store_commits s) && negb global_mem_stall
   then [device_event (final_mem_read_data s (dcache_read_data i))] else []).
End Cycle.

(** ** The chip: core, memory and the log of device accesses *)

Record soc : Type := mk_soc { core : cpu; ram : mem; log : list event }.

Definition tick (i : inputs) (w : soc) : soc :=
  {| core := clock (core w) i; ram := ram_clock (core w) i (ram w);
     log := log w ++ events (core w) i |}.

(** The aligned word at the address in MEM. *)
Definition ram_word (s : cpu) (m : mem) : Z :=
  let a := ex_mem_alu (ex_mem s) in mem_word m (a - a mod 4).

(** The rest of the chip keeps its protocols: the data cache is ready only when
    it is asked, and shows the word it is asked for; a peripheral answers only
    a pending request, with a 32-bit word. *)
Record inputs_ok (w : soc) (i : inputs) : Prop := {
  io_dcache : dcache_ready i = true -> dcache_valid (core w) = true;
  io_dcache_data : dcache_ready i = true -> dcache_ren (core w) = true ->
    dcache_read_data i = ram_word (core w) (ram w);
  io_uart : uart_ready i = true -> pending (uart (core w)) = true;
  io_intc : intc_ready i = true -> pending (intc (core w)) = true;
  io_accel : accel_ready i = true -> pending (accel (core w)) = true;
  io_rdata : is_uint 32 (uart_rdata i) /\ is_uint 32 (intc_rdata i) /\ is_uint 32 (accel_rdata i);
}.

Fixpoint run (ins : list inputs) (w : soc) : soc :=
  match ins with [] => w | i :: ins => run ins (tick i w) end.

(** The instruction side: at the addresses of [code] the instruction cache, when
    it is ready, shows the 32-bit parcel [imem]; elsewhere, where only fetches
    that are discarded go, it may show anything. *)
Section Program.
Variable (imem : Z -> Z) (code : Z -> bool).

Definition fetch_ok (s : cpu) (i : inputs) : Prop :=
  cache_ready i = true -> code (pc s) = true -> if_inst i = imem (pc s).

Fixpoint run_ok (ins : list inputs) (w : soc) : Prop :=
  match ins with
  | [] => True
  | i :: ins => inputs_ok w i /\ fetch_ok (core w) i /\ run_ok ins (tick i w)
  end.
End Program.

(** ** Reset

    The register file, the predictor tables, the divider's and the sequencer's
    data registers are not reset. *)
Definition RESET_PC : Z := 0x40000000.
Definition port_reset : port := {| pending := false; done := false; rdata_latched := 0 |}.
Definition ex_mem_reset : ex_mem_reg :=
  mk_ex_mem 0 0 0x13 0 false 0 false false 0 false false false 0 false.
Definition mem_wb_reset : mem_wb_reg := mk_mem_wb 0 0 0 0x13 false 0 false 0 false.

Definition reset (regs : Z -> Z) (pht0 ras0 : Z -> Z) (d : DivUnit.regs) (old : Z) : cpu :=
  {| pc := RESET_PC; if_id := if_id_clear; id_ex := id_ex_clear; ex_mem := ex_mem_reset;
     mem_wb := mem_wb_reset; rf := regs; csr := csr_reset;
     bp := {| pht := pht0; ghr := 0; ras_stack := ras0; ras_sp := 0; ras_count := 0 |};
     div := DivUnit.reset (DivUnit.quotient d) (DivUnit.remainder d) (DivUnit.count d)
              (DivUnit.divisor_abs d) (DivUnit.rq d) (DivUnit.neg_q d) (DivUnit.neg_r d);
     div_result_ready := false; amo_state := AMO_IDLE; amo_old_value := old;
     amo_result_ready := false; rm := monitor_reset;
     uart := port_reset; intc := port_reset; accel := port_reset; clint_regs := clint_reset;
     leds_sw := 0; stall_watchdog := 0; stall_hung := false |}.
