(* ===== verification/CpuSpec.v ===== *)
(** * What the core promises

    The architecture of [Rv32] over the instruction parcels the core fetches:
    one step executes an instruction, takes a trap, or takes an interrupt.
    [safe] is the contract of software: it stays in its code, which does not
    change, and has no reserved encoding that the decoder does not trap, no atomic access to a device, and halfword-aligned trap
    vectors and return addresses. *)

From S2P Require Import Prelude Bits Rv32 Rvc Decoder CpuUnits Cpu.

(** ** Fetch *)

(** The instruction word that reaches the decoder. *)
Definition final_inst (w : Z) : Z :=
  if is_compressed (bits 15 0 w) then inst_expanded (bits 15 0 w) else w.
Definition parcel_len (w : Z) : Z := inc_of (is_compressed (bits 15 0 w)).

Inductive fetched : Type :=
  | Legal (i : instr) (len : Z)
  | Illegal (tval : Z)
  | Reserved.

(** A parcel is decoded by the tables of the architecture.  Of the encodings
    they do not define, those the decoder flags trap. *)
Definition arch_decode (w : Z) : fetched :=
  match (if is_compressed (bits 15 0 w) then decode16 (bits 15 0 w) else decode w) with
  | Some i => Legal i (parcel_len w)
  | None => if illegal_inst (final_inst w) then Illegal (final_inst w) else Reserved
  end.

(** ** Steps *)

Definition dev (a : Z) : bool := negb (mem_addr_is_cacheable a).

Inductive label : Type :=
  | LInstr (l : lines) (v : Z)      (* interrupt lines and device answer *)
  | LIrq (external : bool).

(** Interrupts are taken between instructions when enabled. *)
Definition irq_enabled (external : bool) (c : csrs) : bool :=
  bit 3 (mstatus c) && bit (if external then 11 else 7) (mie c).
Definition irq_cause (external : bool) : Z := if external then 0x8000000B else 0x80000007.

Section Arch.
Variable imem : Z -> Z.
Variable code : Z -> bool.

Definition arch_step (lb : label) (a : arch) : option (arch * list event) :=
  match lb with
  | LInstr l v =>
      match arch_decode (imem (a_pc a)) with
      | Legal i len => Some (exec dev l v i len a)
      | Illegal tval => Some (trap 2 tval a, [])
      | Reserved => None
      end
  | LIrq ext =>
      if irq_enabled ext (a_csr a) then Some (trap (irq_cause ext) 0 a, []) else None
  end.

Fixpoint arch_run (lbs : list label) (a : arch) : option (arch * list event) :=
  match lbs with
  | [] => Some (a, [])
  | lb :: lbs => p ← arch_step lb a; q ← arch_run lbs p.1; Some (q.1, p.2 ++ q.2)
  end.

(** The address of an atomic instruction is memory. *)
Definition atomic_ok (i : instr) (a : arch) : bool :=
  match i with
  | Lr _ r | Sc _ r _ | Amo _ _ r _ => negb (dev (u32 (getreg a r)))
  | _ => true
  end.

Definition safe (a : arch) : Prop :=
  a_pc a mod 2 = 0 /\ code (a_pc a) = true /\
  match arch_decode (imem (a_pc a)) with
  | Legal i _ => atomic_ok i a = true
  | Illegal _ => True
  | Reserved => False
  end.

(** Every state that can be reached from [a] is safe, when devices answer with
    32-bit words. *)
Definition label_ok (lb : label) : Prop :=
  match lb with LInstr _ v => is_uint 32 v | LIrq _ => True end.
Definition well_behaved (a : arch) : Prop :=
  forall lbs a' evs, Forall label_ok lbs -> arch_run lbs a = Some (a', evs) -> safe a'.

Lemma arch_run_app (lbs lbs' : list label) (a a1 a2 : arch) (e1 e2 : list event) :
  arch_run lbs a = Some (a1, e1) -> arch_run lbs' a1 = Some (a2, e2) ->
  arch_run (lbs ++ lbs') a = Some (a2, e1 ++ e2).
Proof.
  induction lbs as [|lb lbs IH] in a, e1 |- *; cbn; intros H1 H2; [by simplify_eq|].
  destruct (arch_step lb a) as [[b f]|]; [|done]. cbn in *.
  destruct (arch_run lbs b) as [[c g]|] eqn:E; [|done]. cbn in *. simplify_eq.
  rewrite (IH b g E H2). cbn. by rewrite app_assoc.
Qed.

Lemma well_behaved_safe (a : arch) : well_behaved a -> safe a.
Proof. intros H. apply (H [] a []); [done|done]. Qed.

Lemma well_behaved_run (lbs : list label) (a a' : arch) (evs : list event) :
  Forall label_ok lbs -> well_behaved a -> arch_run lbs a = Some (a', evs) -> well_behaved a'.
Proof.
  intros Hl Hw Hr lbs' b f Hf Hb. apply (Hw (lbs ++ lbs') b (evs ++ f)).
  - by apply Forall_app.
  - by apply (arch_run_app _ _ _ a').
Qed.

Lemma arch_run_one (lb : label) (a a' : arch) (evs : list event) :
  arch_step lb a = Some (a', evs) -> arch_run [lb] a = Some (a', evs).
Proof. intros H. cbn. rewrite H. cbn. by rewrite app_nil_r. Qed.

Lemma well_behaved_step (lb : label) (a a' : arch) (evs : list event) :
  label_ok lb -> well_behaved a -> arch_step lb a = Some (a', evs) -> well_behaved a'.
Proof. intros Hl Hw Hs%arch_run_one. apply (well_behaved_run [lb] a a' evs); [by constructor|done|done]. Qed.
End Arch.

(** A legal parcel reaches the decoder as a word with the same decoding. *)
Lemma arch_decode_legal (w : Z) (i : instr) (len : Z) :
  arch_decode w = Legal i len -> decode (final_inst w) = Some i /\ len = parcel_len w.
Proof.
  unfold arch_decode, final_inst. intros H. destruct (is_compressed (bits 15 0 w)).
  - destruct (decode16 _) eqn:D; [|by destruct (illegal_inst _)]. simplify_eq.
    split; [|done]. apply expand_decodes; [|done]. by apply (bits_range 15 0).
  - destruct (decode w) eqn:D; [|by destruct (illegal_inst _)]. by simplify_eq.
Qed.

Lemma arch_decode_illegal (w tval : Z) :
  arch_decode w = Illegal tval -> illegal_inst (final_inst w) = true /\ tval = final_inst w.
Proof.
  unfold arch_decode. destruct (if is_compressed _ then _ else _); [done|].
  destruct (illegal_inst _); intros; by simplify_eq.
Qed.

(** ** Well-formed states: 32-bit registers *)

Record wf_csrs (c : csrs) : Prop := {
  wf_mstatus : is_uint 32 (mstatus c); wf_mie : is_uint 32 (mie c);
  wf_mtvec : is_uint 32 (mtvec c); wf_mepc : is_uint 32 (mepc c);
  wf_mcause : is_uint 32 (mcause c); wf_mtval : is_uint 32 (mtval c);
}.

Record wf_arch (a : arch) : Prop := {
  wf_pc : is_uint 32 (a_pc a);
  wf_regs : forall r, is_uint 32 (getreg a r);
  wf_csr : wf_csrs (a_csr a);
}.

(** ** Issue and completion

    What an instruction does is settled when it leaves EX, but for the access
    it makes in MEM.  [issue] splits [exec] accordingly: the next address, the
    CSRs and a memory operation that MEM performs. *)

Inductive mop : Type :=
  | MAlu (rd val : Z)
  | MLoad (o : load_op) (rd ea : Z)
  | MStore (o : store_op) (ea x : Z)
  | MLr (rd ea : Z)
  | MSc (rd ea x : Z)
  | MAmo (o : amo_op) (rd ea x : Z).

Definition traps (i : instr) (a : arch) : option (Z * Z) :=
  let r := getreg a in
  let check size cause ea := if misaligned size ea then Some (cause, ea) else None in
  match i with
  | Load o _ rs1 imm => check (load_size o) 4 (u32 (r rs1 + imm))
  | Store o rs1 _ imm => check (store_size o) 6 (u32 (r rs1 + imm))
  | Lr _ rs1 | Sc _ rs1 _ | Amo _ _ rs1 _ => check 4 6 (u32 (r rs1))
  | Ecall => Some (11, 0)
  | _ => None
  end.

Definition next_of (i : instr) (len : Z) (a : arch) : Z :=
  let r := getreg a in
  match i with
  | Jal _ imm => u32 (a_pc a + imm)
  | Jalr _ rs1 imm => Z.clearbit (u32 (r rs1 + imm)) 0
  | Branch o rs1 rs2 imm =>
      if branch_sem o (r rs1) (r rs2) then u32 (a_pc a + imm) else u32 (a_pc a + len)
  | Mret => mepc (a_csr a)
  | _ => u32 (a_pc a + len)
  end.

Definition src_val (src : csr_src) (a : arch) : Z :=
  match src with FromReg r => getreg a r | FromImm u => u end.

Definition csr_of (i : instr) (a : arch) : csrs :=
  match i with
  | Csr o _ n src => csr_update (csr_sem o (src_val src a)) n (a_csr a)
  | Mret => leave_trap (a_csr a)
  | _ => a_csr a
  end.

Definition mop_of (l : lines) (i : instr) (len : Z) (a : arch) : mop :=
  let r := getreg a in
  match i with
  | Op o rd rs1 rs2 => MAlu rd (alu_sem o (r rs1) (r rs2))
  | OpImm o rd rs1 imm => MAlu rd (alu_sem o (r rs1) (u32 imm))
  | Lui rd imm => MAlu rd imm
  | Auipc rd imm => MAlu rd (u32 (a_pc a + imm))
  | Jal rd _ | Jalr rd _ _ => MAlu rd (u32 (a_pc a + len))
  | Load o rd rs1 imm => MLoad o rd (u32 (r rs1 + imm))
  | Store o rs1 rs2 imm => MStore o (u32 (r rs1 + imm)) (r rs2)
  | Lr rd rs1 => MLr rd (u32 (r rs1))
  | Sc rd rs1 rs2 => MSc rd (u32 (r rs1)) (r rs2)
  | Amo o rd rs1 rs2 => MAmo o rd (u32 (r rs1)) (r rs2)
  | Csr _ rd n _ => MAlu rd (csr_read l (a_csr a) n)
  | Branch _ _ _ _ | Ecall | Mret | Nop => MAlu 0 0
  end.

Definition perform (next : Z) (c : csrs) (op : mop) (v : Z) (a : arch) : arch * list event :=
  let to regs m resv :=
    {| a_pc := next; a_regs := regs; a_csr := c; a_mem := m; a_resv := resv |} in
  let regs := a_regs a in
  let m := a_mem a in
  match op with
  | MAlu rd val => (to (setreg rd val regs) m (a_resv a), [])
  | MLoad o rd ea =>
      if dev ea then (to (setreg rd (load_lanes o ea v) regs) m (a_resv a), [DevRead ea v])
      else (to (setreg rd (load_mem o m ea) regs) m (a_resv a), [])
  | MStore o ea x =>
      (to regs (if dev ea then m else store_bytes (store_size o) m ea x) None,
       if dev ea then [DevWrite ea x] else [])
  | MLr rd ea => (to (setreg rd (mem_word m ea) regs) m (Some ea), [])
  | MSc rd ea x =>
      (to (setreg rd (if sc_succeeds ea a then 0 else 1) regs)
          (if sc_succeeds ea a then store_bytes 4 m ea x else m) None, [])
  | MAmo o rd ea x =>
      (to (setreg rd (mem_word m ea) regs)
          (store_bytes 4 m ea (amo_sem o (mem_word m ea) x)) None, [])
  end.

Lemma exec_issue (l : lines) (v : Z) (i : instr) (len : Z) (a : arch) :
  exec dev l v i len a =
  match traps i a with
  | Some p => (trap p.1 p.2 a, [])
  | None => perform (next_of i len a) (csr_of i a) (mop_of l i len a) v a
  end.
Proof.
  destruct i; try reflexivity; cbn [exec traps].
  - unfold exec_load. destruct (misaligned _ _); [done|]. cbn [perform mop_of]. by destruct (dev _).
  - unfold exec_store. by destruct (misaligned _ _).
  - unfold exec_lr. by destruct (misaligned _ _).
  - unfold exec_sc. by destruct (misaligned _ _).
  - unfold exec_amo. by destruct (misaligned _ _).
Qed.

(** ** Well-formedness is preserved *)

Lemma alu_sem_range (o : alu_op) (x y : Z) :
  is_uint 32 x -> is_uint 32 y -> is_uint 32 (alu_sem o x y).
Proof.
  intros Hx Hy. destruct (multi_cycle o) eqn:E.
  - destruct o; try done; cbn [alu_sem]; destruct (Z.eqb_spec y 0);
      try (by apply uwrap_range); unfold is_uint in *; try lia.
    + split; [apply Z.div_pos; lia|]. apply Z.div_lt_upper_bound; nia.
    + pose proof (Z.mod_pos_bound x y). lia.
  - rewrite <-alu_correct by done. by apply alu_range.
Qed.

Lemma extend_range (o : load_op) (x : Z) : is_uint 32 x -> is_uint 32 (extend o x).
Proof. intros. destruct o; cbn [extend]; try done; by apply uwrap_range. Qed.

Lemma load_lanes_range (o : load_op) (ea v : Z) : is_uint 32 (load_lanes o ea v).
Proof.
  apply extend_range. unfold is_uint. pose proof (Z.mod_pos_bound (v / 2 ^ (8 * (ea mod 4))) (2 ^ (8 * load_size o))).
  destruct o; cbn [load_size] in *; lia.
Qed.

Lemma load_mem_range (o : load_op) (m : mem) (ea : Z) : is_uint 32 (load_mem o m ea).
Proof.
  apply extend_range. pose proof (mem_byte_range m ea). pose proof (mem_byte_range m (ea + 1)).
  unfold is_uint. destruct o; try apply mem_word_range; unfold mem_half; lia.
Qed.

Lemma getreg_setreg (a a' : arch) (rd x r : Z) :
  a_regs a' = setreg rd x (a_regs a) ->
  getreg a' r = if (r =? rd) && negb (r =? 0) then x else getreg a r.
Proof.
  unfold getreg, setreg. intros ->. destruct (Z.eqb_spec r 0); [by rewrite andb_false_r|].
  rewrite andb_true_r. destruct (Z.eqb_spec rd 0), (Z.eqb_spec r rd); subst; try done.
  - by rewrite fupd_eq.
  - by rewrite fupd_ne.
Qed.

Definition mop_wf (op : mop) : Prop := match op with MAlu _ val => is_uint 32 val | _ => True end.

Lemma setreg_wf (a a' : arch) (rd x : Z) :
  a_regs a' = setreg rd x (a_regs a) -> is_uint 32 x -> (forall r, is_uint 32 (getreg a r)) ->
  forall r, is_uint 32 (getreg a' r).
Proof. intros E Hx Ha r. rewrite (getreg_setreg _ _ _ _ _ E). by case_match. Qed.

Lemma perform_wf (next : Z) (c : csrs) (op : mop) (v : Z) (a : arch) :
  wf_arch a -> is_uint 32 next -> wf_csrs c -> mop_wf op -> wf_arch (perform next c op v a).1.
Proof.
  intros [Hpc Hr Hc] Hn Hc' Ho. pose proof (mem_word_range (a_mem a)).
  destruct op; cbn [perform]; try destruct (dev _); cbn [fst]; split; try done; cbn [a_regs];
    try (eapply (setreg_wf a); [reflexivity|try done|done]).
  - apply load_lanes_range.
  - apply load_mem_range.
  - by destruct (sc_succeeds _ _).
Qed.

Lemma ldiff_uint (w x y : Z) : 0 <= w -> is_uint w x -> is_uint w (Z.ldiff x y).
Proof.
  intros Hw Hx. apply uint_of_testbit; [done|]. intros i Hi.
  rewrite Z.ldiff_spec, (uint_testbit_high w x i) by done. done.
Qed.

Lemma put_bit_range (n : Z) (b : bool) (z : Z) :
  0 <= n < 32 -> is_uint 32 z -> is_uint 32 (put_bit n b z).
Proof.
  intros Hn Hz. unfold put_bit. destruct b; [|rewrite Z.clearbit_spec'; by apply ldiff_uint].
  rewrite Z.setbit_spec'. apply lor_uint; [done|done|]. unfold is_uint.
  pose proof (Z.pow_lt_mono_r 2 n 32). pose proof (Z.pow_pos_nonneg 2 n). lia.
Qed.

Lemma trap_wf (cause tval : Z) (a : arch) :
  wf_arch a -> is_uint 32 cause -> is_uint 32 tval -> wf_arch (trap cause tval a).
Proof.
  intros [Hpc Hr [? ? ? ? ? ?]] Hc Ht. split; [done|exact Hr|]. split; try done.
  cbn [trap a_csr enter_trap mstatus]. apply put_bit_range; [lia|]. by apply put_bit_range; [lia|].
Qed.

Lemma leave_trap_wf (c : csrs) : wf_csrs c -> wf_csrs (leave_trap c).
Proof. intros [? ? ? ? ? ?]. split; try done.
  cbn [leave_trap set_mstatus mstatus]. by apply put_bit_range; [lia|]. Qed.

Lemma csr_update_wf (f : Z -> Z) (n : Z) (c : csrs) :
  (forall x, is_uint 32 x -> is_uint 32 (f x)) -> wf_csrs c -> wf_csrs (csr_update f n c).
Proof.
  intros Hf [? ? ? ? ? ?]. unfold csr_update.
  repeat case_match; split; try done; by apply Hf.
Qed.

Lemma csr_sem_range (o : csr_op) (x old : Z) :
  is_uint 32 x -> is_uint 32 old -> is_uint 32 (csr_sem o x old).
Proof. intros. destruct o; [done|by apply lor_uint|by apply ldiff_uint]. Qed.

Lemma csr_read_range (l : lines) (c : csrs) (n : Z) : wf_csrs c -> is_uint 32 (csr_read l c n).
Proof.
  intros [? ? ? ? ? ?]. unfold csr_read, mip. repeat case_match; try done; unfold is_uint; lia.
Qed.

Lemma issue_wf (w : Z) (l : lines) (i : instr) (len : Z) (a : arch) :
  decoded_as w i -> wf_arch a ->
  is_uint 32 (next_of i len a) /\ wf_csrs (csr_of i a) /\ mop_wf (mop_of l i len a).
Proof.
  intros Hd [Hpc Hr Hc]. assert (forall z, is_uint 32 (u32 z)) by (intros; by apply uwrap_range).
  split_and!.
  - destruct i; cbn [next_of]; try done; [|by case_match|apply Hc].
    rewrite Z.clearbit_spec'. by apply ldiff_uint.
  - destruct i; cbn [csr_of]; try done; [|by apply leave_trap_wf].
    apply csr_update_wf; [|done]. intros. apply csr_sem_range; [|done].
    destruct src; cbn [src_val]; [done|]. destruct Hd as (_ & _ & _ & _ & _ & _ & _ & _ & <-).
    unfold csr_uimm. pose proof (bits_range 19 15 w ltac:(lia)). unfold is_uint in *. lia.
  - destruct i; cbn [mop_of mop_wf]; try done; try by apply alu_sem_range.
    + destruct Hd as (_ & _ & <-). apply immgen_range.
    + by apply csr_read_range.
Qed.

Lemma inst_expanded_range (w : Z) : is_uint 32 (inst_expanded w).
Proof.
  unfold inst_expanded, expand_q0, expand_q1, expand_q2, expand_arith, expand_cr.
  repeat case_match; try (by split);
    unfold expand_j, expand_b, expand_imm6, expand_shift, expand_ca, expand_jalr, expand_add;
    match goal with |- is_uint _ (cat ?l) => refine (cat_range l _); repeat constructor; cbn; lia end.
Qed.

Lemma final_inst_range (w : Z) : is_uint 32 w -> is_uint 32 (final_inst w).
Proof. intros. unfold final_inst. case_match; [apply inst_expanded_range|done]. Qed.

Lemma arch_step_wf (imem : Z -> Z) (lb : label) (a a' : arch) (evs : list event) :
  (forall p, is_uint 32 (imem p)) -> wf_arch a -> arch_step imem lb a = Some (a', evs) -> wf_arch a'.
Proof.
  intros Hi Hw. destruct lb as [l v|ext]; cbn [arch_step].
  - destruct (arch_decode _) as [i len|tval|] eqn:D; [| |done].
    + apply arch_decode_legal in D as [D _]. apply decode_fields in D. rewrite exec_issue.
      destruct (traps i a) as [p|] eqn:T; intros E1.
      * injection E1 as <- _. apply trap_wf; [done|..]; destruct i; cbn in T; try case_match; simplify_eq; try by split.
        all: by apply uwrap_range.
      * injection E1 as E1. apply (f_equal fst) in E1. cbn [fst] in E1. rewrite <-E1.
        destruct (issue_wf _ l i len a D Hw) as (? & ? & ?). by apply perform_wf.
    + apply arch_decode_illegal in D as [_ ->]. intros [= <- _].
      apply trap_wf; [done|by split|by apply final_inst_range].
  - destruct (irq_enabled _ _); [|done]. intros [= <- _]. apply trap_wf; [done| |by split].
    by destruct ext.
Qed.
