(* ===== verification/CpuMem.v ===== *)
(** * The MEM and WB stages perform the access of an instruction

    [in_mem] relates the stages to the architectural state before the
    instruction in MEM: how far its access has come, in a cycle in which the
    pipeline is frozen, and ([mem_leaves]) that the state is the one after the
    instruction when it moves on. *)

From S2P Require Import Prelude Bits Rv32 Rvc Decoder DivUnit CpuUnits Cpu CpuSpec.

(** ** What MEM holds *)

Definition flags (m : ex_mem_reg) (lr sc amo rw : bool) : Prop :=
  ex_mem_is_lr m = lr /\ ex_mem_is_sc m = sc /\ ex_mem_is_amo m = amo /\ ex_mem_mem_rw m = rw.

Definition access (m : ex_mem_reg) (size f3 ea : Z) : Prop :=
  ex_mem_alu m = ea /\ funct3 (ex_mem_inst m) = f3 /\ misaligned size ea = false.

(** The destination of a result that is selected by [sel] in WB. *)
Definition dest (m : ex_mem_reg) (rd sel : Z) : Prop :=
  ex_mem_reg_wen m = true /\ ex_mem_rd m = rd /\ ex_mem_wb_sel m = sel.

Definition mop_in (m : ex_mem_reg) (op : mop) : Prop :=
  match op with
  | MAlu rd val => flags m false false false false /\
      ((ex_mem_reg_wen m = false \/ ex_mem_rd m = 0 /\ ex_mem_wb_sel m = 1) /\ rd = 0 \/
       dest m rd 1 /\ ex_mem_alu m = val \/
       dest m rd 2 /\ u32 (ex_mem_pc m + inc_of (ex_mem_compressed m)) = val)
  | MLoad o rd ea => flags m false false false false /\ dest m rd 0 /\
      access m (load_size o) (load_code o) ea
  | MStore o ea x => flags m false false false true /\ ex_mem_reg_wen m = false /\
      ex_mem_rs2 m = x /\ access m (store_size o) (store_code o) ea
  | MLr rd ea => flags m true false false false /\ dest m rd 0 /\ access m 4 2 ea /\ dev ea = false
  | MSc rd ea x => flags m false true false true /\ dest m rd 1 /\ ex_mem_rs2 m = x /\
      access m 4 2 ea /\ dev ea = false
  | MAmo o rd ea x => flags m false false true false /\ dest m rd 0 /\ ex_mem_rs2 m = x /\
      ex_mem_atomic_op m = amo_code o /\ access m 4 2 ea /\ dev ea = false
  end.

Definition loads (op : mop) : bool := match op with MLoad _ _ _ | MLr _ _ => true | _ => false end.
Definition stores (op : mop) : bool := match op with MStore _ _ _ | MSc _ _ _ => true | _ => false end.
Definition amos (op : mop) : bool := match op with MAmo _ _ _ _ => true | _ => false end.
Definition op_addr (op : mop) : Z :=
  match op with
  | MAlu _ _ => 0 | MLoad _ _ ea | MStore _ ea _ | MLr _ ea | MSc _ ea _ | MAmo _ _ ea _ => ea
  end.

(** [mop_wires H] reads the fields of [ex_mem] off [H : mop_in _ op]. *)
Ltac mop_wires :=
  repeat match goal with
  | H : mop_in _ (_ _) |- _ => cbn [mop_in] in H
  | H : flags _ _ _ _ _ |- _ => destruct H as (? & ? & ? & ?)
  | H : dest _ _ _ |- _ => destruct H as (? & ? & ?)
  | H : access _ _ _ _ |- _ => destruct H as (? & ? & ?)
  | H : _ /\ _ |- _ => destruct H
  end.
Ltac rw_fields :=
  repeat match goal with H : _ (ex_mem _) = _ |- _ => rewrite !H end.
(** The ways of [MAlu]: no register, [x0], a result of the ALU, a link. *)
Ltac alu_cases :=
  match goal with H : _ /\ _ \/ _ |- _ => destruct H as [[[?|?] ?]|[[? ?]|[? ?]]]; mop_wires end.

Lemma is_load_op (s : cpu) (op : mop) : mop_in (ex_mem s) op -> is_load s = loads op.
Proof.
  intros H. unfold is_load. destruct op; mop_wires; [alu_cases|..]; rw_fields; by rewrite ?andb_false_r.
Qed.

Lemma is_store_op (s : cpu) (op : mop) : mop_in (ex_mem s) op -> is_store s = stores op.
Proof. intros H. unfold is_store. destruct op; mop_wires; by rw_fields. Qed.

Lemma is_amo_op (m : ex_mem_reg) (op : mop) : mop_in m op -> ex_mem_is_amo m = amos op.
Proof. intros H. destruct op; by mop_wires. Qed.

Lemma op_addr_alu (m : ex_mem_reg) (op : mop) :
  mop_in m op -> loads op || stores op || amos op = true -> ex_mem_alu m = op_addr op.
Proof. intros H. destruct op; by mop_wires. Qed.

(** ** Devices *)

(** No address belongs to two devices. *)
Lemma land_apart (a m1 m2 c1 c2 : Z) :
  c1 .& m2 <> c2 .& m1 -> (a .& m1 =? c1) && (a .& m2 =? c2) = false.
Proof.
  intros Hc. destruct (Z.eqb_spec (a .& m1) c1), (Z.eqb_spec (a .& m2) c2); try done.
  destruct Hc. subst. rewrite <-!Z.land_assoc, (Z.land_comm m2). done.
Qed.

Lemma devices_apart (a : Z) :
  (is_uart a && is_intc a = false) /\ (is_uart a && is_accel a = false) /\
  (is_intc a && is_accel a = false) /\ (is_uart a && is_mmio a = false) /\
  (is_intc a && is_mmio a = false) /\ (is_accel a && is_mmio a = false).
Proof.
  assert (Hm : forall f, f && is_mmio a = (f && is_led a) || (f && is_clint a)).
  { intros []; by destruct (is_mmio a) eqn:E; unfold is_mmio in E. }
  rewrite !Hm. unfold is_uart, is_intc, is_accel, is_led, is_clint.
  assert (Hl : forall m c, LED_ADDR .& m <> c -> (a .& m =? c) && (a =? LED_ADDR) = false).
  { intros m c Hc. destruct (Z.eqb_spec (a .& m) c), (Z.eqb_spec a LED_ADDR); try done. by subst. }
  rewrite !Hl by (by vm_compute). rewrite !land_apart by (by vm_compute). done.
Qed.

Lemma dev_cases (a : Z) :
  dev a = is_mmio a || is_uart a || is_intc a || is_accel a.
Proof.
  unfold dev, mem_addr_is_cacheable.
  by destruct (is_mmio a), (is_uart a), (is_intc a), (is_accel a).
Qed.

(** ** How far the access has come *)

Definition resv_of (m : monitor) : option Z :=
  if lock_valid m then Some (reserved_addr m) else None.

(** A port that is not selected is idle; one that has answered is not pending. *)
Definition port_at (valid : bool) (p : port) : Prop :=
  (valid = false -> pending p = false /\ Cpu.done p = false) /\
  (pending p = true -> Cpu.done p = false) /\ is_uint 32 (rdata_latched p).

Definition port_done (s : cpu) : bool :=
  Cpu.done (uart s) || Cpu.done (intc s) || Cpu.done (accel s).

Definition mem_same (m m' : mem) : Prop := forall b, m b = m' b.

Definition ram_at (s : cpu) (m : mem) (a : arch) (op : mop) : Prop :=
  let m0 := a_mem a in
  match op with
  | MStore o ea x =>
      mem_same m m0 \/ dev ea = false /\ mem_same m (store_bytes (store_size o) m0 ea x)
  | MSc _ ea x =>
      mem_same m m0 \/ sc_succeeds ea a = true /\ mem_same m (store_bytes 4 m0 ea x)
  | MAmo o _ ea x =>
      if amo_result_ready s then mem_same m (store_bytes 4 m0 ea (amo_sem o (mem_word m0 ea) x))
      else mem_same m m0
  | _ => mem_same m m0
  end.

Definition resv_at (s : cpu) (a : arch) (op : mop) : Prop :=
  let r := resv_of (rm s) in
  match op with
  | MStore _ _ _ => (r = a_resv a \/ r = None) /\ (port_done s = true -> r = None)
  | MLr _ ea => r = a_resv a \/ r = Some ea
  | MAmo _ _ _ _ => r = if amo_result_ready s then None else a_resv a
  | _ => r = a_resv a
  end.

Definition amo_at (s : cpu) (a : arch) (op : mop) : Prop :=
  match op with
  | MAmo _ _ ea _ =>
      match amo_state s with
      | AMO_WRITE => amo_old_value s = mem_word (a_mem a) ea
      | _ => amo_result_ready s = false
      end
  | _ => amo_state s = AMO_IDLE /\ amo_result_ready s = false
  end.

Record in_mem (w : soc) (a : arch) (alog : list event) (op : mop) : Prop := {
  im_op : mop_in (ex_mem (core w)) op;
  im_uart : port_at (uart_valid (core w)) (uart (core w));
  im_intc : port_at (intc_valid (core w)) (intc (core w));
  im_accel : port_at (accel_valid (core w)) (accel (core w));
  im_log : log w = alog ++
    (if port_done (core w) then [device_event (core w) (final_mem_read_data (core w) (ram_word (core w) (ram w)))] else []);
  im_ram : ram_at (core w) (ram w) a op;
  im_resv : resv_at (core w) a op;
  im_amo : amo_at (core w) a op;
  im_regs : forall r, read_data (core w) r = getreg a r;
}.

(** Nothing is under way: the state between two accesses. *)
Record mem_idle (w : soc) (a : arch) (alog : list event) : Prop := {
  mi_uart : forall v, port_at v (uart (core w));
  mi_intc : forall v, port_at v (intc (core w));
  mi_accel : forall v, port_at v (accel (core w));
  mi_log : log w = alog;
  mi_ram : mem_same (ram w) (a_mem a);
  mi_resv : resv_of (rm (core w)) = a_resv a;
  mi_amo : amo_state (core w) = AMO_IDLE /\ amo_result_ready (core w) = false;
  mi_regs : forall r, read_data (core w) r = getreg a r;
}.

Lemma mem_enters (w : soc) (a : arch) (alog : list event) (op : mop) :
  mem_idle w a alog -> mop_in (ex_mem (core w)) op -> in_mem w a alog op.
Proof.
  intros [Hu Hi Ha Hl Hm Hr [Hs Hrr] Hreg] Ho.
  assert (port_done (core w) = false) as Hd.
  { unfold port_done. destruct (Hu false) as [[_ ->] _], (Hi false) as [[_ ->] _],
      (Ha false) as [[_ ->] _]; done. }
  split; try done.
  - rewrite Hd, Hl. by rewrite app_nil_r.
  - destruct op; cbn; rewrite ?Hrr; auto.
  - destruct op; cbn; rewrite ?Hrr, ?Hd; auto. split; [auto|done].
  - destruct op; cbn; rewrite ?Hs; auto.
Qed.

(** ** Wires of the stage *)

(** Only loads and stores can be for a device. *)
Definition plain (op : mop) : bool :=
  match op with MLoad _ _ _ | MStore _ _ _ => true | _ => false end.

Lemma sc_flag_resv (m : monitor) (ea : Z) :
  sc_successful m ea = bool_decide (resv_of m = Some ea).
Proof.
  unfold sc_successful, resv_of. destruct (lock_valid m); cbn; [|by rewrite bool_decide_false].
  destruct (Z.eqb_spec ea (reserved_addr m)); [by rewrite bool_decide_true by congruence|].
  rewrite bool_decide_false; congruence.
Qed.

Lemma store_commits_plain (s : cpu) (op : mop) :
  mop_in (ex_mem s) op -> plain op = true -> store_commits s = stores op.
Proof.
  intros H Hp. unfold store_commits. rewrite (is_store_op s op) by done.
  destruct op; try done; mop_wires; by rw_fields.
Qed.

Lemma port_valid_op (s : cpu) (op : mop) (sel : Z -> bool) :
  mop_in (ex_mem s) op -> (forall x, dev x = false -> sel x = false) ->
  port_valid s sel = plain op && sel (op_addr op).
Proof.
  intros H Hsel. unfold port_valid. rewrite (is_load_op s op) by done.
  destruct (loads op || stores op || amos op) eqn:E.
  - rewrite (op_addr_alu _ op) by done. destruct (plain op) eqn:Ep.
    + rewrite (store_commits_plain s op) by done. destruct op; try done; cbn; by rewrite ?andb_true_r.
    + rewrite Hsel; [done|]. by destruct op; mop_wires.
  - unfold store_commits. rewrite (is_store_op s op) by done. destruct op; try done.
    by rewrite andb_false_r.
Qed.

Lemma dev_sel (x : Z) :
  dev x = false -> is_mmio x = false /\ is_uart x = false /\ is_intc x = false /\ is_accel x = false.
Proof. rewrite dev_cases. by destruct (is_mmio x), (is_uart x), (is_intc x), (is_accel x). Qed.

(** At most one port is selected, and its answer is what MEM reads. *)
Inductive ports_case (s : cpu) (op : mop) : Prop :=
  | no_port : uart_valid s = false -> intc_valid s = false -> accel_valid s = false ->
      (plain op = true -> dev (op_addr op) = is_mmio (op_addr op)) -> ports_case s op
  | uart_port : uart_valid s = true -> intc_valid s = false -> accel_valid s = false ->
      plain op = true -> dev (op_addr op) = true -> is_mmio (op_addr op) = false ->
      (forall m, final_mem_read_data s m = rdata_latched (uart s)) -> ports_case s op
  | intc_port : uart_valid s = false -> intc_valid s = true -> accel_valid s = false ->
      plain op = true -> dev (op_addr op) = true -> is_mmio (op_addr op) = false ->
      (forall m, final_mem_read_data s m = rdata_latched (intc s)) -> ports_case s op
  | accel_port : uart_valid s = false -> intc_valid s = false -> accel_valid s = true ->
      plain op = true -> dev (op_addr op) = true -> is_mmio (op_addr op) = false ->
      (forall m, final_mem_read_data s m = rdata_latched (accel s)) -> ports_case s op.

Lemma ports_split (s : cpu) (op : mop) : mop_in (ex_mem s) op -> ports_case s op.
Proof.
  intros H.
  assert (forall sel, (forall x, dev x = false -> sel x = false) ->
    port_valid s sel = plain op && sel (op_addr op)) as Hv by (intros; by apply port_valid_op).
  pose proof (Hv is_uart (fun x Hx => proj1 (proj2 (dev_sel x Hx)))) as Hu.
  pose proof (Hv is_intc (fun x Hx => proj1 (proj2 (proj2 (dev_sel x Hx))))) as Hi.
  pose proof (Hv is_accel (fun x Hx => proj2 (proj2 (proj2 (dev_sel x Hx))))) as Ha.
  clear Hv. fold (uart_valid s) in Hu. fold (intc_valid s) in Hi. fold (accel_valid s) in Ha.
  destruct (plain op) eqn:Ep; cbn [andb] in *; [|apply no_port; congruence].
  pose proof (dev_cases (op_addr op)) as Hd.
  pose proof (devices_apart (op_addr op)) as (A1 & A2 & A3 & A4 & A5 & A6).
  assert (ex_mem_alu (ex_mem s) = op_addr op) as E by (apply op_addr_alu; [done|by destruct op]).
  assert (ex_mem_is_amo (ex_mem s) = false) as Em by (rewrite (is_amo_op _ op) by done; by destruct op).
  assert (Hf : forall m, final_mem_read_data s m =
    if is_mmio (op_addr op) then final_mem_read_data s m
    else if is_uart (op_addr op) then rdata_latched (uart s)
    else if is_intc (op_addr op) then rdata_latched (intc s)
    else if is_accel (op_addr op) then rdata_latched (accel s) else m).
  { intros m. unfold final_mem_read_data. rewrite Em, E. unfold is_mmio.
    by destruct (is_led _), (is_clint _). }
  destruct (is_uart (op_addr op)).
  { cbn in A1, A2, A4. rewrite A1 in Hi. rewrite A2 in Ha. rewrite A4 in *. by apply uart_port. }
  destruct (is_intc (op_addr op)).
  { cbn in A3, A5. rewrite A3 in Ha. rewrite A5 in *. by apply intc_port. }
  destruct (is_accel (op_addr op)).
  { cbn in A6. rewrite A6 in *. by apply accel_port. }
  apply no_port; try done. rewrite Hd. by destruct (is_mmio _).
Qed.

(** Only stores and read-modify-writes end a reservation before they leave. *)
Lemma store_clear_op (s : cpu) (i : inputs) (op : mop) :
  mop_in (ex_mem s) op ->
  match op with
  | MStore _ _ _ | MAmo _ _ _ _ => True
  | _ => normal_store_reservation_clear s i = false
  end.
Proof.
  intros H. unfold normal_store_reservation_clear, amo_write_phase. cbv zeta.
  rewrite (is_store_op s op) by done. destruct op; mop_wires; try done; by rw_fields.
Qed.

(** The event of an access to a device. *)
Lemma plain_event (s : cpu) (op : mop) (next : Z) (c : csrs) (v : Z) (a : arch) :
  mop_in (ex_mem s) op -> plain op = true ->
  (perform next c op v a).2 = if dev (op_addr op) then [device_event s v] else [].
Proof.
  intros H Hp. unfold device_event. rewrite (store_commits_plain s op) by done.
  rewrite (op_addr_alu _ op H) by (by destruct op).
  destruct op; try done; cbn [perform op_addr stores]; [by destruct (dev ea)|]. by mop_wires; subst.
Qed.

(** One selected port, for the proofs that go port by port. *)
Definition selected (s : cpu) (op : mop) (v1 v2 v3 : bool) (p : port) : Prop :=
  v1 = true -> v2 = false /\ v3 = false /\ plain op = true /\ dev (op_addr op) = true /\
  is_mmio (op_addr op) = false /\ forall m, final_mem_read_data s m = rdata_latched p.

Lemma ports_selected (s : cpu) (op : mop) :
  mop_in (ex_mem s) op ->
  selected s op (uart_valid s) (intc_valid s) (accel_valid s) (uart s) /\
  selected s op (intc_valid s) (uart_valid s) (accel_valid s) (intc s) /\
  selected s op (accel_valid s) (uart_valid s) (intc_valid s) (accel s).
Proof. intros H. unfold selected. destruct (ports_split s op H); split_and!; intros; try congruence; done. Qed.

(** ** Memory *)

Lemma mem_byte_same (m m' : mem) (a : Z) : mem_same m m' -> mem_byte m a = mem_byte m' a.
Proof. intros H. unfold mem_byte. by rewrite H. Qed.

Lemma mem_word_same (m m' : mem) (a : Z) : mem_same m m' -> mem_word m a = mem_word m' a.
Proof. intros H. unfold mem_word, mem_half. by rewrite !(mem_byte_same m m') by done. Qed.

Lemma load_mem_same (o : load_op) (m m' : mem) (a : Z) :
  mem_same m m' -> load_mem o m a = load_mem o m' a.
Proof.
  intros H. unfold load_mem, mem_half. rewrite (mem_word_same m m' a H).
  by rewrite !(mem_byte_same m m') by done.
Qed.

(** A store that is repeated while the pipeline is frozen changes nothing. *)
Lemma store_again (n : Z) (m m0 : mem) (ea x : Z) :
  mem_same m m0 \/ mem_same m (store_bytes n m0 ea x) ->
  mem_same (store_bytes n m ea x) (store_bytes n m0 ea x).
Proof. intros H b. unfold store_bytes in *. destruct H as [H|H]; rewrite H; by case_match. Qed.

Lemma amo_new_value_sem (s : cpu) (o : amo_op) :
  ex_mem_atomic_op (ex_mem s) = amo_code o ->
  amo_new_value s = amo_sem o (amo_old_value s) (ex_mem_rs2 (ex_mem s)).
Proof.
  intros E. unfold amo_new_value. rewrite E.
  destruct o; cbn [amo_code amo_sem Z.eqb Pos.eqb]; try done.
  - by destruct (Z.ltb_spec (amo_old_value s) (ex_mem_rs2 (ex_mem s))); [rewrite Z.min_l|rewrite Z.min_r]; try lia.
  - rewrite Z.gtb_ltb.
    by destruct (Z.ltb_spec (ex_mem_rs2 (ex_mem s)) (amo_old_value s)); [rewrite Z.max_l|rewrite Z.max_r]; try lia.
Qed.

(** What a write request of each operation does to the memory. *)
Definition op_store (op : mop) (old : Z) (m : mem) : mem :=
  match op with
  | MStore o ea x => store_bytes (store_size o) m ea x
  | MSc _ ea x => store_bytes 4 m ea x
  | MAmo o _ ea x => store_bytes 4 m ea (amo_sem o old x)
  | _ => m
  end.

Lemma dcache_wen_op (s : cpu) (op : mop) :
  mop_in (ex_mem s) op ->
  dcache_wen s =
  match op with
  | MStore _ ea _ => negb (dev ea)
  | MSc _ ea _ => sc_success_flag s
  | MAmo _ _ _ _ =>
      match amo_state s with AMO_WRITE => negb (amo_result_ready s) | _ => false end
  | _ => false
  end.
Proof.
  intros H. unfold dcache_wen, store_commits, amo_write_phase, is_store.
  destruct op; mop_wires; rw_fields; cbn [andb orb negb]; try done;
    repeat match goal with H : dev _ = false |- _ => apply negb_false_iff in H; rewrite H end;
    rewrite ?andb_true_r; try done.
  - unfold dev. by rewrite negb_involutive.
  - by rewrite orb_false_r.
  - by destruct (amo_state s).
Qed.

(** A load, and the first half of a read-modify-write, read. *)
Lemma load_reads (s : cpu) (op : mop) :
  mop_in (ex_mem s) op -> loads op = true -> dev (op_addr op) = false -> dcache_ren s = true.
Proof.
  intros H Hl Hd. unfold dcache_ren. rewrite (is_load_op s op H), Hl.
  rewrite (op_addr_alu _ op H) by (by destruct op). unfold dev in Hd. cbn [orb andb].
  by apply negb_false_iff.
Qed.

Lemma amo_reads (s : cpu) (o : amo_op) (rd ea x : Z) :
  mop_in (ex_mem s) (MAmo o rd ea x) -> amo_state s = AMO_READ -> dcache_ren s = true.
Proof.
  intros H Hs. unfold dcache_ren, amo_read_phase. rewrite Hs, (is_amo_op _ _ H), (op_addr_alu _ _ H) by done.
  cbn [amos op_addr andb]. rewrite orb_true_r. mop_wires. unfold dev in *. by apply negb_false_iff.
Qed.

Lemma ram_clock_op (s : cpu) (i : inputs) (m : mem) (op : mop) :
  mop_in (ex_mem s) op ->
  mem_same (ram_clock s i m)
    (if dcache_wen s && dcache_ready i then op_store op (amo_old_value s) m else m).
Proof.
  intros H b. unfold ram_clock. destruct (_ && _) eqn:E; [|done].
  apply andb_true_iff in E as [Ew _].
  pose proof (dcache_wen_op s op H) as Ew'. rewrite Ew in Ew'.
  unfold mem_write_mask_out, store_data, amo_write_phase, block_sc_store, raw_write_mask.
  destruct op; try done; mop_wires; rw_fields; cbn [andb negb op_store].
  - by apply store_lanes.
  - rewrite <-Ew'. cbn [negb]. by apply (store_lanes _ _ _ _ SW).
  - destruct (amo_state s); try done. rewrite <-Ew'. cbn [andb].
    rewrite (amo_new_value_sem s o) by done. rw_fields.
    by apply (store_lanes 0x2000 ea _ b SW).
Qed.

Lemma port_done_selected (w : soc) (a : arch) (alog : list event) (op : mop) :
  in_mem w a alog op -> port_done (core w) = true -> plain op = true /\ dev (op_addr op) = true.
Proof.
  intros Hin Hd. destruct (ports_selected (core w) op (im_op _ _ _ _ Hin)) as (S1 & S2 & S3).
  destruct (im_uart _ _ _ _ Hin) as [Du _], (im_intc _ _ _ _ Hin) as [Di _], (im_accel _ _ _ _ Hin) as [Da _].
  unfold port_done in Hd.
  destruct (uart_valid (core w)); [by destruct (S1 eq_refl) as (_ & _ & ? & ? & _)|].
  destruct (intc_valid (core w)); [by destruct (S2 eq_refl) as (_ & _ & ? & ? & _)|].
  destruct (accel_valid (core w)); [by destruct (S3 eq_refl) as (_ & _ & ? & ? & _)|].
  destruct (Du eq_refl) as [_ E1], (Di eq_refl) as [_ E2], (Da eq_refl) as [_ E3].
  by rewrite E1, E2, E3 in Hd.
Qed.

(** A port that is not selected is neither done nor answering. *)
Lemma silent (v r : bool) (p : port) :
  port_at v p -> (r = true -> v = true /\ Cpu.done p = false) -> v = false ->
  Cpu.done p = false /\ r = false.
Proof.
  intros (Hv & _) Hr ->. destruct (Hv eq_refl) as [_ ->]. destruct r; [|done].
  by destruct (Hr eq_refl).
Qed.

(** ** A frozen cycle *)

Lemma read_data_rf_clock (s : cpu) (r : Z) :
  (if r =? 0 then 0 else rf_clock s r) = read_data s r.
Proof.
  unfold read_data, rf_clock. destruct (Z.eqb_spec r 0); [done|].
  destruct (mem_wb_reg_wen (mem_wb s)); cbn [andb]; [|done].
  destruct (Z.eqb_spec (mem_wb_rd (mem_wb s)) 0) as [E|E]; cbn [negb].
  - rewrite E. destruct (Z.eqb_spec 0 r); [lia|done].
  - unfold fupd. by destruct (Z.eqb_spec r (mem_wb_rd (mem_wb s))), (Z.eqb_spec (mem_wb_rd (mem_wb s)) r);
      try lia.
Qed.

Lemma port_frozen (v ready : bool) (x : Z) (p : port) :
  port_at v p -> (ready = true -> pending p = true) -> is_uint 32 x ->
  port_at v (port_clock v true ready x p) /\
  Cpu.done (port_clock v true ready x p) = Cpu.done p || ready /\
  (ready = true -> v = true /\ Cpu.done p = false) /\
  rdata_latched (port_clock v true ready x p) = if ready then x else rdata_latched p.
Proof.
  intros (Hv & Hp & Hx) Hr Hy. unfold port_at, port_clock. destruct p as [pe d x0]. cbn in *.
  destruct v, pe, d, ready; cbn; intuition congruence.
Qed.

Section Frozen.
Context (i : inputs) (w : soc).
Context (Hok : inputs_ok w i) (Hg : global_mem_stall (core w) i = true).
Abbreviation s := (core w).
Abbreviation s' := (core (tick i w)).

Lemma frozen_ex_mem : ex_mem s' = ex_mem s.
Proof. cbn. unfold ex_mem_clock. by rewrite Hg. Qed.
Lemma frozen_mem_wb : mem_wb s' = mem_wb s.
Proof. cbn. unfold mem_wb_clock. by rewrite Hg. Qed.

Lemma frozen_wb_data : wb_data s' = wb_data s.
Proof. unfold wb_data, partial_load_out. by rewrite frozen_mem_wb. Qed.

Lemma frozen_read_data (r : Z) : read_data s' r = read_data s r.
Proof.
  pose proof (read_data_rf_clock s r) as E. revert E. unfold read_data.
  rewrite frozen_mem_wb, frozen_wb_data. change (rf s') with (rf_clock s).
  destruct (Z.eqb_spec r 0); [done|]. by destruct (_ && (mem_wb_rd (mem_wb s) =? r)).
Qed.

Section Op.
Context (a : arch) (alog : list event) (op : mop) (Hin : in_mem w a alog op).

Lemma frozen_op : mop_in (ex_mem s') op.
Proof. rewrite frozen_ex_mem. apply Hin. Qed.

Lemma frozen_valid (sel : Z -> bool) :
  (forall x, dev x = false -> sel x = false) -> port_valid s' sel = port_valid s sel.
Proof. intros Hs. rewrite !(port_valid_op _ op) by (done || apply Hin || apply frozen_op). done. Qed.

Lemma frozen_uart : uart_valid s' = uart_valid s.
Proof. apply frozen_valid. by intros x (_ & ? & _)%dev_sel. Qed.
Lemma frozen_intc : intc_valid s' = intc_valid s.
Proof. apply frozen_valid. by intros x (_ & _ & ? & _)%dev_sel. Qed.
Lemma frozen_accel : accel_valid s' = accel_valid s.
Proof. apply frozen_valid. by intros x (_ & _ & _ & ?)%dev_sel. Qed.

Lemma frozen_event (x : Z) : plain op = true -> device_event s' x = device_event s x.
Proof.
  intros Hp. unfold device_event.
  rewrite !(store_commits_plain _ op) by (done || apply Hin || apply frozen_op).
  by rewrite frozen_ex_mem.
Qed.

Lemma uart_after : let p' := uart s' in
  port_at (uart_valid s) p' /\ Cpu.done p' = Cpu.done (uart s) || uart_ready i /\
  (uart_ready i = true -> uart_valid s = true /\ Cpu.done (uart s) = false) /\
  rdata_latched p' = if uart_ready i then uart_rdata i else rdata_latched (uart s).
Proof. cbn. rewrite Hg. apply port_frozen; [apply Hin|apply Hok..]. Qed.
Lemma intc_after : let p' := intc s' in
  port_at (intc_valid s) p' /\ Cpu.done p' = Cpu.done (intc s) || intc_ready i /\
  (intc_ready i = true -> intc_valid s = true /\ Cpu.done (intc s) = false) /\
  rdata_latched p' = if intc_ready i then intc_rdata i else rdata_latched (intc s).
Proof. cbn. rewrite Hg. apply port_frozen; [apply Hin|apply Hok..]. Qed.
Lemma accel_after : let p' := accel s' in
  port_at (accel_valid s) p' /\ Cpu.done p' = Cpu.done (accel s) || accel_ready i /\
  (accel_ready i = true -> accel_valid s = true /\ Cpu.done (accel s) = false) /\
  rdata_latched p' = if accel_ready i then accel_rdata i else rdata_latched (accel s).
Proof. cbn. rewrite Hg. apply port_frozen; [apply Hin|apply Hok..]. Qed.

Lemma frozen_events :
  events s i =
  (if uart_valid s && uart_ready i then [device_event s (uart_rdata i)] else []) ++
  (if intc_valid s && intc_ready i then [device_event s (intc_rdata i)] else []) ++
  (if accel_valid s && accel_ready i then [device_event s (accel_rdata i)] else []).
Proof. unfold events. rewrite Hg. cbn [negb]. by rewrite andb_false_r, app_nil_r. Qed.

(** The log grows by the event when the selected port answers. *)
Lemma frozen_log : log (tick i w) = alog ++
  (if port_done s' then [device_event s' (final_mem_read_data s' (ram_word s' (ram (tick i w))))] else []).
Proof.
  pose proof uart_after as (_ & Hu & Ru & Lu). pose proof intc_after as (_ & Hi & Ri & Li).
  pose proof accel_after as (_ & Ha & Ra & La). unfold port_done. rewrite Hu, Hi, Ha.
  change (log (tick i w)) with (log w ++ events s i). rewrite frozen_events.
  rewrite (im_log _ _ _ _ Hin), <-app_assoc. f_equal. unfold port_done.
  pose proof (silent _ _ _ (im_uart _ _ _ _ Hin) Ru) as Qu.
  pose proof (silent _ _ _ (im_intc _ _ _ _ Hin) Ri) as Qi.
  pose proof (silent _ _ _ (im_accel _ _ _ _ Hin) Ra) as Qa.
  pose proof (ports_selected s op (im_op _ _ _ _ Hin)) as (S1 & S2 & S3).
  pose proof (ports_selected s' op frozen_op) as (S1' & S2' & S3').
  rewrite frozen_uart, frozen_intc, frozen_accel in S1', S2', S3'.
  destruct (uart_valid s) eqn:V1; [|destruct (intc_valid s) eqn:V2; [|destruct (accel_valid s) eqn:V3]].
  - destruct (S1 eq_refl) as (E2 & E3 & Hp & _ & _ & ->), (S1' eq_refl) as (_ & _ & _ & _ & _ & ->).
    destruct (Qi E2) as [-> ->], (Qa E3) as [-> ->]. rewrite Lu, frozen_event by done. rewrite !andb_false_r.
    destruct (uart_ready i); [|by destruct (Cpu.done (uart s))]. by destruct (Ru eq_refl) as [_ ->].
  - destruct (S2 eq_refl) as (_ & E3 & Hp & _ & _ & ->), (S2' eq_refl) as (_ & _ & _ & _ & _ & ->).
    destruct (Qu eq_refl) as [-> ->], (Qa E3) as [-> ->]. rewrite Li, frozen_event by done. rewrite !andb_false_r.
    destruct (intc_ready i); [|by destruct (Cpu.done (intc s))]. by destruct (Ri eq_refl) as [_ ->].
  - destruct (S3 eq_refl) as (_ & _ & Hp & _ & _ & ->), (S3' eq_refl) as (_ & _ & _ & _ & _ & ->).
    destruct (Qu eq_refl) as [-> ->], (Qi eq_refl) as [-> ->]. rewrite La, frozen_event by done. rewrite !andb_false_r.
    destruct (accel_ready i); [|by destruct (Cpu.done (accel s))]. by destruct (Ra eq_refl) as [_ ->].
  - by destruct (Qu eq_refl) as [-> ->], (Qi eq_refl) as [-> ->], (Qa eq_refl) as [-> ->].
Qed.

Lemma frozen_no_trap : TRAP_CTRL s i = no_trap.
Proof.
  unfold TRAP_CTRL, trap_controller, timer_fires, external_fires, ex_irq. rewrite Hg.
  cbn [negb]. by rewrite !andb_false_r.
Qed.

Lemma frozen_rm :
  rm s' = monitor_clock (lr_reservation_set s i) false (normal_store_reservation_clear s i) false
    (ex_mem_alu (ex_mem s)) (rm s).
Proof.
  cbn. unfold rm_clock. rewrite frozen_no_trap. unfold sc_reservation_clear. rewrite Hg. cbn [negb].
  by rewrite andb_false_r.
Qed.

Lemma frozen_port_done :
  port_done s' = port_done s || (uart_ready i || intc_ready i || accel_ready i).
Proof.
  unfold port_done. pose proof uart_after as (_ & -> & _). pose proof intc_after as (_ & -> & _).
  pose proof accel_after as (_ & -> & _).
  by destruct (Cpu.done (uart s)), (Cpu.done (intc s)), (Cpu.done (accel s)), (uart_ready i), (intc_ready i).
Qed.

(** A peripheral that answers is the one addressed. *)
Lemma ready_selected :
  uart_ready i || intc_ready i || accel_ready i = true ->
  let ea := ex_mem_alu (ex_mem s) in
  (is_uart ea && uart_ready i) || (is_intc ea && intc_ready i) || (is_accel ea && accel_ready i) = true.
Proof.
  pose proof uart_after as (_ & _ & Ru & _). pose proof intc_after as (_ & _ & Ri & _).
  pose proof accel_after as (_ & _ & Ra & _).
  assert (forall sel, port_valid s sel = true -> sel (ex_mem_alu (ex_mem s)) = true) as Hsel.
  { intros sel. unfold port_valid. by intros [? _]%andb_true_iff. }
  destruct (uart_ready i).
  { intros _. destruct (Ru eq_refl) as [V%Hsel _]. cbn. by rewrite V. }
  destruct (intc_ready i).
  { intros _. destruct (Ri eq_refl) as [V%Hsel _]. cbn. by rewrite V, orb_true_r. }
  intros Hr. cbn in Hr. destruct (Ra Hr) as [V%Hsel _]. cbn. by rewrite V, Hr, orb_true_r.
Qed.

Lemma amo_result_after :
  amo_result_ready s' =
  ex_mem_is_amo (ex_mem s) &&
    match amo_state s with
    | AMO_WRITE => dcache_ready i || amo_result_ready s
    | _ => amo_result_ready s
    end.
Proof.
  cbn. unfold amo_result_ready_clock, amo_restart. rewrite Hg. cbn [negb].
  rewrite andb_false_r, orb_false_r. destruct (ex_mem_is_amo (ex_mem s)); [|done].
  by destruct (amo_state s), (dcache_ready i).
Qed.

(** A result that is held is not overwritten: the cache is not asked again. *)
Lemma amo_quiet : amos op = true -> amo_result_ready s = true -> dcache_ready i = false.
Proof.
  intros Ha Hr. destruct (dcache_ready i) eqn:E; [|done].
  pose proof (io_dcache _ _ Hok E) as Hv. unfold dcache_valid in Hv.
  pose proof (im_op _ _ _ _ Hin) as H. rewrite (dcache_wen_op s op H) in Hv.
  pose proof (im_amo _ _ _ _ Hin) as Hs. unfold dcache_ren in Hv. rewrite (is_load_op s op H) in Hv.
  unfold amo_read_phase in Hv. destruct op; try done. cbn in Hs, Hv.
  destruct (amo_state s); try congruence. by rewrite Hr, andb_false_r in Hv.
Qed.

Lemma frozen_resv : resv_at s' a op.
Proof.
  pose proof (im_op _ _ _ _ Hin) as H. pose proof (im_resv _ _ _ _ Hin) as Hr.
  assert (Hlr : lr_reservation_set s i = true -> ex_mem_is_lr (ex_mem s) = true).
  { unfold lr_reservation_set. by intros [[? _]%andb_true_iff _]%andb_true_iff. }
  pose proof (store_clear_op s i op H) as Hst.
  pose proof frozen_port_done as Hpd. pose proof ready_selected as Hsel.
  pose proof amo_result_after as Har. pose proof amo_quiet as Hq. pose proof (im_amo _ _ _ _ Hin) as Ham.
  unfold resv_at in *. rewrite frozen_rm. unfold monitor_clock.
  destruct op; cbn [amos] in *.
  1, 2, 5: destruct (lr_reservation_set s i); [mop_wires; specialize (Hlr eq_refl); congruence|];
    by rewrite Hst.
  - destruct (lr_reservation_set s i); [mop_wires; specialize (Hlr eq_refl); congruence|].
    destruct (normal_store_reservation_clear s i) eqn:En; [cbn; split; [by right|done]|].
    destruct Hr as [Hr1 Hr2]. split; [done|]. rewrite Hpd. intros [Hd|Hd%Hsel]%orb_true_iff; [by apply Hr2|].
    exfalso. revert En. unfold normal_store_reservation_clear. cbv zeta in Hd |- *.
    rewrite (is_store_op s _ H). cbn [stores andb]. mop_wires. rw_fields. cbn [negb andb].
    rewrite H5 in Hd.
    destruct (is_uart ea && uart_ready i), (is_intc ea && intc_ready i), (is_accel ea && accel_ready i);
      try done; by rewrite ?orb_true_r.
  - destruct (lr_reservation_set s i); [right; mop_wires; cbn; congruence|].
    by rewrite Hst.
  - destruct (lr_reservation_set s i); [mop_wires; specialize (Hlr eq_refl); congruence|].
    unfold normal_store_reservation_clear. cbv zeta. rewrite (is_store_op s _ H), Har.
    unfold amo_write_phase. rewrite (is_amo_op _ _ H). cbn [stores andb orb amos negb].
    destruct (amo_state s); cbn [andb negb].
    1, 2: done.
    destruct (amo_result_ready s); [by rewrite (Hq eq_refl eq_refl), orb_true_r|].
    by destruct (dcache_ready i).
Qed.

Lemma frozen_amo : amo_at s' a op.
Proof.
  pose proof (im_op _ _ _ _ Hin) as H. pose proof (im_amo _ _ _ _ Hin) as Ham.
  pose proof (im_ram _ _ _ _ Hin) as Hram. pose proof amo_result_after as Har.
  assert (amo_state s' = amo_state_clock s i) as Hst by done.
  assert (amo_old_value s' = amo_old_value_clock s i) as Hov by done.
  unfold amo_at in *. rewrite Hst, Har. rewrite Hov. unfold amo_state_clock, amo_old_value_clock, amo_restart.
  rewrite Hg, (is_amo_op _ _ H). cbn [negb]. rewrite andb_false_r, orb_false_r.
  destruct op; cbn [amos negb andb]; try done.
  destruct (amo_state s) eqn:Ea; cbn in Ham, Hram; [done| |done]. destruct (dcache_ready i) eqn:Er; [|done].
  rewrite Ham in Hram.
  rewrite (io_dcache_data w i Hok Er) by (by apply (amo_reads s o rd ea x)). unfold ram_word. cbv zeta.
  rewrite (op_addr_alu _ _ H) by done. cbn [op_addr]. mop_wires.
  rewrite (misaligned_false 4 ea), Z.sub_0_r by done. by apply mem_word_same.
Qed.

Lemma frozen_ram : ram_at s' (ram (tick i w)) a op.
Proof.
  pose proof (im_op _ _ _ _ Hin) as H. pose proof (im_amo _ _ _ _ Hin) as Ham.
  pose proof (im_ram _ _ _ _ Hin) as Hram. pose proof amo_result_after as Har.
  pose proof amo_quiet as Hq. pose proof (im_resv _ _ _ _ Hin) as Hr.
  change (ram (tick i w)) with (ram_clock s i (ram w)).
  pose proof (ram_clock_op s i (ram w) op H) as Hw. rewrite (dcache_wen_op s op H) in Hw.
  assert (Htrans : forall m, mem_same (ram w) m -> mem_same (ram_clock s i (ram w)) (ram w) ->
    mem_same (ram_clock s i (ram w)) m).
  { intros m Hm Hc b. by rewrite Hc. }
  destruct op; cbn [ram_at op_store amo_at] in *; try (by apply Htrans).
  - destruct (negb (dev ea) && dcache_ready i) eqn:E.
    + right. apply andb_true_iff in E as [E%negb_true_iff _]. split; [done|].
      intros b. rewrite Hw. apply store_again. destruct Hram as [?|[_ ?]]; auto.
    + destruct Hram as [?|[? ?]]; [left|right]; [|split; [done|]]; by apply Htrans.
  - destruct (sc_success_flag s && dcache_ready i) eqn:E.
    + right. apply andb_true_iff in E as [E _]. unfold sc_success_flag in E.
      rewrite sc_flag_resv, Hr, (op_addr_alu _ _ H) in E by done. split; [by apply E|].
      intros b. rewrite Hw. apply store_again. destruct Hram as [?|[_ ?]]; auto.
    + destruct Hram as [?|[? ?]]; [left|right]; [|split; [done|]]; by apply Htrans.
  - rewrite Har, (is_amo_op _ _ H). cbn [amos andb]. destruct (amo_state s); cbn [andb] in *.
    1, 2: rewrite Ham in Hram; rewrite Ham; by apply Htrans.
    destruct (amo_result_ready s) eqn:E; cbn [negb andb] in Hw.
    { rewrite orb_true_r. by apply Htrans. }
    rewrite orb_false_r. destruct (dcache_ready i); cbn [andb] in Hw; [|by apply Htrans].
    intros b. rewrite Hw, Ham. apply store_again. by left.
Qed.

(** A frozen cycle advances the access and leaves the rest alone. *)
Lemma mem_frozen : in_mem (tick i w) a alog op.
Proof.
  split.
  - exact frozen_op.
  - rewrite frozen_uart. apply uart_after.
  - rewrite frozen_intc. apply intc_after.
  - rewrite frozen_accel. apply accel_after.
  - exact frozen_log.
  - exact frozen_ram.
  - exact frozen_resv.
  - exact frozen_amo.
  - intros r. rewrite frozen_read_data. apply Hin.
Qed.
End Op.
End Frozen.

(** ** The register an operation writes *)

Definition op_val (op : mop) (v : Z) (a : arch) : Z :=
  match op with
  | MAlu _ val => val
  | MLoad o _ ea => if dev ea then load_lanes o ea v else load_mem o (a_mem a) ea
  | MStore _ _ _ => 0
  | MLr _ ea | MAmo _ _ ea _ => mem_word (a_mem a) ea
  | MSc _ ea _ => if sc_succeeds ea a then 0 else 1
  end.

Lemma perform_getreg (m : ex_mem_reg) (op : mop) (next : Z) (c : csrs) (v r : Z) (a : arch) :
  mop_in m op ->
  getreg (perform next c op v a).1 r =
  if ex_mem_reg_wen m && (ex_mem_rd m =? r) && negb (r =? 0) then op_val op v a else getreg a r.
Proof.
  intros H.
  assert (Hw : forall rd x a', a_regs a' = setreg rd x (a_regs a) -> ex_mem_reg_wen m = true ->
    ex_mem_rd m = rd ->
    getreg a' r = if ex_mem_reg_wen m && (ex_mem_rd m =? r) && negb (r =? 0) then x else getreg a r).
  { intros rd x a' E -> ->. rewrite (getreg_setreg _ _ _ _ _ E). by rewrite (Z.eqb_sym rd). }
  destruct op; mop_wires; cbn [op_val].
  - alu_cases; [| |by eapply Hw..].
    + match goal with E : ex_mem_reg_wen m = false |- _ => rewrite E end. by subst.
    + match goal with E : ex_mem_rd m = 0 |- _ => rewrite E end. subst.
      destruct (Z.eqb_spec 0 r); [subst|]; by rewrite ?andb_false_r.
  - cbn [perform]. destruct (dev ea); by eapply Hw.
  - match goal with E : ex_mem_reg_wen m = false |- _ => rewrite E end. done.
  - by eapply Hw.
  - by eapply Hw.
  - by eapply Hw.
Qed.

Lemma partial_load_word (inst ea v : Z) : funct3 inst = 2 -> partial_load inst ea v = v.
Proof. intros E. unfold partial_load. fold (funct3 inst). by rewrite E. Qed.

(** What MEM reads when the address is memory. *)
Lemma final_read_mem (s : cpu) (x : Z) :
  ex_mem_is_amo (ex_mem s) = false -> dev (ex_mem_alu (ex_mem s)) = false ->
  final_mem_read_data s x = x.
Proof.
  intros Ha (Hm & Hu & Hi & Hc)%dev_sel. unfold final_mem_read_data. rewrite Ha, Hu, Hi, Hc.
  unfold is_mmio in Hm. by destruct (is_led _), (is_clint _).
Qed.

Lemma sc_flag_op (s : cpu) (a : arch) (rd ea x : Z) :
  mop_in (ex_mem s) (MSc rd ea x) -> resv_at s a (MSc rd ea x) ->
  sc_success_flag s = sc_succeeds ea a.
Proof.
  intros H Hr. unfold sc_success_flag. rewrite sc_flag_resv, (op_addr_alu _ _ H) by done.
  cbn in Hr |- *. by rewrite Hr.
Qed.

(** *** Forwarding *)

(** A register of the instruction in EX that was read from the register file
    is current unless WB is about to write it. *)
Definition operand_ok (s : cpu) (r x : Z) : Prop :=
  if mem_wb_reg_wen (mem_wb s) && (mem_wb_rd (mem_wb s) =? r) && negb (mem_wb_rd (mem_wb s) =? 0)
  then True else x = read_data s r.

Definition ex_mem_loads (s : cpu) : bool :=
  (ex_mem_wb_sel (ex_mem s) =? 0) && ex_mem_reg_wen (ex_mem s).

Definition forwarded (s : cpu) (r x : Z) : Z :=
  let f := forward (ex_mem_rd (ex_mem s)) (mem_wb_rd (mem_wb s)) (ex_mem_reg_wen (ex_mem s))
             (mem_wb_reg_wen (mem_wb s)) (ex_mem_wb_sel (ex_mem s)) r in
  if f =? 1 then ex_mem_forward_data s else if f =? 2 then wb_data s else x.

Lemma forward_data_op (s : cpu) (op : mop) (v : Z) (a : arch) :
  mop_in (ex_mem s) op -> resv_at s a op -> ex_mem_reg_wen (ex_mem s) = true ->
  ex_mem_rd (ex_mem s) <> 0 -> (ex_mem_wb_sel (ex_mem s) =? 0) = false -> ex_mem_forward_data s = op_val op v a.
Proof.
  intros H Hr Hw H0 Hs. unfold ex_mem_forward_data, final_alu_to_wb.
  destruct op; pose proof H; mop_wires.
  1: alu_cases; [congruence..| |]; rw_fields; cbn; congruence.
  all: rw_fields; try congruence.
  - match goal with E : ex_mem_wb_sel _ = _ |- _ => rewrite E in Hs end. done.
  - match goal with E : ex_mem_wb_sel _ = _ |- _ => rewrite E in Hs end. done.
  - by rewrite (sc_flag_op s a rd ea x).
  - match goal with E : ex_mem_wb_sel _ = _ |- _ => rewrite E in Hs end. done.
Qed.

Lemma forwarded_value (s : cpu) (op : mop) (next : Z) (c : csrs) (v r x : Z) (a : arch) :
  mop_in (ex_mem s) op -> resv_at s a op -> (forall k, read_data s k = getreg a k) ->
  operand_ok s r x -> ex_mem_loads s && negb (ex_mem_rd (ex_mem s) =? 0) && (ex_mem_rd (ex_mem s) =? r) = false ->
  forwarded s r x = getreg (perform next c op v a).1 r.
Proof.
  intros H Hr Hreg Hx Hz. rewrite (perform_getreg (ex_mem s)) by done.
  unfold forwarded, forward, operand_ok, ex_mem_loads in *. rewrite <-Hreg.
  assert (Hbase : (if (if mem_wb_reg_wen (mem_wb s) && (mem_wb_rd (mem_wb s) =? r) &&
      negb (mem_wb_rd (mem_wb s) =? 0) then 2 else 0) =? 2 then wb_data s else x) = read_data s r).
  { destruct (_ && _ && _) eqn:E; [|by rewrite Hx].
    apply andb_true_iff in E as [E E0%negb_true_iff]. cbn. unfold read_data. rewrite E.
    apply andb_true_iff in E as [_ E%Z.eqb_eq]. rewrite E in E0. by rewrite E0. }
  destruct (ex_mem_reg_wen (ex_mem s)) eqn:Ew; cbn [andb] in *; [|by destruct (_ && _)].
  destruct (ex_mem_wb_sel (ex_mem s) =? 0) eqn:Es; cbn [andb negb] in *.
  - destruct (Z.eqb_spec (ex_mem_rd (ex_mem s)) r) as [E|E]; [|by destruct (_ && _)].
    rewrite andb_true_r in Hz. apply negb_false_iff in Hz. rewrite E in Hz. rewrite Hz. by destruct (_ && _).
  - destruct (Z.eqb_spec (ex_mem_rd (ex_mem s)) r) as [E|E]; [|by destruct (_ && _)].
    rewrite E. destruct (Z.eqb_spec r 0); cbn [negb andb]; [by destruct (_ && _)|]. cbn.
    apply forward_data_op; congruence.
Qed.

(** ** The cycle in which the instruction leaves *)

Lemma port_left (v ready : bool) (x : Z) (p : port) :
  port_at v p -> (ready = true -> pending p = true) -> is_uint 32 x ->
  v && negb (Cpu.done p) = false ->
  ready = false /\ Cpu.done p = v /\ forall v0, port_at v0 (port_clock v false ready x p).
Proof.
  intros (Hv & Hp & Hx) Hr Hy Hd. unfold port_at, port_clock. destruct p as [pe d x0]. cbn in *.
  destruct v, pe, d, ready; cbn; try done; intuition congruence.
Qed.

(** A device's answer does not depend on the data cache. *)
Lemma final_read_dev (s : cpu) (x y : Z) :
  dev (ex_mem_alu (ex_mem s)) = true -> final_mem_read_data s x = final_mem_read_data s y.
Proof.
  rewrite dev_cases. unfold final_mem_read_data, is_mmio. cbv zeta.
  by destruct (ex_mem_is_amo _), (is_clint _), (is_led _), (is_uart _), (is_intc _), (is_accel _).
Qed.

Lemma final_read_range (s : cpu) (x : Z) :
  is_uint 32 x ->
  ex_mem_is_amo (ex_mem s) = false -> is_uint 32 (rdata_latched (uart s)) ->
  is_uint 32 (rdata_latched (intc s)) -> is_uint 32 (rdata_latched (accel s)) ->
  is_uint 32 (final_mem_read_data s x).
Proof.
  intros Hx Ha Hu Hi Hc. unfold final_mem_read_data. rewrite Ha.
  repeat case_match; try done.
  - unfold clint_rdata. repeat case_match; try (by split);
      first [by apply (bits_range 31 0)|by apply (bits_range 63 32)].
  - unfold led_rdata. match goal with |- is_uint _ (cat ?l) => refine (cat_range l _) end.
    repeat constructor; cbn; lia.
Qed.

Section Leaves.
Context (i : inputs) (w : soc).
Context (Hok : inputs_ok w i) (Hg : global_mem_stall (core w) i = false).
Abbreviation s := (core w).
Abbreviation s' := (core (tick i w)).

Lemma no_stalls :
  (dcache_valid s = true -> dcache_ready i = true) /\ cache_ready i = true /\ div_stall s = false /\
  uart_stall s = false /\ intc_stall s = false /\ amo_stall s = false /\ accel_stall s = false.
Proof.
  revert Hg. unfold global_mem_stall, dmem_stall, imem_stall.
  destruct (dcache_valid s), (dcache_ready i), (cache_ready i), (div_stall s), (uart_stall s),
    (intc_stall s), (amo_stall s), (accel_stall s); try done; cbn; auto 10.
Qed.

Section Op.
Context (a : arch) (alog : list event) (op : mop) (Hin : in_mem w a alog op).

Lemma left_uart : uart_ready i = false /\ Cpu.done (uart s) = uart_valid s /\ forall v0, port_at v0 (uart s').
Proof.
  cbn. rewrite Hg. apply port_left; [apply Hin|apply Hok..|]. apply no_stalls.
Qed.
Lemma left_intc : intc_ready i = false /\ Cpu.done (intc s) = intc_valid s /\ forall v0, port_at v0 (intc s').
Proof.
  cbn. rewrite Hg. apply port_left; [apply Hin|apply Hok..|]. apply no_stalls.
Qed.
Lemma left_accel : accel_ready i = false /\ Cpu.done (accel s) = accel_valid s /\ forall v0, port_at v0 (accel s').
Proof.
  cbn. rewrite Hg. apply port_left; [apply Hin|apply Hok..|]. apply no_stalls.
Qed.

Lemma left_amo_ready : amos op = true -> amo_result_ready s = true.
Proof.
  intros Ha. pose proof no_stalls as (_ & _ & _ & _ & _ & E & _). unfold amo_stall in E.
  rewrite (is_amo_op _ op), Ha in E by apply Hin. by apply negb_false_iff in E.
Qed.

(** The answer MEM hands to WB. *)
Definition answer : Z := if plain op then final_mem_read_data s (ram_word s (ram w)) else 0.

Lemma answer_range : is_uint 32 answer.
Proof.
  unfold answer. destruct (plain op) eqn:E; [|by split]. apply final_read_range; try apply Hin; [apply mem_word_range|].
  rewrite (is_amo_op _ op) by apply Hin. by destruct op.
Qed.

(** When a store leaves, it has ended the reservation, or does so now. *)
Lemma left_store_resv :
  match op with
  | MStore _ _ _ => normal_store_reservation_clear s i = false -> resv_of (rm s) = None
  | _ => True
  end.
Proof.
  pose proof (im_op _ _ _ _ Hin) as H. pose proof (im_resv _ _ _ _ Hin) as Hr.
  pose proof (ports_split s op H) as Hp. pose proof (dcache_wen_op s op H) as Hw.
  pose proof no_stalls as (Hdc & _). pose proof left_uart as (_ & Hu & _).
  pose proof left_intc as (_ & Hi & _). pose proof left_accel as (_ & Ha & _).
  destruct op; try done. destruct Hr as [_ Hr].
  assert (Hd : dev ea && negb (is_mmio ea) = port_done s).
  { unfold port_done. rewrite Hu, Hi, Ha.
    destruct Hp as [-> -> -> Hd| -> -> -> _ Hd Hm _| -> -> -> _ Hd Hm _| -> -> -> _ Hd Hm _];
      cbn [op_addr] in *; [rewrite Hd by done; by destruct (is_mmio ea)|by rewrite Hd, Hm..]. }
  unfold normal_store_reservation_clear. cbv zeta. rewrite (is_store_op s _ H), (op_addr_alu _ _ H) by done.
  cbn [op_addr stores]. mop_wires. rw_fields. cbn [negb andb].
  intros [[[[[Hm Hc]%orb_false_iff _]%orb_false_iff _]%orb_false_iff _]%orb_false_iff _]%orb_false_iff.
  apply Hr. rewrite <-Hd, Hm, andb_true_r. rewrite Hw in Hc.
  destruct (dev ea); [done|]. rewrite Hdc in Hc; [done|]. unfold dcache_valid. rewrite Hw.
  by rewrite orb_true_r.
Qed.

Section Perform.
Context (next : Z) (c : csrs).
Abbreviation after := (perform next c op answer a).

Lemma left_log : log (tick i w) = alog ++ after.2.
Proof.
  pose proof (im_op _ _ _ _ Hin) as H.
  change (log (tick i w)) with (log w ++ events s i).
  rewrite (im_log _ _ _ _ Hin), <-app_assoc. f_equal. unfold events, port_done. rewrite Hg.
  pose proof left_uart as (-> & -> & _). pose proof left_intc as (-> & -> & _).
  pose proof left_accel as (-> & -> & _). rewrite !andb_false_r, andb_true_r. cbn [app].
  assert (Hev : plain op = true -> after.2 =
    if dev (op_addr op) then [device_event s answer] else []).
  { intros Hp. by apply plain_event. }
  assert (Hdo : plain op = true -> is_load s || store_commits s = true).
  { intros Hp. rewrite (store_commits_plain s op), (is_load_op s op) by done. by destruct op. }
  destruct (plain op) eqn:Hp.
  - rewrite Hev, Hdo, andb_true_r by done. unfold answer. rewrite Hp.
    rewrite (op_addr_alu _ op H) by (by destruct op).
    destruct (ports_split s op H) as [-> -> -> Hd| -> -> -> _ -> -> _| -> -> -> _ -> -> _| -> -> -> _ -> -> _];
      try done. specialize (Hd Hp). rewrite Hd. destruct (is_mmio (op_addr op)) eqn:Em; [|done].
    cbn [andb negb orb app]. do 2 f_equal. apply final_read_dev. rewrite (op_addr_alu _ op H) by (by destruct op). congruence.
  - destruct (ports_split s op H) as [-> -> -> _|_ _ _ Hp' _ _ _|_ _ _ Hp' _ _ _|_ _ _ Hp' _ _ _];
      try congruence. cbn [orb app].
    assert (is_mmio (ex_mem_alu (ex_mem s)) && (is_load s || store_commits s) = false) as ->.
    { destruct (loads op || stores op || amos op) eqn:E.
      - rewrite (op_addr_alu _ op H E). destruct (dev_sel (op_addr op)) as (-> & _); [|done].
        destruct op; try done; by mop_wires.
      - unfold store_commits. rewrite (is_load_op s op), (is_store_op s op) by done.
        destruct op; try done. by rewrite andb_false_r. }
    by destruct op.
Qed.

Lemma left_ram : mem_same (ram (tick i w)) (a_mem after.1).
Proof.
  pose proof (im_op _ _ _ _ Hin) as H. pose proof (im_ram _ _ _ _ Hin) as Hram.
  pose proof (im_resv _ _ _ _ Hin) as Hr. pose proof left_amo_ready as Har.
  change (ram (tick i w)) with (ram_clock s i (ram w)).
  pose proof (ram_clock_op s i (ram w) op H) as Hw.
  assert (dcache_wen s && dcache_ready i = dcache_wen s) as E.
  { destruct (dcache_wen s) eqn:E; [|done]. apply no_stalls. unfold dcache_valid. rewrite E. apply orb_true_r. }
  rewrite E, (dcache_wen_op s op H) in Hw. intros b. rewrite Hw. clear E Hw.
  destruct op; cbn [ram_at op_store perform amos] in *; try (by apply Hram); try (case_match; by apply Hram).
  - destruct (dev ea); cbn [negb fst a_mem]; [by destruct Hram as [?|[? ?]]|].
    apply store_again. destruct Hram as [?|[_ ?]]; auto.
  - rewrite (sc_flag_op s a rd ea x H Hr). cbn. destruct (sc_succeeds ea a).
    + apply store_again. destruct Hram as [?|[_ ?]]; auto.
    + by destruct Hram as [?|[? ?]].
  - rewrite Har in * by done. cbn. by destruct (amo_state s).
Qed.
Lemma left_resv :
  resv_of (rm s') = if trap_taken (TRAP_CTRL s i) then None else a_resv after.1.
Proof.
  pose proof (im_op _ _ _ _ Hin) as H. pose proof (im_resv _ _ _ _ Hin) as Hr.
  pose proof left_amo_ready as Har. pose proof no_stalls as (Hdc & _).
  change (rm s') with (rm_clock s i). unfold rm_clock, monitor_clock.
  destruct (trap_taken _); [done|].
  assert (Hlr : lr_reservation_set s i = match op with MLr _ _ => true | _ => false end).
  { unfold lr_reservation_set, dcache_ren. rewrite (is_load_op s op) by done.
    destruct op; mop_wires; rw_fields; cbn [andb orb loads]; try done.
    unfold amo_read_phase. rw_fields. cbn [andb].
    assert (dcache_ren s = true) as Hren.
    { unfold dcache_ren. rewrite (is_load_op s (MLr rd ea)) by apply Hin. cbn [loads orb andb].
      match goal with E : ex_mem_alu _ = _ |- _ => rewrite E end. unfold dev in *. by apply negb_false_iff. }
    rewrite Hdc by (unfold dcache_valid; by rewrite Hren). rewrite andb_true_r.
    unfold dev in *. by apply negb_false_iff. }
  assert (Hsc : sc_reservation_clear s i = match op with MSc _ _ _ => true | _ => false end).
  { unfold sc_reservation_clear. rewrite Hg. destruct op; mop_wires; by rw_fields. }
  pose proof (store_clear_op s i op H) as Hst. rewrite Hlr, Hsc. clear Hlr Hsc.
  pose proof left_store_resv as Hso. destruct op; try rewrite Hst; cbn [perform] in *; try done.
  - by destruct (dev ea).
  - by destruct (normal_store_reservation_clear s i); [|apply Hso].
  - cbn. by rewrite (op_addr_alu _ _ H).
  - cbn [resv_at] in Hr. rewrite Har in Hr by done. by destruct (normal_store_reservation_clear s i).
Qed.

Lemma left_amo : amo_state s' = AMO_IDLE /\ amo_result_ready s' = false.
Proof.
  cbn. unfold amo_state_clock, amo_result_ready_clock, amo_restart. rewrite Hg.
  rewrite (is_amo_op _ op) by apply Hin. destruct (amos op) eqn:E; [|done].
  by rewrite left_amo_ready.
Qed.

Lemma left_wb_val :
  ex_mem_reg_wen (ex_mem s) = true -> ex_mem_rd (ex_mem s) <> 0 -> wb_data s' = op_val op answer a.
Proof.
  pose proof (im_op _ _ _ _ Hin) as H. pose proof (im_resv _ _ _ _ Hin) as Hr.
  pose proof (im_ram _ _ _ _ Hin) as Hram. pose proof left_amo_ready as Har.
  pose proof (im_amo _ _ _ _ Hin) as Ham. pose proof answer_range as Hv.
  intros Hw H0. unfold wb_data, partial_load_out. change (mem_wb s') with (mem_wb_clock s i).
  unfold mem_wb_clock. rewrite Hg.
  cbn [mem_wb_wb_sel mem_wb_alu mem_wb_memdata mem_wb_inst mem_wb_pc mem_wb_compressed].
  assert (Hfin : ex_mem_is_sc (ex_mem s) = false -> final_alu_to_wb s = ex_mem_alu (ex_mem s)).
  { unfold final_alu_to_wb. by intros ->. }
  assert (Hans : plain op = true -> answer = final_mem_read_data s (ram_word s (ram w))) by (unfold answer; by intros ->).
  assert (Hmem : dev (op_addr op) = false -> loads op = true ->
    final_mem_read_data s (dcache_read_data i) = mem_word (ram w) (op_addr op - op_addr op mod 4)).
  { intros Hd Hl. pose proof (load_reads s op H Hl Hd) as Hren. pose proof no_stalls as (Hdc & _).
    rewrite final_read_mem, (io_dcache_data w i Hok); unfold ram_word; cbv zeta;
      rewrite ?(op_addr_alu _ op H) by (by destruct op); try done.
    - apply Hdc. unfold dcache_valid. by rewrite Hren.
    - rewrite (is_amo_op _ op) by done. by destruct op. }
  destruct op; pose proof H; mop_wires; cbn [op_val op_addr ram_at amo_at] in *; try congruence.
  - alu_cases; [congruence..| |]; rw_fields; cbn; [by rewrite Hfin|done].
  - rw_fields. rewrite Hfin by done. rw_fields. cbn. destruct (dev ea) eqn:Hd.
    + rewrite (final_read_dev s _ (ram_word s (ram w))) by (rw_fields; done).
      rewrite <-Hans by done. by apply partial_load_lanes.
    + rewrite Hmem by done. rewrite (partial_load_lanes _ _ _ o) by (done || apply mem_word_range).
      rewrite load_mem_lanes by done. by apply load_mem_same.
  - rw_fields. rewrite Hfin by done. rw_fields. cbn. rewrite Hmem, partial_load_word by done.
    rewrite (misaligned_false 4 ea), Z.sub_0_r by done. by apply mem_word_same.
  - rw_fields. cbn. unfold final_alu_to_wb. rw_fields. by rewrite (sc_flag_op s a rd ea x).
  - rw_fields. rewrite Hfin by done. rw_fields. cbn. rewrite partial_load_word by done.
    unfold final_mem_read_data. rw_fields.
    specialize (Har eq_refl). destruct (amo_state s); [congruence..|done].
Qed.

Lemma left_regs (r : Z) : read_data s' r = getreg after.1 r.
Proof.
  rewrite (perform_getreg (ex_mem s)) by apply Hin. rewrite <-(im_regs _ _ _ _ Hin), <-(read_data_rf_clock s).
  unfold read_data. change (rf s') with (rf_clock s).
  assert (mem_wb_reg_wen (mem_wb s') = ex_mem_reg_wen (ex_mem s) /\
          mem_wb_rd (mem_wb s') = ex_mem_rd (ex_mem s)) as [-> ->].
  { change (mem_wb s') with (mem_wb_clock s i). unfold mem_wb_clock. by rewrite Hg. }
  destruct (Z.eqb_spec r 0); cbn [negb]; [by rewrite andb_false_r|]. rewrite andb_true_r.
  destruct (ex_mem_reg_wen (ex_mem s)) eqn:E; [|done]. cbn [andb].
  destruct (Z.eqb_spec (ex_mem_rd (ex_mem s)) r); [|done]. rewrite left_wb_val; [done|done|lia].
Qed.

(** When the instruction moves on, the machine is in the state after it. *)
Lemma mem_leaves (a' : arch) :
  (forall r, getreg a' r = getreg after.1 r) -> a_mem a' = a_mem after.1 ->
  a_resv a' = (if trap_taken (TRAP_CTRL s i) then None else a_resv after.1) ->
  mem_idle (tick i w) a' (alog ++ after.2).
Proof.
  intros Hr Hm Hv. split.
  - apply left_uart.
  - apply left_intc.
  - apply left_accel.
  - apply left_log.
  - rewrite Hm. apply left_ram.
  - rewrite Hv. apply left_resv.
  - apply left_amo.
  - intros r. rewrite Hr. apply left_regs.
Qed.
End Perform.
End Op.
End Leaves.
