(* ===== verification/CpuEx.v ===== *)
(** * The EX stage issues an instruction

    For an instruction that has reached EX with current operands: the faults
    the trap controller sees are those of the architecture, the result that
    goes to MEM is the memory operation of [CpuSpec.mop_of], the redirect of
    the program counter and the CSR write are those of the instruction. *)

From S2P Require Import Prelude Bits Rv32 Rvc Decoder DivUnit CpuUnits Cpu CpuSpec CpuMem.

(** ** What ID hands to EX *)

Definition decode_stage (d : if_id_reg) (x1 x2 : Z) : id_ex_reg :=
  let inst := if_id_inst d in
  {| id_ex_pc := if_id_pc d; id_ex_rs1 := x1; id_ex_rs2 := x2;
     id_ex_imm := immgen inst (imm_sel (control inst));
     id_ex_rd := rd_of inst; id_ex_inst := inst; id_ex_ctrl := control inst;
     id_ex_compressed := if_id_compressed d; id_ex_predicted_taken := if_id_predicted_taken d;
     id_ex_predicted_target := if_id_predicted_target d; id_ex_pht_index := if_id_pht_index d;
     id_ex_is_lr := out_is_lr inst; id_ex_is_sc := out_is_sc inst; id_ex_is_amo := out_is_amo inst;
     id_ex_atomic_op := atomic_funct5 inst; id_ex_csr_wen := csr_wen inst;
     id_ex_illegal := illegal_inst inst; id_ex_csr_op := csr_op_of inst;
     id_ex_csr_use_imm := csr_use_imm inst; id_ex_csr_uimm := csr_uimm inst;
     id_ex_valid := if_id_valid d |}.

Lemma id_ex_load_stage (s : cpu) :
  id_ex_load s = decode_stage (if_id s) (read_data s (rs1_of (if_id_inst (if_id s))))
                   (read_data s (rs2_of (if_id_inst (if_id s)))).
Proof. done. Qed.

(** The source registers the hazard unit looks at. *)
Definition rs1_used (inst : Z) : bool :=
  let opc := bits 6 2 inst in negb ((opc =? 27) || (opc =? 13) || (opc =? 5)).
Definition rs2_used (inst : Z) : bool :=
  let opc := bits 6 2 inst in (opc =? 12) || (opc =? 8) || (opc =? 24) || (opc =? 11).

Lemma used_opcode (inst : Z) :
  rs1_used inst = rs1_used (opcode inst) /\ rs2_used inst = rs2_used (opcode inst).
Proof. unfold rs1_used, rs2_used, opcode. by rewrite (bits_bits 6 0 6 2) by lia. Qed.

(** ** Prediction *)

(** A predicted target is the one of the instruction, or, for a return, even. *)
Definition pred_ok (d : if_id_reg) : Prop :=
  if_id_predicted_taken d = true ->
  let inst := if_id_inst d in
  let target := if_id_predicted_target d in
  target mod 2 = 0 /\
  (opcode inst = 0x63 /\ target = u32 (if_id_pc d + immgen inst 2) \/
   opcode inst = 0x6f /\ target = u32 (if_id_pc d + immgen inst 4) \/
   opcode inst = 0x67).

Definition pred_next (d : if_id_reg) : Z :=
  if if_id_predicted_taken d then if_id_predicted_target d
  else u32 (if_id_pc d + inc_of (if_id_compressed d)).

(** ** A legal instruction in EX *)

Section Legal.
Context (s : cpu) (a : arch) (d : if_id_reg) (x1 x2 : Z) (i : instr) (len : Z).
Abbreviation inst := (if_id_inst d).
Context (He : id_ex s = decode_stage d x1 x2) (Hv : if_id_valid d = true)
  (Hdec : decode inst = Some i) (Hlen : len = inc_of (if_id_compressed d))
  (Hpc : a_pc a = if_id_pc d) (Hcsr : a_csr a = csr s) (Hwf : wf_arch a)
  (H1 : rs1_used inst = true -> fwd_rs1 s = getreg a (rs1_of inst))
  (H2 : rs2_used inst = true -> fwd_rs2 s = getreg a (rs2_of inst)).

Lemma ex_ctrl : id_ex_ctrl (id_ex s) = ctrl_of i.
Proof. rewrite He. cbn [decode_stage id_ex_ctrl]. by apply control_of. Qed.

Lemma ex_imm : id_ex_imm (id_ex s) = immgen inst (imm_sel (ctrl_of i)).
Proof. rewrite He. cbn [decode_stage id_ex_imm]. by rewrite (proj1 (control_of _ _ Hdec)). Qed.

Lemma ex_inst : id_ex_inst (id_ex s) = inst.
Proof. by rewrite He. Qed.

(** The operands, instruction by instruction. *)
Lemma ex_operands :
  match i with
  | Op _ _ r1 r2 | Branch _ r1 r2 _ | Store _ r1 r2 _ | Sc _ r1 r2 | Amo _ _ r1 r2 =>
      fwd_rs1 s = getreg a r1 /\ fwd_rs2 s = getreg a r2
  | OpImm _ _ r1 _ | Jalr _ r1 _ | Load _ _ r1 _ | Lr _ r1 | Csr _ _ _ (FromReg r1) =>
      fwd_rs1 s = getreg a r1
  | _ => True
  end.
Proof.
  pose proof (decode_fields _ _ Hdec) as F. destruct (used_opcode inst) as [U1 U2].
  rewrite U1 in H1. rewrite U2 in H2. revert H1 H2. clear U1 U2.
  destruct i; try done; cbn [decoded_as] in F;
    try (match goal with src : csr_src |- _ => destruct src end; [|done]);
    repeat match goal with H : _ /\ _ |- _ => destruct H end;
    match goal with E : opcode inst = _ |- _ => rewrite E end; cbn;
    intros; subst; auto.
Qed.

Lemma ex_opcode_is : ex_opcode s = opcode inst /\ ex_funct3 s = funct3 inst.
Proof. unfold ex_opcode, ex_funct3. by rewrite ex_inst. Qed.

Lemma ex_acc_size_is : ex_acc_size s = bits 1 0 (funct3 inst).
Proof. unfold ex_acc_size, funct3. rewrite ex_inst. by rewrite (bits_bits 14 12 1 0) by lia. Qed.

(** The address of a memory access. *)
Lemma ex_addr :
  match i with
  | Load _ _ r1 imm | Store _ r1 _ imm | Jalr _ r1 imm => redirect_target_adder s = u32 (getreg a r1 + imm)
  | Lr _ r1 | Sc _ r1 _ | Amo _ _ r1 _ => redirect_target_adder s = u32 (getreg a r1)
  | Auipc _ imm | Jal _ imm | Branch _ _ _ imm => redirect_target_adder s = u32 (a_pc a + imm)
  | _ => True
  end.
Proof.
  pose proof (decode_fields _ _ Hdec) as F. pose proof ex_operands as Ho.
  unfold redirect_target_adder, alu_a, alu_b. rewrite ex_ctrl, ex_imm.
  assert (id_ex_pc (id_ex s) = a_pc a) as Ep by (by rewrite He).
  destruct i; try done; cbn [ctrl_of Decoder.a_sel Decoder.b_sel Decoder.imm_sel decoded_as] in *;
    rewrite ?Ep; repeat match goal with H : _ /\ _ |- _ => destruct H end;
    repeat match goal with H : fwd_rs1 _ = _ |- _ => rewrite H end;
    repeat match goal with H : immgen _ _ = _ |- _ => rewrite H end;
    try (change (immgen inst 7) with 0; by rewrite Z.add_0_r).
  - done.
  - subst imm. rewrite immgen_j. unfold u32, uwrap. apply Zplus_mod_idemp_r.
  - unfold u32, uwrap. apply Zplus_mod_idemp_r.
  - subst imm. rewrite immgen_b. unfold u32, uwrap. apply Zplus_mod_idemp_r.
  - unfold u32, uwrap. apply Zplus_mod_idemp_r.
  - unfold u32, uwrap. apply Zplus_mod_idemp_r.
Qed.

Lemma misaligned_1 (ea : Z) : misaligned 1 ea = false.
Proof. unfold misaligned. by rewrite Z.mod_1_r. Qed.
Lemma misaligned_2 (ea : Z) : bit 0 ea = misaligned 2 ea.
Proof.
  unfold bit, misaligned. rewrite Z.bit0_odd, Zodd_mod.
  pose proof (Z.mod_pos_bound ea 2 ltac:(lia)).
  by assert (ea mod 2 = 0 \/ ea mod 2 = 1) as [-> | ->] by lia.
Qed.
Lemma misaligned_4 (ea : Z) : negb (bits 1 0 ea =? 0) = misaligned 4 ea.
Proof. unfold misaligned. by rewrite bits_low2. Qed.

(** The faults of EX. *)
Lemma ex_misaligned :
  ex_misalign_load s =
    match i with Load o _ r1 imm => misaligned (load_size o) (u32 (getreg a r1 + imm)) | _ => false end /\
  ex_misalign_store s =
    match i with
    | Store o r1 _ imm => misaligned (store_size o) (u32 (getreg a r1 + imm))
    | Lr _ r1 | Sc _ r1 _ | Amo _ _ r1 _ => misaligned 4 (u32 (getreg a r1))
    | _ => false
    end.
Proof.
  pose proof (decode_fields _ _ Hdec) as F. pose proof ex_addr as Ha.
  unfold ex_misalign_load, ex_misalign_store, ex_size_misaligned, ex_op_load, ex_op_store, ex_op_atomic,
    ex_data_addr. rewrite ex_inst, ex_acc_size_is. fold (opcode inst).
  destruct i; cbn [decoded_as] in F; try (destruct F as [F _]; by rewrite F); try rewrite Ha; clear Ha.
  - destruct F as (-> & -> & _). cbn. destruct o; cbn;
      by rewrite ?misaligned_1, ?misaligned_2, ?misaligned_4.
  - destruct F as (-> & -> & _). cbn. destruct o; cbn;
      by rewrite ?misaligned_1, ?misaligned_2, ?misaligned_4, ?orb_false_r.
  - destruct F as (-> & _). cbn. by rewrite misaligned_4.
  - destruct F as (-> & _). cbn. by rewrite misaligned_4.
  - destruct F as (-> & _). cbn. by rewrite misaligned_4.
  - destruct F as ([F|[F _]] & _); by rewrite F.
Qed.

Lemma ex_system :
  is_ecall inst = (match i with Ecall => true | _ => false end) /\
  is_mret inst = (match i with Mret => true | _ => false end).
Proof.
  pose proof (decode_fields _ _ Hdec) as F. unfold is_ecall, is_mret, is_system. fold (opcode inst).
  destruct i; cbn [decoded_as] in F; try (destruct F as [F _]; by rewrite F).
  - destruct F as (-> & _ & _ & -> & E0 & E1 & _). cbn.
    by destruct (Z.eqb_spec csr 0), (Z.eqb_spec csr 0x302); try lia.
  - destruct F as (-> & _ & _ & ->). done.
  - destruct F as (-> & _ & _ & ->). done.
  - destruct F as ([F|[F E]] & _); rewrite F; [done|]. by rewrite E.
Qed.

Lemma ex_traps :
  traps i a =
  if ex_misalign_load s then Some (4, ex_data_addr s)
  else if ex_misalign_store s then Some (6, ex_data_addr s)
  else if is_ecall inst then Some (11, 0) else None.
Proof.
  pose proof ex_misaligned as [-> ->]. pose proof ex_system as [-> _]. pose proof ex_addr as Ha.
  unfold ex_data_addr. destruct i; cbn [traps]; rewrite ?Ha; try done; by case_match.
Qed.

(** *** The result *)

Context (Hdiv : is_div_op s = true -> holds_result (div_is_signed s) (alu_a s) (alu_b s) (div s)).

Lemma ex_operands_op (o : alu_op) (rd r1 r2 : Z) :
  i = Op o rd r1 r2 -> alu_a s = getreg a r1 /\ alu_b s = getreg a r2.
Proof.
  intros Ei. pose proof ex_operands as Ho. unfold alu_a, alu_b. rewrite ex_ctrl. by rewrite Ei in *.
Qed.

Lemma ex_result_op (o : alu_op) (rd r1 r2 : Z) :
  i = Op o rd r1 r2 -> ex_result s = alu_sem o (getreg a r1) (getreg a r2).
Proof.
  intros Ei. destruct (ex_operands_op o rd r1 r2 Ei) as [Ea Eb].
  pose proof Hdiv as Hdiv'. unfold ex_result, alu_out.
  unfold is_div_op, div_is_signed, div_want_rem, holds_result, quot_of, rem_of in *.
  rewrite ex_ctrl, Ei, Ea, Eb in *. cbn [ctrl_of Decoder.alu_sel] in *.
  destruct (multi_cycle o) eqn:Em.
  - destruct o; try done; cbn in Hdiv' |- *; destruct (Hdiv' eq_refl) as (_ & Hq & Hr); done.
  - assert ((bits 4 2 (alu_code o) =? 4) = false) as -> by (by destruct o).
    apply alu_correct; [done|apply Hwf|apply Hwf].
Qed.

Lemma ex_result_alu :
  (bits 4 2 (Decoder.alu_sel (ctrl_of i)) =? 4) = false ->
  ex_result s = alu (Decoder.alu_sel (ctrl_of i)) (alu_a s) (alu_b s).
Proof. unfold ex_result, is_div_op, alu_out. rewrite ex_ctrl. by intros ->. Qed.

Lemma ex_result_imm (o : alu_op) (rd r1 imm : Z) :
  i = OpImm o rd r1 imm -> ex_result s = alu_sem o (getreg a r1) (u32 imm).
Proof.
  intros Ei. pose proof (decode_fields _ _ Hdec) as F. pose proof ex_operands as Ho.
  rewrite Ei in F, Ho. destruct F as (_ & _ & _ & Hm & Himm).
  rewrite ex_result_alu by (rewrite Ei; by destruct o). unfold alu_a, alu_b.
  rewrite ex_ctrl, ex_imm, Ei, Ho. cbn [ctrl_of Decoder.a_sel Decoder.b_sel Decoder.imm_sel Decoder.alu_sel].
  rewrite <-Himm. apply alu_correct; [done|apply Hwf|apply immgen_range].
Qed.

(** The ALU adds the address. *)
Lemma ex_result_add :
  Decoder.alu_sel (ctrl_of i) = 0 -> ex_result s = redirect_target_adder s.
Proof. intros E. rewrite ex_result_alu by (by rewrite E). by rewrite E. Qed.

Lemma ex_result_lui (rd imm : Z) : i = Lui rd imm -> ex_result s = imm.
Proof.
  intros Ei. pose proof (decode_fields _ _ Hdec) as F. rewrite Ei in F.
  rewrite ex_result_alu by (by rewrite Ei). unfold alu_b. rewrite ex_ctrl, ex_imm, Ei.
  cbn [ctrl_of Decoder.b_sel Decoder.imm_sel Decoder.alu_sel]. by destruct F as (_ & _ & ->).
Qed.

(** *** The next address *)

Lemma ex_branch_taken (o : branch_op) (r1 r2 imm : Z) :
  i = Branch o r1 r2 imm -> branch_actual_taken s = branch_sem o (getreg a r1) (getreg a r2).
Proof.
  intros Ei. pose proof (decode_fields _ _ Hdec) as F. pose proof ex_operands as Ho.
  rewrite Ei in F, Ho. destruct F as (F & F3 & _), Ho as [Ho1 Ho2].
  unfold branch_actual_taken, id_ex_is_branch, id_ex_br_eq, id_ex_br_lt, br_eq, br_lt.
  pose proof ex_opcode_is as [-> ->]. rewrite F, F3, Ho1, Ho2.
  destruct o; cbn; rewrite ?orb_false_r, ?andb_false_r, ?andb_true_r; cbn; rewrite ?orb_false_r; done.
Qed.

Lemma mask_even (x : Z) : is_uint 32 x -> x .& 0xFFFFFFFE = Z.clearbit x 0.
Proof.
  intros Hx. apply (uint_eq_bits 32); [done|by apply land_uint_r|rewrite Z.clearbit_spec'; by apply ldiff_uint|].
  intros k Hk. rewrite Z.land_spec, Z.clearbit_eqb.
  change 0xFFFFFFFE with (Z.shiftl (Z.ones 31) 1). rewrite Z.shiftl_spec by lia.
  destruct (Z.eqb_spec 0 k) as [<-|]; [done|]. by rewrite Z.ones_spec_low by lia.
Qed.

Lemma clearbit_even (x : Z) : x mod 2 = 0 -> Z.clearbit x 0 = x.
Proof.
  intros Hx. apply Z.bits_inj'. intros k Hk. rewrite Z.clearbit_eqb.
  destruct (Z.eqb_spec 0 k) as [<-|]; [|by rewrite andb_true_r].
  by rewrite Z.bit0_odd, Zodd_mod, Hx.
Qed.

Lemma u32_even (x y : Z) : x mod 2 = 0 -> y mod 2 = 0 -> u32 (x + y) mod 2 = 0.
Proof. intros. unfold u32, uwrap. divlia. Qed.

Lemma mask_u32_even (x : Z) : u32 x mod 2 = 0 -> u32 x .& 0xFFFFFFFE = u32 x.
Proof. intros. rewrite mask_even by (by apply uwrap_range). by apply clearbit_even. Qed.

Lemma inc_even (c : bool) : inc_of c mod 2 = 0.
Proof. by destruct c. Qed.

Context (Hev : if_id_pc d mod 2 = 0) (Hpred : pred_ok d).

Lemma ex_pc_plus_inc : id_ex_pc_plus_inc s = u32 (a_pc a + len).
Proof. unfold id_ex_pc_plus_inc. by rewrite He, Hpc, Hlen. Qed.

Lemma ex_next_straight :
  (opcode inst =? 0x63) = false -> (opcode inst =? 0x6f) = false -> (opcode inst =? 0x67) = false ->
  pc_sel s = false /\ pred_next d = u32 (a_pc a + len).
Proof.
  intros E1 E2 E3. split.
  - unfold pc_sel, branch_mispredicted, id_ex_is_branch, id_ex_is_jal, id_ex_is_jalr.
    pose proof ex_opcode_is as [-> _]. by rewrite E1, E2, E3.
  - unfold pred_next. destruct (if_id_predicted_taken d) eqn:E; [|by rewrite Hpc, Hlen].
    destruct (Hpred E) as (_ & [[F _]|[[F _]|F]]); rewrite F in *; done.
Qed.

Lemma ex_next :
  (match i with Mret => False | _ => True end) ->
  (if pc_sel s then ex_redirect_target s else pred_next d) = next_of i len a.
Proof.
  intros Hm. pose proof (decode_fields _ _ Hdec) as F. pose proof ex_addr as Ha.
  pose proof ex_next_straight as Hs. pose proof ex_branch_taken as Hb.
  pose proof ex_opcode_is as [Eo _]. pose proof ex_pc_plus_inc as Einc.
  assert (Ep : id_ex_predicted_taken (id_ex s) = if_id_predicted_taken d /\
    id_ex_predicted_target (id_ex s) = if_id_predicted_target d) by (by rewrite He).
  destruct Ep as [Ep1 Ep2].
  assert (Hinc : u32 (a_pc a + len) .& 0xFFFFFFFE = u32 (a_pc a + len)).
  { apply mask_u32_even, u32_even; [by rewrite Hpc|]. rewrite Hlen. apply inc_even. }
  assert (Hnp : if_id_predicted_taken d = false -> pred_next d = u32 (a_pc a + len)).
  { unfold pred_next. intros ->. by rewrite Hpc, Hlen. }
  assert (Hadd : forall x y, u32 (x + u32 y) = u32 (x + y)).
  { intros. unfold u32, uwrap. apply Zplus_mod_idemp_r. }
  destruct i; try done; cbn [decoded_as next_of] in *;
    try (destruct F as [F _]; rewrite F in Hs; by destruct (Hs eq_refl eq_refl eq_refl) as [-> ->]).
  - destruct F as (F & _ & ->). unfold pc_sel, ex_redirect_target, branch_mispredicted, id_ex_is_branch,
      id_ex_is_jal, id_ex_is_jalr. rewrite Eo, F, Ep1, Ha. cbn.
    destruct (if_id_predicted_taken d) eqn:E; cbn.
    + unfold pred_next. rewrite E. destruct (Hpred E) as (_ & [[F' _]|[[_ ->]|F']]); rewrite ?F in *; try done.
      by rewrite immgen_j, Hadd, Hpc.
    + apply mask_u32_even, u32_even; [by rewrite Hpc|apply imm_j_even].
  - destruct F as (F & _). unfold pc_sel, ex_redirect_target, jalr_ras_mispredicted, branch_mispredicted,
      id_ex_is_branch, id_ex_is_jal, id_ex_is_jalr. rewrite Eo, F, Ep1, Ep2, Ha. cbn.
    assert (forall x, u32 x .& 0xFFFFFFFE = Z.clearbit (u32 x) 0) as Hmask.
    { intros. apply mask_even. by apply uwrap_range. }
    destruct (if_id_predicted_taken d) eqn:E; cbn; [|by rewrite Hmask].
    destruct (Z.eqb_spec (u32 (getreg a rs1 + imm)) (if_id_predicted_target d)) as [Et|Et]; cbn; [|by rewrite Hmask].
    unfold pred_next. rewrite E, Et. destruct (Hpred E) as (He2 & _). by rewrite clearbit_even.
  - destruct F as (F & _ & _ & _ & ->). specialize (Hb _ _ _ _ eq_refl).
    unfold pc_sel, ex_redirect_target, branch_mispredicted, id_ex_is_branch,
      id_ex_is_jal, id_ex_is_jalr. rewrite Eo, F, Ep1, Ha, Einc, Hb. cbn.
    assert (u32 (a_pc a + imm_b inst) .& 0xFFFFFFFE = u32 (a_pc a + imm_b inst)) as Ht.
    { apply mask_u32_even, u32_even; [by rewrite Hpc|apply imm_b_even]. }
    destruct (branch_sem o (getreg a rs1) (getreg a rs2)), (if_id_predicted_taken d) eqn:E; cbn; auto.
    unfold pred_next. rewrite E. destruct (Hpred E) as (_ & [[_ ->]|[[F' _]|F']]); rewrite ?F in *; try done.
    by rewrite immgen_b, Hadd, Hpc.
  - destruct F as ([F|[F _]] & _); rewrite F in Hs; by destruct (Hs eq_refl eq_refl eq_refl) as [-> ->].
Qed.

(** *** Issue to MEM *)

Context (inp : inputs) (Hg : global_mem_stall s inp = false).

(** The interrupt lines as [mip] shows them in this cycle. *)
Definition ex_lines : lines :=
  {| timer_line := timer_interrupt (clint_regs s); external_line := intc_irq_out inp |}.

Lemma csr_out_read (n : Z) : bits 31 20 inst = n -> csr_out s inp = csr_read ex_lines (a_csr a) n.
Proof.
  intros <-. unfold csr_out, csr_addr, csr_rdata, csr_read. rewrite ex_inst, Hcsr.
  assert (csr_mip (intc_irq_out inp) (timer_interrupt (clint_regs s)) = mip ex_lines) as ->.
  { unfold csr_mip, mip, ex_lines. cbn [timer_line external_line].
    by destruct (intc_irq_out inp), (timer_interrupt (clint_regs s)). }
  done.
Qed.

Lemma ex_flags :
  out_is_lr inst = (match i with Lr _ _ => true | _ => false end) /\
  out_is_sc inst = (match i with Sc _ _ _ => true | _ => false end) /\
  out_is_amo inst = (match i with Amo _ _ _ _ => true | _ => false end) /\
  csr_wen inst = (match i with Csr _ _ _ _ => true | _ => false end).
Proof.
  pose proof (decode_fields _ _ Hdec) as F.
  unfold out_is_amo, out_is_lr, out_is_sc, is_atomic_inst. fold (opcode inst).
  assert (Hc : opcode inst <> 0x73 -> csr_wen inst = false) by apply csr_wen_other.
  destruct i; cbn [decoded_as] in F; try (destruct F as [F _]; rewrite F, Hc by lia; done).
  - destruct F as (F & _ & -> & _). by rewrite F, Hc by lia.
  - destruct F as (F & _ & -> & _). by rewrite F, Hc by lia.
  - destruct F as (F & _ & -> & _). rewrite F, Hc by lia. by destruct o.
  - destruct F as (-> & -> & _). done.
  - destruct F as (-> & -> & _). done.
  - destruct F as (-> & -> & _). done.
  - destruct F as ([F|[F _]] & -> & _); by rewrite F.
Qed.

(** *** Stalls, CSRs *)

(** Only an instruction whose result comes from memory stalls the one behind. *)
Lemma ex_stall :
  stall s = true -> match i with Load _ _ _ _ | Lr _ _ | Amo _ _ _ _ => True | _ => False end.
Proof.
  unfold stall, load_use_stall, id_ex_mem_read. rewrite ex_ctrl. by destruct i.
Qed.

Lemma ex_redirect_stall : pc_sel s = true -> stall s = false.
Proof.
  intros Hp. destruct (stall s) eqn:E; [|done]. apply ex_stall in E.
  pose proof (decode_fields _ _ Hdec) as F. pose proof ex_next_straight as Hs.
  destruct i; try done; destruct F as (F & _); rewrite F in Hs;
    destruct (Hs eq_refl eq_refl eq_refl) as [Hq _]; congruence.
Qed.

Lemma csr_soft_write_update (o : csr_op) (n x : Z) (c : csrs) :
  wf_csrs c -> csr_soft_write n (csr_code o) x c = csr_update (csr_sem o x) n c.
Proof.
  intros [? ? ? ? ? ?].
  assert (Hnew : forall old, is_uint 32 old -> csr_new (csr_code o) old x = csr_sem o x old).
  { intros old Hold. destruct o; [done..|]. cbn. apply (uint_eq_bits 32); [done| |by apply ldiff_uint|].
    - rewrite Z.land_comm. by apply land_uint_r.
    - intros k Hk. rewrite Z.land_spec, Z.ldiff_spec. unfold u32. rewrite uwrap_testbit, Z.lnot_spec by lia.
      by rewrite (proj2 (Z.ltb_lt k 32)) by lia. }
  unfold csr_soft_write, csr_update, set_mstatus. rewrite !Hnew by done.
  repeat match goal with |- context [if Z.eqb n ?k then _ else _] =>
    destruct (Z.eqb_spec n k); [subst n; done|] end. by destruct c.
Qed.

Lemma ex_csr_sel (n : Z) :
  match i with
  | Csr o _ n src => csr_addr s = n /\ id_ex_csr_op (id_ex s) = csr_code o /\ csr_operand s = src_val src a /\
      ex_csr_wen s inp = true
  | _ => ex_csr_wen s inp = false
  end.
Proof.
  pose proof (decode_fields _ _ Hdec) as F. pose proof ex_operands as Ho. pose proof ex_stall as Hst.
  assert (Ew : id_ex_csr_wen (id_ex s) = csr_wen inst) by (by rewrite He).
  assert (Eo : id_ex_csr_op (id_ex s) = csr_op_of inst) by (by rewrite He).
  assert (Eu : id_ex_csr_use_imm (id_ex s) = csr_use_imm inst /\ id_ex_csr_uimm (id_ex s) = csr_uimm inst) by (by rewrite He).
  destruct Eu as [Eu1 Eu2].
  unfold ex_csr_wen, csr_addr, csr_operand. rewrite Ew, ex_inst, Eo, Eu1, Eu2, Hg.
  destruct ex_flags as (_ & _ & _ & Ec). rewrite Ec. destruct i; try done.
  cbn [decoded_as] in F. destruct F as (_ & _ & _ & -> & _ & _ & -> & Hsrc). split_and!; try done.
  - destruct src; destruct Hsrc as [-> <-]; [by rewrite Ho|done].
  - destruct (stall s); [by specialize (Hst eq_refl)|done].
Qed.

(** The CSRs after EX when no trap is taken. *)
Lemma ex_csr_next :
  trap_taken (TRAP_CTRL s inp) = false -> mret_exec (TRAP_CTRL s inp) = is_mret inst ->
  csr_next s inp = csr_of i a.
Proof.
  intros Ht Hm. unfold csr_next, csr_clock. rewrite Ht, Hm. destruct ex_system as [_ ->].
  pose proof (ex_csr_sel 0) as Hsel. destruct i; cbn [csr_of]; rewrite ?Hsel, ?Hcsr; try done.
  destruct Hsel as (-> & -> & -> & ->). apply csr_soft_write_update. rewrite <-Hcsr. apply Hwf.
Qed.

(** *** The trap controller *)

Definition irq_fires : bool := timer_fires s inp || external_fires s inp.

Lemma ex_trap_ctrl :
  TRAP_CTRL s inp =
  if irq_fires && negb (is_mret inst) then
    take_trap (is_mret inst) (if external_fires s inp then 0x8000000B else 0x80000007) 0 (a_pc a) (mtvec (a_csr a))
  else match traps i a with
       | Some p => take_trap (is_mret inst) p.1 p.2 (a_pc a) (mtvec (a_csr a))
       | None =>
           if is_mret inst then
             {| trap_taken := false; trap_cause := 0; trap_val := 0; trap_pc := 0; mret_exec := true;
                flush_if := true; flush_id := true; flush_ex := true;
                pc_trap_override := true; trap_target_pc := mepc (a_csr a) |}
           else no_trap
       end.
Proof.
  unfold TRAP_CTRL, trap_controller, irq_fires. rewrite ex_inst, Hg, Hpc, Hcsr, ex_traps.
  assert (id_ex_valid (id_ex s) = true /\ id_ex_illegal (id_ex s) = false /\ id_ex_pc (id_ex s) = if_id_pc d)
    as (-> & -> & ->).
  { rewrite He. cbn [decode_stage id_ex_valid id_ex_illegal id_ex_pc]. by rewrite (proj2 (control_of _ _ Hdec)), Hv. }
  cbn [negb]. rewrite !andb_true_r. cbn [andb].
  destruct (_ && negb (is_mret inst)); [done|].
  destruct (ex_misalign_load s), (ex_misalign_store s), (is_ecall inst); done.
Qed.

(** *** The register of EX/MEM *)

Context (Hflush : flush_ex (TRAP_CTRL s inp) = false).

Lemma ex_mem_clock_issue :
  ex_mem_clock s inp =
  {| ex_mem_alu := if csr_wen inst then csr_out s inp else ex_result s;
     ex_mem_rs2 := fwd_rs2 s; ex_mem_inst := inst;
     ex_mem_pc := if_id_pc d; ex_mem_compressed := if_id_compressed d; ex_mem_rd := rd_of inst;
     ex_mem_reg_wen := reg_wen (ctrl_of i); ex_mem_mem_rw := mem_rw (ctrl_of i);
     ex_mem_wb_sel := wb_sel (ctrl_of i);
     ex_mem_is_lr := out_is_lr inst; ex_mem_is_sc := out_is_sc inst; ex_mem_is_amo := out_is_amo inst;
     ex_mem_atomic_op := atomic_funct5 inst; ex_mem_valid := true |}.
Proof.
  unfold ex_mem_clock. cbv zeta. rewrite Hg, Hflush, ex_ctrl. unfold actual_ex_result.
  rewrite He. cbn. by rewrite Hv.
Qed.

Lemma ex_issue :
  traps i a = None -> atomic_ok i a = true -> mop_in (ex_mem_clock s inp) (mop_of ex_lines i len a).
Proof.
  intros Ht Hat. rewrite ex_mem_clock_issue. pose proof (decode_fields _ _ Hdec) as F.
  pose proof ex_flags as (Elr & Esc & Eamo & Ecsr). pose proof ex_operands as Ho. pose proof ex_addr as Ha.
  pose proof (csr_out_read (bits 31 20 inst) eq_refl) as Hcr.
  pose proof ex_result_op as Rop. pose proof ex_result_imm as Rimm. pose proof ex_result_add as Radd.
  pose proof ex_result_lui as Rlui.
  assert (Hmis : forall size (p : Z * Z) ea, (if misaligned size ea then Some p else None) = None ->
    misaligned size ea = false) by (intros size p ea; by destruct (misaligned size ea)).
  destruct i; cbn [mop_of mop_in decoded_as ctrl_of traps atomic_ok] in *;
    rewrite ?Elr, ?Esc, ?Eamo, ?Ecsr; unfold flags, dest, access;
    cbn [ex_mem_alu ex_mem_rs2 ex_mem_inst ex_mem_pc ex_mem_compressed ex_mem_rd ex_mem_reg_wen
         ex_mem_mem_rw ex_mem_wb_sel ex_mem_is_lr ex_mem_is_sc ex_mem_is_amo ex_mem_atomic_op
         reg_wen mem_rw wb_sel];
    repeat match goal with H : _ /\ _ |- _ => destruct H end;
    repeat match goal with H : (if _ then _ else _) = None |- _ => apply Hmis in H end.
  - split_and!; try done. right; left. split_and!; try done. by eapply Rop.
  - split_and!; try done. right; left. split_and!; try done. by eapply Rimm.
  - split_and!; try done. right; left. split_and!; try done. by eapply Rlui.
  - split_and!; try done. right; left. split_and!; try done. by rewrite Radd, Ha.
  - split_and!; try done. right; right. split_and!; try done. by rewrite Hpc, Hlen.
  - split_and!; try done. right; right. split_and!; try done. by rewrite Hpc, Hlen.
  - split_and!; try done. left. split; [|done]. by left.
  - split_and!; try done. by rewrite Radd, Ha.
  - split_and!; try done. by rewrite Radd, Ha.
  - split_and!; try done; [by rewrite Radd, Ha|]. by apply negb_true_iff.
  - split_and!; try done; [by rewrite Radd, Ha|]. by apply negb_true_iff.
  - split_and!; try done; [by rewrite Radd, Ha|]. by apply negb_true_iff.
  - split_and!; try done. right; left. split_and!; try done. by subst.
  - done.
  - split_and!; try done. left. split; [|done]. by right.
  - split_and!; try done. left. split; [|done]. by right.
Qed.
End Legal.
