(* ===== verification/CpuFront.v ===== *)
(** * Fetch, decode and the stages in order

    The instructions in IF/ID and ID/EX are the parcels at their addresses,
    when these are code, each the predicted successor of the one before; a redirect discards the
    younger ones.  [front_ok] is the invariant, [front_pc] the address of the
    oldest instruction that has not reached MEM. *)

From S2P Require Import Prelude Bits Rv32 Rvc Decoder DivUnit CpuUnits Cpu CpuSpec CpuMem CpuEx.

Definition next_in_line (s : cpu) : Z :=
  if if_id_valid (if_id s) then if_id_pc (if_id s) else pc s.
Definition front_pc (s : cpu) : Z :=
  if id_ex_valid (id_ex s) then id_ex_pc (id_ex s) else next_in_line s.

(** How many cycles in which the pipeline moves bring an instruction to MEM. *)
Definition rank (s : cpu) : nat :=
  if ex_mem_valid (ex_mem s) then 0 else if id_ex_valid (id_ex s) then 1
  else if if_id_valid (if_id s) then 2 else 3.

(** The return addresses on the stack are even. *)
Record ras_ok (p : predictor) : Prop := {
  ras_sp_range : is_uint 3 (ras_sp p);
  ras_count_range : 0 <= ras_count p <= 8;
  ras_even : forall k, 0 <= k < ras_count p -> ras_stack p (uwrap 3 (ras_sp p - 1 - k)) mod 2 = 0;
}.

Section Front.
Context (imem : Z -> Z) (code : Z -> bool).

Definition if_ok (d : if_id_reg) : Prop :=
  if if_id_valid d then
    (code (if_id_pc d) = true ->
       if_id_inst d = final_inst (imem (if_id_pc d)) /\
       if_id_compressed d = is_compressed (bits 15 0 (imem (if_id_pc d)))) /\
    if_id_pc d mod 2 = 0 /\ pred_ok d
  else d = if_id_clear.

Inductive ex_ok (s : cpu) : Prop :=
  | ex_cleared : id_ex s = id_ex_clear -> ex_ok s
  | ex_holds (d : if_id_reg) (x1 x2 : Z) :
      id_ex s = decode_stage d x1 x2 -> if_ok d ->
      operand_ok s (rs1_of (if_id_inst d)) x1 -> operand_ok s (rs2_of (if_id_inst d)) x2 ->
      (if_id_valid d = true -> pred_next d = next_in_line s) -> ex_ok s.

(** The instruction in EX does not need what a load in MEM has not read yet. *)
Definition no_hazard (s : cpu) : Prop :=
  let inst := id_ex_inst (id_ex s) in
  load_use_stall (ex_mem_loads s) (ex_mem_rd (ex_mem s)) (rs1_of inst) (rs2_of inst)
    (rs1_used inst) (rs2_used inst) = false.

Record front_ok (s : cpu) : Prop := {
  fo_if : if_ok (if_id s);
  fo_chain : if_id_valid (if_id s) = true -> pred_next (if_id s) = pc s;
  fo_ex : ex_ok s;
  fo_hazard : no_hazard s;
  fo_pc : pc s mod 2 = 0;
  fo_ras : ras_ok (bp s);
}.

(** ** Return-address stack *)

Lemma ras_push (p : predictor) (v : Z) (pht' : Z -> Z) (ghr' : Z) :
  ras_ok p -> v mod 2 = 0 ->
  ras_ok {| pht := pht'; ghr := ghr'; ras_stack := fupd (ras_stack p) (ras_sp p) v;
            ras_sp := uwrap 3 (ras_sp p + 1);
            ras_count := if ras_count p =? 8 then 8 else ras_count p + 1 |}.
Proof.
  intros [Hs Hc He] Hv. unfold is_uint in Hs. split; cbn -[uwrap].
  - by apply uwrap_range.
  - destruct (Z.eqb_spec (ras_count p) 8); lia.
  - intros k Hk. assert (0 <= k <= 7 /\ (0 < k -> k - 1 < ras_count p)) as [Hk7 Hkc].
    { destruct (Z.eqb_spec (ras_count p) 8); lia. }
    destruct (Z.eq_dec k 0) as [->|].
    + assert (uwrap 3 (uwrap 3 (ras_sp p + 1) - 1 - 0) = ras_sp p) as ->.
      { unfold uwrap. divlia. }
      by rewrite fupd_eq.
    + assert (uwrap 3 (uwrap 3 (ras_sp p + 1) - 1 - k) = uwrap 3 (ras_sp p - 1 - (k - 1))) as ->.
      { unfold uwrap. divlia. }
      rewrite fupd_ne; [apply He; lia|]. unfold uwrap. divlia.
Qed.

Lemma ras_pop (p : predictor) (pht' : Z -> Z) (ghr' : Z) :
  ras_ok p -> 0 < ras_count p ->
  ras_ok {| pht := pht'; ghr := ghr'; ras_stack := ras_stack p;
            ras_sp := uwrap 3 (ras_sp p - 1); ras_count := ras_count p - 1 |}.
Proof.
  intros [Hs Hc He] H0. unfold is_uint in Hs. split; cbn -[uwrap].
  - by apply uwrap_range.
  - lia.
  - intros k Hk.
    assert (uwrap 3 (uwrap 3 (ras_sp p - 1) - 1 - k) = uwrap 3 (ras_sp p - 1 - (k + 1))) as ->.
    { unfold uwrap. divlia. }
    apply He. lia.
Qed.

Lemma ras_clock (s : cpu) (i : inputs) :
  ras_ok (bp s) -> pc s mod 2 = 0 -> ras_ok (bp_clock s i).
Proof.
  intros Hr Hp. unfold bp_clock. cbv zeta.
  destruct (if_ras_push_pattern _ && _) eqn:E1.
  { apply ras_push; [done|]. apply u32_even; [done|apply inc_even]. }
  destruct (if_ras_pop_pattern _ && _ && _) eqn:E2.
  - apply andb_true_iff in E2 as [_ E2%negb_true_iff]. unfold ras_empty in E2.
    apply Z.eqb_neq in E2. apply ras_pop; [done|]. destruct Hr. lia.
  - by destruct Hr.
Qed.

(** ** Fetch *)

Lemma fetched_inst (s : cpu) (i : inputs) :
  cache_ready i = true -> fetch_ok imem code s i -> code (pc s) = true ->
  muxed_if_inst i = final_inst (imem (pc s)) /\
  if_compressed i = is_compressed (bits 15 0 (imem (pc s))).
Proof. intros Hc Hf Hp. unfold muxed_if_inst, if_compressed, raw_inst, final_inst. by rewrite (Hf Hc Hp). Qed.

(** What IF latches. *)
Definition fetch (s : cpu) (i : inputs) : if_id_reg :=
  {| if_id_pc := pc s; if_id_inst := muxed_if_inst i; if_id_compressed := if_compressed i;
     if_id_predicted_taken := if_predicted_taken s i;
     if_id_predicted_target := if_predicted_target s i;
     if_id_pht_index := if_pht_index s; if_id_valid := true |}.

Lemma fetch_pred (s : cpu) (i : inputs) :
  pc s mod 2 = 0 -> ras_ok (bp s) -> pred_ok (fetch s i).
Proof.
  intros Hp Hr Ht. cbn [fetch if_id_predicted_taken if_id_inst if_id_predicted_target if_id_pc] in *.
  unfold if_predicted_taken, if_predicted_target in *.
  assert (Hop : if_opcode i = opcode (muxed_if_inst i)) by done.
  destruct (if_ras_hit s i) eqn:Eh.
  - unfold if_ras_hit, if_ras_pop_pattern, if_is_jalr in Eh. rewrite Hop in Eh.
    apply andb_true_iff in Eh as [Eh _]. apply andb_true_iff in Eh as [Eh Ee%negb_true_iff].
    apply andb_true_iff in Eh as [Eh _]. apply andb_true_iff in Eh as [Eh%Z.eqb_eq _].
    split; [|by auto]. unfold ras_empty in Ee. apply Z.eqb_neq in Ee. destruct Hr as [_ Hc He].
    unfold ras_top. replace (ras_sp (bp s) - 1) with (ras_sp (bp s) - 1 - 0) by lia. apply He. lia.
  - rewrite orb_false_r in Ht. unfold if_jal_taken, if_is_branch, if_is_jal in Ht. rewrite Hop in Ht.
    unfold if_branch_or_jal_target, if_is_branch. rewrite Hop.
    change (if_b_imm i) with (immgen (muxed_if_inst i) 2).
    change (if_j_imm i) with (immgen (muxed_if_inst i) 4).
    assert (Hb : immgen (muxed_if_inst i) 2 mod 2 = 0).
    { rewrite immgen_b. pose proof (imm_b_even (muxed_if_inst i)). unfold u32, uwrap. divlia. }
    assert (Hj : immgen (muxed_if_inst i) 4 mod 2 = 0).
    { rewrite immgen_j. pose proof (imm_j_even (muxed_if_inst i)). unfold u32, uwrap. divlia. }
    destruct (Z.eqb_spec (opcode (muxed_if_inst i)) 0x63) as [E|E].
    + split; [by apply u32_even|]. by left.
    + cbn [andb orb] in Ht. destruct (Z.eqb_spec (opcode (muxed_if_inst i)) 0x6f) as [E'|]; [|done].
      split; [by apply u32_even|]. right. by left.
Qed.

Lemma latched_ok (s : cpu) (i : inputs) :
  cache_ready i = true -> fetch_ok imem code s i -> pc s mod 2 = 0 -> ras_ok (bp s) -> if_ok (fetch s i).
Proof.
  intros Hc Hf Hp Hr.
  unfold if_ok. cbn [fetch if_id_valid if_id_inst if_id_compressed if_id_pc].
  split_and!; [by apply fetched_inst|done|by apply fetch_pred].
Qed.

(** A predicted target, and the address after an instruction, are even. *)
Lemma pred_next_even (d : if_id_reg) : if_id_pc d mod 2 = 0 -> pred_ok d -> pred_next d mod 2 = 0.
Proof.
  intros Hp Hd. unfold pred_next. destruct (if_id_predicted_taken d) eqn:E; [by apply Hd|].
  apply u32_even; [done|apply inc_even].
Qed.

(** ** A frozen cycle *)

Section Frozen.
Context (i : inputs) (w : soc) (a : arch) (alog : list event) (op : mop)
  (Hok : inputs_ok w i) (Hg : global_mem_stall (core w) i = true)
  (Hin : in_mem w a alog op).
Abbreviation s := (core w).
Abbreviation s' := (core (tick i w)).

Lemma frozen_stages : if_id s' = if_id s /\ id_ex s' = id_ex s /\ pc s' = pc s.
Proof. cbn. unfold if_id_clock, id_ex_clock, pc_clock, pc_stall. by rewrite Hg, orb_true_r. Qed.

Lemma frozen_csr : csr s' = csr s.
Proof.
  cbn. unfold csr_next, csr_clock, ex_csr_wen. rewrite frozen_no_trap by done. cbn.
  by rewrite Hg, andb_false_r.
Qed.

Lemma frozen_operand (r x : Z) : operand_ok s r x -> operand_ok s' r x.
Proof. unfold operand_ok. by rewrite frozen_mem_wb, frozen_read_data. Qed.

Lemma frozen_front : front_ok s -> front_ok s'.
Proof.
  destruct frozen_stages as (E1 & E2 & E3). intros [Hi Hc He Hh Hp Hr].
  split; rewrite ?E1, ?E3; try done.
  - destruct He as [He|d x1 x2 He Hd Ho1 Ho2 Hn]; [apply ex_cleared; by rewrite E2|].
    apply (ex_holds _ d x1 x2); rewrite ?E2; [done|done|by apply frozen_operand..|].
    unfold next_in_line. by rewrite E1, E3.
  - unfold no_hazard, ex_mem_loads in *. by rewrite E2, frozen_ex_mem.
  - by apply ras_clock.
Qed.

Lemma frozen_front_pc : front_pc s' = front_pc s.
Proof. destruct frozen_stages as (E1 & E2 & E3). unfold front_pc, next_in_line. by rewrite E1, E2, E3. Qed.
End Frozen.

(** ** A cycle in which the pipeline moves *)

Section Moves.
Context (i : inputs) (w : soc) (Hg : global_mem_stall (core w) i = false).
Abbreviation s := (core w).
Abbreviation s' := (core (tick i w)).

Lemma operand_moves (r : Z) : operand_ok s' r (read_data s r).
Proof.
  unfold operand_ok. rewrite <-(read_data_rf_clock s). unfold read_data. change (rf s') with (rf_clock s).
  destruct (Z.eqb_spec r 0) as [->|]; [by destruct (_ && _ && _)|].
  destruct (mem_wb_reg_wen _ && (mem_wb_rd _ =? r)) eqn:E; cbn [andb]; [|done].
  apply andb_true_iff in E as [_ E%Z.eqb_eq]. rewrite E. by destruct (Z.eqb_spec r 0).
Qed.

Lemma clear_hazard : id_ex s' = id_ex_clear -> no_hazard s'.
Proof.
  intros E. unfold no_hazard, load_use_stall. rewrite E. change (id_ex_inst id_ex_clear) with 0x13.
  change (rs1_of 0x13) with 0. change (rs2_of 0x13) with 0.
  destruct (ex_mem_rd _ =? 0); cbn; by rewrite ?andb_false_r.
Qed.

Lemma redirected (target : Z) :
  if_id s' = if_id_clear -> id_ex s' = id_ex_clear -> pc s' = target -> target mod 2 = 0 ->
  pc s mod 2 = 0 -> ras_ok (bp s) -> front_ok s' /\ front_pc s' = target.
Proof.
  intros E1 E2 E3 Ht Hp Hr. split.
  - split; rewrite ?E1, ?E3; try done; [by apply ex_cleared|by apply clear_hazard|by apply ras_clock].
  - unfold front_pc, next_in_line. by rewrite E1, E2.
Qed.

(** A trap or the return from one. *)
Lemma overridden :
  pc_trap_override (TRAP_CTRL s i) = true -> flush_if (TRAP_CTRL s i) = true ->
  flush_id (TRAP_CTRL s i) = true -> trap_target_pc (TRAP_CTRL s i) mod 2 = 0 -> front_ok s ->
  front_ok s' /\ front_pc s' = trap_target_pc (TRAP_CTRL s i).
Proof.
  intros E1 E2 E3 Ht [_ _ _ _ Hp Hr]. apply redirected; try done; cbn.
  - unfold if_id_clock. by rewrite Hg, E2, orb_true_r.
  - unfold id_ex_clock. by rewrite Hg, E3, !orb_true_r.
  - unfold pc_clock, pc_stall, actual_pc_sel, actual_jump_target. by rewrite Hg, E1, andb_false_r.
Qed.

Context (Hno : pc_trap_override (TRAP_CTRL s i) = false) (Hfi : flush_if (TRAP_CTRL s i) = false)
  (Hfd : flush_id (TRAP_CTRL s i) = false).

(** A jump that was not predicted, or a branch that was mispredicted. *)
Lemma mispredicted :
  pc_sel s = true -> stall s = false -> ex_redirect_target s mod 2 = 0 -> front_ok s ->
  front_ok s' /\ front_pc s' = ex_redirect_target s.
Proof.
  intros E1 E2 Ht [_ _ _ _ Hp Hr]. apply redirected; try done; cbn.
  - unfold if_id_clock. by rewrite Hg, E1.
  - unfold id_ex_clock. by rewrite Hg, E1.
  - unfold pc_clock, pc_stall, actual_pc_sel, actual_jump_target. by rewrite Hg, Hno, E1, E2.
Qed.

(** A load and its use: the younger instruction waits. *)
Lemma stalled :
  pc_sel s = false -> stall s = true -> front_ok s ->
  front_ok s' /\ front_pc s' = next_in_line s.
Proof.
  intros E1 E2 [Hi Hc He Hh Hp Hr].
  assert (if_id s' = if_id s /\ id_ex s' = id_ex_clear /\ pc s' = pc s) as (F1 & F2 & F3).
  { cbn. unfold if_id_clock, id_ex_clock, pc_clock, pc_stall. by rewrite Hg, Hfi, Hno, E1, E2. }
  split.
  - split; rewrite ?F1, ?F3; try done; [by apply ex_cleared|by apply clear_hazard|by apply ras_clock].
  - unfold front_pc, next_in_line. by rewrite F2, F1, F3.
Qed.

(** Otherwise every instruction moves on by one stage. *)
Lemma moved :
  pc_sel s = false -> stall s = false -> cache_ready i = true -> fetch_ok imem code s i ->
  flush_ex (TRAP_CTRL s i) = false -> front_ok s -> front_ok s' /\ front_pc s' = next_in_line s.
Proof.
  intros E1 E2 Hcr Hft Hfe [Hi Hc He Hh Hp Hr].
  assert (if_id s' = fetch s i /\ id_ex s' = id_ex_load s /\ pc s' = pred_next (fetch s i)) as (F1 & F2 & F3).
  { cbn. unfold if_id_clock, id_ex_clock, pc_clock, pc_stall, actual_pc_sel, actual_jump_target.
    rewrite Hg, Hfi, Hfd, Hno, E1, E2. cbn [orb andb negb]. by split_and!. }
  assert (ex_mem_loads s' = id_ex_mem_read s /\ ex_mem_rd (ex_mem s') = id_ex_rd (id_ex s)) as [F4 F5].
  { unfold ex_mem_loads. cbn. unfold ex_mem_clock. by rewrite Hg, Hfe. }
  split.
  - split; rewrite ?F1, ?F3.
    + by apply latched_ok.
    + done.
    + apply (ex_holds _ (if_id s) (read_data s (rs1_of (if_id_inst (if_id s))))
        (read_data s (rs2_of (if_id_inst (if_id s))))); [by rewrite F2|done|apply operand_moves..|].
      intros Hv. rewrite Hc by done. unfold next_in_line. by rewrite F1.
    + unfold no_hazard. rewrite F2, F4, F5. exact E2.
    + by apply pred_next_even; [|apply fetch_pred].
    + by apply ras_clock.
  - unfold front_pc, next_in_line. rewrite F2, F1. cbn [id_ex_load id_ex_valid id_ex_pc fetch if_id_valid if_id_pc].
    by destruct (if_id_valid (if_id s)).
Qed.

Lemma moved_valid :
  pc_sel s = false -> stall s = false ->
  if_id_valid (if_id s') = true /\ id_ex_valid (id_ex s') = if_id_valid (if_id s).
Proof.
  intros E1 E2. cbn. unfold if_id_clock, id_ex_clock. by rewrite Hg, Hfi, Hfd, E1, E2.
Qed.
End Moves.
End Front.
