(* ===== verification/CpuRefine.v ===== *)
(** * The pipeline implements the architecture

    [corresponds] relates the chip to the architectural state before the
    instruction in MEM.  A frozen cycle keeps the state; in every other cycle
    the instruction in MEM completes, and a trap, an interrupt or a return
    from one takes effect in EX.  So the device accesses of every run are
    those of a run of the architecture, in order. *)

From S2P Require Import Prelude Bits Rv32 Rvc Decoder DivUnit CpuUnits Cpu CpuSpec CpuMem CpuEx CpuFront.

(** ** The divider *)

Definition div_ok (s : cpu) : Prop :=
  let sg := div_is_signed s in
  let a := alu_a s in
  let b := alu_b s in
  if is_div_op s then
    (div_result_ready s = false /\
      (idle (div s) \/ (exists k, computing sg a b k (div s)) \/ finished sg a b (div s))) \/
    (div_result_ready s = true /\ DivUnit.done (div s) = false /\ holds_result sg a b (div s))
  else idle (div s) /\ div_result_ready s = false.

Lemma idle_step (a b : Z) (sg : bool) (r : DivUnit.regs) :
  idle r -> idle (DivUnit.step false a b sg r).
Proof. intros [Hb Hd]. unfold DivUnit.step. rewrite Hb. by split. Qed.

(** One cycle of the divider and its result flag, when the operands keep. *)
Lemma div_step (s s' : cpu) (i : inputs) :
  div s' = div_clock s -> div_result_ready s' = div_result_ready_clock s i ->
  global_mem_stall s i = true -> is_div_op s' = is_div_op s -> div_is_signed s' = div_is_signed s ->
  (is_div_op s = true -> alu_a s' = alu_a s /\ alu_b s' = alu_b s /\ is_uint 32 (alu_a s) /\ is_uint 32 (alu_b s)) ->
  div_ok s -> div_ok s'.
Proof.
  intros Ed Er Hg Ei Es Hops. unfold div_ok. rewrite Ed, Er, Ei, Es.
  unfold div_clock, div_result_ready_clock, div_start. rewrite Hg. cbn [negb].
  destruct (is_div_op s); cbn [andb].
  - destruct (Hops eq_refl) as (-> & -> & Ha & Hb).
    intros [(Hr & [Hi|[[k Hk]|Hf]])|(Hr & Hd & Hh)]; rewrite Hr.
    + destruct Hi as [Hbu Hdo]. rewrite Hbu, Hdo. cbn. left. split; [done|right].
      destruct (start_step (div_is_signed s) (alu_a s) (alu_b s) Ha Hb (div s)) as [?|?]; [done|by right|].
      left. by exists 0.
    + pose proof Hk as [Hbu Hdo _ _ _ _ _ _ _]. rewrite Hbu, Hdo. cbn. left. split; [done|right].
      pose proof (computing_step _ _ _ Ha Hb false (div_is_signed s) (alu_a s) (alu_b s) k _ Hk) as Hc.
      destruct (k =? 31); [by right|]. left. by exists (k + 1).
    + pose proof Hf as [Hdo _]. rewrite Hdo. right. split; [done|].
      rewrite andb_false_r. by apply done_step.
    + rewrite Hd. right. split; [done|]. rewrite !andb_false_r. by apply held_step.
  - intros [Hi Hr]. destruct Hi as [Hbu Hdo]. rewrite Hdo, Hr. split; [|done]. by apply idle_step.
Qed.

(** When the pipeline moves the divider is free for the next instruction. *)
Lemma div_moves (s s' : cpu) (i : inputs) :
  div s' = div_clock s -> div_result_ready s' = div_result_ready_clock s i ->
  global_mem_stall s i = false -> div_stall s = false -> div_ok s -> div_ok s'.
Proof.
  intros Ed Er Hg Hs Hd.
  assert (idle (div s') /\ div_result_ready s' = false) as [Hi Hr].
  { rewrite Ed, Er. unfold div_ok, div_stall, div_clock, div_result_ready_clock, div_start in *. rewrite Hg.
    destruct (is_div_op s); cbn [andb negb] in *.
    - apply negb_false_iff in Hs. destruct Hd as [(Hr & _)|(Hr & Hdo & Hh)]; [congruence|].
      rewrite Hdo, Hr. cbn. split; [|done]. rewrite !andb_false_r.
      destruct (held_step (div_is_signed s) (alu_a s) (alu_b s) (div_is_signed s) (alu_a s) (alu_b s) (div s) Hdo Hh)
        as [? [? _]].
      by split.
    - destruct Hd as [Hi Hr]. pose proof Hi as [_ Hdo]. rewrite Hdo, Hr. split; [by apply idle_step|done]. }
  unfold div_ok. destruct (is_div_op s'); [left; auto|done].
Qed.

Section Refine.
Context (imem : Z -> Z) (code : Z -> bool) (Himem : forall p, is_uint 32 (imem p)).

(** ** The relation *)

(** The instruction in MEM has been issued: what is left of it is [op]. *)
Definition issued (s : cpu) (a : arch) (op : mop) : Prop :=
  if ex_mem_valid (ex_mem s) then
    exists l, forall v, arch_step imem (LInstr l v) a = Some (perform (front_pc s) (csr s) op v a)
  else (exists x, op = MAlu 0 x) /\ a_pc a = front_pc s /\ a_csr a = csr s.

Record corresponds (w : soc) (a : arch) (alog : list event) : Prop := {
  co_mem : exists op, in_mem w a alog op /\ issued (core w) a op;
  co_front : front_ok imem code (core w);
  co_div : div_ok (core w);
  co_wf : wf_arch a;
  co_well : well_behaved imem code a;
}.

Lemma perform_pc_csr (next : Z) (c : csrs) (op : mop) (v : Z) (a : arch) :
  a_pc (perform next c op v a).1 = next /\ a_csr (perform next c op v a).1 = c.
Proof. destruct op; cbn [perform]; try done. by destruct (dev ea). Qed.

Lemma arch_run_wf (lbs : list label) (a a' : arch) (evs : list event) :
  wf_arch a -> arch_run imem lbs a = Some (a', evs) -> wf_arch a'.
Proof.
  induction lbs as [|lb lbs IH] in a, evs |- *; cbn; intros Hw H; [by simplify_eq|].
  destruct (arch_step imem lb a) as [[b f]|] eqn:E; [|done]. cbn in H.
  destruct (arch_run imem lbs b) as [[c g]|] eqn:E2; [|done]. cbn in H. simplify_eq.
  eapply IH; [|exact E2]. by eapply arch_step_wf.
Qed.

(** The instruction in MEM completes with the answer [v]. *)
Lemma completes (w : soc) (a : arch) (alog : list event) (op : mop) (v : Z) :
  corresponds w a alog -> issued (core w) a op -> is_uint 32 v ->
  exists lbs, Forall label_ok lbs /\ (lbs = [] -> ex_mem_valid (ex_mem (core w)) = false) /\
    arch_run imem lbs a = Some (perform (front_pc (core w)) (csr (core w)) op v a).
Proof.
  intros [_ _ _ Hw Hb] Hi Hv. unfold issued in Hi. destruct (ex_mem_valid _).
  - destruct Hi as [l Hl]. exists [LInstr l v]. split; [constructor; [done|by constructor]|].
    split; [done|].
    specialize (Hl v). destruct (perform _ _ _ _ _) as [a1 evs]. by apply arch_run_one.
  - destruct Hi as ([x ->] & Hp & Hc). exists []. split; [done|]. split; [done|]. cbn. rewrite <-Hp, <-Hc. by destruct a.
Qed.

(** ** The instruction in EX *)

Lemma fwd_forwarded (s : cpu) (d : if_id_reg) (x1 x2 : Z) :
  id_ex s = decode_stage d x1 x2 ->
  fwd_rs1 s = forwarded s (rs1_of (if_id_inst d)) x1 /\ fwd_rs2 s = forwarded s (rs2_of (if_id_inst d)) x2.
Proof. intros He. unfold fwd_rs1, fwd_rs2, fwd_a, fwd_b, forwarded. by rewrite He. Qed.

(** What is known of a valid instruction in EX, when [a1] is the state after
    the one in MEM. *)
Record in_ex (s : cpu) (a1 : arch) (d : if_id_reg) (x1 x2 : Z) : Prop := {
  ie_stage : id_ex s = decode_stage d x1 x2;
  ie_valid : if_id_valid d = true;
  ie_inst : code (if_id_pc d) = true ->
    if_id_inst d = final_inst (imem (if_id_pc d)) /\
    if_id_compressed d = is_compressed (bits 15 0 (imem (if_id_pc d)));
  ie_even : if_id_pc d mod 2 = 0;
  ie_pred : pred_ok d;
  ie_next : pred_next d = next_in_line s;
  ie_pc : front_pc s = if_id_pc d;
  ie_rs1 : rs1_used (if_id_inst d) = true -> fwd_rs1 s = getreg a1 (rs1_of (if_id_inst d));
  ie_rs2 : rs2_used (if_id_inst d) = true -> fwd_rs2 s = getreg a1 (rs2_of (if_id_inst d));
}.

Lemma ex_context (w : soc) (a : arch) (alog : list event) (op : mop) (next : Z) (c : csrs) (v : Z) :
  in_mem w a alog op -> front_ok imem code (core w) -> id_ex_valid (id_ex (core w)) = true ->
  exists d x1 x2, in_ex (core w) (perform next c op v a).1 d x1 x2.
Proof.
  intros Hin [_ _ He Hh _ _] Hv.
  destruct He as [He|d x1 x2 He Hd Ho1 Ho2 Hn]; [by rewrite He in Hv|]. exists d, x1, x2.
  assert (if_id_valid d = true) as Hvd by (by rewrite He in Hv).
  unfold if_ok in Hd. rewrite Hvd in Hd. destruct Hd as (H1 & H3 & H4).
  destruct (fwd_forwarded (core w) d x1 x2 He) as [F1 F2].
  unfold no_hazard, load_use_stall in Hh. rewrite He in Hh.
  change (id_ex_inst (decode_stage d x1 x2)) with (if_id_inst d) in Hh.
  assert (Hhaz : forall u r, u = true -> (u && (ex_mem_rd (ex_mem (core w)) =? r)) = false \/
    ex_mem_loads (core w) && negb (ex_mem_rd (ex_mem (core w)) =? 0) = false ->
    ex_mem_loads (core w) && negb (ex_mem_rd (ex_mem (core w)) =? 0) && (ex_mem_rd (ex_mem (core w)) =? r) = false).
  { intros u r -> [Hu|Hu]; [cbn in Hu; rewrite Hu; by rewrite andb_false_r|by rewrite Hu]. }
  apply andb_false_iff in Hh.
  split; try done.
  - by apply Hn.
  - unfold front_pc. by rewrite Hv, He.
  - intros Hu. rewrite F1. apply forwarded_value; try done; [apply Hin..|].
    apply (Hhaz (rs1_used (if_id_inst d))); [done|]. destruct Hh as [Hh|Hh]; [by right|left].
    by apply orb_false_iff in Hh as [? _].
  - intros Hu. rewrite F2. apply forwarded_value; try done; [apply Hin..|].
    apply (Hhaz (rs2_used (if_id_inst d))); [done|]. destruct Hh as [Hh|Hh]; [by right|left].
    by apply orb_false_iff in Hh as [_ ?].
Qed.

(** A safe instruction in EX is legal, or the decoder flags it. *)
Lemma in_ex_decode (s : cpu) (a1 : arch) (d : if_id_reg) (x1 x2 : Z) :
  in_ex s a1 d x1 x2 -> a_pc a1 = if_id_pc d -> safe imem code a1 ->
  (exists i, decode (if_id_inst d) = Some i /\ atomic_ok i a1 = true /\
     arch_decode (imem (a_pc a1)) = Legal i (inc_of (if_id_compressed d))) \/
  (illegal_inst (if_id_inst d) = true /\ arch_decode (imem (a_pc a1)) = Illegal (if_id_inst d)).
Proof.
  intros H Hpc (_ & Hcode & Hs). rewrite Hpc in Hcode. destruct (ie_inst _ _ _ _ _ H Hcode) as [-> ->].
  rewrite <-Hpc.
  destruct (arch_decode _) as [i len|tval|] eqn:E; [left|right|done].
  - pose proof (arch_decode_legal _ _ _ E) as [Hd ->]. exists i. by split_and!.
  - pose proof (arch_decode_illegal _ _ E) as [? ->]. done.
Qed.

Lemma illegal_control (w : Z) : illegal_inst w = true -> control w = rom 0.
Proof. unfold illegal_inst, control. by destruct (rom_decoder w). Qed.

Lemma div_operands (s : cpu) (a1 : arch) (d : if_id_reg) (x1 x2 : Z) :
  in_ex s a1 d x1 x2 -> a_pc a1 = if_id_pc d -> safe imem code a1 -> is_div_op s = true ->
  alu_a s = getreg a1 (rs1_of (id_ex_inst (id_ex s))) /\
  alu_b s = getreg a1 (rs2_of (id_ex_inst (id_ex s))).
Proof.
  intros H Hpc Hs Hdiv. pose proof H as [He _ _ _ _ _ _ H1 H2].
  assert (id_ex_inst (id_ex s) = if_id_inst d) as -> by (by rewrite He).
  destruct (in_ex_decode _ _ _ _ _ H Hpc Hs) as [(i & Hd & _ & _)|[Hi _]].
  - pose proof (ex_operands_op s a1 d x1 x2 i He Hd H1 H2) as Ho. unfold is_div_op in Hdiv.
    rewrite (ex_ctrl s d x1 x2 i He Hd) in Hdiv. pose proof (decode_fields _ _ Hd) as F.
    assert (exists o rd r1 r2, i = Op o rd r1 r2) as (o & rd & r1 & r2 & ->).
    { destruct i; try done; [eauto|]. destruct F as (_ & _ & _ & Hm & _). by destruct o. }
    destruct F as (_ & _ & -> & ->). by apply (Ho o rd).
  - unfold is_div_op in Hdiv. rewrite He in Hdiv. cbn [decode_stage id_ex_ctrl] in Hdiv.
    by rewrite illegal_control in Hdiv.
Qed.

(** ** A frozen cycle keeps the state *)

Lemma ex_invalid (s : cpu) : ex_ok imem code s -> id_ex_valid (id_ex s) = false ->
  id_ex s = id_ex_clear \/ exists x1 x2, id_ex s = decode_stage if_id_clear x1 x2.
Proof.
  intros [He|d x1 x2 He Hd _ _ _] Hv; [by left|right]. rewrite He in Hv. cbn in Hv. unfold if_ok in Hd.
  rewrite Hv in Hd. subst d. eauto.
Qed.

Lemma bubble_div (s : cpu) : ex_ok imem code s -> id_ex_valid (id_ex s) = false -> is_div_op s = false.
Proof. intros He Hv. unfold is_div_op. by destruct (ex_invalid s He Hv) as [->|(x1 & x2 & ->)]. Qed.

(** The state after the instruction in MEM, whatever it will read. *)
Lemma after_mem (w : soc) (a : arch) (alog : list event) (op : mop) (v : Z) :
  corresponds w a alog -> issued (core w) a op -> is_uint 32 v ->
  let a1 := (perform (front_pc (core w)) (csr (core w)) op v a).1 in
  wf_arch a1 /\ well_behaved imem code a1 /\ a_pc a1 = front_pc (core w) /\ a_csr a1 = csr (core w).
Proof.
  intros Hco Hi Hv a1. destruct (completes w a alog op v Hco Hi Hv) as (lbs & Hl & _ & Hrun).
  destruct (perform _ _ _ _ _) as [b evs] eqn:E.
  destruct (perform_pc_csr (front_pc (core w)) (csr (core w)) op v a) as [Hp Hc].
  rewrite E in Hp, Hc. subst a1. cbn [fst] in *. split_and!; try done.
  - eapply arch_run_wf; [apply Hco|exact Hrun].
  - eapply well_behaved_run; [exact Hl|apply Hco|exact Hrun].
Qed.

(** The operands of the divider are registers of the state after MEM. *)
Lemma frozen_div_range (w : soc) (a : arch) (alog : list event) :
  corresponds w a alog -> is_div_op (core w) = true ->
  is_uint 32 (alu_a (core w)) /\ is_uint 32 (alu_b (core w)).
Proof.
  intros Hco Hdiv. pose proof Hco as [(op & Hin & Hi) Hf _ _ _].
  destruct (id_ex_valid (id_ex (core w))) eqn:Hv; [|rewrite bubble_div in Hdiv; [done|apply Hf|done]].
  destruct (after_mem w a alog op 0 Hco Hi ltac:(by split)) as (Hw1 & Hb1 & Hp1 & _).
  destruct (ex_context w a alog op (front_pc (core w)) (csr (core w)) 0 Hin Hf Hv) as (d & x1 & x2 & Hex).
  apply well_behaved_safe in Hb1.
  destruct (div_operands _ _ _ _ _ Hex) as [-> ->]; [rewrite Hp1; apply Hex|done|done|].
  split; apply Hw1.
Qed.

Lemma frozen_corresponds (i : inputs) (w : soc) (a : arch) (alog : list event) :
  inputs_ok w i -> global_mem_stall (core w) i = true -> corresponds w a alog ->
  corresponds (tick i w) a alog.
Proof.
  intros Hok Hg Hco. pose proof Hco as [(op & Hin & Hi) Hf Hd Hw Hb].
  pose proof (mem_frozen i w Hok Hg a alog op Hin) as Hin'.
  pose proof (frozen_front imem code i w Hg Hf) as Hf'.
  pose proof (frozen_ex_mem i w Hg) as Eem.
  pose proof (frozen_stages i w Hg) as (_ & Eex & _).
  split; [|exact Hf'| |exact Hw|exact Hb].
  - exists op. split; [done|]. unfold issued in *.
    by rewrite Eem, (frozen_front_pc i w Hg), (frozen_csr i w Hg).
  - assert (is_div_op (core (tick i w)) = is_div_op (core w)) as Ediv by (unfold is_div_op; by rewrite Eex).
    apply (div_step (core w) _ i); try done; [unfold div_is_signed; by rewrite Eex|]. intros Hdiv.
    destruct (id_ex_valid (id_ex (core w))) eqn:Hv; [|rewrite bubble_div in Hdiv; [done|apply Hf|done]].
    destruct (after_mem w a alog op 0 Hco Hi ltac:(by split)) as (Hw1 & Hb1 & Hp1 & _).
    set (a1 := (perform (front_pc (core w)) (csr (core w)) op 0 a).1) in *.
    destruct (ex_context w a alog op (front_pc (core w)) (csr (core w)) 0 Hin Hf Hv) as (d & x1 & x2 & Hex).
    destruct (ex_context (tick i w) a alog op (front_pc (core w)) (csr (core w)) 0 Hin' Hf'
      ltac:(by rewrite Eex)) as (d' & x1' & x2' & Hex').
    fold a1 in Hex, Hex'. apply well_behaved_safe in Hb1.
    destruct (div_operands _ _ _ _ _ Hex) as [-> ->]; [rewrite Hp1; apply Hex|done|done|].
    destruct (div_operands _ _ _ _ _ Hex') as [-> ->]; [|done|by rewrite Ediv|].
    + rewrite Hp1, <-(frozen_front_pc i w Hg). apply Hex'.
    + rewrite Eex. split_and!; try done; apply Hw1.
Qed.

(** ** A cycle in which the pipeline moves *)

(** The cycle makes steps of the architecture, or brings an instruction nearer
    to MEM. *)
Definition steps_to (w w' : soc) (a : arch) (alog : list event) : Prop :=
  exists lbs a' evs, Forall label_ok lbs /\ arch_run imem lbs a = Some (a', evs) /\
    corresponds w' a' (alog ++ evs) /\ (lbs = [] -> (rank (core w') < rank (core w))%nat).

Section Moves.
Context (i : inputs) (w : soc) (a : arch) (alog : list event) (op : mop).
Abbreviation s := (core w).
Abbreviation w' := (tick i w).
Context (Hok : inputs_ok w i) (Hft : fetch_ok imem code s i) (Hg : global_mem_stall s i = false) (Hco : corresponds w a alog)
  (Hin : in_mem w a alog op) (Hi : issued s a op).
Abbreviation p := (perform (front_pc s) (csr s) op (answer w op) a).

Lemma a1_facts : wf_arch p.1 /\ well_behaved imem code p.1 /\ a_pc p.1 = front_pc s /\ a_csr p.1 = csr s.
Proof. apply (after_mem w a alog op); [done|done|]. by eapply answer_range. Qed.

(** The instruction in MEM completes, then EX makes [lbs1]. *)
Lemma finish (lbs1 : list label) (a2 : arch) (op' : mop) :
  arch_run imem lbs1 p.1 = Some (a2, []) -> Forall label_ok lbs1 ->
  a_regs a2 = a_regs p.1 -> a_mem a2 = a_mem p.1 ->
  a_resv a2 = (if trap_taken (TRAP_CTRL s i) then None else a_resv p.1) ->
  mop_in (ex_mem (core w')) op' -> issued (core w') a2 op' -> front_ok imem code (core w') ->
  (lbs1 = [] -> ex_mem_valid (ex_mem s) = false -> (rank (core w') < rank s)%nat) ->
  steps_to w w' a alog.
Proof.
  intros Hr1 Hl1 Hregs Hmem Hresv Hop Hiss Hfr Hrank.
  destruct (completes w a alog op (answer w op) Hco Hi) as (lbs & Hl & Hlv & Hr); [by eapply answer_range|].
  destruct a1_facts as (Hw1 & Hb1 & _).
  destruct p as [a1 evs] eqn:E. cbn [fst] in *.
  exists (lbs ++ lbs1), a2, evs. split_and!.
  - by apply Forall_app.
  - rewrite <-(app_nil_r evs). by eapply arch_run_app.
  - split.
    + exists op'. split; [|done]. apply mem_enters; [|done].
      replace evs with p.2 by (by rewrite E).
      apply (mem_leaves i w Hok Hg a alog op Hin); rewrite E; cbn [fst]; [|done|done].
      intros r. unfold getreg. by rewrite Hregs.
    + done.
    + apply (div_moves s _ i); try done; [by apply (no_stalls i w Hg)|apply Hco].
    + by eapply arch_run_wf.
    + exact (well_behaved_run imem code lbs1 a1 a2 [] Hl1 Hb1 Hr1).
  - intros [-> ->]%app_eq_nil. auto.
Qed.

(** The bubble a flush leaves in EX/MEM. *)
Lemma flushed : flush_ex (TRAP_CTRL s i) = true ->
  mop_in (ex_mem (core w')) (MAlu 0 0) /\ ex_mem_valid (ex_mem (core w')) = false.
Proof.
  intros Hf. cbn. unfold ex_mem_clock. rewrite Hg, Hf. split; [|done]. cbn [mop_in].
  unfold flags. split; [done|]. left. split; [by left|done].
Qed.

(** A trap, an interrupt, or the return from one: EX changes the state. *)
Lemma trap_moves (lb : label) (a2 : arch) :
  arch_step imem lb p.1 = Some (a2, []) -> label_ok lb ->
  flush_if (TRAP_CTRL s i) = true -> flush_id (TRAP_CTRL s i) = true -> flush_ex (TRAP_CTRL s i) = true ->
  pc_trap_override (TRAP_CTRL s i) = true -> trap_target_pc (TRAP_CTRL s i) = a_pc a2 ->
  csr_next s i = a_csr a2 -> a_regs a2 = a_regs p.1 -> a_mem a2 = a_mem p.1 ->
  a_resv a2 = (if trap_taken (TRAP_CTRL s i) then None else a_resv p.1) ->
  steps_to w w' a alog.
Proof.
  intros Hs Hl Fi Fd Fe Ho Ht Hc Hregs Hmem Hresv. destruct a1_facts as (_ & Hb1 & _).
  pose proof (well_behaved_step _ _ _ _ _ _ Hl Hb1 Hs) as Hb2. apply well_behaved_safe in Hb2 as (Hev & _ & _).
  destruct (flushed Fe) as [Hop Hv].
  destruct (overridden imem code i w Hg Ho Fi Fd) as [Hfr Hpc]; [by rewrite Ht|apply Hco|].
  apply (finish [lb] a2 (MAlu 0 0)); try done.
  - by apply arch_run_one.
  - by constructor.
  - unfold issued. rewrite Hv. split_and!; [by exists 0|by rewrite Hpc|by rewrite <-Hc].
Qed.

(** *** No instruction in EX *)

Lemma bubble_wires : id_ex_valid (id_ex s) = false ->
  TRAP_CTRL s i = no_trap /\ pc_sel s = false /\ stall s = false /\ id_ex_csr_wen (id_ex s) = false /\
  mop_in (ex_mem (core w')) (MAlu 0 0) /\ ex_mem_valid (ex_mem (core w')) = false.
Proof.
  intros Hv. pose proof (co_front _ _ _ Hco) as [_ _ He _ _ _].
  assert (Htr : is_ecall (id_ex_inst (id_ex s)) = false -> is_mret (id_ex_inst (id_ex s)) = false ->
    TRAP_CTRL s i = no_trap).
  { intros E1 E2. unfold TRAP_CTRL, trap_controller, timer_fires, external_fires, ex_irq.
    rewrite Hv, E1, E2. cbn [andb]. by rewrite !andb_false_r. }
  assert (TRAP_CTRL s i = no_trap) as Ht.
  { apply Htr; by destruct (ex_invalid s He Hv) as [->|(x1 & x2 & ->)]. }
  split; [done|].
  assert (ex_mem (core w') = ex_mem_clock s i) as -> by done. unfold ex_mem_clock. cbv zeta. rewrite Hg, Ht.
  unfold pc_sel, stall, branch_mispredicted, id_ex_is_jal, id_ex_is_jalr, id_ex_is_branch, ex_opcode, id_ex_mem_read,
    flags, dest.
  cbn [mop_in]. unfold flags.
  destruct (ex_invalid s He Hv) as [->|(x1 & x2 & ->)]; split_and!; try done; left.
  - split; [by left|done].
  - split; [by right|done].
Qed.

Lemma bubble_moves : id_ex_valid (id_ex s) = false -> steps_to w w' a alog.
Proof.
  intros Hv. destruct (bubble_wires Hv) as (Ht & Hp & Hs & Hc & Hop & Hvm).
  destruct (moved imem code i w Hg) as [Hfr Hpc]; try (by rewrite Ht); try done;
    [apply (no_stalls i w Hg)|apply Hco|].
  destruct a1_facts as (_ & _ & Hpc1 & Hcsr1).
  apply (finish [] p.1 (MAlu 0 0)); try done; [by rewrite Ht| |].
  2: { intros _ Hv0. destruct (moved_valid i w Hg) as [V1 V2]; try (by rewrite Ht); try done.
       unfold rank. rewrite Hvm, Hv0, V1, V2, Hv. destruct (if_id_valid (if_id s)); lia. }
  unfold issued. rewrite Hvm. split_and!; [by exists 0| |].
  - rewrite Hpc1, Hpc. unfold front_pc. by rewrite Hv.
  - rewrite Hcsr1. cbn. unfold csr_next, csr_clock, ex_csr_wen. by rewrite Ht, Hc.
Qed.

(** *** An instruction in EX *)

Section Valid.
Context (d : if_id_reg) (x1 x2 : Z) (Hex : in_ex s p.1 d x1 x2).

Lemma a1_pc : a_pc p.1 = if_id_pc d.
Proof. destruct a1_facts as (_ & _ & -> & _). apply Hex. Qed.

Lemma trap_ctrl_stage :
  TRAP_CTRL s i =
  trap_controller (a_pc p.1) (if_id_inst d) (timer_fires s i) (external_fires s i)
    (mtvec (csr s)) (mepc (csr s)) false true (illegal_inst (if_id_inst d))
    (ex_misalign_load s) (ex_misalign_store s) (ex_data_addr s).
Proof.
  unfold TRAP_CTRL. rewrite Hg, a1_pc. pose proof Hex as [He Hv _ _ _ _ _ _ _]. rewrite He.
  cbn [decode_stage id_ex_valid id_ex_illegal id_ex_pc id_ex_inst]. by rewrite Hv.
Qed.

(** An interrupt is taken when the architecture has it enabled. *)
Lemma irq_is_enabled : irq_fires s i = true -> irq_enabled (external_fires s i) (csr s) = true.
Proof.
  unfold irq_fires, irq_enabled. destruct (external_fires s i) eqn:E.
  - intros _. unfold external_fires, ex_irq in E. by repeat apply andb_true_iff in E as [E ?]; apply andb_true_iff.
  - rewrite orb_false_r. clear E. unfold timer_fires, ex_irq. intros E.
    by repeat apply andb_true_iff in E as [E ?]; apply andb_true_iff.
Qed.

Lemma csr_next_taken (mret : bool) (cause tval epc target : Z) :
  TRAP_CTRL s i = take_trap mret cause tval epc target ->
  csr_next s i = enter_trap cause tval epc (csr s).
Proof. intros E. unfold csr_next, csr_clock. by rewrite E. Qed.

(** EX takes a trap at its instruction. *)
Lemma take_moves (lb : label) (mret : bool) (cause tval : Z) :
  TRAP_CTRL s i = take_trap mret cause tval (a_pc p.1) (mtvec (csr s)) ->
  arch_step imem lb p.1 = Some (trap cause tval p.1, []) -> label_ok lb ->
  steps_to w w' a alog.
Proof.
  intros Ht Hs Hl. destruct a1_facts as (_ & _ & _ & Hc1).
  apply (trap_moves lb (trap cause tval p.1)); try (by rewrite Ht); try done.
  - rewrite Ht. cbn [take_trap trap_target_pc trap a_pc]. by rewrite Hc1.
  - rewrite (csr_next_taken _ _ _ _ _ Ht). cbn [trap a_csr]. by rewrite Hc1.
Qed.

Lemma irq_moves : irq_fires s i && negb (is_mret (if_id_inst d)) = true -> steps_to w w' a alog.
Proof.
  intros H. pose proof H as [Hf _]%andb_true_iff. pose proof (irq_is_enabled Hf) as He.
  destruct a1_facts as (_ & _ & _ & Hc1).
  apply (take_moves (LIrq (external_fires s i)) (is_mret (if_id_inst d) && negb false)
    (irq_cause (external_fires s i)) 0); [|cbn [arch_step]; by rewrite Hc1, He|done].
  rewrite trap_ctrl_stage. unfold trap_controller. cbv zeta. unfold irq_fires in H. by rewrite H.
Qed.

Lemma illegal_moves :
  irq_fires s i && negb (is_mret (if_id_inst d)) = false -> illegal_inst (if_id_inst d) = true ->
  arch_decode (imem (a_pc p.1)) = Illegal (if_id_inst d) -> steps_to w w' a alog.
Proof.
  intros H Hill Had.
  apply (take_moves (LInstr {| timer_line := false; external_line := false |} 0)
    (is_mret (if_id_inst d) && negb false) 2 (if_id_inst d)); [|cbn [arch_step]; by rewrite Had|by split].
  rewrite trap_ctrl_stage. unfold trap_controller. cbv zeta. unfold irq_fires in H. by rewrite H, Hill.
Qed.

Lemma redirect_even : ex_redirect_target s mod 2 = 0.
Proof.
  unfold ex_redirect_target. generalize (if id_ex_is_jal s || id_ex_is_jalr s || branch_actual_taken s
    then redirect_target_adder s else id_ex_pc_plus_inc s). intros x.
  assert (Z.testbit (x .& 0xFFFFFFFE) 0 = false) as E by (rewrite Z.land_spec; apply andb_false_r).
  rewrite Z.bit0_odd, Zodd_mod in E. pose proof (Z.mod_pos_bound (x .& 0xFFFFFFFE) 2 ltac:(lia)).
  destruct (Z.eqb_spec ((x .& 0xFFFFFFFE) mod 2) 1); [done|lia].
Qed.

Section Legal.
Context (j : instr) (Hd : decode (if_id_inst d) = Some j) (Hat : atomic_ok j p.1 = true)
  (Had : arch_decode (imem (a_pc p.1)) = Legal j (inc_of (if_id_compressed d)))
  (Hirq : irq_fires s i && negb (is_mret (if_id_inst d)) = false).
Abbreviation len := (inc_of (if_id_compressed d)).

Lemma legal_trap_ctrl :
  TRAP_CTRL s i =
  match traps j p.1 with
  | Some q => take_trap (is_mret (if_id_inst d)) q.1 q.2 (a_pc p.1) (mtvec (csr s))
  | None =>
      if is_mret (if_id_inst d) then
        {| trap_taken := false; trap_cause := 0; trap_val := 0; trap_pc := 0; mret_exec := true;
           flush_if := true; flush_id := true; flush_ex := true;
           pc_trap_override := true; trap_target_pc := mepc (csr s) |}
      else no_trap
  end.
Proof.
  destruct a1_facts as (_ & _ & _ & Hc1). pose proof Hex as [He Hv _ _ _ _ _ H1 H2].
  rewrite (ex_trap_ctrl s p.1 d x1 x2 j He Hv Hd a1_pc Hc1 H1 H2 i Hg), Hirq. by rewrite Hc1.
Qed.

Lemma fault_moves (q : Z * Z) : traps j p.1 = Some q -> steps_to w w' a alog.
Proof.
  intros Ht. pose proof legal_trap_ctrl as E. rewrite Ht in E.
  apply (take_moves (LInstr (ex_lines s i) 0) _ _ _ E); [|by split].
  cbn [arch_step]. rewrite Had, exec_issue, Ht. done.
Qed.

Lemma mret_moves : traps j p.1 = None -> is_mret (if_id_inst d) = true -> steps_to w w' a alog.
Proof.
  intros Ht Hm. pose proof legal_trap_ctrl as E. rewrite Ht, Hm in E.
  destruct (ex_system d j Hd) as [_ Ej]. rewrite Hm in Ej.
  assert (j = Mret) as Ej' by (by destruct j). destruct a1_facts as (_ & _ & _ & Hc1).
  apply (trap_moves (LInstr (ex_lines s i) 0)
    {| a_pc := mepc (csr s); a_regs := a_regs p.1; a_csr := leave_trap (csr s); a_mem := a_mem p.1;
       a_resv := a_resv p.1 |}); try (by rewrite E); try done.
  - cbn [arch_step]. rewrite Had, Ej'. cbn [exec]. by rewrite Hc1.
  - cbn [a_csr]. unfold csr_next, csr_clock. by rewrite E.
Qed.

(** An instruction without trap moves to MEM. *)
Lemma issue_moves : traps j p.1 = None -> is_mret (if_id_inst d) = false -> steps_to w w' a alog.
Proof.
  intros Ht Hm. pose proof legal_trap_ctrl as E. rewrite Ht, Hm in E.
  destruct a1_facts as (Hw1 & _ & _ & Hc1).
  pose proof Hex as [He Hv _ Hev Hpred Hnext Hpc H1 H2].
  destruct (no_stalls i w Hg) as (_ & Hcr & Hds & _).
  assert (Hdiv : is_div_op s = true -> holds_result (div_is_signed s) (alu_a s) (alu_b s) (div s)).
  { intros Ed. pose proof (co_div _ _ _ Hco) as Hdo. unfold div_ok, div_stall in *. rewrite Ed in *.
    apply negb_false_iff in Hds. destruct Hdo as [[? _]|(_ & _ & ?)]; [congruence|done]. }
  assert (flush_ex (TRAP_CTRL s i) = false) as Hfe by (by rewrite E).
  pose proof (ex_issue s p.1 d x1 x2 j len He Hv Hd eq_refl a1_pc Hc1 Hw1 H1 H2 Hdiv i Hg Hfe Ht Hat) as Hop.
  destruct (ex_system d j Hd) as [_ Ej]. rewrite Hm in Ej.
  pose proof (ex_next s p.1 d x1 x2 j len He Hd eq_refl a1_pc H1 H2 Hev Hpred) as Hn.
  assert (front_ok imem code (core w') /\ front_pc (core w') = next_of j len p.1) as [Hfr Hfp].
  { rewrite <-Hn by (by destruct j). pose proof (co_front _ _ _ Hco) as Hfo.
    destruct (pc_sel s) eqn:Eps.
    - apply (mispredicted imem code i w Hg); try (by rewrite E); try done; [|apply redirect_even].
      by apply (ex_redirect_stall s p.1 d x1 x2 j len He Hd eq_refl a1_pc Hpred).
    - rewrite Hnext. destruct (stall s) eqn:Est.
      + by apply (stalled imem code i w Hg); try (by rewrite E).
      + by apply (moved imem code i w Hg); try (by rewrite E). }
  assert (ex_mem_valid (ex_mem (core w')) = true) as Hvm.
  { cbn. unfold ex_mem_clock. rewrite Hg, Hfe, He. cbn. by rewrite Hv. }
  apply (finish [] p.1 (mop_of (ex_lines s i) j len p.1)); try done; [by rewrite E| |].
  2: { intros _ Hv0. unfold rank. rewrite Hvm, Hv0, He. cbn. rewrite Hv. lia. }
  unfold issued. rewrite Hvm.
  exists (ex_lines s i). intros v. cbn [arch_step]. rewrite Had, exec_issue, Ht, Hfp. do 2 f_equal.
  symmetry. apply (ex_csr_next s p.1 d x1 x2 j He Hd Hc1 Hw1 H1 H2 i Hg); [by rewrite E|by rewrite E, Hm].
Qed.

Lemma legal_moves : steps_to w w' a alog.
Proof.
  pose proof mret_moves as Hmret. pose proof issue_moves as Hissue. pose proof fault_moves as Hfault.
  destruct (traps j p.1) as [q|]; [by apply (Hfault q)|].
  destruct (is_mret (if_id_inst d)); auto.
Qed.
End Legal.

Lemma valid_moves : steps_to w w' a alog.
Proof.
  destruct (irq_fires s i && negb (is_mret (if_id_inst d))) eqn:Hirq; [by apply irq_moves|].
  destruct a1_facts as (_ & Hb1%well_behaved_safe & _).
  destruct (in_ex_decode _ _ _ _ _ Hex a1_pc Hb1) as [(j & Hd & Hat & Had)|[Hill Had]].
  - by apply (legal_moves j).
  - by apply illegal_moves.
Qed.
End Valid.

Lemma pipeline_moves : steps_to w w' a alog.
Proof.
  destruct (id_ex_valid (id_ex s)) eqn:Hv; [|by apply bubble_moves].
  destruct (ex_context w a alog op (front_pc s) (csr s) (answer w op) Hin (co_front _ _ _ Hco) Hv)
    as (d & x1 & x2 & Hex).
  by apply (valid_moves d x1 x2).
Qed.
End Moves.
End Refine.
