(* ===== verification/CpuLive.v ===== *)
(** * How long the pipeline can stand still

    [wait] counts the cycles until nothing holds the pipeline any more, when
    the caches answer at once and a peripheral one cycle after it is asked:
    the steps left of the divider, of the handshake with a peripheral and of
    the read-modify-write sequence.  Every frozen cycle shortens it. *)

From S2P Require Import Prelude Bits Rv32 Rvc Decoder DivUnit CpuUnits Cpu CpuSpec CpuMem CpuEx.
From S2P Require Import CpuFront CpuRefine.

(** The rest of the chip answers without delay. *)
Record prompt (s : cpu) (i : inputs) : Prop := {
  pr_icache : cache_ready i = true;
  pr_dcache : dcache_ready i = dcache_valid s;
  pr_uart : uart_ready i = pending (uart s);
  pr_intc : intc_ready i = pending (intc s);
  pr_accel : accel_ready i = pending (accel s);
}.

Definition div_wait (s : cpu) : nat :=
  if is_div_op s then
    if div_result_ready s then 0
    else if DivUnit.done (div s) then 1
    else if DivUnit.busy (div s) then Z.to_nat (33 - DivUnit.count (div s))
    else 34
  else 0.

Definition port_wait (valid : bool) (p : port) : nat :=
  if valid then if Cpu.done p then 0 else if pending p then 1 else 2 else 0.

Definition amo_wait (s : cpu) : nat :=
  if ex_mem_is_amo (ex_mem s) then
    if amo_result_ready s then 0
    else match amo_state s with AMO_WRITE => 1 | AMO_READ => 2 | AMO_IDLE => 3 end
  else 0.

Definition wait (s : cpu) : nat :=
  div_wait s + port_wait (uart_valid s) (uart s) + port_wait (intc_valid s) (intc s)
  + port_wait (accel_valid s) (accel s) + amo_wait s.

Lemma div_wait_bound (s : cpu) : div_ok s -> (div_wait s <= 34)%nat.
Proof.
  unfold div_ok, div_wait. destruct (is_div_op s); [|lia].
  intros [(Hr & [Hi|[[k Hk]|Hf]])|(Hr & Hd & Hh)]; rewrite Hr; [| | |lia].
  - destruct Hi as [-> ->]. lia.
  - destruct Hk as [-> -> -> Hk _ _ _ _ _]. lia.
  - destruct Hf as [-> _]. lia.
Qed.

Lemma wait_bound (s : cpu) : div_ok s -> (wait s <= 43)%nat.
Proof.
  intros Hd%div_wait_bound. unfold wait.
  assert (forall v p, (port_wait v p <= 2)%nat) as Hp.
  { intros v p. unfold port_wait. repeat case_match; lia. }
  assert (amo_wait s <= 3)%nat by (unfold amo_wait; repeat case_match; lia).
  pose proof (Hp (uart_valid s) (uart s)). pose proof (Hp (intc_valid s) (intc s)).
  pose proof (Hp (accel_valid s) (accel s)). lia.
Qed.

(** [falls c n n']: the count does not grow, and falls when it is what holds
    the pipeline. *)
Definition falls (c : bool) (n n' : nat) : Prop := (n' <= n)%nat /\ (c = true -> (n' < n)%nat).

Lemma div_falls (s s' : cpu) (i : inputs) :
  div s' = div_clock s -> div_result_ready s' = div_result_ready_clock s i ->
  global_mem_stall s i = true -> is_div_op s' = is_div_op s ->
  (is_div_op s = true -> is_uint 32 (alu_a s) /\ is_uint 32 (alu_b s)) ->
  div_ok s -> falls (div_stall s) (div_wait s) (div_wait s').
Proof.
  intros Ed Er Hg Ei Hops. unfold div_ok, falls, div_wait, div_stall. rewrite Ed, Er, Ei.
  unfold div_clock, div_result_ready_clock, div_start. rewrite Hg. cbn [negb].
  destruct (is_div_op s); cbn [andb]; [|by intros _; split].
  destruct (Hops eq_refl) as (Ha & Hb).
  intros [(Hr & [Hi|[[k Hk]|Hf]])|(Hr & Hd & Hh)]; rewrite Hr.
  - destruct Hi as [Hbu Hdo]. rewrite Hbu, Hdo. cbn [negb andb].
    destruct (start_step (div_is_signed s) (alu_a s) (alu_b s) Ha Hb (div s)) as [[-> _]|[-> -> -> _ _ _ _ _ _]];
      [done|lia|]. cbn; lia.
  - pose proof Hk as [Hbu Hdo Hc Hkr _ _ _ _ _]. rewrite Hbu, Hdo, Hc. cbn [negb andb].
    pose proof (computing_step _ _ _ Ha Hb false (div_is_signed s) (alu_a s) (alu_b s) k _ Hk) as Hn.
    destruct (Z.eqb_spec k 31); [destruct Hn as [-> _]; lia|]. destruct Hn as [-> -> -> _ _ _ _ _ _]. lia.
  - destruct Hf as [Hdo _]. rewrite Hdo. lia.
  - rewrite Hd, andb_false_r. by split.
Qed.

Lemma port_falls (v : bool) (x : Z) (p : port) :
  port_at v p ->
  falls (v && negb (Cpu.done p)) (port_wait v p) (port_wait v (port_clock v true (pending p) x p)).
Proof.
  intros (Hv & Hp & _). unfold falls, port_wait, port_clock. destruct p as [pe dn x0]. cbn in *.
  destruct v, pe, dn; cbn; split; intros; try lia; try done; by specialize (Hp eq_refl).
Qed.

(** The phases of an atomic access that ask the memory. *)
Lemma amo_asks (w : soc) (a : arch) (alog : list event) (op : mop) :
  in_mem w a alog op -> amos op = true ->
  dcache_valid (core w) =
    match amo_state (core w) with
    | AMO_IDLE => false | AMO_READ => true | AMO_WRITE => negb (amo_result_ready (core w))
    end.
Proof.
  intros Hin Ha. pose proof (im_op _ _ _ _ Hin) as H. pose proof (im_amo _ _ _ _ Hin) as Hst.
  pose proof (dcache_wen_op (core w) op H) as Hw.
  unfold dcache_valid, dcache_ren, amo_read_phase. rewrite Hw, (is_load_op _ _ H), (is_amo_op _ _ H), Ha.
  destruct op; try done. rewrite (op_addr_alu _ _ H) by done. cbn [loads orb andb op_addr amo_at] in *.
  mop_wires. unfold dev in *. destruct (amo_state (core w)); try done.
  rewrite orb_false_r. by apply negb_false_iff.
Qed.

Section Frozen.
Context (imem : Z -> Z) (code : Z -> bool) (Himem : forall p, is_uint 32 (imem p)).
Context (i : inputs) (w : soc) (a : arch) (alog : list event) (Hok : inputs_ok w i)
  (Hg : global_mem_stall (core w) i = true) (Hpr : prompt (core w) i) (Hco : corresponds imem code w a alog).
Abbreviation s := (core w).
Abbreviation s' := (core (tick i w)).

Lemma amo_falls (op : mop) :
  in_mem w a alog op -> falls (amo_stall s) (amo_wait s) (amo_wait s').
Proof.
  intros Hin. pose proof (im_op _ _ _ _ Hin) as H. unfold falls, amo_wait, amo_stall.
  rewrite (frozen_ex_mem i w Hg), (amo_result_after i w Hg).
  change (amo_state s') with (amo_state_clock s i). unfold amo_state_clock, amo_restart.
  rewrite Hg, (is_amo_op _ _ H). destruct (amos op) eqn:Ha; cbn [negb andb orb]; [|by split].
  rewrite andb_false_r. pose proof (pr_dcache _ _ Hpr) as Hd.
  pose proof (im_amo _ _ _ _ Hin) as Hst. rewrite (amo_asks w a alog op Hin Ha) in Hd.
  assert (amo_result_ready s = true -> amo_state s = AMO_WRITE) as Hw.
  { destruct op; try done. cbn [amo_at] in Hst. destruct (amo_state s); congruence. }
  destruct (amo_result_ready s); [rewrite (Hw eq_refl), orb_true_r; by split; [lia|]|].
  rewrite Hd. destruct (amo_state s); cbn; lia.
Qed.

(** Whatever holds the pipeline comes nearer to its end. *)
Lemma wait_falls : (wait s' < wait s)%nat.
Proof.
  pose proof Hco as [(op & Hin & Hi) Hf Hd Hw Hb].
  pose proof (amo_falls op Hin) as [A1 A2].
  assert (falls (div_stall s) (div_wait s) (div_wait s')) as [D1 D2].
  { pose proof (frozen_stages i w Hg) as (_ & Eex & _).
    apply (div_falls s _ i); try done; [unfold is_div_op; by rewrite Eex|]. intros Hdiv.
    by eapply frozen_div_range. }
  assert (falls (uart_stall s) (port_wait (uart_valid s) (uart s)) (port_wait (uart_valid s') (uart s'))) as [U1 U2].
  { rewrite (frozen_uart i w Hg a alog op Hin). cbn. rewrite Hg, (pr_uart _ _ Hpr).
    apply port_falls, Hin. }
  assert (falls (intc_stall s) (port_wait (intc_valid s) (intc s)) (port_wait (intc_valid s') (intc s'))) as [I1 I2].
  { rewrite (frozen_intc i w Hg a alog op Hin). cbn. rewrite Hg, (pr_intc _ _ Hpr).
    apply port_falls, Hin. }
  assert (falls (accel_stall s) (port_wait (accel_valid s) (accel s)) (port_wait (accel_valid s') (accel s'))) as [C1 C2].
  { rewrite (frozen_accel i w Hg a alog op Hin). cbn. rewrite Hg, (pr_accel _ _ Hpr).
    apply port_falls, Hin. }
  pose proof Hg as Hs. unfold global_mem_stall, dmem_stall, imem_stall in Hs.
  rewrite (pr_icache _ _ Hpr), (pr_dcache _ _ Hpr), andb_negb_r in Hs. cbn [negb orb] in Hs.
  unfold wait.
  destruct (div_stall s); [specialize (D2 eq_refl); lia|].
  destruct (uart_stall s); [specialize (U2 eq_refl); lia|].
  destruct (intc_stall s); [specialize (I2 eq_refl); lia|].
  destruct (amo_stall s); [specialize (A2 eq_refl); lia|].
  destruct (accel_stall s); [specialize (C2 eq_refl); lia|done].
Qed.

Lemma frozen_rank : rank s' = rank s.
Proof.
  pose proof (frozen_stages i w Hg) as (E1 & E2 & _). unfold rank.
  by rewrite E1, E2, (frozen_ex_mem i w Hg).
Qed.
End Frozen.
