(* ===== verification/CpuCorrect.v ===== *)
(** * The core executes its instruction set

    The correctness theorems of the core, from reset, over every sequence of
    answers the rest of the chip may give. *)

From S2P Require Import Prelude Bits Rv32 Rvc Decoder DivUnit CpuUnits Cpu CpuSpec CpuMem CpuEx.
From S2P Require Import CpuFront CpuRefine CpuLive.

(** The chip and the architecture out of reset. *)
Definition chip_reset (regs pht0 ras0 : Z -> Z) (d : DivUnit.regs) (old : Z) (m : mem) : soc :=
  mk_soc (reset regs pht0 ras0 d old) m [].
Definition arch_reset (regs : Z -> Z) (m : mem) : arch :=
  {| a_pc := RESET_PC; a_regs := regs; a_csr := csr_reset; a_mem := m; a_resv := None |}.

Section Correct.
Context (imem : Z -> Z) (code : Z -> bool) (Himem : forall p, is_uint 32 (imem p)).

Lemma reset_corresponds (regs pht0 ras0 : Z -> Z) (d : DivUnit.regs) (old : Z) (m : mem) :
  (forall r, is_uint 32 (regs r)) -> well_behaved imem code (arch_reset regs m) ->
  corresponds imem code (chip_reset regs pht0 ras0 d old m) (arch_reset regs m) [].
Proof.
  intros Hr Hb.
  assert (Hp : forall v, port_at v port_reset) by (intros v; by split_and!).
  split; try done.
  - exists (MAlu 0 0). split.
    + apply mem_enters; [by split|]. cbn [mop_in]. unfold flags. split; [done|]. left. split; [by left|done].
    + unfold issued. cbn [chip_reset core reset ex_mem ex_mem_reset ex_mem_valid].
      split_and!; [by exists 0|done|done].
  - split; try done.
    + by apply ex_cleared.
    + split; try done. intros k [Hk1 Hk2]. cbn in Hk2. lia.
  - split; [done| |done]. intros r. unfold getreg, arch_reset. cbn [a_regs]. by destruct (r =? 0).
Qed.

(** Cycles until the next step of the architecture, at most. *)
Definition ahead (w : soc) : nat := 44 * rank (core w) + wait (core w).

Lemma ahead_bound (w : soc) (a : arch) (alog : list event) :
  corresponds imem code w a alog -> (ahead w <= 175)%nat.
Proof.
  intros Hco. pose proof (wait_bound (core w) (co_div _ _ _ _ _ Hco)). unfold ahead, rank.
  repeat case_match; lia.
Qed.

Lemma tick_corresponds (i : inputs) (w : soc) (a : arch) (alog : list event) :
  inputs_ok w i -> fetch_ok imem code (core w) i -> corresponds imem code w a alog ->
  exists lbs a' evs, Forall label_ok lbs /\ arch_run imem lbs a = Some (a', evs) /\
    corresponds imem code (tick i w) a' (alog ++ evs) /\
    (lbs = [] -> prompt (core w) i -> (ahead (tick i w) < ahead w)%nat) /\
    (lbs = [] -> if global_mem_stall (core w) i then rank (core (tick i w)) = rank (core w)
                 else (rank (core (tick i w)) < rank (core w))%nat).
Proof.
  intros Hok Hft Hco. destruct (global_mem_stall (core w) i) eqn:Hg.
  - exists [], a, []. split_and!; [done|done| | |intros _; by apply frozen_rank].
    + rewrite app_nil_r. by apply frozen_corresponds.
    + intros _ Hpr. unfold ahead. rewrite (frozen_rank i w Hg).
      pose proof (wait_falls imem code Himem i w a alog Hg Hpr Hco). lia.
  - pose proof Hco as [(op & Hin & Hi) _ _ _ _].
    destruct (pipeline_moves imem code Himem i w a alog op Hok Hft Hg Hco Hin Hi)
      as (lbs & a' & evs & Hl & Hr & Hc & Hrank).
    exists lbs, a', evs. split_and!; try done. intros E _. specialize (Hrank E).
    pose proof (wait_bound _ (co_div _ _ _ _ _ Hc)). unfold ahead. lia.
Qed.

(** The answers of every cycle of a run are prompt. *)
Fixpoint run_prompt (ins : list inputs) (w : soc) : Prop :=
  match ins with
  | [] => True
  | i :: ins => prompt (core w) i /\ run_prompt ins (tick i w)
  end.

Lemma run_corresponds (ins : list inputs) (w : soc) (a : arch) (alog : list event) :
  run_ok imem code ins w -> corresponds imem code w a alog ->
  exists lbs a' evs, Forall label_ok lbs /\ arch_run imem lbs a = Some (a', evs) /\
    corresponds imem code (run ins w) a' (alog ++ evs) /\
    (run_prompt ins w -> (length ins + ahead (run ins w) <= 176 * length lbs + ahead w)%nat).
Proof.
  induction ins as [|i ins IH] in w, a, alog |- *; intros Hok Hco.
  { exists [], a, []. rewrite app_nil_r. by split_and!. }
  destruct Hok as (Hi & Hft & Hok).
  destruct (tick_corresponds i w a alog Hi Hft Hco) as (l1 & a1 & e1 & Hl1 & Hr1 & Hc1 & Hp1 & _).
  destruct (IH _ _ _ Hok Hc1) as (l2 & a2 & e2 & Hl2 & Hr2 & Hc2 & Hp2).
  exists (l1 ++ l2), a2, (e1 ++ e2). split_and!; [by apply Forall_app| |by rewrite app_assoc|].
  - by apply (arch_run_app _ _ _ _ a1).
  - intros [Hpr Hprs]. specialize (Hp2 Hprs). rewrite length_app. cbn [length run].
    pose proof (ahead_bound _ _ _ Hc1). destruct l1 as [|lb l1]; cbn [length]; [|lia].
    specialize (Hp1 eq_refl Hpr). lia.
Qed.

(** The state of the chip, as software sees it between two instructions. *)
Record holds_state (w : soc) (a : arch) : Prop := {
  hs_regs : forall r, read_data (core w) r = getreg a r;
  hs_csr : csr (core w) = a_csr a;
  hs_mem : forall b, ram w b = a_mem a b;
  hs_resv : resv_of (rm (core w)) = a_resv a;
  hs_pc : front_pc (core w) = a_pc a;
}.

(** The accesses that the devices have seen are those of a run of the
    architecture; with no instruction in MEM the chip is in its state. *)
Lemma corresponds_seen (w : soc) (a : arch) (alog : list event) :
  corresponds imem code w a alog ->
  exists lbs a' evs, Forall label_ok lbs /\ arch_run imem lbs a = Some (a', evs) /\
    log w = alog ++ evs /\ (ex_mem_valid (ex_mem (core w)) = false -> holds_state w a').
Proof.
  intros Hco. pose proof Hco as [(op & Hin & Hi) _ _ _ _]. pose proof (im_log _ _ _ _ Hin) as Hlog.
  pose proof (im_op _ _ _ _ Hin) as Hop.
  destruct (port_done (core w)) eqn:Ed.
  - destruct (port_done_selected _ _ _ _ Hin Ed) as [Hp Hdev].
    destruct (completes imem code w a alog op (answer w op) Hco Hi) as (lbs & Hl & _ & Hr); [by eapply answer_range|].
    destruct (perform _ _ _ _ _) as [a1 evs] eqn:E. exists lbs, a1, evs. split_and!; [done|done| |].
    + rewrite Hlog. f_equal. apply (f_equal snd) in E. cbn [snd] in E. rewrite <-E.
      rewrite (plain_event (core w) op) by done. unfold answer. by rewrite Hp, Hdev.
    + unfold issued in Hi. destruct (ex_mem_valid _); [done|]. by destruct Hi as [[x ->] _].
  - exists [], a, []. split_and!; [done|done|by rewrite Hlog|]. unfold issued in Hi. intros Hv.
    rewrite Hv in Hi. destruct Hi as ([x ->] & Hpc & Hcsr). destruct Hin as [_ _ _ _ _ Hram Hresv _ Hregs].
    by split.
Qed.

(** Both theorems, from reset. *)
Lemma chip_run (regs pht0 ras0 : Z -> Z) (d : DivUnit.regs) (old : Z) (m : mem) (ins : list inputs) :
  (forall r, is_uint 32 (regs r)) -> well_behaved imem code (arch_reset regs m) ->
  run_ok imem code ins (chip_reset regs pht0 ras0 d old m) ->
  let w := run ins (chip_reset regs pht0 ras0 d old m) in
  exists lbs a evs,
    Forall label_ok lbs /\ arch_run imem lbs (arch_reset regs m) = Some (a, evs) /\ log w = evs /\
    (ex_mem_valid (ex_mem (core w)) = false -> holds_state w a) /\
    (run_prompt ins (chip_reset regs pht0 ras0 d old m) -> (length ins < 176 * (length lbs + 1))%nat).
Proof.
  intros Hr Hb Hok w. pose proof (reset_corresponds regs pht0 ras0 d old m Hr Hb) as H0.
  destruct (run_corresponds ins _ _ _ Hok H0) as (l1 & a1 & e1 & Hl1 & Hr1 & Hc1 & Hp1).
  destruct (corresponds_seen _ _ _ Hc1) as (l2 & a2 & e2 & Hl2 & Hr2 & Hlog & Hs).
  exists (l1 ++ l2), a2, (e1 ++ e2).
  split_and!; [by apply Forall_app|by apply (arch_run_app _ _ _ _ a1)|exact Hlog|exact Hs|].
  intros Hpr. specialize (Hp1 Hpr). pose proof (ahead_bound _ _ _ H0). rewrite length_app. lia.
Qed.
End Correct.

(** C4: the pipelined core implements its instruction set.  From reset, with
    any contents of the register file, the predictor tables, the divider and
    memory, for every program that stays in [code] ([well_behaved]), and for
    every sequence of answers of the caches, the peripherals and the interrupt
    lines that keeps the handshakes, where fetches outside [code] may return
    anything: there is a run of the
    sequential architecture, one instruction or one interrupt at a time, such
    that the device accesses the chip has made are exactly the run's, in
    order, with the same addresses and data, and whenever no instruction is
    in MEM the registers (through the write-back bypass), the CSRs, memory, the
    reservation and the next address are those of the run's last state. *)
Theorem core_refines_architecture (imem regs pht0 ras0 : Z -> Z) (code : Z -> bool) (d : DivUnit.regs) (old : Z) (m : mem)
    (ins : list inputs) :
  (forall p, is_uint 32 (imem p)) -> (forall r, is_uint 32 (regs r)) ->
  well_behaved imem code (arch_reset regs m) ->
  run_ok imem code ins (chip_reset regs pht0 ras0 d old m) ->
  let w := run ins (chip_reset regs pht0 ras0 d old m) in
  exists lbs a evs,
    Forall label_ok lbs /\ arch_run imem lbs (arch_reset regs m) = Some (a, evs) /\
    log w = evs /\ (ex_mem_valid (ex_mem (core w)) = false -> holds_state w a).
Proof.
  intros Hi Hr Hb Hok w.
  destruct (chip_run imem code Hi regs pht0 ras0 d old m ins Hr Hb Hok) as (lbs & a & evs & H1 & H2 & H3 & H4 & _).
  by exists lbs, a, evs.
Qed.

(** C8: the core makes progress.  When the caches answer at once and every
    peripheral in the cycle after it is asked, a run of [n] cycles is a run of
    the architecture, as in [core_refines_architecture], that makes at least one
    step in every 176 cycles: no combination of divisions, atomics, device accesses, hazards,
    mispredictions and traps stops the pipeline. *)
Theorem core_makes_progress (imem regs pht0 ras0 : Z -> Z) (code : Z -> bool) (d : DivUnit.regs) (old : Z) (m : mem)
    (ins : list inputs) :
  (forall p, is_uint 32 (imem p)) -> (forall r, is_uint 32 (regs r)) ->
  well_behaved imem code (arch_reset regs m) ->
  run_ok imem code ins (chip_reset regs pht0 ras0 d old m) ->
  run_prompt ins (chip_reset regs pht0 ras0 d old m) ->
  let w := run ins (chip_reset regs pht0 ras0 d old m) in
  exists lbs a evs,
    Forall label_ok lbs /\ arch_run imem lbs (arch_reset regs m) = Some (a, evs) /\ log w = evs /\
    (ex_mem_valid (ex_mem (core w)) = false -> holds_state w a) /\
    (length ins < 176 * (length lbs + 1))%nat.
Proof.
  intros Hi Hr Hb Hok Hpr w.
  destruct (chip_run imem code Hi regs pht0 ras0 d old m ins Hr Hb Hok) as (lbs & a & evs & H1 & H2 & H3 & H4 & H5).
  exists lbs, a, evs. by specialize (H5 Hpr).
Qed.

(** ** A program

    It writes 5 to the LED register for ever.  A trap would end in the loop at
    address 0. *)
Module BlinkWitness.
Definition prog (p : Z) : Z :=
  let o := p - RESET_PC in
  if o =? 0 then 0x000022B7              (* lui x5, 2 *)
  else if o =? 4 then 0x00500313         (* addi x6, x0, 5 *)
  else if o =? 8 then 0x0062A023         (* sw x6, 0(x5) *)
  else if o =? 12 then 0x00130393        (* addi x7, x6, 1 *)
  else if o =? 16 then 0xFF9FF06F        (* jal x0, -8 *)
  else 0x0000006F.                       (* jal x0, 0 *)

Definition zeros : Z -> Z := fun _ => 0.
Definition div0 : DivUnit.regs := DivUnit.reset 0 0 0 0 0 false false.

Lemma prog_range (p : Z) : is_uint 32 (prog p).
Proof. unfold prog. repeat case_match; by split. Qed.

(** Where the program can be: in its loop, or at the trap vector. *)
Definition places : list Z :=
  [RESET_PC; RESET_PC + 4; RESET_PC + 8; RESET_PC + 12; RESET_PC + 16; 0].
Definition inside (p : Z) : bool := existsb (Z.eqb p) places.

Definition at_home (a : arch) : Prop :=
  In (a_pc a) places /\ mtvec (a_csr a) = 0 /\ bit 3 (mstatus (a_csr a)) = false.

Lemma trap_home (cause tval : Z) (a : arch) : at_home a -> at_home (trap cause tval a).
Proof.
  intros (_ & Hv & _). unfold at_home. cbn [trap a_pc a_csr enter_trap mtvec mstatus].
  rewrite Hv. split_and!; [cbn; auto 10|done|]. unfold bit, put_bit. apply Z.clearbit_eq.
Qed.

Lemma issue_home (l : lines) (v : Z) (i : instr) (len : Z) (a : arch) :
  at_home a -> at_home {| a_pc := next_of i len a; a_regs := a_regs a; a_csr := csr_of i a;
                          a_mem := a_mem a; a_resv := a_resv a |} ->
  at_home (exec dev l v i len a).1.
Proof.
  intros Ha Hn. rewrite exec_issue. destruct (traps i a) as [q|]; [by apply trap_home|].
  unfold at_home in *. cbn [a_pc a_csr] in Hn.
  by destruct (perform_pc_csr (next_of i len a) (csr_of i a) (mop_of l i len a) v a) as [-> ->].
Qed.

Lemma home_step (lb : label) (a a' : arch) (evs : list event) :
  at_home a -> arch_step prog lb a = Some (a', evs) -> at_home a'.
Proof.
  intros Ha. destruct lb as [l v|ext]; cbn [arch_step].
  - assert (exists i, arch_decode (prog (a_pc a)) = Legal i 4 /\ csr_of i a = a_csr a /\
      In (next_of i 4 a) places)
      as (i & -> & Hc & Hn).
    { destruct Ha as [Hp _]. cbn [places In] in Hp.
      destruct Hp as [E|[E|[E|[E|[E|[E|[]]]]]]]; rewrite <-E; eexists;
        (split; [vm_compute; reflexivity|]); (split; [reflexivity|]); cbn [next_of]; rewrite <-E;
        vm_compute; auto 10. }
    intros [= E]. apply (f_equal fst) in E. cbn [fst] in E. rewrite <-E.
    apply issue_home; [done|]. split; [done|]. cbn [a_csr]. rewrite Hc. apply Ha.
  - destruct Ha as (_ & _ & H3). unfold irq_enabled. by rewrite H3.
Qed.

Lemma home_run (lbs : list label) (a a' : arch) (evs : list event) :
  at_home a -> arch_run prog lbs a = Some (a', evs) -> at_home a'.
Proof.
  induction lbs as [|lb lbs IH] in a, evs |- *; cbn; intros Ha H; [by simplify_eq|].
  destruct (arch_step prog lb a) as [[b f]|] eqn:E; [|done]. cbn in H.
  destruct (arch_run prog lbs b) as [[c g]|] eqn:E2; [|done]. cbn in H. simplify_eq.
  eapply IH; [|exact E2]. by eapply home_step.
Qed.

Lemma home_safe (a : arch) : at_home a -> safe prog inside a.
Proof.
  intros [Hp _]. cbn [places In] in Hp. unfold safe.
  destruct Hp as [E|[E|[E|[E|[E|[E|[]]]]]]]; rewrite <-E; by vm_compute.
Qed.

Lemma prog_well_behaved : well_behaved prog inside (arch_reset zeros zeros).
Proof.
  intros lbs a evs _ Hr. apply home_safe. eapply home_run; [|exact Hr].
  split_and!; [by left|done|done].
Qed.

(** No device but the LEDs is asked; a fetch that strays from the program finds
    an illegal word. *)
Definition quiet (s : cpu) : inputs :=
  {| cache_ready := true; if_inst := if inside (pc s) then prog (pc s) else 0xFFFFFFFF;
     dcache_ready := false; dcache_read_data := 0;
     uart_ready := false; uart_rdata := 0; intc_ready := false; intc_rdata := 0;
     accel_ready := false; accel_rdata := 0; intc_irq_out := false |}.

Fixpoint answers (n : nat) (w : soc) : list inputs :=
  match n with
  | O => []
  | Datatypes.S n => quiet (core w) :: answers n (tick (quiet (core w)) w)
  end.

Lemma quiet_ok (n : nat) (w : soc) : run_ok prog inside (answers n w) w.
Proof.
  induction n in w |- *; cbn [answers run_ok]; [done|]. split; [by split|]. split; [|done].
  intros _ Hc. unfold quiet. cbn [if_inst]. by rewrite Hc.
Qed.

Definition quiet_prompt (s : cpu) : bool :=
  negb (dcache_valid s) && negb (pending (uart s)) && negb (pending (intc s)) && negb (pending (accel s)).
Fixpoint run_quiet (n : nat) (w : soc) : bool :=
  match n with
  | O => true
  | Datatypes.S n => quiet_prompt (core w) && run_quiet n (tick (quiet (core w)) w)
  end.

Lemma run_quiet_prompt (n : nat) (w : soc) : run_quiet n w = true -> run_prompt (answers n w) w.
Proof.
  induction n as [|n IH] in w |- *; cbn [answers run_prompt run_quiet]; [done|].
  intros [H1 H2]%andb_true_iff. split; [|by apply IH]. unfold quiet_prompt in H1.
  destruct (dcache_valid _) eqn:E1, (pending (uart _)) eqn:E2, (pending (intc _)) eqn:E3,
    (pending (accel _)) eqn:E4; try done.
Qed.

Definition start : soc := chip_reset zeros zeros zeros div0 0 zeros.

Lemma core_refines_architecture_witness :
  let w := run (answers 8 start) start in
  log w = [DevWrite LED_ADDR 5] /\
  exists lbs a evs,
    Forall label_ok lbs /\ arch_run prog lbs (arch_reset zeros zeros) = Some (a, evs) /\
    log w = evs /\ (ex_mem_valid (ex_mem (core w)) = false -> holds_state w a).
Proof.
  split; [by vm_compute|].
  apply (core_refines_architecture prog zeros zeros zeros inside div0 0 zeros (answers 8 start)).
  - apply prog_range.
  - by split.
  - apply prog_well_behaved.
  - apply quiet_ok.
Defined.

Lemma core_makes_progress_witness :
  let w := run (answers 8 start) start in
  exists lbs a evs,
    Forall label_ok lbs /\ arch_run prog lbs (arch_reset zeros zeros) = Some (a, evs) /\ log w = evs /\
    (ex_mem_valid (ex_mem (core w)) = false -> holds_state w a) /\
    (length (answers 8 start) < 176 * (length lbs + 1))%nat.
Proof.
  apply (core_makes_progress prog zeros zeros zeros inside div0 0 zeros (answers 8 start)).
  - apply prog_range.
  - by split.
  - apply prog_well_behaved.
  - apply quiet_ok.
  - apply run_quiet_prompt. by vm_compute.
Defined.
End BlinkWitness.
