(* ===== verification/Zephyr.v ===== *)
(** * Interfaces of the Zephyr kernel and C environment the drivers call

    The drivers under [src/zephyr/drivers] are compiled against the Zephyr
    RTOS, which is not part of the repository.  What they use of it is stated
    here as type classes: the operations are parameters of the driver models,
    the documented behaviour is a second class of laws, and a concrete
    instance shows that the laws can hold. *)

From S2P Require Import Prelude.

(** Error numbers the drivers return; [rc] is a C [int] return code that is
    either [0] or a negated error number. *)
Inductive errno : Type := EINVAL | EBUSY | ETIMEDOUT | ENOTSUP.

Inductive rc : Type := RC_OK | RC_ERR (e : errno).

#[export] Instance errno_eq_dec : EqDecision errno.
Proof. solve_decision. Defined.
#[export] Instance rc_eq_dec : EqDecision rc.
Proof. solve_decision. Defined.

(** ** [zephyr/sys/util.h] *)

Class SysUtil : Type := {
  ROUND_DOWN : Z -> Z -> Z;
  BIT : Z -> Z;
  BIT_MASK : Z -> Z;
  find_lsb_set : Z -> Z;
}.

(** Documented behaviour: [ROUND_DOWN x align] is the previous multiple of
    [align]; [BIT n] is the word with bit [n] set; [BIT_MASK n] the word with
    bits [0..n-1] set; [find_lsb_set] the one-based index of the least
    significant set bit of a 32-bit word, [0] for the zero word. *)
Class SysUtilSpec `{SysUtil} : Prop := {
  ROUND_DOWN_multiple : forall x a, 0 <= x -> 0 < a -> (a | ROUND_DOWN x a);
  ROUND_DOWN_bounds : forall x a, 0 <= x -> 0 < a ->
    ROUND_DOWN x a <= x < ROUND_DOWN x a + a;
  BIT_pow2 : forall n, 0 <= n < 32 -> BIT n = 2 ^ n;
  BIT_MASK_ones : forall n, 0 <= n < 32 -> BIT_MASK n = Z.ones n;
  find_lsb_set_zero : find_lsb_set 0 = 0;
  find_lsb_set_spec : forall x, is_uint 32 x -> x <> 0 ->
    exists n, find_lsb_set x = n + 1 /\ 0 <= n < 32 /\ Z.testbit x n = true /\
      forall m, 0 <= m < n -> Z.testbit x m = false;
}.

(** The concrete instance. *)
Fixpoint lsb_from (fuel : nat) (n x : Z) : Z :=
  match fuel with
  | O => 0
  | S f => if Z.testbit x n then n + 1 else lsb_from f (n + 1) x
  end.

#[export] Instance sys_util_c : SysUtil := {|
  ROUND_DOWN := fun x a => x / a * a;
  BIT := fun n => 1 .<< n;
  BIT_MASK := fun n => (1 .<< n) - 1;
  find_lsb_set := fun x => lsb_from 32 0 x;
|}.

Lemma lsb_from_spec (f : nat) (n x : Z) :
  0 <= n -> (forall m, 0 <= m < n -> Z.testbit x m = false) ->
  (exists k, n <= k < n + Z.of_nat f /\ Z.testbit x k = true) ->
  exists k, lsb_from f n x = k + 1 /\ n <= k < n + Z.of_nat f /\ Z.testbit x k = true /\
    forall m, 0 <= m < k -> Z.testbit x m = false.
Proof.
  revert n. induction f as [|f IH]; intros n Hn Hlow (k & Hk & Hb); [lia|]. cbn.
  destruct (Z.testbit x n) eqn:Hx; [exists n; repeat split; auto; lia|].
  destruct (IH (n + 1)) as (j & ? & ? & ?); [lia| | |].
  - intros m Hm. destruct (Z.eq_dec m n) as [->|]; [done|]. apply Hlow; lia.
  - exists k. split; [|done]. assert (k <> n) by congruence. lia.
  - exists j. repeat split; try tauto; lia.
Qed.

Lemma uint_nonzero_bit (w x : Z) :
  0 <= w -> is_uint w x -> x <> 0 -> exists k, 0 <= k < w /\ Z.testbit x k = true.
Proof.
  intros Hw Hx Hnz. exists (Z.log2 x). unfold is_uint in Hx. split.
  - split; [apply Z.log2_nonneg|]. apply Z.log2_lt_pow2; lia.
  - apply Z.bit_log2. lia.
Qed.

#[export] Instance sys_util_c_spec : SysUtilSpec.
Proof.
  split; cbn -[lsb_from Z.mul Z.div Z.shiftl].
  - intros. apply Z.divide_factor_r.
  - intros x a Hx Ha. pose proof (Z.div_mod x a). pose proof (Z.mod_pos_bound x a Ha). nia.
  - intros. by rewrite Z.shiftl_1_l.
  - intros. rewrite Z.shiftl_1_l, Z.ones_equiv. lia.
  - done.
  - intros x Hx Hnz. destruct (uint_nonzero_bit 32 x) as (k & Hk & Hb); [lia|done..|].
    apply (lsb_from_spec 32 0 x); [lia|lia|]. eauto.
Qed.

(** ** [zephyr/sys/sys_io.h]: 32-bit device register accesses

    [sys_write32 data addr] keeps the argument order of the C function. *)
Class Mmio (W : Type) : Type := {
  sys_read32 : Z -> M W Z;
  sys_write32 : Z -> Z -> M W ();
}.

(** ** [k_sem] and [k_mutex]

    The parts of a semaphore and of a mutex that a call uses without waiting:
    a thread that has to wait (a take on an empty semaphore, a lock on a held
    mutex) gets [None], and what happens meanwhile is the caller's model. *)
Class KernelSync : Type := {
  k_sem : Type;
  sem_init : Z -> Z -> k_sem;
  sem_count : k_sem -> Z;
  sem_limit : k_sem -> Z;
  sem_give : k_sem -> k_sem;
  sem_reset : k_sem -> k_sem;
  sem_take : k_sem -> option k_sem;
  k_mutex : Type;
  mutex_init : k_mutex;
  mutex_free : k_mutex -> Prop;
  mutex_lock : k_mutex -> option k_mutex;
  mutex_unlock : k_mutex -> k_mutex;
}.

(** Documented behaviour: a semaphore counts between 0 and its limit, is given
    one at a time, reset to 0, and taken at once exactly when it is not 0; an
    initialised mutex is free, a free one is locked at once, and unlocking it
    frees it. *)
Class KernelSyncSpec `{KernelSync} : Prop := {
  sem_init_spec : forall n l, 0 <= n <= l -> sem_count (sem_init n l) = n /\ sem_limit (sem_init n l) = l;
  sem_count_nonneg : forall s, 0 <= sem_count s;
  sem_give_spec : forall s,
    sem_count (sem_give s) = Z.min (sem_count s + 1) (sem_limit s) /\ sem_limit (sem_give s) = sem_limit s;
  sem_reset_spec : forall s, sem_count (sem_reset s) = 0 /\ sem_limit (sem_reset s) = sem_limit s;
  sem_take_empty : forall s, sem_count s = 0 -> sem_take s = None;
  sem_take_spec : forall s, 0 < sem_count s -> exists s', sem_take s = Some s' /\
    sem_count s' = sem_count s - 1 /\ sem_limit s' = sem_limit s;
  mutex_init_free : mutex_free mutex_init;
  mutex_lock_free : forall m, mutex_free m -> exists m', mutex_lock m = Some m' /\ mutex_free (mutex_unlock m');
}.

(** A concrete instance: a count below a limit, and a flag. *)
#[export] Instance sync_counting : KernelSync := {|
  k_sem := N * N;
  sem_init n l := (Z.to_N n, Z.to_N l);
  sem_count s := Z.of_N s.1;
  sem_limit s := Z.of_N s.2;
  sem_give s := (N.min (s.1 + 1) s.2, s.2);
  sem_reset s := (0%N, s.2);
  sem_take s := if (s.1 =? 0)%N then None else Some (N.pred s.1, s.2);
  k_mutex := bool;
  mutex_init := false;
  mutex_free m := m = false;
  mutex_lock m := if m then None else Some true;
  mutex_unlock _ := false;
|}.

#[export] Instance sync_counting_spec : KernelSyncSpec.
Proof.
  split; cbn; try done; try lia.
  - intros [n l] H. cbn in *. by destruct n.
  - intros [n l] H. cbn in *. destruct (N.eqb_spec n 0); [lia|]. eexists. split; [done|]. cbn. lia.
  - intros m ->. by exists true.
Qed.
