(* ===== verification/Dcache.v ===== *)
(** * The write-back data cache and DRAM, one CPU access at a time

    Model of [src/src/dcache_bram.v] at the granularity software can observe:
    a load or a store that hits, or that misses and goes through the
    writeback ([S_CAP], [S_WB]) and refill ([S_FILL]) states of the FSM before
    it is served.  The geometry (line size [2 ^ OFF], [2 ^ IDX] sets) is a
    parameter, as in the RTL; [DcacheFsm] proves that the RTL implements this
    cache.  The accelerator's DMA reads and writes DRAM
    behind the cache. *)

From S2P Require Import Prelude.

(** The module parameters: [LINE_BYTES = 2 ^ OFF], [NUM_SETS = 2 ^ IDX]. *)
Class DcGeom : Type := { OFF : Z; IDX : Z }.
Class DcGeomOk `{DcGeom} : Prop := { OFF_nonneg : 0 <= OFF; IDX_nonneg : 0 <= IDX }.

(** The FPGA build (16 KB) and the ASIC build (8 KB). *)
Definition geom_fpga : DcGeom := {| OFF := 4; IDX := 10 |}.
Definition geom_asic : DcGeom := {| OFF := 4; IDX := 9 |}.

Section Dcache.
Context `{DcGeom}.

Definition LINE_BYTES : Z := 2 ^ OFF.
Definition NUM_SETS : Z := 2 ^ IDX.

(** Address decode: the tag, index and line-offset fields of an address. *)
Definition m_off (a : Z) : Z := a mod LINE_BYTES.
Definition m_idx (a : Z) : Z := (a / LINE_BYTES) mod NUM_SETS.
Definition m_tag (a : Z) : Z := a / (LINE_BYTES * NUM_SETS).

(** [{tag, index, 0}], the address of a line on the memory port. *)
Definition line_addr (tag idx : Z) : Z := (tag * NUM_SETS + idx) * LINE_BYTES.

Record memsys : Type := {
  dc_valid : Z -> bool;
  dc_tag : Z -> Z;
  dc_dirty : Z -> bool;
  dc_data : Z -> Z -> Z;        (* set, byte offset in the line *)
  dram : mem;
}.

(** Reset: the [S_INIT] sweep leaves every valid bit clear. *)
Definition dc_reset (m : mem) : memsys := {|
  dc_valid := fun _ => false;
  dc_tag := fun _ => 0;
  dc_dirty := fun _ => false;
  dc_data := fun _ _ => 0;
  dram := m;
|}.

Definition hit (s : memsys) (a : Z) : bool :=
  dc_valid s (m_idx a) && (dc_tag s (m_idx a) =? m_tag a).

Definition wb_needed (s : memsys) (i : Z) : bool := dc_valid s i && dc_dirty s i.

Definition write_line (m : mem) (base : Z) (d : Z -> Z) : mem :=
  fun a => if (base <=? a) && (a <? base + LINE_BYTES) then d (a - base) else m a.

Definition read_line (m : mem) (base : Z) : Z -> Z := fun o => m (base + o).

(** A miss: capture the victim, write it back when it is dirty, fill. *)
Definition writeback (s : memsys) (i : Z) : mem :=
  if wb_needed s i
  then write_line (dram s) (line_addr (dc_tag s i) i) (dc_data s i)
  else dram s.

Definition refill (s : memsys) (a : Z) : memsys :=
  let i := m_idx a in
  let t := m_tag a in
  let m := writeback s i in
  {| dc_valid := fupd (dc_valid s) i true;
     dc_tag := fupd (dc_tag s) i t;
     dc_dirty := fupd (dc_dirty s) i false;
     dc_data := fupd (dc_data s) i (read_line m (line_addr t i));
     dram := m |}.

(** What every access does first: on a miss, refill, then hit. *)
Definition ensure (s : memsys) (a : Z) : memsys := if hit s a then s else refill s a.

Definition cpu_load (a : Z) (s : memsys) : Z * memsys :=
  let s := ensure s a in
  (dc_data s (m_idx a) (m_off a), s).

Definition cpu_store (a v : Z) (s : memsys) : memsys :=
  let s := ensure s a in
  let i := m_idx a in
  {| dc_valid := dc_valid s;
     dc_tag := dc_tag s;
     dc_dirty := fupd (dc_dirty s) i true;
     dc_data := fupd (dc_data s) i (fupd (dc_data s i) (m_off a) v);
     dram := dram s |}.

(** The accelerator's line port: DRAM, behind the cache. *)
Definition dma_read (a : Z) (s : memsys) : Z := dram s a.

(** A result store: the bytes [f] over [[addr, addr + size)]. *)
Definition dma_write_range (addr size : Z) (f : Z -> Z) (s : memsys) : memsys :=
  {| dc_valid := dc_valid s; dc_tag := dc_tag s; dc_dirty := dc_dirty s;
     dc_data := dc_data s;
     dram := fun a => if (addr <=? a) && (a <? addr + size) then f a else dram s a |}.

(** ** What software sees

    [view s a] is the byte a CPU load of [a] returns; [wbval s a] is the byte
    DRAM holds once the line of [a] has been displaced.  They differ exactly
    when a clean line is resident that DRAM has since been changed under:
    [coherent] says they agree. *)

Definition view (s : memsys) (a : Z) : Z :=
  if hit s a then dc_data s (m_idx a) (m_off a) else dram s a.

Definition wbval (s : memsys) (a : Z) : Z :=
  if hit s a && dc_dirty s (m_idx a) then dc_data s (m_idx a) (m_off a) else dram s a.

Definition coherent (s : memsys) (a : Z) : Prop := view s a = wbval s a.

Definition dirty_at (s : memsys) (a : Z) : bool := hit s a && dc_dirty s (m_idx a).

Definition same_line (a b : Z) : Prop := a / LINE_BYTES = b / LINE_BYTES.

(** ** Address arithmetic *)

Context `{!DcGeomOk}.

Lemma LINE_BYTES_pos : 0 < LINE_BYTES.
Proof. apply Z.pow_pos_nonneg; [lia|apply OFF_nonneg]. Qed.

Lemma NUM_SETS_pos : 0 < NUM_SETS.
Proof. apply Z.pow_pos_nonneg; [lia|apply IDX_nonneg]. Qed.

Lemma m_off_range (a : Z) : 0 <= m_off a < LINE_BYTES.
Proof. apply Z.mod_pos_bound, LINE_BYTES_pos. Qed.

Lemma m_idx_range (a : Z) : 0 <= m_idx a < NUM_SETS.
Proof. apply Z.mod_pos_bound, NUM_SETS_pos. Qed.

Lemma line_number (a : Z) : m_tag a * NUM_SETS + m_idx a = a / LINE_BYTES.
Proof.
  unfold m_tag, m_idx. pose proof LINE_BYTES_pos. pose proof NUM_SETS_pos.
  rewrite <-Z.div_div by lia. pose proof (Z.div_mod (a / LINE_BYTES) NUM_SETS). lia.
Qed.

Lemma line_addr_decode (a : Z) : line_addr (m_tag a) (m_idx a) = a / LINE_BYTES * LINE_BYTES.
Proof. unfold line_addr. by rewrite line_number. Qed.

Lemma line_addr_off (a : Z) : line_addr (m_tag a) (m_idx a) + m_off a = a.
Proof.
  rewrite line_addr_decode. unfold m_off. pose proof LINE_BYTES_pos.
  pose proof (Z.div_mod a LINE_BYTES). lia.
Qed.

(** Two addresses are in one line iff their tag and index agree. *)
Lemma same_line_decode (a b : Z) : same_line a b <-> m_tag a = m_tag b /\ m_idx a = m_idx b.
Proof.
  unfold same_line. rewrite <-!line_number. split; [|by intros [-> ->]].
  apply radix_unique; apply m_idx_range.
Qed.

(** Which byte of which line an address is. *)
Lemma in_line (a t i : Z) :
  0 <= i < NUM_SETS ->
  (line_addr t i <=? a) && (a <? line_addr t i + LINE_BYTES) =
  (m_tag a =? t) && (m_idx a =? i).
Proof.
  intros Hi. pose proof (m_off_range a). pose proof (m_idx_range a).
  pose proof LINE_BYTES_pos. pose proof NUM_SETS_pos.
  rewrite <-(line_addr_off a) at 1 2. unfold line_addr.
  set (x := m_tag a) in *. set (y := m_idx a) in *. set (o := m_off a) in *.
  apply eq_true_iff_eq. rewrite !andb_true_iff, Z.leb_le, Z.ltb_lt, !Z.eqb_eq. split.
  - intros [Hlo Hhi].
    apply (radix_unique NUM_SETS); [done..|].
    assert ((t * NUM_SETS + i) < (x * NUM_SETS + y) + 1) by nia.
    assert ((x * NUM_SETS + y) < (t * NUM_SETS + i) + 1) by nia. lia.
  - intros [-> ->]. lia.
Qed.

(** ** Effect of a refill, byte by byte *)

Lemma writeback_spec (s : memsys) (i b : Z) :
  0 <= i < NUM_SETS ->
  writeback s i b =
  if wb_needed s i && (m_tag b =? dc_tag s i) && (m_idx b =? i)
  then dc_data s i (m_off b) else dram s b.
Proof.
  intros Hi. unfold writeback. destruct (wb_needed s i); [|done]. cbn [andb].
  unfold write_line. rewrite in_line by done.
  destruct (Z.eqb_spec (m_tag b) (dc_tag s i)) as [Ht|]; [|done].
  destruct (Z.eqb_spec (m_idx b) i) as [Hx|]; [|done]. cbn [andb].
  f_equal. rewrite <-Ht, <-Hx. pose proof (line_addr_off b). lia.
Qed.

(** A displaced victim: what the writeback leaves in DRAM is [wbval]. *)
Lemma writeback_wbval (s : memsys) (b : Z) : writeback s (m_idx b) b = wbval s b.
Proof.
  rewrite writeback_spec by apply m_idx_range. unfold wbval, hit, wb_needed.
  rewrite Z.eqb_refl, andb_true_r, (Z.eqb_sym (m_tag b)).
  by destruct (dc_valid s (m_idx b)), (dc_dirty s (m_idx b)), (dc_tag s (m_idx b) =? m_tag b).
Qed.

Lemma writeback_other (s : memsys) (i b : Z) :
  0 <= i < NUM_SETS -> m_idx b <> i -> writeback s i b = dram s b.
Proof.
  intros Hi Hb. rewrite writeback_spec by done.
  destruct (Z.eqb_spec (m_idx b) i); [done|]. by rewrite andb_false_r.
Qed.

Lemma ensure_hit (s : memsys) (a : Z) : hit (ensure s a) a = true.
Proof.
  unfold ensure. destruct (hit s a) eqn:E; [done|].
  unfold hit, refill; cbn. rewrite !fupd_eq. cbn. apply Z.eqb_refl.
Qed.

(** Which lines are resident after an access: the accessed one, and those in
    other sets that were. *)
Lemma ensure_resident (s : memsys) (a b : Z) :
  hit (ensure s a) b =
  if m_idx b =? m_idx a then m_tag b =? m_tag a else hit s b.
Proof.
  unfold ensure. destruct (hit s a) eqn:E.
  - destruct (Z.eqb_spec (m_idx b) (m_idx a)) as [Hi|]; [|done].
    unfold hit in *. rewrite Hi. apply andb_true_iff in E as [-> Ht%Z.eqb_eq].
    rewrite Ht. apply Z.eqb_sym.
  - unfold hit, refill; cbn.
    destruct (Z.eqb_spec (m_idx b) (m_idx a)) as [Hi|Hi].
    + rewrite Hi, !fupd_eq. apply Z.eqb_sym.
    + by rewrite !fupd_ne by congruence.
Qed.

(** An access never changes what displacement would put in DRAM. *)
Lemma ensure_wbval (s : memsys) (a b : Z) : wbval (ensure s a) b = wbval s b.
Proof.
  unfold ensure. destruct (hit s a) eqn:E; [done|].
  unfold wbval at 1. rewrite <-(writeback_wbval s b).
  unfold hit, refill; cbn. destruct (Z.eq_dec (m_idx b) (m_idx a)) as [Hi|Hi].
  - rewrite Hi, !fupd_eq, andb_false_r. done.
  - rewrite !fupd_ne by congruence. rewrite writeback_wbval.
    rewrite writeback_other by (apply m_idx_range || done). done.
Qed.

(** ... nor what a coherent address reads as. *)
Lemma ensure_view (s : memsys) (a b : Z) :
  coherent s b -> view (ensure s a) b = view s b /\ coherent (ensure s a) b.
Proof.
  intros Hc. assert (view (ensure s a) b = view s b) as Hv.
  - unfold ensure. destruct (hit s a) eqn:E; [done|].
    rewrite Hc, <-(writeback_wbval s b). unfold view, hit, refill; cbn.
    destruct (Z.eq_dec (m_idx b) (m_idx a)) as [Hi|Hi].
    + rewrite Hi, !fupd_eq. cbn.
      destruct (Z.eqb_spec (m_tag a) (m_tag b)) as [Ht|Ht]; [|done].
      unfold read_line. rewrite Ht, <-Hi, line_addr_off. done.
    + rewrite !fupd_ne by congruence. rewrite writeback_wbval.
      rewrite writeback_other by (apply m_idx_range || done). exact Hc.
  - split; [done|]. unfold coherent. rewrite Hv, ensure_wbval. apply Hc.
Qed.

Lemma wbval_nonresident (s : memsys) (b : Z) : hit s b = false -> wbval s b = dram s b.
Proof. unfold wbval. by intros ->. Qed.

Lemma view_nonresident (s : memsys) (b : Z) : hit s b = false -> view s b = dram s b.
Proof. unfold view. by intros ->. Qed.

Lemma coherent_nonresident (s : memsys) (b : Z) : hit s b = false -> coherent s b.
Proof. intros E. unfold coherent. by rewrite wbval_nonresident, view_nonresident. Qed.

Lemma coherent_dirty (s : memsys) (b : Z) : dirty_at s b = true -> coherent s b.
Proof.
  unfold dirty_at, coherent, view, wbval. intros E. rewrite E.
  by apply andb_true_iff in E as [-> _].
Qed.

(** ** Loads *)

Lemma cpu_load_value (s : memsys) (a : Z) : coherent s a -> (cpu_load a s).1 = view s a.
Proof.
  intros Hc. destruct (ensure_view s a a Hc) as [<- _]. unfold view. by rewrite ensure_hit.
Qed.

(** A load of a line that is not resident reads DRAM. *)
Lemma cpu_load_miss (s : memsys) (a : Z) : hit s a = false -> (cpu_load a s).1 = dram s a.
Proof.
  intros E. rewrite cpu_load_value by (by apply coherent_nonresident).
  by apply view_nonresident.
Qed.

(** ** Stores *)

Lemma cpu_store_hit (s : memsys) (a v b : Z) : hit (cpu_store a v s) b = hit (ensure s a) b.
Proof. done. Qed.

Lemma cpu_store_dirty (s : memsys) (a v b : Z) :
  dc_dirty (cpu_store a v s) (m_idx b) =
  if m_idx b =? m_idx a then true else dc_dirty (ensure s a) (m_idx b).
Proof. done. Qed.

Lemma cpu_store_data (s : memsys) (a v b : Z) :
  hit (ensure s a) b = true ->
  dc_data (cpu_store a v s) (m_idx b) (m_off b) =
  if b =? a then v else dc_data (ensure s a) (m_idx b) (m_off b).
Proof.
  intros Hb. cbn. unfold fupd at 1. destruct (Z.eqb_spec (m_idx b) (m_idx a)) as [Hi|Hi].
  - rewrite ensure_resident, Hi, Z.eqb_refl in Hb. apply Z.eqb_eq in Hb.
    unfold fupd. destruct (Z.eqb_spec b a) as [->|Hne]; [by rewrite Z.eqb_refl|].
    destruct (Z.eqb_spec (m_off b) (m_off a)) as [Ho|]; [|by rewrite Hi].
    destruct Hne. rewrite <-(line_addr_off a), <-(line_addr_off b). congruence.
  - destruct (Z.eqb_spec b a); [congruence|done].
Qed.

(** A store updates one byte of the CPU's view, keeps every coherent address
    coherent, and makes its own address coherent. *)
Lemma cpu_store_view (s : memsys) (a v b : Z) :
  coherent s b \/ b = a ->
  view (cpu_store a v s) b = (if b =? a then v else view s b) /\
  coherent (cpu_store a v s) b.
Proof.
  intros Hc.
  assert (view (cpu_store a v s) b = if b =? a then v else view s b) as Hv.
  - unfold view at 1. rewrite cpu_store_hit. destruct (hit (ensure s a) b) eqn:E.
    + rewrite cpu_store_data by done. destruct (Z.eqb_spec b a); [done|].
      destruct Hc as [Hc|]; [|done]. destruct (ensure_view s a b Hc) as [<- _].
      unfold view. by rewrite E.
    + destruct (Z.eqb_spec b a) as [->|]; [by rewrite ensure_hit in E|].
      destruct Hc as [Hc|]; [|done]. destruct (ensure_view s a b Hc) as [<- _].
      by rewrite view_nonresident.
  - split; [done|]. unfold coherent. unfold view, wbval. rewrite cpu_store_hit, cpu_store_dirty.
    destruct (hit (ensure s a) b) eqn:E; [|done].
    destruct (Z.eqb_spec (m_idx b) (m_idx a)) as [Hi|Hi]; [done|].
    assert (b <> a) by congruence. destruct Hc as [Hc|]; [|done].
    destruct (ensure_view s a b Hc) as [_ Hc']. unfold coherent, view, wbval in Hc'.
    rewrite E in Hc'. rewrite cpu_store_data by done.
    destruct (Z.eqb_spec b a); [done|]. done.
Qed.

(** A store leaves the write-back value of every other line alone. *)
Lemma cpu_store_wbval (s : memsys) (a v b : Z) :
  ~ same_line a b -> wbval (cpu_store a v s) b = wbval s b.
Proof.
  intros Hl. rewrite <-(ensure_wbval s a b). unfold wbval.
  rewrite cpu_store_hit, cpu_store_dirty. destruct (hit (ensure s a) b) eqn:E; [|done].
  rewrite cpu_store_data by done. rewrite ensure_resident in E.
  destruct (Z.eqb_spec (m_idx b) (m_idx a)) as [Hi|Hi].
  - apply Z.eqb_eq in E. destruct Hl. apply same_line_decode. done.
  - assert (b <> a) by congruence. by destruct (Z.eqb_spec b a).
Qed.

(** Loads never make a line dirty, a store only its own. *)
Lemma ensure_clean (s : memsys) (a b : Z) : dirty_at s b = false -> dirty_at (ensure s a) b = false.
Proof.
  unfold ensure, dirty_at. destruct (hit s a) eqn:Ha; [done|]. intros Hd.
  unfold refill, hit. cbn. unfold fupd.
  destruct (Z.eqb_spec (m_idx b) (m_idx a)); [by rewrite andb_false_r|exact Hd].
Qed.

Lemma cpu_store_clean (s : memsys) (a v b : Z) :
  ~ same_line a b -> dirty_at s b = false -> dirty_at (cpu_store a v s) b = false.
Proof.
  intros Hl Hd. apply (ensure_clean s a) in Hd. unfold dirty_at in *. rewrite cpu_store_hit.
  destruct (hit (ensure s a) b) eqn:Hh; [|done]. cbn in *. unfold fupd.
  destruct (Z.eqb_spec (m_idx b) (m_idx a)) as [Hi|]; [|done]. exfalso. apply Hl, same_line_decode.
  rewrite ensure_resident, Hi, Z.eqb_refl in Hh. apply Z.eqb_eq in Hh. done.
Qed.

(** ** DMA *)

Lemma dma_write_range_hit (addr size : Z) (f : Z -> Z) (s : memsys) (b : Z) :
  hit (dma_write_range addr size f s) b = hit s b.
Proof. done. Qed.

Lemma dma_write_range_wbval (addr size : Z) (f : Z -> Z) (s : memsys) (b : Z) :
  wbval (dma_write_range addr size f s) b =
  if dirty_at s b then wbval s b
  else if (addr <=? b) && (b <? addr + size) then f b else dram s b.
Proof.
  unfold wbval, dirty_at. rewrite dma_write_range_hit. cbn.
  by destruct (hit s b && dc_dirty s (m_idx b)).
Qed.

(** DMA outside the cached lines keeps every address coherent. *)
Lemma dma_write_range_coherent (addr size : Z) (f : Z -> Z) (s : memsys) (b : Z) :
  coherent s b -> ~ (addr <= b < addr + size) \/ hit s b = false ->
  coherent (dma_write_range addr size f s) b /\
  view (dma_write_range addr size f s) b =
    if (addr <=? b) && (b <? addr + size) then f b else view s b.
Proof.
  intros Hc Hr. unfold coherent, view, wbval, dma_write_range, hit in *; cbn in *.
  destruct (Z.leb_spec addr b), (Z.ltb_spec b (addr + size)); cbn; try done.
  destruct Hr as [Hr|Hr]; [lia|]. rewrite Hr. done.
Qed.
End Dcache.

#[export] Hint Resolve m_off_range m_idx_range LINE_BYTES_pos NUM_SETS_pos : soc.
