(* ===== verification/DcacheFsm.v ===== *)
(** * The data cache, clock cycle by clock cycle

    [src/src/dcache_bram.v] register by register, and the proof that it
    implements the cache of [Dcache]: every access the pipeline holds until
    [cpu_ready] ends, returns the bytes of [Dcache.cpu_load], and leaves arrays
    and DRAM as [Dcache.cpu_load] and [Dcache.cpu_store] do.

    A 32-bit word is the function of its four byte lanes, bank [b] lane [l] of
    a line is byte [4 * b + l].  What a block RAM returns for a byte that is
    written in the very cycle in which it is read is undefined in hardware; it
    is a parameter of every cycle here, so that the proof covers any value. *)

From S2P Require Import Prelude Dcache.

Inductive fsm_state : Type := S_INIT | S_IDLE | S_CAP | S_WB | S_FILL | S_RECHECK.

#[export] Instance fsm_state_eq_dec : EqDecision fsm_state.
Proof. solve_decision. Defined.

(** The arrays [d0..d3], [tagv] and [dirty] and the registers. *)
Record regs : Type := mk_regs {
  d : Z -> Z -> Z;              (* set, byte of the line *)
  tagv : Z -> bool * Z;
  dirty : Z -> bool;
  q : Z -> Z;                   (* byte of the line *)
  q_tagv : bool * Z;
  q_a_idx : Z;
  state : fsm_state;
  sweep_cnt : Z;
  miss_idx : Z;
  miss_tag : Z;
  wb_tag : Z;
  wb_line : Z -> Z;
  byp_v : bool;
  byp_word : Z;
  byp_be : Z -> bool;
  byp_data : Z -> Z;
}.

(** The CPU side of a cycle. *)
Record request : Type := mk_request {
  cpu_req_valid : bool;
  cpu_req_write : bool;
  cpu_req_addr : Z;
  cpu_wdata : Z -> Z;           (* lane *)
  cpu_wmask : Z -> bool;        (* lane *)
}.

(** The rest: reset, the lower memory's answer, and what the RAMs return where
    they are written in the same cycle. *)
Record cycle_env : Type := mk_env {
  rst : bool;
  mem_ready : bool;
  q_undef : Z -> Z;
  tagv_undef : bool * Z;
}.

Section Fsm.
Context `{DcGeom}.

Definition m_bank (a : Z) : Z := m_off a / 4.

(** ** Combinational signals *)

Definition spec_ok (s : regs) (r : request) : bool := q_a_idx s =? m_idx (cpu_req_addr r).
Definition tag_hit (s : regs) (r : request) : bool :=
  (q_tagv s).1 && ((q_tagv s).2 =? m_tag (cpu_req_addr r)) && spec_ok s r.
Definition is_state (s : regs) (x : fsm_state) : bool := bool_decide (state s = x).

Definition cpu_ready (s : regs) (r : request) : bool := is_state s S_IDLE && cpu_req_valid r && tag_hit s r.
Definition wr_hit (s : regs) (r : request) : bool :=
  is_state s S_IDLE && cpu_req_valid r && cpu_req_write r && tag_hit s r.
Definition fill_en (s : regs) (e : cycle_env) : bool := is_state s S_FILL && mem_ready e.
Definition init_en (s : regs) : bool := is_state s S_INIT.
Definition wb_now (s : regs) (r : request) : bool := (q_tagv s).1 && dirty s (m_idx (cpu_req_addr r)).

Definition waddr (s : regs) (r : request) (e : cycle_env) : Z :=
  if fill_en s e then miss_idx s else m_idx (cpu_req_addr r).
(** Byte enables and write data of the four banks. *)
Definition be (s : regs) (r : request) (e : cycle_env) (o : Z) : bool :=
  if fill_en s e then true
  else wr_hit s r && (m_bank (cpu_req_addr r) =? o / 4) && cpu_wmask r (o mod 4).
Definition wd (s : regs) (r : request) (e : cycle_env) (mem_rline : Z -> Z) (o : Z) : Z :=
  if fill_en s e then mem_rline o else cpu_wdata r (o mod 4).
Definition tagv_we (s : regs) (e : cycle_env) : bool := fill_en s e || init_en s.
Definition tagv_waddr (s : regs) : Z := if init_en s then sweep_cnt s else miss_idx s.
Definition tagv_wdata (s : regs) : bool * Z := if init_en s then (false, 0) else (true, miss_tag s).

(** Lane [l] of [cpu_rdata]: the selected bank under the store bypass. *)
Definition cpu_rdata (s : regs) (r : request) (l : Z) : Z :=
  let b := m_bank (cpu_req_addr r) in
  if byp_v s && (byp_word s =? b) && byp_be s l then byp_data s l else q s (4 * b + l).

(** The line port. *)
Definition mem_req_valid (s : regs) : bool := is_state s S_WB || is_state s S_FILL.
Definition mem_req_write (s : regs) : bool := is_state s S_WB.
Definition mem_req_addr (s : regs) : Z :=
  line_addr (if is_state s S_WB then wb_tag s else miss_tag s) (miss_idx s).

(** ** The clock edge *)

(** Next [state], [sweep_cnt], [miss_idx] and [miss_tag] out of reset. *)
Definition next_state (s : regs) (r : request) (e : cycle_env) : fsm_state * Z * Z * Z :=
  let keep st := (st, sweep_cnt s, miss_idx s, miss_tag s) in
  match state s with
  | S_INIT =>
      (if sweep_cnt s =? NUM_SETS - 1 then S_RECHECK else S_INIT,
       (sweep_cnt s + 1) mod NUM_SETS, miss_idx s, miss_tag s)
  | S_IDLE =>
      if cpu_req_valid r && negb (tag_hit s r) then
        if negb (spec_ok s r) then keep S_RECHECK
        else (S_CAP, sweep_cnt s, m_idx (cpu_req_addr r), m_tag (cpu_req_addr r))
      else keep S_IDLE
  | S_CAP => keep (if wb_now s r then S_WB else S_FILL)
  | S_WB => keep (if mem_ready e then S_FILL else S_WB)
  | S_FILL => keep (if mem_ready e then S_RECHECK else S_FILL)
  | S_RECHECK => keep S_IDLE
  end.

(** [a_idx] is the set that [cpu_req_addr_next] names. *)
Definition step (a_idx : Z) (r : request) (e : cycle_env) (mem_rline : Z -> Z) (s : regs) : regs :=
  let '(st, sw, mi, mt) := if rst e then (S_INIT, 0, 0, 0) else next_state s r e in
  let cap := is_state s S_CAP && negb (rst e) in
  {| d := fun i o => if (i =? waddr s r e) && be s r e o then wd s r e mem_rline o else d s i o;
     tagv := if tagv_we s e then fupd (tagv s) (tagv_waddr s) (tagv_wdata s) else tagv s;
     dirty := if fill_en s e then fupd (dirty s) (miss_idx s) false
              else if wr_hit s r then fupd (dirty s) (m_idx (cpu_req_addr r)) true else dirty s;
     q := fun o => if (a_idx =? waddr s r e) && be s r e o then q_undef e o else d s a_idx o;
     q_tagv := if tagv_we s e && (a_idx =? tagv_waddr s) then tagv_undef e else tagv s a_idx;
     q_a_idx := a_idx;
     state := st; sweep_cnt := sw; miss_idx := mi; miss_tag := mt;
     wb_tag := if cap then (q_tagv s).2 else wb_tag s;
     wb_line := if cap then q s else wb_line s;
     byp_v := negb (rst e) && (wr_hit s r && negb (fill_en s e) && (m_idx (cpu_req_addr r) =? a_idx));
     byp_word := if rst e then byp_word s else m_bank (cpu_req_addr r);
     byp_be := if rst e then byp_be s else cpu_wmask r;
     byp_data := if rst e then byp_data s else cpu_wdata r |}.

(** The cache with the memory behind its line port: a write is done, a read is
    answered, in the cycle in which [mem_ready] is up. *)
Definition clock (a_idx : Z) (r : request) (e : cycle_env) (sm : regs * mem) : regs * mem :=
  let '(s, m) := sm in
  (step a_idx r e (read_line m (mem_req_addr s)) s,
   if mem_req_write s && mem_ready e then write_line m (mem_req_addr s) (wb_line s) else m).

(** An access, as the pipeline makes it: the request is held, with the arrays
    addressed from it, until [cpu_ready]; in that cycle the arrays are addressed
    for the next one.  [env t] is the rest of cycle [t]. *)
Fixpoint access (env : nat -> cycle_env) (fuel t : nat) (r : request) (nxt : Z) (sm : regs * mem)
    : option ((Z -> Z) * nat * (regs * mem)) :=
  match fuel with
  | O => None
  | S fuel =>
      if cpu_ready sm.1 r then Some (cpu_rdata sm.1 r, S t, clock nxt r (env t) sm)
      else access env fuel (S t) r nxt (clock (m_idx (cpu_req_addr r)) r (env t) sm)
  end.

(** What happens to cache and memory: an access, a cycle without one, a store
    of the accelerator behind the cache. *)
Inductive event : Type :=
  | Access (r : request) (nxt : Z)
  | Idle (r : request) (nxt : Z)
  | Dma (addr size : Z) (f : Z -> Z).

(** The four bytes of a load. *)
Definition word (f : Z -> Z) : list Z := [f 0; f 1; f 2; f 3].
Definition loaded (r : request) (f : Z -> Z) : list (list Z) := if cpu_req_write r then [] else [word f].

Fixpoint run (env : nat -> cycle_env) (fuel t : nat) (evs : list event) (sm : regs * mem)
    : option (list (list Z) * (regs * mem)) :=
  match evs with
  | [] => Some ([], sm)
  | Access r nxt :: evs =>
      '(f, t, sm) ← access env fuel t r nxt sm;
      '(out, sm) ← run env fuel t evs sm;
      Some (loaded r f ++ out, sm)
  | Idle r nxt :: evs => run env fuel (S t) evs (clock nxt r (env t) sm)
  | Dma addr size f :: evs => run env fuel t evs (sm.1, fun a => if (addr <=? a) && (a <? addr + size) then f a else sm.2 a)
  end.

(** Reset, then cycles with the requests [rq] and the array addresses [ix]. *)
Fixpoint cycles (env : nat -> cycle_env) (rq : nat -> request) (ix : nat -> Z) (n t : nat) (sm : regs * mem)
    : regs * mem :=
  match n with
  | O => sm
  | S n => cycles env rq ix n (S t) (clock (ix t) (rq t) (env t) sm)
  end.
End Fsm.

(** ** The specification

    The same events on the cache of [Dcache], byte by byte. *)

Section Spec.
Context `{DcGeom}.

Definition word_addr (a : Z) : Z := 4 * (a / 4).

Fixpoint load_bytes (wa : Z) (ls : list Z) (x : memsys) : list Z * memsys :=
  match ls with
  | [] => ([], x)
  | l :: ls =>
      let '(b, x) := cpu_load (wa + l) x in
      let '(bs, x) := load_bytes wa ls x in
      (b :: bs, x)
  end.

Definition store_bytes (wa : Z) (mask : Z -> bool) (v : Z -> Z) (ls : list Z) (x : memsys) : memsys :=
  fold_left (fun x l => if mask l then cpu_store (wa + l) (v l) x else x) ls x.

Definition lanes : list Z := [0; 1; 2; 3].

Definition byte_access (r : request) (x : memsys) : list (list Z) * memsys :=
  if cpu_req_write r
  then ([], store_bytes (word_addr (cpu_req_addr r)) (cpu_wmask r) (cpu_wdata r) lanes x)
  else let '(bs, x) := load_bytes (word_addr (cpu_req_addr r)) lanes x in ([bs], x).

Fixpoint spec_run (evs : list event) (x : memsys) : list (list Z) * memsys :=
  match evs with
  | [] => ([], x)
  | Access r _ :: evs =>
      let '(out, x') := spec_run evs (byte_access r x).2 in ((byte_access r x).1 ++ out, x')
  | Idle _ _ :: evs => spec_run evs x
  | Dma addr size f :: evs => spec_run evs (dma_write_range addr size f x)
  end.

(** An access requests, and a store has a byte to store; idle cycles do not
    request. *)
Definition event_ok (e : event) : Prop :=
  match e with
  | Access r _ => cpu_req_valid r = true /\ (cpu_req_write r = true -> existsb (cpu_wmask r) lanes = true)
  | Idle r _ => cpu_req_valid r = false
  | Dma _ _ _ => True
  end.

(** The word access [r] on the cache of [Dcache]: the bytes of the word and the
    cache afterwards. *)
Definition word_access (r : request) (x : memsys) : (Z -> Z) * memsys :=
  let a := cpu_req_addr r in
  let i := m_idx a in
  let x := ensure x a in
  (fun l => dc_data x i (4 * m_bank a + l),
   if cpu_req_write r then
     {| dc_valid := dc_valid x;
        dc_tag := dc_tag x;
        dc_dirty := fupd (dc_dirty x) i true;
        dc_data := fupd (dc_data x) i (fun o =>
          if (m_bank a =? o / 4) && cpu_wmask r (o mod 4) then cpu_wdata r (o mod 4) else dc_data x i o);
        dram := dram x |}
   else x).

(** The arrays hold what [x] says, line by line; the lines that are not valid
    hold anything. *)
Definition arrays (s : regs) (x : memsys) : Prop :=
  forall i, 0 <= i < NUM_SETS ->
    dc_valid x i = (tagv s i).1 /\
    (dc_valid x i = true -> dc_tag x i = (tagv s i).2 /\ dc_dirty x i = dirty s i /\
       forall o, 0 <= o < LINE_BYTES -> dc_data x i o = d s i o).

Definition abs (sm : regs * mem) (x : memsys) : Prop := arrays sm.1 x /\ forall a, sm.2 a = dram x a.

(** The output registers hold the set they were addressed with, up to the
    bypass. *)
Definition fresh (s : regs) : Prop :=
  q_tagv s = tagv s (q_a_idx s) /\
  forall o, 0 <= o < LINE_BYTES -> d s (q_a_idx s) o =
    if byp_v s && (byp_word s =? o / 4) && byp_be s (o mod 4) then byp_data s (o mod 4) else q s o.

(** Between accesses. *)
Definition at_rest (sm : regs * mem) (x : memsys) : Prop :=
  state sm.1 = S_IDLE /\ fresh sm.1 /\ abs sm x.
End Spec.

Section Proofs.
Context `{DcGeom} `{!DcGeomOk}.
Hypothesis four_banks : LINE_BYTES = 16.

Variable env : nat -> cycle_env.
Hypothesis no_reset : forall t, rst (env t) = false.
Hypothesis mem_answers : forall t, exists k, mem_ready (env (t + k)) = true.

Lemma is_state_true (s : regs) (st : fsm_state) : state s = st -> is_state s st = true.
Proof. unfold is_state. intros ->. by apply bool_decide_eq_true_2. Qed.
Lemma is_state_false (s : regs) (st : fsm_state) : state s <> st -> is_state s st = false.
Proof. unfold is_state. intros Hs. by apply bool_decide_eq_false_2. Qed.

(** A cycle that writes no array. *)
Record quiet (s : regs) (r : request) (e : cycle_env) : Prop := {
  no_fill : fill_en s e = false;
  no_store : wr_hit s r = false;
  no_init : init_en s = false;
}.

Lemma quiet_be (s : regs) (r : request) (e : cycle_env) (o : Z) : quiet s r e -> be s r e o = false.
Proof. intros [Hf Hw _]. unfold be. by rewrite Hf, Hw. Qed.

Lemma quiet_step (a_idx : Z) (r : request) (e : cycle_env) (l : Z -> Z) (s : regs) :
  quiet s r e -> rst e = false ->
  let s' := step a_idx r e l s in
  (forall x, arrays s x -> arrays s' x) /\ fresh s' /\ q_a_idx s' = a_idx /\ byp_v s' = false /\
  q_tagv s' = tagv s a_idx /\ (forall o, q s' o = d s a_idx o) /\ dirty s' = dirty s /\
  (state s', miss_idx s', miss_tag s') =
    ((next_state s r e).1.1.1, (next_state s r e).1.2, (next_state s r e).2).
Proof.
  intros Hq Hr s'. pose proof (quiet_be s r e) as Hbe. destruct Hq as [Hf Hw Hi].
  assert (forall i o, d s' i o = d s i o) as Ed.
  { intros i o. unfold s', step. destruct (rst e), (next_state s r e) as [[[? ?] ?] ?]; cbn; rewrite Hbe, andb_false_r; done. }
  assert (tagv s' = tagv s /\ dirty s' = dirty s /\ q_tagv s' = tagv s a_idx /\ q_a_idx s' = a_idx /\ byp_v s' = false)
    as (Et & Edi & Eqt & Eqa & Eb).
  { unfold s', step, tagv_we. rewrite Hf, Hw, Hi, Hr. destruct (next_state s r e) as [[[? ?] ?] ?]; cbn. done. }
  assert (forall o, q s' o = d s a_idx o) as Eq.
  { intros o. unfold s', step. rewrite Hr. destruct (next_state s r e) as [[[? ?] ?] ?]; cbn. by rewrite Hbe, andb_false_r. }
  split_and!; try done.
  - intros x Hx i Hi'. rewrite Et, Edi. destruct (Hx i Hi') as [Hv Hrest]. split; [done|].
    intros Hval. destruct (Hrest Hval) as (-> & -> & Ho). split_and!; [done..|]. intros o Ho'. rewrite Ed. by apply Ho.
  - split; [by rewrite Eqt, Et, Eqa|]. intros o Ho. by rewrite Ed, Eqa, Eb, Eq.
  - unfold s', step. rewrite Hr. by destruct (next_state s r e) as [[[? ?] ?] ?].
Qed.

Lemma quiet_state (s : regs) (r : request) (e : cycle_env) :
  state s <> S_INIT -> state s <> S_IDLE -> (state s = S_FILL -> mem_ready e = false) -> quiet s r e.
Proof.
  intros H1 H2 H3. split; unfold fill_en, wr_hit, init_en.
  - destruct (fsm_state_eq_dec (state s) S_FILL) as [E|E]; [by rewrite H3, andb_false_r|by rewrite is_state_false].
  - by rewrite (is_state_false s S_IDLE).
  - by rewrite (is_state_false s S_INIT).
Qed.

Lemma quiet_idle (s : regs) (r : request) (e : cycle_env) : state s = S_IDLE -> wr_hit s r = false -> quiet s r e.
Proof.
  intros Hs Hw. split; [|done|]; unfold fill_en, init_en; rewrite is_state_false; [done|by rewrite Hs|done|by rewrite Hs].
Qed.

(** Under a confirmed speculation the tag compare is the abstract hit. *)
Lemma tag_hit_abs (s : regs) (r : request) (x : memsys) :
  fresh s -> arrays s x -> spec_ok s r = true -> tag_hit s r = hit x (cpu_req_addr r).
Proof.
  intros [Hq _] Hx Hs. unfold tag_hit, hit. rewrite Hs, andb_true_r, Hq.
  unfold spec_ok in Hs. apply Z.eqb_eq in Hs. rewrite Hs.
  destruct (Hx (m_idx (cpu_req_addr r)) (m_idx_range _)) as [<- Hv].
  destruct (dc_valid x (m_idx (cpu_req_addr r))); [|done]. by destruct (Hv eq_refl) as [-> _].
Qed.

Lemma bank_range (a : Z) : 0 <= m_bank a < 4.
Proof. unfold m_bank. pose proof (m_off_range a) as Ho. rewrite four_banks in Ho. divlia. Qed.

(** ** One access of the pipeline *)

Section Access.
Variable r : request.
Hypothesis valid : cpu_req_valid r = true.
Let a : Z := cpu_req_addr r.
Let i : Z := m_idx a.

(** The hit cycle: data out, store in, and the arrays addressed for whatever
    comes next. *)
Lemma hit_cycle (nxt : Z) (e : cycle_env) (sm : regs * mem) (x : memsys) :
  rst e = false -> at_rest sm x -> cpu_ready sm.1 r = true ->
  (forall l, 0 <= l < 4 -> cpu_rdata sm.1 r l = (word_access r x).1 l) /\
  at_rest (clock nxt r e sm) (word_access r x).2.
Proof.
  intros He (Hst & Hf & Hx & Hm) Hr. destruct sm as [s m]. cbn [fst snd] in *.
  assert (tag_hit s r = true) as Hth by (unfold cpu_ready in Hr; by apply andb_true_iff in Hr as [_ ?]).
  assert (spec_ok s r = true) as Hsp by (unfold tag_hit in Hth; by apply andb_true_iff in Hth as [_ ?]).
  assert (hit x a = true) as Hh by (unfold a; by rewrite <-(tag_hit_abs s r x)).
  assert (ensure x a = x) as Een by (unfold ensure; by rewrite Hh).
  pose proof (m_idx_range a) as Hi. fold i in Hi.
  destruct (Hx i Hi) as [Hv Hrest]. assert (dc_valid x i = true) as Hval by (unfold hit in Hh; by apply andb_true_iff in Hh as [? _]).
  destruct (Hrest Hval) as (Htag & Hdi & Hdat). pose proof (bank_range a) as Hb.
  assert (q_a_idx s = i) as Eqa by (unfold spec_ok in Hsp; by apply Z.eqb_eq in Hsp).
  split.
  - intros l Hl. unfold word_access. fold a i. rewrite Een. cbn [fst].
    assert ((4 * m_bank a + l) / 4 = m_bank a /\ (4 * m_bank a + l) mod 4 = l) as [E1 E2] by (split; divlia).
    destruct Hf as [_ Hf]. rewrite Hdat, <-Eqa, Hf by (rewrite four_banks; lia). unfold cpu_rdata. fold a. by rewrite E1, E2.
  - assert (fill_en s e = false) as Hfe by (unfold fill_en; rewrite is_state_false; [done|by rewrite Hst]).
    assert (init_en s = false) as Hie by (unfold init_en; rewrite is_state_false; [done|by rewrite Hst]).
    assert (wr_hit s r = cpu_req_write r) as Hw.
    { unfold wr_hit. rewrite (is_state_true s S_IDLE), valid, Hth by done. by destruct (cpu_req_write r). }
    assert (next_state s r e = (S_IDLE, sweep_cnt s, miss_idx s, miss_tag s)) as Hn.
    { unfold next_state. by rewrite Hst, valid, Hth. }
    assert (mem_req_write s = false) as Hmw by (unfold mem_req_write; rewrite is_state_false; [done|by rewrite Hst]).
    unfold word_access. fold a i. rewrite Een. cbn [fst snd clock]. rewrite Hmw. cbn [andb].
    set (s' := step nxt r e _ s).
    assert (state s' = S_IDLE) as Est by (unfold s', step; by rewrite He, Hn).
    assert (tagv s' = tagv s /\ q_tagv s' = tagv s nxt /\ q_a_idx s' = nxt) as (Et & Eqt & Eqn).
    { unfold s', step, tagv_we. rewrite He, Hn, Hfe, Hie. done. }
    assert (forall k o, d s' k o = if (k =? i) && cpu_req_write r && (m_bank a =? o / 4) && cpu_wmask r (o mod 4)
      then cpu_wdata r (o mod 4) else d s k o) as Ed.
    { intros k o. unfold s', step. rewrite He, Hn. cbn. unfold be, wd, waddr. rewrite Hfe, Hw. fold a i.
      by rewrite !andb_assoc. }
    unfold at_rest, fresh, abs. cbn [fst snd]. split; [exact Est|]. split; [split|split].
    + by rewrite Eqt, Et, Eqn.
    + intros o Ho. rewrite Eqn, Ed. unfold s', step. rewrite He, Hn. cbn. unfold be, wd, waddr. rewrite Hfe, Hw. fold a i.
      rewrite (Z.eqb_sym i nxt).
      destruct (cpu_req_write r), (nxt =? i), (m_bank a =? o / 4), (cpu_wmask r (o mod 4)); done.
    + intros k Hk. cbn [fst]. rewrite Et. destruct (Hx k Hk) as [Hvk Hrk].
      assert (dirty s' = if cpu_req_write r then fupd (dirty s) i true else dirty s) as Edi.
      { unfold s', step. rewrite He, Hn, Hfe, Hw. done. }
      rewrite Edi. destruct (cpu_req_write r) eqn:Ew; cbn [dc_valid dc_tag dc_dirty dc_data]; (split; [done|]); intros Hvt;
        destruct (Hrk Hvt) as (-> & Hd & Ho); (split; [done|]).
      * destruct (Z.eqb_spec k i) as [->|Hne].
        -- rewrite !fupd_eq. split; [done|]. intros o Ho'. rewrite Ed, Z.eqb_refl. cbn [andb]. by rewrite Hdat.
        -- rewrite !fupd_ne by done. split; [done|]. intros o Ho'. rewrite Ed. destruct (Z.eqb_spec k i); [done|]. by apply Ho.
      * split; [done|]. intros o Ho'. rewrite Ed, andb_false_r. by apply Ho.
    + intros b. cbn [snd]. rewrite Hm. by destruct (cpu_req_write r).
Qed.

(** The states of a miss, with the cache [x] that was missed in. *)
Definition missed (sm : regs * mem) (x : memsys) : Prop :=
  hit x a = false /\ miss_idx sm.1 = i /\ miss_tag sm.1 = m_tag a /\ arrays sm.1 x.

Definition capturing (sm : regs * mem) (x : memsys) : Prop :=
  state sm.1 = S_CAP /\ missed sm x /\ (forall b, sm.2 b = dram x b) /\
  q_tagv sm.1 = tagv sm.1 i /\ (forall o, 0 <= o < LINE_BYTES -> q sm.1 o = d sm.1 i o).

Definition writing_back (sm : regs * mem) (x : memsys) : Prop :=
  state sm.1 = S_WB /\ missed sm x /\ (forall b, sm.2 b = dram x b) /\ wb_needed x i = true /\
  wb_tag sm.1 = dc_tag x i /\ (forall o, 0 <= o < LINE_BYTES -> wb_line sm.1 o = dc_data x i o).

Definition filling (sm : regs * mem) (x : memsys) : Prop :=
  state sm.1 = S_FILL /\ missed sm x /\ (forall b, sm.2 b = writeback x i b).

Lemma idx_range : 0 <= i < NUM_SETS.
Proof. apply m_idx_range. Qed.

(** The quiet cycles of a held request. *)
Lemma held_quiet (e : cycle_env) (s : regs) (m : mem) :
  quiet s r e -> rst e = false -> mem_req_write s && mem_ready e = false ->
  exists s', clock i r e (s, m) = (s', m) /\ (forall x, arrays s x -> arrays s' x) /\ fresh s' /\ q_a_idx s' = i /\
    byp_v s' = false /\ q_tagv s' = tagv s' i /\ (forall o, 0 <= o < LINE_BYTES -> q s' o = d s' i o) /\
    (state s', miss_idx s', miss_tag s') =
      ((next_state s r e).1.1.1, (next_state s r e).1.2, (next_state s r e).2) /\
    (wb_tag s', wb_line s') = (if is_state s S_CAP then ((q_tagv s).2, q s) else (wb_tag s, wb_line s)).
Proof.
  intros Hq He Hw. set (s' := step i r e (read_line m (mem_req_addr s)) s). exists s'.
  destruct (quiet_step i r e (read_line m (mem_req_addr s)) s Hq He) as (Hx & Hf & Hqa & Hb & Hqt & Hqd & _ & Hst).
  fold s' in Hx, Hf, Hqa, Hb, Hqt, Hqd, Hst. split_and!; try done.
  - unfold clock. by rewrite Hw.
  - destruct Hf as [-> _]. by rewrite Hqa.
  - intros o Ho. destruct Hf as [_ Hf]. specialize (Hf o Ho). rewrite Hb, Hqa in Hf. by rewrite Hf.
  - unfold s', step. rewrite He. destruct (next_state s r e) as [[[? ?] ?] ?]; cbn. by destruct (is_state s S_CAP).
Qed.

Lemma no_write_req (e : cycle_env) (s : regs) : state s <> S_WB -> mem_req_write s && mem_ready e = false.
Proof. intros Hs. unfold mem_req_write. by rewrite is_state_false. Qed.

Lemma recheck_cycle (e : cycle_env) (sm : regs * mem) (x : memsys) :
  rst e = false -> state sm.1 = S_RECHECK -> abs sm x ->
  at_rest (clock i r e sm) x /\ spec_ok (clock i r e sm).1 r = true.
Proof.
  intros He Hs [Hx Hm]. destruct sm as [s m]. cbn [fst snd] in *.
  destruct (held_quiet e s m) as (s' & -> & Hx' & Hf & Hqa & _ & _ & _ & Hst & _);
    [apply quiet_state; by rewrite Hs|done|apply no_write_req; by rewrite Hs|].
  unfold next_state in Hst. rewrite Hs in Hst. injection Hst as Hst _ _.
  split; [split; [done|split; [done|split; [by apply Hx'|done]]]|]. unfold spec_ok. cbn [fst]. rewrite Hqa. apply Z.eqb_refl.
Qed.

Lemma respec_cycle (e : cycle_env) (sm : regs * mem) (x : memsys) :
  rst e = false -> at_rest sm x -> spec_ok sm.1 r = false ->
  state (clock i r e sm).1 = S_RECHECK /\ abs (clock i r e sm) x.
Proof.
  intros He (Hs & _ & Hx & Hm) Hsp. destruct sm as [s m]. cbn [fst snd] in *.
  assert (tag_hit s r = false) as Hth by (unfold tag_hit; rewrite Hsp; apply andb_false_r).
  destruct (held_quiet e s m) as (s' & -> & Hx' & _ & _ & _ & _ & _ & Hst & _);
    [apply quiet_idle; [done|unfold wr_hit; rewrite Hth; apply andb_false_r]|done|apply no_write_req; by rewrite Hs|].
  unfold next_state in Hst. rewrite Hs, valid, Hth, Hsp in Hst. injection Hst as Hst _ _.
  split; [done|]. split; [by apply Hx'|done].
Qed.

Lemma miss_cycle (e : cycle_env) (sm : regs * mem) (x : memsys) :
  rst e = false -> at_rest sm x -> spec_ok sm.1 r = true -> hit x a = false -> capturing (clock i r e sm) x.
Proof.
  intros He (Hs & Hf & Hx & Hm) Hsp Hh. destruct sm as [s m]. cbn [fst snd] in *.
  assert (tag_hit s r = false) as Hth by (rewrite (tag_hit_abs s r x) by done; exact Hh).
  destruct (held_quiet e s m) as (s' & -> & Hx' & _ & _ & _ & Hqt & Hqd & Hst & _);
    [apply quiet_idle; [done|unfold wr_hit; rewrite Hth; apply andb_false_r]|done|apply no_write_req; by rewrite Hs|].
  unfold next_state in Hst. rewrite Hs, valid, Hth, Hsp in Hst. injection Hst as Hst Hmi Hmt.
  split; [done|]. split; [|by split_and!]. split; [done|]. split; [done|]. split; [done|]. by apply Hx'.
Qed.

(** The victim is captured, and written back if it has to be. *)
Lemma capture_cycle (e : cycle_env) (sm : regs * mem) (x : memsys) :
  rst e = false -> capturing sm x ->
  if wb_needed x i then writing_back (clock i r e sm) x else filling (clock i r e sm) x.
Proof.
  intros He (Hs & (Hh & Hmi & Hmt & Hx) & Hm & Hqt & Hqd). destruct sm as [s m]. cbn [fst snd] in *.
  destruct (held_quiet e s m) as (s' & -> & Hx' & _ & _ & _ & _ & _ & Hst & Hwb);
    [apply quiet_state; by rewrite Hs|done|apply no_write_req; by rewrite Hs|].
  unfold next_state in Hst. rewrite Hs in Hst. rewrite (is_state_true s S_CAP Hs) in Hwb.
  injection Hwb as Hwt Hwl. destruct (Hx i idx_range) as [Hv Hrest].
  assert (wb_now s r = wb_needed x i) as Ewb.
  { unfold wb_now, wb_needed. fold a i. rewrite Hqt, Hv. destruct (tagv s i).1 eqn:E; [|done].
    by destruct (Hrest Hv) as (_ & -> & _). }
  rewrite Ewb in Hst. injection Hst as Hst Hmi' Hmt'. assert (missed (s', m) x) as Hmiss.
  { split; [done|]. cbn [fst]. rewrite Hmi', Hmt'. split; [done|]. split; [done|]. by apply Hx'. }
  destruct (wb_needed x i) eqn:Ew.
  - split; [done|]. split; [done|]. split; [done|]. split; [done|]. cbn [fst].
    assert (dc_valid x i = true) as Hval by (unfold wb_needed in Ew; by apply andb_true_iff in Ew as [? _]).
    destruct (Hrest Hval) as (Ht & _ & Ho). rewrite Hwt, Hwl, Hqt. split; [done|]. intros o Ho'. by rewrite Hqd, Ho.
  - split; [done|]. split; [done|]. intros b. unfold writeback. by rewrite Ew.
Qed.

(** The write-back waits for the memory and then leaves [writeback x i] there. *)
Lemma wb_cycle (e : cycle_env) (sm : regs * mem) (x : memsys) :
  rst e = false -> writing_back sm x ->
  if mem_ready e then filling (clock i r e sm) x else writing_back (clock i r e sm) x.
Proof.
  intros He (Hs & (Hh & Hmi & Hmt & Hx) & Hm & Hw & Hwt & Hwl). destruct sm as [s m]. cbn [fst snd] in *.
  set (s' := step i r e (read_line m (mem_req_addr s)) s).
  destruct (quiet_step i r e (read_line m (mem_req_addr s)) s) as (Hx' & _ & _ & _ & _ & _ & _ & Hst);
    [apply quiet_state; by rewrite Hs|done|]. fold s' in Hx', Hst.
  assert ((wb_tag s', wb_line s') = (wb_tag s, wb_line s)) as Hwb.
  { unfold s', step. rewrite He. destruct (next_state s r e) as [[[? ?] ?] ?]; cbn.
    by rewrite (is_state_false s S_CAP) by (by rewrite Hs). }
  injection Hwb as Hwt' Hwl'. unfold next_state in Hst. rewrite Hs in Hst.
  assert (mem_req_write s = true) as Hmw by (unfold mem_req_write; by apply is_state_true).
  unfold clock. fold s'. rewrite Hmw. cbn [andb]. destruct (mem_ready e); injection Hst as Hst Hmi' Hmt'.
  - split; [done|]. split; [split; [done|]; cbn [fst]; rewrite Hmi', Hmt'; split_and!; [done..|by apply Hx']|].
    intros b. cbn [snd]. unfold writeback. rewrite Hw. unfold mem_req_addr. rewrite (is_state_true s S_WB) by done.
    rewrite Hwt, Hmi. unfold write_line. destruct (_ && _) eqn:Eb; [|apply Hm]. apply Hwl. zbool; (done || lia).
  - split; [done|]. split; [split; [done|]; cbn [fst]; rewrite Hmi', Hmt'; split_and!; [done..|by apply Hx']|].
    split; [done|]. split; [done|]. cbn [fst]. rewrite Hwt', Hwl'. done.
Qed.

(** The fill waits for the memory and then leaves the arrays of [refill]. *)
Lemma fill_cycle (e : cycle_env) (sm : regs * mem) (x : memsys) :
  rst e = false -> filling sm x ->
  if mem_ready e then state (clock i r e sm).1 = S_RECHECK /\ abs (clock i r e sm) (refill x a)
  else filling (clock i r e sm) x.
Proof.
  intros He (Hs & (Hh & Hmi & Hmt & Hx) & Hm). destruct sm as [s m]. cbn [fst snd] in *.
  destruct (mem_ready e) eqn:Er.
  - assert (fill_en s e = true) as Hfe by (unfold fill_en; by rewrite (is_state_true s S_FILL), Er).
    assert (init_en s = false) as Hie by (unfold init_en; rewrite is_state_false; [done|by rewrite Hs]).
    assert (next_state s r e = (S_RECHECK, sweep_cnt s, miss_idx s, miss_tag s)) as Hn
      by (unfold next_state; by rewrite Hs, Er).
    unfold clock. rewrite no_write_req by (by rewrite Hs). set (s' := step i r e _ s).
    assert (state s' = S_RECHECK) as Est by (unfold s', step; by rewrite He, Hn).
    assert (tagv s' = fupd (tagv s) i (true, m_tag a) /\ dirty s' = fupd (dirty s) i false) as [Et Edi].
    { unfold s', step, tagv_we, tagv_waddr, tagv_wdata. rewrite He, Hn, Hfe, Hie, Hmi, Hmt. done. }
    assert (forall k o, d s' k o = if k =? i then m (line_addr (m_tag a) i + o) else d s k o) as Ed.
    { intros k o. unfold s', step. rewrite He, Hn. cbn. unfold be, wd, waddr. rewrite Hfe, andb_true_r, Hmi.
      unfold mem_req_addr, read_line. rewrite (is_state_false s S_WB), Hmt, Hmi by (by rewrite Hs). done. }
    split; [done|]. split; [|intros b; cbn [snd]; rewrite Hm; done].
    intros k Hk. cbn [fst]. rewrite Et, Edi. unfold refill. fold i. cbn [dc_valid dc_tag dc_dirty dc_data].
    destruct (Z.eqb_spec k i) as [->|Hne].
    + rewrite !fupd_eq. split; [done|]. intros _. split; [done|]. split; [done|]. intros o Ho.
      rewrite Ed, Z.eqb_refl. unfold read_line. by rewrite Hm.
    + rewrite !fupd_ne by done. destruct (Hx k Hk) as [Hv Hrest]. split; [done|]. intros Hval.
      destruct (Hrest Hval) as (-> & -> & Ho). split; [done|]. split; [done|]. intros o Ho'. rewrite Ed.
      destruct (Z.eqb_spec k i); [done|]. by apply Ho.
  - destruct (held_quiet e s m) as (s' & -> & Hx' & _ & _ & _ & _ & _ & Hst & _);
      [apply quiet_state; by rewrite Hs|done|apply no_write_req; by rewrite Hs|].
    unfold next_state in Hst. rewrite Hs, Er in Hst. injection Hst as Hst Hmi' Hmt'.
    split; [done|]. split; [split; [done|]; cbn [fst]; rewrite Hmi', Hmt'; split_and!; [done..|by apply Hx']|]. done.
Qed.

(** ** The access ends *)

Variable nxt : Z.

(** Cycles of the held request, none of them the ready one. *)
Definition leads (t : nat) (sm : regs * mem) (t' : nat) (sm' : regs * mem) : Prop :=
  exists n, forall f, access env (n + f) t r nxt sm = access env f t' r nxt sm'.

Lemma leads_refl (t : nat) (sm : regs * mem) : leads t sm t sm.
Proof. by exists O. Qed.

Lemma leads_trans (t1 t2 t3 : nat) (sm1 sm2 sm3 : regs * mem) :
  leads t1 sm1 t2 sm2 -> leads t2 sm2 t3 sm3 -> leads t1 sm1 t3 sm3.
Proof. intros [n1 H1] [n2 H2]. exists (n1 + n2)%nat. intros f. by rewrite <-Nat.add_assoc, H1. Qed.

Lemma leads_cycle (t : nat) (sm : regs * mem) :
  cpu_ready sm.1 r = false -> leads t sm (S t) (clock i r (env t) sm).
Proof. intros Hr. exists 1%nat. intros f. cbn [Nat.add access]. by rewrite Hr. Qed.

Lemma busy_cycle (t : nat) (sm : regs * mem) :
  state sm.1 <> S_IDLE -> leads t sm (S t) (clock i r (env t) sm).
Proof. intros Hs. apply leads_cycle. unfold cpu_ready. by rewrite is_state_false. Qed.

(** A state that is left when the memory answers. *)
Lemma leads_wait (P Q : regs * mem -> Prop) (t : nat) (sm : regs * mem) :
  (forall sm e, rst e = false -> P sm -> if mem_ready e then Q (clock i r e sm) else P (clock i r e sm)) ->
  (forall sm, P sm -> state sm.1 <> S_IDLE) -> P sm ->
  exists t' sm', leads t sm t' sm' /\ Q sm'.
Proof.
  intros Hstep Hbusy. destruct (mem_answers t) as [k Hk]. revert t sm Hk.
  induction k as [|k IH]; intros t sm Hk HP; pose proof (Hstep sm (env t) (no_reset t) HP) as Hs;
    destruct (mem_ready (env t)) eqn:Er.
  1, 3: exists (S t), (clock i r (env t) sm); split; [by apply busy_cycle, Hbusy|done].
  - rewrite Nat.add_0_r in Hk. congruence.
  - destruct (IH (S t) (clock i r (env t) sm)) as (t' & sm' & L & HQ); [by rewrite Nat.add_succ_comm|done|].
    exists t', sm'. split; [|done]. eapply leads_trans; [apply busy_cycle; by apply Hbusy|exact L].
Qed.

Lemma leads_recheck (t : nat) (sm : regs * mem) (x : memsys) :
  state sm.1 = S_RECHECK -> abs sm x ->
  exists t' sm', leads t sm t' sm' /\ at_rest sm' x /\ spec_ok sm'.1 r = true.
Proof.
  intros Hs Hx. exists (S t), (clock i r (env t) sm). split; [apply busy_cycle; by rewrite Hs|].
  by apply recheck_cycle.
Qed.

(** The rest of a miss, from each of its states. *)
Definition refilled (t : nat) (sm : regs * mem) (x : memsys) : Prop :=
  exists t' sm', leads t sm t' sm' /\ at_rest sm' (refill x a) /\ spec_ok sm'.1 r = true.

Lemma refilled_trans (t1 t2 : nat) (sm1 sm2 : regs * mem) (x : memsys) :
  leads t1 sm1 t2 sm2 -> refilled t2 sm2 x -> refilled t1 sm1 x.
Proof. intros L (t' & sm' & L' & H'). exists t', sm'. split; [by eapply leads_trans|done]. Qed.

Lemma leads_filling (t : nat) (sm : regs * mem) (x : memsys) : filling sm x -> refilled t sm x.
Proof.
  intros Hfill.
  destruct (leads_wait (fun sm => filling sm x) (fun sm => state sm.1 = S_RECHECK /\ abs sm (refill x a)) t sm
    (fun sm e He => fill_cycle e sm x He)) as (t1 & sm1 & L & Hs & Hx); [by intros ? [-> _]|exact Hfill|].
  apply (refilled_trans _ _ _ _ _ L). by apply leads_recheck.
Qed.

Lemma leads_writing (t : nat) (sm : regs * mem) (x : memsys) : writing_back sm x -> refilled t sm x.
Proof.
  intros Hw.
  destruct (leads_wait (fun sm => writing_back sm x) (fun sm => filling sm x) t sm
    (fun sm e He => wb_cycle e sm x He)) as (t1 & sm1 & L & Hfill); [by intros ? [-> _]|exact Hw|].
  by apply (refilled_trans _ _ _ _ _ L), leads_filling.
Qed.

Lemma leads_capturing (t : nat) (sm : regs * mem) (x : memsys) : capturing sm x -> refilled t sm x.
Proof.
  intros Hcap. apply (refilled_trans t (S t) sm (clock i r (env t) sm)).
  { apply busy_cycle. by destruct Hcap as [-> _]. }
  pose proof (capture_cycle (env t) sm x (no_reset _) Hcap) as Hn.
  destruct (wb_needed x i); [by apply leads_writing|by apply leads_filling].
Qed.

Lemma leads_miss (t : nat) (sm : regs * mem) (x : memsys) :
  at_rest sm x -> spec_ok sm.1 r = true -> hit x a = false -> refilled t sm x.
Proof.
  intros Hrest Hsp Hh. apply (refilled_trans t (S t) sm (clock i r (env t) sm)).
  - apply leads_cycle. destruct Hrest as (_ & Hf & Hx & _). unfold cpu_ready.
    rewrite (tag_hit_abs sm.1 r x) by done. fold a. rewrite Hh. apply andb_false_r.
  - apply leads_capturing. by apply miss_cycle.
Qed.

Lemma leads_spec (t : nat) (sm : regs * mem) (x : memsys) :
  at_rest sm x -> exists t' sm', leads t sm t' sm' /\ at_rest sm' x /\ spec_ok sm'.1 r = true.
Proof.
  intros Hrest. destruct (spec_ok sm.1 r) eqn:Hsp; [exists t, sm; split; [apply leads_refl|done]|].
  destruct (respec_cycle (env t) sm x (no_reset t) Hrest Hsp) as [Hs Hx].
  destruct (leads_recheck (S t) _ x Hs Hx) as (t' & sm' & L & Hr'). exists t', sm'. split; [|done].
  eapply leads_trans; [|exact L]. apply leads_cycle. unfold cpu_ready, tag_hit. rewrite Hsp. by rewrite !andb_false_r.
Qed.

Lemma leads_ready (t : nat) (sm : regs * mem) (x : memsys) :
  at_rest sm x ->
  exists t' sm', leads t sm t' sm' /\ at_rest sm' (ensure x a) /\ cpu_ready sm'.1 r = true.
Proof.
  intros Hrest. destruct (leads_spec t sm x Hrest) as (t1 & sm1 & L1 & Hr1 & Hsp1).
  assert (exists t2 sm2, leads t1 sm1 t2 sm2 /\ at_rest sm2 (ensure x a) /\ spec_ok sm2.1 r = true)
    as (t2 & sm2 & L2 & Hr2 & Hsp2).
  { unfold ensure. destruct (hit x a) eqn:E; [exists t1, sm1; split; [apply leads_refl|done]|].
    by apply (leads_miss t1 sm1 x). }
  exists t2, sm2. split; [by eapply leads_trans|]. split; [done|]. destruct Hr2 as (Hs & Hf & Hx & _).
  unfold cpu_ready. rewrite (is_state_true sm2.1 S_IDLE), valid, (tag_hit_abs sm2.1 r (ensure x a)) by done.
  apply ensure_hit.
Qed.

(** An access ends, for every fuel from some point on, with the data and the
    state of its specification. *)
Lemma access_run (t : nat) (sm : regs * mem) (x : memsys) :
  at_rest sm x ->
  exists n rdata t' sm', (forall f, (n <= f)%nat -> access env f t r nxt sm = Some (rdata, t', sm')) /\
    (forall l, 0 <= l < 4 -> rdata l = (word_access r x).1 l) /\ at_rest sm' (word_access r x).2.
Proof.
  intros Hrest. destruct (leads_ready t sm x Hrest) as (t1 & sm1 & [n L] & Hr1 & Hrdy).
  destruct (hit_cycle nxt (env t1) sm1 (ensure x a) (no_reset t1) Hr1 Hrdy) as [Hd Hr'].
  assert (word_access r (ensure x a) = word_access r x) as E.
  { unfold word_access. fold a. assert (ensure (ensure x a) a = ensure x a) as ->; [|done].
    unfold ensure at 1. by rewrite ensure_hit. }
  rewrite E in Hd, Hr'.
  exists (n + 1)%nat, (cpu_rdata sm1.1 r), (S t1), (clock nxt r (env t1) sm1). split; [|done].
  intros f Hf. replace f with (n + S (f - n - 1))%nat by lia. rewrite L. cbn [access]. by rewrite Hrdy.
Qed.
End Access.

(** ** A word is its four bytes *)

Lemma byte_addr (a l : Z) :
  0 <= l < 4 ->
  m_idx (word_addr a + l) = m_idx a /\ m_tag (word_addr a + l) = m_tag a /\ m_off (word_addr a + l) = 4 * m_bank a + l.
Proof.
  intros Hl. assert (same_line (word_addr a + l) a) as Hs.
  { unfold same_line, word_addr. rewrite four_banks. divlia. }
  apply same_line_decode in Hs as [Ht Hi]. split; [done|]. split; [done|].
  unfold m_bank, m_off, word_addr. rewrite four_banks. divlia.
Qed.

Lemma ensure_line (x : memsys) (a b : Z) : m_idx b = m_idx a -> m_tag b = m_tag a -> ensure x b = ensure x a.
Proof. intros Hi Ht. unfold ensure, hit, refill. by rewrite Hi, Ht. Qed.

Lemma ensure_id (x : memsys) (a : Z) : hit x a = true -> ensure x a = x.
Proof. unfold ensure. by intros ->. Qed.

Lemma load_bytes_spec (a : Z) (ls : list Z) (x : memsys) :
  Forall (fun l => 0 <= l < 4) ls -> ls <> [] ->
  load_bytes (word_addr a) ls x =
    ((fun l => dc_data (ensure x a) (m_idx a) (4 * m_bank a + l)) <$> ls, ensure x a).
Proof.
  intros Hls. revert x. induction Hls as [|l ls Hl Hls IH]; intros x; [done|]. intros _.
  destruct (byte_addr a l Hl) as (Hi & Ht & Ho). cbn [load_bytes]. unfold cpu_load.
  rewrite (ensure_line x a _ Hi Ht), Hi, Ho. destruct ls as [|l' ls]; [done|].
  rewrite IH by done. by rewrite (ensure_id (ensure x a)) by apply ensure_hit.
Qed.

(** Stores to a resident line. *)
Lemma store_bytes_spec (a : Z) (mask : Z -> bool) (v : Z -> Z) (ls : list Z) (x : memsys) :
  Forall (fun l => 0 <= l < 4) ls -> hit x a = true ->
  let y := store_bytes (word_addr a) mask v ls x in
  dc_valid y = dc_valid x /\ dc_tag y = dc_tag x /\ dram y = dram x /\
  (forall k, dc_dirty y k = (k =? m_idx a) && existsb mask ls || dc_dirty x k) /\
  (forall k o, dc_data y k o =
    if (k =? m_idx a) && (m_bank a =? o / 4) && existsb (fun l => (l =? o mod 4) && mask l) ls
    then v (o mod 4) else dc_data x k o).
Proof.
  intros Hls. revert x. induction Hls as [|l ls Hl _ IH]; intros x Hh.
  { cbn zeta. cbn [store_bytes fold_left existsb]. split_and!; try done; intros; by rewrite !andb_false_r. }
  destruct (byte_addr a l Hl) as (Hi & Ht & Ho). unfold store_bytes. cbn [fold_left existsb]. cbn zeta.
  destruct (mask l) eqn:Em; [|destruct (IH x Hh) as (E1 & E2 & E3 & E4 & E5); unfold store_bytes in *;
    split_and!; [done..|]; intros k o; by rewrite E5, andb_false_r].
  set (x1 := cpu_store (word_addr a + l) (v l) x).
  assert (hit x1 a = true /\ dc_valid x1 = dc_valid x /\ dc_tag x1 = dc_tag x /\ dram x1 = dram x /\
    dc_dirty x1 = fupd (dc_dirty x) (m_idx a) true /\
    dc_data x1 = fupd (dc_data x) (m_idx a) (fupd (dc_data x (m_idx a)) (4 * m_bank a + l) (v l)))
    as (Hh1 & F1 & F2 & F3 & F4 & F5).
  { unfold x1, cpu_store. rewrite (ensure_line x a _ Hi Ht), (ensure_id x a Hh), Hi, Ho. done. }
  destruct (IH x1 Hh1) as (E1 & E2 & E3 & E4 & E5). unfold store_bytes in *. cbn zeta in *.
  rewrite E1, E2, E3, F1, F2, F3. split_and!; [done..| |].
  - intros k. rewrite E4, F4. unfold fupd. by destruct (k =? m_idx a), (existsb mask ls), (dc_dirty x k).
  - intros k o. rewrite E5, F5. unfold fupd. rewrite andb_true_r.
    destruct (Z.eqb_spec k (m_idx a)) as [->|]; [|done]. cbn [andb].
    destruct (Z.eqb_spec (m_bank a) (o / 4)) as [Eb|Eb]; cbn [andb].
    + destruct (existsb (fun l => (l =? o mod 4) && mask l) ls); rewrite ?orb_true_r, ?orb_false_r; [done|].
      destruct (Z.eqb_spec o (4 * m_bank a + l)), (Z.eqb_spec l (o mod 4)) as [El|El];
        [by rewrite El|exfalso; divlia|exfalso; divlia|done].
    + destruct (Z.eqb_spec o (4 * m_bank a + l)); [divlia|done].
Qed.

Lemma store_bytes_ensure (a : Z) (mask : Z -> bool) (v : Z -> Z) (ls : list Z) (x : memsys) :
  Forall (fun l => 0 <= l < 4) ls -> existsb mask ls = true ->
  store_bytes (word_addr a) mask v ls x = store_bytes (word_addr a) mask v ls (ensure x a).
Proof.
  intros Hls. induction Hls as [|l ls Hl _ IH]; [done|]. unfold store_bytes in *. cbn [existsb fold_left].
  destruct (mask l); [|exact IH]. intros _. destruct (byte_addr a l Hl) as (Hi & Ht & _).
  f_equal. unfold cpu_store. rewrite !(ensure_line _ a _ Hi Ht). by rewrite (ensure_id (ensure x a)) by apply ensure_hit.
Qed.

Lemma lanes_range : Forall (fun l => 0 <= l < 4) lanes.
Proof. repeat constructor; lia. Qed.

(** The word access of the hardware is the byte accesses of the
    specification. *)
Lemma byte_access_rest (r : request) (sm : regs * mem) (x : memsys) :
  (cpu_req_write r = true -> existsb (cpu_wmask r) lanes = true) ->
  at_rest sm (word_access r x).2 -> at_rest sm (byte_access r x).2.
Proof.
  intros Hmask (Hs & Hf & Hx & Hm). unfold byte_access, word_access in *. set (a := cpu_req_addr r) in *.
  destruct (cpu_req_write r); cbn [fst snd] in *.
  - rewrite store_bytes_ensure by (apply lanes_range || by apply Hmask).
    destruct (store_bytes_spec a (cpu_wmask r) (cpu_wdata r) lanes (ensure x a) lanes_range (ensure_hit x a))
      as (E1 & E2 & E3 & E4 & E5). cbn zeta in *.
    split; [done|]. split; [done|]. split; [|intros b; rewrite Hm; by rewrite E3].
    intros k Hk. destruct (Hx k Hk) as [Hv Hrest]. cbn in Hv, Hrest. rewrite E1, E2, E4. split; [done|].
    intros Hval. destruct (Hrest Hval) as (-> & <- & Ho). split; [done|]. split.
    + unfold fupd. rewrite Hmask by done. by destruct (k =? m_idx a).
    + intros o Ho'. rewrite <-Ho, E5 by done. unfold fupd.
      assert (existsb (fun l => (l =? o mod 4) && cpu_wmask r l) lanes = cpu_wmask r (o mod 4)) as ->.
      { pose proof (Z.mod_pos_bound o 4). assert (o mod 4 = 0 \/ o mod 4 = 1 \/ o mod 4 = 2 \/ o mod 4 = 3) as Hc by lia.
        destruct Hc as [-> |[-> |[-> | ->]]]; cbn; by rewrite ?orb_false_r. }
      destruct (Z.eqb_spec k (m_idx a)) as [->|]; done.
  - by rewrite load_bytes_spec by (apply lanes_range || done).
Qed.

Lemma byte_access_data (r : request) (x : memsys) (f : Z -> Z) :
  (forall l, 0 <= l < 4 -> f l = (word_access r x).1 l) -> loaded r f = (byte_access r x).1.
Proof.
  intros Hd. unfold loaded, byte_access. destruct (cpu_req_write r); [done|].
  rewrite load_bytes_spec by (apply lanes_range || done). cbn. unfold word. by rewrite !Hd by lia.
Qed.

(** ** Sequences *)

Lemma idle_cycle (nxt : Z) (r : request) (e : cycle_env) (sm : regs * mem) (x : memsys) :
  cpu_req_valid r = false -> rst e = false -> at_rest sm x -> at_rest (clock nxt r e sm) x.
Proof.
  intros Hv He (Hs & _ & Hx & Hm). destruct sm as [s m]. cbn [fst snd] in *.
  assert (quiet s r e) as Hq by (apply quiet_idle; [done|unfold wr_hit; by rewrite Hv, andb_false_r]).
  destruct (quiet_step nxt r e (read_line m (mem_req_addr s)) s Hq He) as (Hx' & Hf & _ & _ & _ & _ & _ & Hst).
  unfold next_state in Hst. rewrite Hs, Hv in Hst. injection Hst as Hst _ _. unfold clock.
  rewrite no_write_req by (by rewrite Hs). split; [done|]. split; [done|]. split; [by apply Hx'|done].
Qed.

Lemma dma_rest (addr size : Z) (f : Z -> Z) (sm : regs * mem) (x : memsys) :
  at_rest sm x ->
  at_rest (sm.1, fun a => if (addr <=? a) && (a <? addr + size) then f a else sm.2 a) (dma_write_range addr size f x).
Proof. intros (Hs & Hf & Hx & Hm). repeat (split; [done|]). intros b. cbn. by rewrite Hm. Qed.

Lemma run_events (evs : list event) (t : nat) (sm : regs * mem) (x : memsys) :
  Forall event_ok evs -> at_rest sm x ->
  exists n sm', (forall f, (n <= f)%nat -> run env f t evs sm = Some ((spec_run evs x).1, sm')) /\
    at_rest sm' (spec_run evs x).2.
Proof.
  intros Hok. revert t sm x. induction Hok as [|e evs He _ IH]; intros t sm x Hrest.
  { exists O, sm. by split. }
  destruct e as [r nxt|r nxt|addr size f]; cbn [run spec_run].
  - destruct He as [Hv Hmask]. destruct (access_run r Hv nxt t sm x Hrest) as (n1 & rd & t1 & sm1 & R1 & Hd & Hr1).
    apply (byte_access_rest r sm1 x Hmask) in Hr1. apply byte_access_data in Hd.
    destruct (IH t1 sm1 _ Hr1) as (n2 & sm2 & R2 & Hr2). exists (n1 `max` n2)%nat, sm2.
    destruct (spec_run evs (byte_access r x).2) as [out x'] eqn:E. cbn [fst snd] in *. split; [|done].
    intros f Hf. rewrite R1 by lia. cbn. rewrite R2 by lia. cbn. by rewrite Hd.
  - destruct (IH (S t) (clock nxt r (env t) sm) x) as (n & sm' & R & Hr'); [by apply idle_cycle|]. by exists n, sm'.
  - destruct (IH t _ _ (dma_rest addr size f sm x Hrest)) as (n & sm' & R & Hr'). by exists n, sm'.
Qed.
End Proofs.

(** ** Reset *)

Section Reset.
Context `{DcGeom} `{!DcGeomOk}.
Variable env : nat -> cycle_env.
Variable rq : nat -> request.
Variable ix : nat -> Z.

Lemma init_cycle (a_idx : Z) (r : request) (e : cycle_env) (s : regs) (m : mem) :
  state s = S_INIT -> rst e = false ->
  exists s', clock a_idx r e (s, m) = (s', m) /\
    state s' = (if sweep_cnt s =? NUM_SETS - 1 then S_RECHECK else S_INIT) /\
    sweep_cnt s' = (sweep_cnt s + 1) mod NUM_SETS /\
    tagv s' = fupd (tagv s) (sweep_cnt s) (false, 0).
Proof.
  intros Hs He. unfold clock, mem_req_write. rewrite (is_state_false s S_WB) by (by rewrite Hs). cbn [andb].
  eexists. split; [reflexivity|]. unfold step, tagv_we, tagv_waddr, tagv_wdata, init_en, next_state.
  rewrite He, Hs, (is_state_true s S_INIT Hs), orb_true_r. done.
Qed.

(** The sweep, [n] sets before its end, and the settle cycle after it. *)
Lemma sweep_run (n t : nat) (s : regs) (m : mem) :
  (forall k, (t <= k)%nat -> rst (env k) = false) ->
  state s = S_INIT -> sweep_cnt s = NUM_SETS - Z.of_nat (S n) -> 0 <= sweep_cnt s ->
  (forall k, 0 <= k < sweep_cnt s -> (tagv s k).1 = false) ->
  at_rest (cycles env rq ix (S (S n)) t (s, m)) (dc_reset m).
Proof.
  revert t s. induction n as [|n IH]; intros t s He Hs Hc Hpos Hclr;
    destruct (init_cycle (ix t) (rq t) (env t) s m Hs (He t ltac:(lia))) as (s1 & R1 & Hs1 & Hc1 & Ht1).
  - cbn [cycles]. rewrite R1. rewrite (proj2 (Z.eqb_eq _ _)) in Hs1 by lia.
    destruct (quiet_step (ix (S t)) (rq (S t)) (env (S t)) (read_line m (mem_req_addr s1)) s1)
      as (Hx & Hf & _ & _ & _ & _ & _ & Hst); [apply quiet_state; by rewrite Hs1|apply He; lia|].
    unfold next_state in Hst. rewrite Hs1 in Hst. injection Hst as Hst _ _.
    unfold clock, mem_req_write. rewrite (is_state_false s1 S_WB) by (by rewrite Hs1). cbn [andb].
    split; [done|]. split; [done|]. split; [|done]. apply Hx. intros k Hk. rewrite Ht1. unfold fupd.
    destruct (Z.eqb_spec k (sweep_cnt s)); [done|]. rewrite Hclr by lia. done.
  - change (at_rest (cycles env rq ix (S (S n)) (S t) (clock (ix t) (rq t) (env t) (s, m))) (dc_reset m)).
    rewrite R1. pose proof NUM_SETS_pos. assert (sweep_cnt s1 = sweep_cnt s + 1) as Ec by (rewrite Hc1; apply Z.mod_small; lia).
    apply IH; [intros k Hk; apply He; lia| |lia|lia|].
    + rewrite Hs1. destruct (Z.eqb_spec (sweep_cnt s) (NUM_SETS - 1)); [lia|done].
    + intros k Hk. rewrite Ht1. unfold fupd. destruct (Z.eqb_spec k (sweep_cnt s)); [done|]. apply Hclr. lia.
Qed.

Definition start_up : nat := S (S (Z.to_nat NUM_SETS)).

Lemma reset_run (s : regs) (m : mem) :
  rst (env 0%nat) = true -> (forall k, rst (env (S k)) = false) ->
  at_rest (cycles env rq ix start_up 0 (s, m)) (dc_reset (clock (ix 0%nat) (rq 0%nat) (env 0%nat) (s, m)).2).
Proof.
  intros Hr He. pose proof NUM_SETS_pos. unfold start_up. destruct (Z.to_nat NUM_SETS) as [|n] eqn:En; [lia|].
  change (cycles env rq ix (S (S (S n))) 0 (s, m)) with
    (cycles env rq ix (S (S n)) 1 (clock (ix 0%nat) (rq 0%nat) (env 0%nat) (s, m))).
  destruct (clock (ix 0%nat) (rq 0%nat) (env 0%nat) (s, m)) as [s1 m1] eqn:E.
  assert (state s1 = S_INIT /\ sweep_cnt s1 = 0) as [Hs Hc].
  { unfold clock in E. injection E as <- _. unfold step. by rewrite Hr. }
  apply sweep_run; [intros k Hk; destruct k; [lia|apply He]|done|rewrite Hc; lia|rewrite Hc; lia|].
  rewrite Hc. intros k Hk. lia.
Qed.
End Reset.

(** ** Properties *)

(** C7: the RTL implements the cache of [Dcache]. From any register contents,
    one reset cycle and the sweep leave the empty cache; then every sequence of
    accesses, idle cycles and stores of the accelerator behind the cache ends
    for every fuel from some point on, with every load returning the bytes of
    [cpu_load] and with arrays and DRAM in the state that [cpu_load] and
    [cpu_store] leave. This holds however long the memory takes to answer,
    however the pipeline guesses the next address, and whatever the RAMs return
    for a byte written in the cycle in which it is read. *)
Theorem dcache_refines `{DcGeom} `{!DcGeomOk} (env : nat -> cycle_env) (rq : nat -> request) (ix : nat -> Z)
    (evs : list event) (s : regs) (m : mem) :
  LINE_BYTES = 16 -> rst (env 0%nat) = true -> (forall t, rst (env (S t)) = false) ->
  (forall t, exists k, mem_ready (env (t + k)%nat) = true) -> Forall event_ok evs ->
  let started := cycles env rq ix start_up 0 (s, m) in
  let x := dc_reset (clock (ix 0%nat) (rq 0%nat) (env 0%nat) (s, m)).2 in
  exists n sm',
    (forall f, (n <= f)%nat ->
       run (fun t => env (start_up + t)%nat) f 0 evs started = Some ((spec_run evs x).1, sm')) /\
    at_rest sm' (spec_run evs x).2.
Proof.
  intros Hl Hr He Hm Hok started x.
  apply (run_events Hl (fun t => env (start_up + t)%nat)); [|intros t; destruct (Hm (start_up + t)%nat) as [k Hk];
    exists k; by rewrite Nat.add_assoc|done|by apply reset_run].
  intros t. apply He.
Qed.

(** ** The property at work *)

Module DcacheFsmWitness.
Definition geom_tiny : DcGeom := {| OFF := 4; IDX := 1 |}.
#[local] Existing Instance geom_tiny.
#[local] Instance geom_tiny_ok : DcGeomOk.
Proof. split; cbn; lia. Qed.

(** A memory that answers every third cycle and RAMs that return rubbish. *)
Definition env0 (t : nat) : cycle_env :=
  mk_env (Nat.eqb t 0) (Nat.eqb (Nat.modulo t 3) 0) (fun o => 77 + o) (true, 5).
Definition load_at (a : Z) : request := mk_request true false a (fun _ => 0) (fun _ => false).
Definition store_at (a v : Z) : request := mk_request true true a (fun l => v + l) (fun l => l <? 2).
Definition nothing : request := mk_request false false 0 (fun _ => 0) (fun _ => false).

(** A store, the load right behind it (the bypass), an eviction of the line by
    another tag, and the load that fetches it again. *)
Definition evs0 : list event :=
  [Access (store_at 0x104 10) 0; Access (load_at 0x104) 0; Access (load_at 0x204) 0; Idle nothing 1;
   Dma 0x300 4 (fun _ => 99); Access (load_at 0x104) 0; Access (load_at 0x300) 0].

Definition regs0 : regs :=
  mk_regs (fun _ _ => 0) (fun _ => (true, 0)) (fun _ => true) (fun _ => 0) (true, 0) 0 S_FILL 0 0 0 0 (fun _ => 0)
    true 0 (fun _ => true) (fun _ => 0).

Definition started0 : regs * mem := cycles env0 (fun _ => nothing) (fun _ => 0) start_up 0 (regs0, fun a => a mod 100).
Definition x0 : memsys := dc_reset (clock 0 nothing (env0 0) (regs0, fun a => a mod 100)).2.

Lemma dcache_refines_witness :
  (option_map fst (run (fun t => env0 (start_up + t)%nat) 100 0 evs0 started0) =
     Some [[10; 11; 62; 63]; [16; 17; 18; 19]; [10; 11; 62; 63]; [99; 99; 99; 99]]) /\
  exists n sm',
    (forall f, (n <= f)%nat ->
       run (fun t => env0 (start_up + t)%nat) f 0 evs0 started0 = Some ((spec_run evs0 x0).1, sm')) /\
    at_rest sm' (spec_run evs0 x0).2.
Proof.
  split; [vm_compute; reflexivity|].
  apply (dcache_refines env0 (fun _ => nothing) (fun _ => 0) evs0 regs0 (fun a => a mod 100)); try reflexivity.
  - intros t. exists (2 * t)%nat. unfold env0. cbn [mem_ready]. replace (t + 2 * t)%nat with (t * 3)%nat by lia.
    by rewrite Nat.Div0.mod_mul.
  - repeat constructor; done.
Defined.
End DcacheFsmWitness.
