(* ===== verification/Tcm.v ===== *)
(** * The tightly coupled memory, [src/src/tcm.v]

    Two banks of halfwords, read with a register: a request is answered one
    cycle later.  Port A serves instruction fetches at any even address, port B
    the data side with byte enables.  [dcache.v] and [icache.v] put the same
    request flag in front of a port ([pending_clock]).  The lemmas read the
    banks as bytes. *)

From S2P Require Import Prelude Bits Rv32 Decoder.

(** [TCM_BYTES] is four times [2 ^ INDEX_BITS]. *)
Class TcmGeom : Type := { INDEX_BITS : Z; INDEX_BITS_ok : 0 <= INDEX_BITS <= 27 }.

Definition TCM_BASE : Z := 0x40000000.

Record tcm : Type := mk_tcm {
  mem_even : Z -> Z; mem_odd : Z -> Z;
  i_rdata_even : Z; i_rdata_odd : Z; i_is_unaligned_reg : bool; i_ready : bool;
  d_rdata_even : Z; d_rdata_odd : Z; d_ready : bool;
}.

(** One cycle of the two ports. *)
Record tcm_request : Type := mk_tcm_request {
  i_req : bool; i_addr : Z;
  d_req : bool; d_we : bool; d_addr : Z; d_wdata : Z; d_wmask : Z;
}.

Section Tcm.
Context `{TcmGeom}.

Definition TCM_BYTES : Z := 4 * 2 ^ INDEX_BITS.
Definition in_tcm (a : Z) : bool := (TCM_BASE <=? a) && (a <? TCM_BASE + TCM_BYTES).

Definition tcm_offset (a : Z) : Z := u32 (a - TCM_BASE).
Definition tcm_index (a : Z) : Z := bits (INDEX_BITS + 1) 2 (tcm_offset a).
Definition is_unaligned (a : Z) : bool := bit 1 (tcm_offset a).
Definition even_idx (a : Z) : Z :=
  if is_unaligned a then uwrap INDEX_BITS (tcm_index a + 1) else tcm_index a.

(** The byte enables of a halfword. *)
Definition half_write (old data : Z) (lo hi : bool) : Z :=
  cat [if hi then field 15 8 data else field 15 8 old; if lo then field 7 0 data else field 7 0 old].

Definition i_rdata (t : tcm) : Z :=
  if i_is_unaligned_reg t then cat [lit 16 (i_rdata_even t); lit 16 (i_rdata_odd t)]
  else cat [lit 16 (i_rdata_odd t); lit 16 (i_rdata_even t)].
Definition d_rdata (t : tcm) : Z := cat [lit 16 (d_rdata_odd t); lit 16 (d_rdata_even t)].

Definition tcm_clock (r : tcm_request) (t : tcm) : tcm :=
  let i_go := i_req r && in_tcm (i_addr r) in
  let d_go := d_req r && in_tcm (d_addr r) in
  let k := tcm_index (d_addr r) in
  let w n := Z.testbit (d_wmask r) n in
  {| mem_even := if d_go && d_we r
       then fupd (mem_even t) k (half_write (mem_even t k) (bits 15 0 (d_wdata r)) (w 0) (w 1))
       else mem_even t;
     mem_odd := if d_go && d_we r
       then fupd (mem_odd t) k (half_write (mem_odd t k) (bits 31 16 (d_wdata r)) (w 2) (w 3))
       else mem_odd t;
     i_rdata_even := if i_go then mem_even t (even_idx (i_addr r)) else i_rdata_even t;
     i_rdata_odd := if i_go then mem_odd t (tcm_index (i_addr r)) else i_rdata_odd t;
     i_is_unaligned_reg := if i_go then is_unaligned (i_addr r) else i_is_unaligned_reg t;
     i_ready := i_go;
     d_rdata_even := if d_go then mem_even t k else d_rdata_even t;
     d_rdata_odd := if d_go then mem_odd t k else d_rdata_odd t;
     d_ready := d_go |}.

(** Reset clears the output registers, not the banks. *)
Definition tcm_reset (t : tcm) : tcm :=
  {| mem_even := mem_even t; mem_odd := mem_odd t; i_rdata_even := 0; i_rdata_odd := 0;
     i_is_unaligned_reg := false; i_ready := false; d_rdata_even := 0; d_rdata_odd := 0; d_ready := false |}.

(** [tcm_req_valid] and [tcm_req_pending] of the two wrappers. *)
Definition tcm_req_valid (cpu_req_valid is_tcm pending : bool) : bool :=
  cpu_req_valid && is_tcm && negb pending.
Definition pending_clock (req_valid ready pending : bool) : bool :=
  if req_valid then true else if ready then false else pending.

(** ** The banks as bytes *)

Definition tcm_mem (t : tcm) : mem := fun b =>
  let o := b - TCM_BASE in
  u8 ((if o mod 4 <? 2 then mem_even t (o / 4) else mem_odd t (o / 4)) .>> (8 * (o mod 2))).

Lemma half_write_byte (old data : Z) (lo hi : bool) :
  u8 (half_write old data lo hi) = u8 (if lo then data else old) /\
  u8 (half_write old data lo hi .>> 8) = u8 ((if hi then data else old) .>> 8).
Proof.
  assert (forall p q, 0 <= p < 256 -> 0 <= q < 256 ->
    ((0 * 256 + p) * 256 + q) mod 256 = q /\ ((0 * 256 + p) * 256 + q) / 256 mod 256 = p) as E
    by (intros p q Hp Hq; replace ((0 * 256 + p) * 256 + q) with (q + p * 256) by lia;
        rewrite Z.mod_add, Z.div_add, (Z.div_small q), !Z.mod_small by lia; by split).
  unfold half_write, u8. rewrite !Z.shiftr_div_pow2 by lia.
  destruct lo, hi; cat_arith; rewrite !bits_arith by lia; unfold uwrap; eval_pow2;
    rewrite ?Z.mod_mod, ?Z.div_1_r by lia; apply E; apply Z.mod_pos_bound; lia.
Qed.

Lemma half_value (h : Z) : h mod 2 ^ 16 = u8 h + 2 ^ 8 * u8 (h .>> 8).
Proof. unfold u8, uwrap. rewrite Z.shiftr_div_pow2 by lia. eval_pow2. divlia. Qed.

(** ** Addresses *)

Lemma tcm_size : 4 <= TCM_BYTES <= 2 ^ 29.
Proof.
  unfold TCM_BYTES. pose proof INDEX_BITS_ok as Hw.
  assert (2 ^ 0 <= 2 ^ INDEX_BITS <= 2 ^ 27) by (split; apply Z.pow_le_mono_r; lia).
  change (2 ^ 0) with 1 in *. change (2 ^ 29) with (4 * 2 ^ 27). lia.
Qed.

Lemma in_tcm_range (a : Z) : in_tcm a = true -> 0 <= a - TCM_BASE < TCM_BYTES.
Proof. unfold in_tcm. intros H'. zbool; try done; lia. Qed.

Lemma tcm_offset_in (a : Z) : in_tcm a = true -> tcm_offset a = a - TCM_BASE.
Proof.
  intros Ha%in_tcm_range. pose proof tcm_size. apply uwrap_id. unfold is_uint. lia.
Qed.

Lemma tcm_index_in (a : Z) : in_tcm a = true -> tcm_index a = (a - TCM_BASE) / 4.
Proof.
  intros Ha. unfold tcm_index. rewrite tcm_offset_in by done. apply in_tcm_range in Ha.
  pose proof INDEX_BITS_ok. rewrite bits_arith by lia. change (2 ^ 2) with 4.
  apply Z.mod_small. unfold TCM_BYTES in Ha. replace (INDEX_BITS + 1 - 2 + 1) with INDEX_BITS by lia. divlia.
Qed.

Lemma is_unaligned_in (a : Z) : in_tcm a = true -> a mod 2 = 0 -> is_unaligned a = negb ((a - TCM_BASE) mod 4 =? 0).
Proof.
  intros Ha H2. unfold is_unaligned. rewrite tcm_offset_in, bit1_mod4 by done. unfold TCM_BASE in *.
  destruct (Z.leb_spec 2 ((a - 0x40000000) mod 4)), (Z.eqb_spec ((a - 0x40000000) mod 4) 0); try done; divlia.
Qed.

(** The word of index [n] of the two banks. *)
Lemma tcm_mem_at (t : tcm) (n k : Z) :
  0 <= k < 4 ->
  tcm_mem t (TCM_BASE + 4 * n + k) = u8 ((if k <? 2 then mem_even t n else mem_odd t n) .>> (8 * (k mod 2))).
Proof.
  intros Hk. unfold tcm_mem. cbv zeta. replace (TCM_BASE + 4 * n + k - TCM_BASE) with (4 * n + k) by lia.
  assert ((4 * n + k) mod 4 = k) as -> by divlia. assert ((4 * n + k) / 4 = n) as -> by divlia.
  by assert ((4 * n + k) mod 2 = k mod 2) as -> by divlia.
Qed.

Lemma u8_u8 (x : Z) : u8 (u8 x) = u8 x.
Proof. unfold u8, uwrap. by rewrite Z.mod_mod by lia. Qed.

Lemma mem_half_even (t : tcm) (n : Z) : mem_half (tcm_mem t) (TCM_BASE + 4 * n) = mem_even t n mod 2 ^ 16.
Proof.
  unfold mem_half, mem_byte. pose proof (tcm_mem_at t n 0 ltac:(lia)) as E0.
  rewrite Z.add_0_r in E0. rewrite E0, (tcm_mem_at t n 1) by lia.
  change (8 * (0 mod 2)) with 0. change (8 * (1 mod 2)) with 8. cbn [Z.ltb Z.compare].
  rewrite !u8_u8, Z.shiftr_0_r. symmetry. apply half_value.
Qed.

Lemma mem_half_odd (t : tcm) (n : Z) : mem_half (tcm_mem t) (TCM_BASE + 4 * n + 2) = mem_odd t n mod 2 ^ 16.
Proof.
  unfold mem_half, mem_byte. replace (TCM_BASE + 4 * n + 2 + 1) with (TCM_BASE + 4 * n + 3) by lia.
  rewrite (tcm_mem_at t n 2), (tcm_mem_at t n 3) by lia.
  change (8 * (2 mod 2)) with 0. change (8 * (3 mod 2)) with 8. cbn [Z.ltb Z.compare Pos.compare Pos.compare_cont].
  rewrite !u8_u8, Z.shiftr_0_r. symmetry. apply half_value.
Qed.

Lemma two_halves (hi lo : Z) : cat [lit 16 hi; lit 16 lo] = lo mod 2 ^ 16 + 2 ^ 16 * (hi mod 2 ^ 16).
Proof. cat_arith. unfold uwrap. eval_pow2. lia. Qed.

Lemma tcm_word (t : tcm) (n : Z) :
  mem_word (tcm_mem t) (TCM_BASE + 4 * n) = cat [lit 16 (mem_odd t n); lit 16 (mem_even t n)].
Proof. unfold mem_word. by rewrite mem_half_even, mem_half_odd, two_halves. Qed.

Lemma tcm_aligned (a : Z) : in_tcm a = true -> a - a mod 4 = TCM_BASE + 4 * tcm_index a.
Proof. intros Ha. rewrite tcm_index_in by done. unfold TCM_BASE. divlia. Qed.

(** ** The data port *)

(** A request is answered with the aligned word as it was. *)
Lemma tcm_d_read (r : tcm_request) (t : tcm) :
  d_req r = true -> in_tcm (d_addr r) = true ->
  d_ready (tcm_clock r t) = true /\ d_rdata (tcm_clock r t) = mem_word (tcm_mem t) (d_addr r - d_addr r mod 4).
Proof.
  intros Hr Ha. rewrite tcm_aligned, tcm_word by done. unfold tcm_clock, d_rdata. cbn [d_ready d_rdata_even d_rdata_odd].
  by rewrite Hr, Ha.
Qed.

Lemma tcm_d_hold (r : tcm_request) (t : tcm) :
  d_req r && in_tcm (d_addr r) = false ->
  d_ready (tcm_clock r t) = false /\ d_rdata (tcm_clock r t) = d_rdata t.
Proof. intros Hr. unfold tcm_clock, d_rdata. cbn [d_ready d_rdata_even d_rdata_odd]. by rewrite Hr. Qed.

Lemma tcm_mem_keep (r : tcm_request) (t : tcm) (b : Z) :
  d_req r && in_tcm (d_addr r) && d_we r = false -> tcm_mem (tcm_clock r t) b = tcm_mem t b.
Proof. intros Hr. unfold tcm_mem, tcm_clock. cbn [mem_even mem_odd]. by rewrite Hr. Qed.

Lemma u8_bits (hi lo s w : Z) :
  0 <= lo -> 0 <= s -> s + 7 <= hi - lo -> u8 (bits hi lo w .>> s) = u8 (w .>> (lo + s)).
Proof.
  intros. unfold u8. apply Z.bits_inj'. intros i Hi. rewrite !uwrap_testbit, !Z.shiftr_spec, bits_testbit by lia.
  destruct (Z.ltb_spec i 8); [|done]. rewrite (proj2 (Z.leb_le (i + s) (hi - lo))) by lia. cbn [andb]. f_equal. lia.
Qed.

(** A write changes the bytes of the aligned word that are enabled. *)
Lemma tcm_mem_write (r : tcm_request) (t : tcm) (b : Z) :
  d_req r = true -> in_tcm (d_addr r) = true -> d_we r = true ->
  tcm_mem (tcm_clock r t) b = write_lanes (tcm_mem t) (d_addr r) (d_wmask r) (d_wdata r) b.
Proof.
  intros Hr Ha Hw. unfold write_lanes. rewrite tcm_aligned by done. cbv zeta.
  set (n := tcm_index (d_addr r)).
  assert (Hb : exists m k, b = TCM_BASE + 4 * m + k /\ 0 <= k < 4)
    by (exists ((b - TCM_BASE) / 4), ((b - TCM_BASE) mod 4); unfold TCM_BASE; split; divlia).
  destruct Hb as (m & k & -> & Hk). rewrite !tcm_mem_at by done.
  unfold tcm_clock. cbn [mem_even mem_odd]. rewrite Hr, Ha, Hw. cbn [andb]. fold n.
  destruct (decide (m = n)) as [->|Hn].
  - rewrite !fupd_eq.
    replace ((TCM_BASE + 4 * n <=? TCM_BASE + 4 * n + k) && (TCM_BASE + 4 * n + k <? TCM_BASE + 4 * n + 4))
      with true by (symmetry; apply andb_true_iff; rewrite Z.leb_le, Z.ltb_lt; lia).
    cbn [andb].
    replace (TCM_BASE + 4 * n + k - (TCM_BASE + 4 * n)) with k by lia.
    destruct (half_write_byte (mem_even t n) (bits 15 0 (d_wdata r)) (Z.testbit (d_wmask r) 0) (Z.testbit (d_wmask r) 1)) as [E0 E1].
    destruct (half_write_byte (mem_odd t n) (bits 31 16 (d_wdata r)) (Z.testbit (d_wmask r) 2) (Z.testbit (d_wmask r) 3)) as [E2 E3].
    assert (k = 0 \/ k = 1 \/ k = 2 \/ k = 3) as [->|[->|[->| ->]]] by lia;
      change (8 * (0 mod 2)) with 0 || change (8 * (1 mod 2)) with 8 || change (8 * (2 mod 2)) with 0 ||
        change (8 * (3 mod 2)) with 8;
      cbn [Z.ltb Z.compare Pos.compare Pos.compare_cont].
    + rewrite Z.shiftr_0_r, E0. destruct (Z.testbit _ 0); [|by rewrite Z.shiftr_0_r].
      rewrite <-(Z.shiftr_0_r (bits 15 0 _)). by apply u8_bits.
    + rewrite E1. destruct (Z.testbit _ 1); [by apply u8_bits|done].
    + rewrite Z.shiftr_0_r, E2. destruct (Z.testbit _ 2); [|by rewrite Z.shiftr_0_r].
      rewrite <-(Z.shiftr_0_r (bits 31 16 _)). by apply u8_bits.
    + rewrite E3. destruct (Z.testbit _ 3); [by apply u8_bits|done].
  - rewrite !fupd_ne by done.
    replace ((TCM_BASE + 4 * n <=? TCM_BASE + 4 * m + k) && (TCM_BASE + 4 * m + k <? TCM_BASE + 4 * n + 4))
      with false; [done|]. symmetry. apply andb_false_iff. rewrite Z.leb_gt, Z.ltb_ge. lia.
Qed.

(** ** The instruction port *)

Lemma i_ready_clock (r : tcm_request) (t : tcm) :
  i_ready (tcm_clock r t) = i_req r && in_tcm (i_addr r).
Proof. done. Qed.

Lemma tcm_i_hold (r : tcm_request) (t : tcm) :
  i_req r && in_tcm (i_addr r) = false -> i_rdata (tcm_clock r t) = i_rdata t.
Proof. intros Hr. unfold i_rdata, tcm_clock. cbn [i_is_unaligned_reg i_rdata_even i_rdata_odd]. by rewrite Hr. Qed.

(** A fetch reads the four bytes at any even address. *)
Lemma tcm_i_read (r : tcm_request) (t : tcm) :
  i_req r = true -> in_tcm (i_addr r) = true -> in_tcm (i_addr r + 2) = true -> i_addr r mod 2 = 0 ->
  i_rdata (tcm_clock r t) = mem_word (tcm_mem t) (i_addr r).
Proof.
  intros Hr Ha Ha2 Heven. unfold i_rdata, tcm_clock. cbn [i_is_unaligned_reg i_rdata_even i_rdata_odd].
  rewrite Hr, Ha. cbn [andb]. unfold even_idx. rewrite is_unaligned_in, tcm_index_in by done.
  set (p := i_addr r) in *. set (n := (p - TCM_BASE) / 4).
  destruct (Z.eqb_spec ((p - TCM_BASE) mod 4) 0) as [E|E]; cbn [negb].
  - assert (p = TCM_BASE + 4 * n) as Ep by (subst n; clear -E; divlia). rewrite Ep. symmetry. apply tcm_word.
  - assert (p = TCM_BASE + 4 * n + 2) as Ep by (subst n; unfold TCM_BASE in *; clear -E Heven; divlia).
    assert (uwrap INDEX_BITS (n + 1) = n + 1) as ->.
    { apply uwrap_id. pose proof (in_tcm_range _ Ha). pose proof (in_tcm_range _ Ha2) as Hr2.
      unfold TCM_BYTES in *. unfold is_uint. lia. }
    rewrite Ep, two_halves, <-mem_half_odd, <-mem_half_even. unfold mem_word. do 3 f_equal. lia.
Qed.

(** ** Any sequence of requests *)

Fixpoint tcm_cycles (rs : list tcm_request) (t : tcm) : tcm :=
  match rs with [] => t | r :: rs => tcm_cycles rs (tcm_clock r t) end.

(** The memory that the banks are to be. *)
Definition memory_clock (r : tcm_request) (m : mem) : mem :=
  if d_req r && in_tcm (d_addr r) && d_we r then write_lanes m (d_addr r) (d_wmask r) (d_wdata r) else m.
Fixpoint memory_cycles (rs : list tcm_request) (m : mem) : mem :=
  match rs with [] => m | r :: rs => memory_cycles rs (memory_clock r m) end.

Lemma memory_clock_ext (r : tcm_request) (m m' : mem) (b : Z) : m b = m' b -> memory_clock r m b = memory_clock r m' b.
Proof. intros E. unfold memory_clock, write_lanes. destruct (_ && d_we r); [|done]. by rewrite E. Qed.

Lemma memory_cycles_ext (rs : list tcm_request) (m m' : mem) (b : Z) :
  m b = m' b -> memory_cycles rs m b = memory_cycles rs m' b.
Proof.
  induction rs as [|r rs IH] in m, m' |- *; intros E; [done|]. cbn [memory_cycles]. by apply IH, memory_clock_ext.
Qed.

Lemma tcm_clock_mem (r : tcm_request) (t : tcm) (b : Z) : tcm_mem (tcm_clock r t) b = memory_clock r (tcm_mem t) b.
Proof.
  unfold memory_clock. destruct (_ && d_we r) eqn:E; [|by apply tcm_mem_keep].
  apply andb_true_iff in E as [[E1 E2]%andb_true_iff E3]. by apply tcm_mem_write.
Qed.

Lemma tcm_cycles_mem (rs : list tcm_request) (t : tcm) (b : Z) :
  tcm_mem (tcm_cycles rs t) b = memory_cycles rs (tcm_mem t) b.
Proof.
  induction rs as [|r rs IH] in t |- *; [done|]. cbn [tcm_cycles memory_cycles]. rewrite IH.
  apply memory_cycles_ext, tcm_clock_mem.
Qed.

(** C22: the two banks and their output registers are one byte-addressed memory
    with a latency of one cycle.  After any requests, a request in range, and
    only such a request, is answered in the next cycle: the data port with the
    aligned word as it was before the write of the same cycle, the instruction
    port with the four bytes at any even address, also when they lie in two
    words; and a write changes exactly the enabled bytes of its word. *)
Theorem tcm_refines_memory (rs : list tcm_request) (r : tcm_request) (t : tcm) :
  let t' := tcm_clock r (tcm_cycles rs t) in
  let m := memory_cycles rs (tcm_mem t) in
  d_ready t' = d_req r && in_tcm (d_addr r) /\ i_ready t' = i_req r && in_tcm (i_addr r) /\
  (d_ready t' = true -> d_rdata t' = mem_word m (d_addr r - d_addr r mod 4)) /\
  (i_ready t' = true -> i_addr r mod 2 = 0 -> in_tcm (i_addr r + 2) = true -> i_rdata t' = mem_word m (i_addr r)) /\
  (forall b, tcm_mem t' b = memory_clock r m b).
Proof.
  intros t' m. assert (forall a, mem_word (tcm_mem (tcm_cycles rs t)) a = mem_word m a) as Hw.
  { intros a. apply mem_word_ext. intros k _. apply tcm_cycles_mem. }
  split_and!; [done|done| | |].
  - intros [Hr Ha]%andb_true_iff. rewrite <-Hw. by apply tcm_d_read.
  - intros [Hr Ha]%andb_true_iff H2 Ha2. rewrite <-Hw. by apply tcm_i_read.
  - intros b. unfold t'. rewrite tcm_clock_mem. apply memory_clock_ext, tcm_cycles_mem.
Qed.
End Tcm.
