(* ===== verification/Icache.v ===== *)
(** * The instruction cache, [src/src/icache_bram.v]

    Register by register, in the style of [DcacheFsm]: a line is four even and
    four odd halfwords, so that a fetch at any even address reads one of each,
    from two lines when it crosses.  The arrays are addressed with the next
    program counter.  What a RAM returns for an entry that is written in the
    same cycle is a parameter of the cycle.

    The result ([fetch_correct]) is relative to a memory [cm] and to the bytes
    [fixed] that never change: a ready fetch of fixed bytes shows them. *)

From S2P Require Import Prelude Bits Rv32 Decoder Dcache Tcm.

Inductive fsm_state : Type := S_INIT | S_IDLE | S_FILL | S_RECHECK.

#[export] Instance fsm_state_eq_dec : EqDecision fsm_state.
Proof. solve_decision. Defined.

Record regs : Type := mk_regs {
  dat_even : Z -> Z -> Z;       (* set, halfword of that parity *)
  dat_odd : Z -> Z -> Z;
  tagA : Z -> bool * Z;
  tagB : Z -> bool * Z;
  q_even : Z -> Z;
  q_odd : Z -> Z;
  q_tagA : bool * Z;
  q_tagB : bool * Z;
  q_esel : Z;
  q_osel : Z;
  q_unal : bool;
  q_a : Z;
  state : fsm_state;
  sweep_cnt : Z;
  miss_addr_q : Z;
}.

(** A fetch, the memory's answer, and the undefined reads. *)
Record request : Type := mk_request { fetch_valid : bool; fetch_addr : Z }.
Record cycle_env : Type := mk_env {
  rst : bool;
  mem_ready : bool;
  even_undef : Z -> Z;
  odd_undef : Z -> Z;
  tagA_undef : bool * Z;
  tagB_undef : bool * Z;
}.

Section Icache.
Context `{DcGeom}.

(** ** Addressing the arrays *)

Definition word (a : Z) : Z := (a / 4) mod (4 * NUM_SETS).
Definition eword (a : Z) : Z := (word a + Z.b2z (bit 1 a)) mod (4 * NUM_SETS).
Definition erow (a : Z) : Z := eword a / 4.
Definition esel (a : Z) : Z := eword a mod 4.
Definition osel (a : Z) : Z := word a mod 4.
Definition crosses (a : Z) : bool := (a / 2) mod (LINE_BYTES / 2) =? LINE_BYTES / 2 - 1.
Definition idxB (a : Z) : Z := (m_idx a + Z.b2z (crosses a)) mod NUM_SETS.

(** ** Combinational signals *)

Definition is_state (s : regs) (x : fsm_state) : bool := bool_decide (state s = x).

Definition fa2 (a : Z) : Z := u32 (a + 2).
Definition tag_is (e : bool * Z) (t : Z) : bool := e.1 && (e.2 =? t).
Definition hitA (s : regs) (r : request) : bool := tag_is (q_tagA s) (m_tag (fetch_addr r)).
Definition hitB (s : regs) (r : request) : bool := tag_is (q_tagB s) (m_tag (fa2 (fetch_addr r))).
Definition spec_ok (s : regs) (r : request) : bool :=
  (q_a s / 2) mod (LINE_BYTES / 2 * NUM_SETS) =? (fetch_addr r / 2) mod (LINE_BYTES / 2 * NUM_SETS).
Definition fetch_ready (s : regs) (r : request) : bool :=
  is_state s S_IDLE && fetch_valid r && spec_ok s r && hitA s r &&
  (negb (crosses (fetch_addr r)) || hitB s r).

Definition he (s : regs) : Z := q_even s (q_esel s).
Definition ho (s : regs) : Z := q_odd s (q_osel s).
Definition fetch_rdata (s : regs) : Z :=
  if q_unal s then cat [lit 16 (he s); lit 16 (ho s)] else cat [lit 16 (ho s); lit 16 (he s)].

Definition line_of (a : Z) : Z := a / LINE_BYTES * LINE_BYTES.
Definition miss_addr (s : regs) (r : request) : Z :=
  if negb (hitA s r) then line_of (fetch_addr r) else line_of (fa2 (fetch_addr r)).

Definition wr_en (s : regs) (e : cycle_env) : bool := is_state s S_FILL && mem_ready e.
Definition wr_idx (s : regs) : Z := m_idx (miss_addr_q s).
Definition wr_tag (s : regs) : Z := m_tag (miss_addr_q s).
Definition init_en (s : regs) : bool := is_state s S_INIT.
Definition tag_we (s : regs) (e : cycle_env) : bool := init_en s || wr_en s e.
Definition tag_waddr (s : regs) : Z := if init_en s then sweep_cnt s else wr_idx s.
Definition tag_wdata (s : regs) : bool * Z := if init_en s then (false, 0) else (true, wr_tag s).

Definition mem_req_valid (s : regs) : bool := is_state s S_FILL.
Definition mem_req_addr (s : regs) : Z := miss_addr_q s.

(** Halfword [h] of each parity of the refill line, given by its bytes. *)
Definition half_of (lo hi : Z) : Z := u8 lo + 2 ^ 8 * u8 hi.
Definition wd_even (mem_rline : Z -> Z) (h : Z) : Z := half_of (mem_rline (4 * h)) (mem_rline (4 * h + 1)).
Definition wd_odd (mem_rline : Z -> Z) (h : Z) : Z := half_of (mem_rline (4 * h + 2)) (mem_rline (4 * h + 3)).

(** ** The clock edge *)

Definition next_state (s : regs) (r : request) (e : cycle_env) : fsm_state * Z * Z :=
  match state s with
  | S_INIT =>
      (if sweep_cnt s =? NUM_SETS - 1 then S_RECHECK else S_INIT, (sweep_cnt s + 1) mod NUM_SETS, miss_addr_q s)
  | S_IDLE =>
      if fetch_valid r && negb (fetch_ready s r) then
        if negb (spec_ok s r) then (S_RECHECK, sweep_cnt s, miss_addr_q s)
        else (S_FILL, sweep_cnt s, miss_addr s r)
      else (S_IDLE, sweep_cnt s, miss_addr_q s)
  | S_FILL => (if mem_ready e then S_RECHECK else S_FILL, sweep_cnt s, miss_addr_q s)
  | S_RECHECK => (S_IDLE, sweep_cnt s, miss_addr_q s)
  end.

Definition RESET_PC : Z := 0x40000000.

(** [a] is [fetch_addr_next]. *)
Definition step (a : Z) (r : request) (e : cycle_env) (mem_rline : Z -> Z) (s : regs) : regs :=
  let '(st, sw, ma) := if rst e then (S_INIT, 0, 0) else next_state s r e in
  let clash i := wr_en s e && (i =? wr_idx s) in
  let tag_clash i := tag_we s e && (i =? tag_waddr s) in
  {| dat_even := if wr_en s e then fupd (dat_even s) (wr_idx s) (wd_even mem_rline) else dat_even s;
     dat_odd := if wr_en s e then fupd (dat_odd s) (wr_idx s) (wd_odd mem_rline) else dat_odd s;
     tagA := if tag_we s e then fupd (tagA s) (tag_waddr s) (tag_wdata s) else tagA s;
     tagB := if tag_we s e then fupd (tagB s) (tag_waddr s) (tag_wdata s) else tagB s;
     q_even := if clash (erow a) then even_undef e else dat_even s (erow a);
     q_odd := if clash (m_idx a) then odd_undef e else dat_odd s (m_idx a);
     q_tagA := if tag_clash (m_idx a) then tagA_undef e else tagA s (m_idx a);
     q_tagB := if tag_clash (idxB a) then tagB_undef e else tagB s (idxB a);
     q_esel := if rst e then 0 else esel a;
     q_osel := if rst e then 0 else osel a;
     q_unal := if rst e then false else bit 1 a;
     q_a := if rst e then RESET_PC else a;
     state := st; sweep_cnt := sw; miss_addr_q := ma |}.

(** Out of reset: the arrays and their output registers hold anything. *)
Definition reset (s : regs) : regs :=
  {| dat_even := dat_even s; dat_odd := dat_odd s; tagA := tagA s; tagB := tagB s;
     q_even := q_even s; q_odd := q_odd s; q_tagA := q_tagA s; q_tagB := q_tagB s;
     q_esel := 0; q_osel := 0; q_unal := false; q_a := RESET_PC;
     state := S_INIT; sweep_cnt := 0; miss_addr_q := 0 |}.

Lemma icache_step_rst (a : Z) (r : request) (e : cycle_env) (l : Z -> Z) (s : regs) :
  rst e = true -> step a r e l s = reset (step a r e l s).
Proof. intros Hr. unfold step. by rewrite Hr. Qed.
End Icache.

Section Proofs.
Context `{DcGeom} `{!DcGeomOk}.
Hypothesis line16 : LINE_BYTES = 16.

Lemma is_state_iff (s : regs) (x : fsm_state) : is_state s x = true <-> state s = x.
Proof. unfold is_state. apply bool_decide_eq_true. Qed.
Lemma is_state_not (s : regs) (x : fsm_state) : state s <> x -> is_state s x = false.
Proof. unfold is_state. intros. by apply bool_decide_eq_false_2. Qed.

(** ** The two halfwords of a fetch

    The even bank is read at [even_addr a], the odd one at [odd_addr a]. *)

Definition even_addr (a : Z) : Z := if bit 1 a then a + 2 else a.
Definition odd_addr (a : Z) : Z := if bit 1 a then a else a + 2.

Lemma word_split (a : Z) : word a = 4 * m_idx a + (a / 4) mod 4.
Proof.
  unfold word, m_idx. rewrite line16. pose proof NUM_SETS_pos.
  rewrite Z.rem_mul_r, Z.div_div by lia. change (4 * 4) with 16. lia.
Qed.

Lemma word_next (a : Z) : word (a + 4) = (word a + 1) mod (4 * NUM_SETS).
Proof.
  unfold word. pose proof NUM_SETS_pos. rewrite Zplus_mod_idemp_l. do 2 f_equal. divlia.
Qed.

Lemma odd_bank (a : Z) : a mod 2 = 0 ->
  m_idx a = m_idx (odd_addr a) /\ osel a = (odd_addr a / 4) mod 4 /\ odd_addr a mod 4 = 2.
Proof.
  intros Ha. unfold odd_addr, osel. rewrite bit1_mod4, word_split.
  assert ((4 * m_idx a + (a / 4) mod 4) mod 4 = (a / 4) mod 4) as -> by (generalize (m_idx a); intros; divlia).
  destruct (Z.leb_spec 2 (a mod 4)).
  - split_and!; [done..|divlia].
  - assert ((a + 2) / 4 = a / 4) as E by divlia. rewrite E. split_and!; [|done|divlia].
    unfold m_idx. rewrite line16. f_equal. divlia.
Qed.

Lemma even_bank (a : Z) : a mod 2 = 0 ->
  erow a = m_idx (even_addr a) /\ esel a = (even_addr a / 4) mod 4 /\ even_addr a mod 4 = 0.
Proof.
  intros Ha. unfold erow, esel, eword, even_addr. rewrite bit1_mod4. pose proof NUM_SETS_pos as Hn.
  assert (forall b, word b / 4 = m_idx b /\ word b mod 4 = (b / 4) mod 4) as Hw.
  { intros b. rewrite word_split. generalize (m_idx b). intros. split; divlia. }
  destruct (Z.leb_spec 2 (a mod 4)); cbn [Z.b2z].
  - rewrite <-word_next. destruct (Hw (a + 4)) as [-> ->]. unfold m_idx. rewrite line16.
    assert ((a + 4) / 4 = (a + 2) / 4 /\ (a + 4) / 16 = (a + 2) / 16) as [-> ->] by (split; divlia).
    split_and!; [done..|divlia].
  - rewrite Z.add_0_r. unfold word. rewrite Z.mod_mod by lia. destruct (Hw a) as [E1 E2]. unfold word in E1, E2.
    rewrite E1, E2. split_and!; [done..|divlia].
Qed.

(** The second line of a fetch that crosses is the line of [a + 2]. *)
Lemma crosses_spec (a : Z) : a mod 2 = 0 -> crosses a = (a mod 16 =? 14).
Proof.
  intros Ha. unfold crosses. rewrite line16. change (16 / 2) with 8. change (8 - 1) with 7.
  destruct (Z.eqb_spec ((a / 2) mod 8) 7), (Z.eqb_spec (a mod 16) 14); try done; divlia.
Qed.

Lemma next_line (a : Z) : a mod 2 = 0 ->
  if crosses a then idxB a = m_idx (a + 2)
  else m_idx (a + 2) = m_idx a /\ m_tag (a + 2) = m_tag a.
Proof.
  intros Ha. unfold idxB. rewrite crosses_spec by done. pose proof NUM_SETS_pos as Hn.
  unfold m_idx, m_tag. rewrite line16. destruct (Z.eqb_spec (a mod 16) 14); cbn [Z.b2z].
  - rewrite Zplus_mod_idemp_l. f_equal. divlia.
  - assert ((a + 2) / 16 = a / 16) as E by divlia. rewrite E. split; [done|].
    rewrite <-!Z.div_div by lia. by rewrite E.
Qed.

(** ** The arrays hold the memory *)

Variable cm : mem.
Variable fixed : Z -> Prop.

(** The line that entry [e] of set [k] names. *)
Definition line_ok (s : regs) (k : Z) (e : bool * Z) : Prop :=
  e.1 = true -> forall h, 0 <= h < 4 ->
    let b := line_addr e.2 k + 4 * h in
    (fixed b -> fixed (b + 1) -> dat_even s k h = mem_half cm b) /\
    (fixed (b + 2) -> fixed (b + 3) -> dat_odd s k h = mem_half cm (b + 2)).

Definition swept (s : regs) (k : Z) : Prop :=
  0 <= k < NUM_SETS /\ (state s = S_INIT -> k < sweep_cnt s).

(** The output registers show the arrays at [q_a]. *)
Record fresh (s : regs) : Prop := {
  fr_even : q_even s = dat_even s (erow (q_a s));
  fr_odd : q_odd s = dat_odd s (m_idx (q_a s));
  fr_tagA : q_tagA s = tagA s (m_idx (q_a s));
  fr_tagB : q_tagB s = tagB s (idxB (q_a s));
  fr_esel : q_esel s = esel (q_a s);
  fr_osel : q_osel s = osel (q_a s);
  fr_unal : q_unal s = bit 1 (q_a s);
}.

Record icache_ok (s : regs) : Prop := {
  ok_lines : forall k, swept s k -> line_ok s k (tagA s k) /\ line_ok s k (tagB s k);
  ok_sweep : state s = S_INIT -> 0 <= sweep_cnt s < NUM_SETS;
  ok_fill : state s = S_FILL -> miss_addr_q s mod 16 = 0;
  ok_fresh : state s = S_IDLE -> fresh s;
}.

Lemma step_quiet (a : Z) (r : request) (e : cycle_env) (l : Z -> Z) (s : regs) :
  rst e = false -> tag_we s e = false -> wr_en s e = false ->
  dat_even (step a r e l s) = dat_even s /\ dat_odd (step a r e l s) = dat_odd s /\
  tagA (step a r e l s) = tagA s /\ tagB (step a r e l s) = tagB s /\ fresh (step a r e l s).
Proof.
  intros Hr Ht Hw. unfold step. rewrite Hr, Ht, Hw. destruct (next_state s r e) as [[? ?] ?].
  cbn [andb]. by split_and!; try split.
Qed.

Lemma line_of_aligned (a : Z) : line_of a mod 16 = 0.
Proof. unfold line_of. rewrite line16. apply Z.mod_mul. lia. Qed.

Lemma step_state (a : Z) (r : request) (e : cycle_env) (l : Z -> Z) (s : regs) :
  rst e = false ->
  (state (step a r e l s), sweep_cnt (step a r e l s), miss_addr_q (step a r e l s)) = next_state s r e.
Proof. intros Hr. unfold step. rewrite Hr. by destruct (next_state s r e) as [[? ?] ?]. Qed.

Lemma line_ok_same (s s' : regs) (k : Z) (e : bool * Z) :
  dat_even s' k = dat_even s k -> dat_odd s' k = dat_odd s k -> line_ok s k e -> line_ok s' k e.
Proof. intros E1 E2 Hk Hv h Hh. specialize (Hk Hv h Hh). cbn zeta in *. by rewrite E1, E2. Qed.

(** Cycles that write nothing. *)
Lemma no_write_ok (a : Z) (r : request) (e : cycle_env) (l : Z -> Z) (s : regs) :
  rst e = false -> state s <> S_INIT -> wr_en s e = false -> icache_ok s -> icache_ok (step a r e l s).
Proof.
  intros Hr Hs Hw [Hl _ Hf _]. pose proof (step_state a r e l s Hr) as Est.
  destruct (step_quiet a r e l s Hr) as (E1 & E2 & E3 & E4 & Hfr); [|done|];
    [unfold tag_we, init_en; rewrite Hw, is_state_not by done; done|].
  assert (state (step a r e l s) <> S_INIT) as Hn.
  { apply (f_equal (fun p => p.1.1)) in Est. cbn [fst] in Est. rewrite Est. unfold next_state.
    destruct (state s); [done|..]; repeat case_match; done. }
  split; [|done| |by intros _].
  - intros k [Hk _]. rewrite E3, E4. destruct (Hl k) as [HA HB]; [by split|].
    split; apply (line_ok_same s); by rewrite ?E1, ?E2.
  - intros Hs'. apply (f_equal (fun p => (p.1.1, p.2))) in Est. cbn [fst snd] in Est.
    injection Est as E5 E6. rewrite Hs' in E5. rewrite E6. unfold next_state in *.
    destruct (state s); [done|..]; try (repeat case_match; done); [|].
    + repeat case_match; try done. cbn [fst snd]. unfold miss_addr. case_match; apply line_of_aligned.
    + by apply Hf.
Qed.

(** The refill, from a memory that agrees with [cm] on fixed bytes. *)
Lemma fill_ok (a : Z) (r : request) (e : cycle_env) (l : Z -> Z) (s : regs) :
  rst e = false -> wr_en s e = true -> (forall o, fixed (mem_req_addr s + o) -> l o = cm (mem_req_addr s + o)) ->
  icache_ok s -> icache_ok (step a r e l s).
Proof.
  intros Hr Hw Hm [Hl _ Hf _]. pose proof (step_state a r e l s Hr) as Est.
  pose proof Hw as [Hs Hrdy]%andb_true_iff. apply is_state_iff in Hs.
  unfold next_state in Est. rewrite Hs, Hrdy in Est. injection Est as E1 E2 E3.
  split; try (by rewrite E1). intros k Hk. unfold swept in Hk. destruct Hk as [Hk _].
  assert (tag_we s e = true) as Ht by (unfold tag_we; by rewrite Hw, orb_true_r).
  assert (init_en s = false) as Hi by (apply is_state_not; by rewrite Hs).
  assert (Hd : dat_even (step a r e l s) = fupd (dat_even s) (wr_idx s) (wd_even l) /\
    dat_odd (step a r e l s) = fupd (dat_odd s) (wr_idx s) (wd_odd l) /\
    tagA (step a r e l s) = fupd (tagA s) (wr_idx s) (true, wr_tag s) /\
    tagB (step a r e l s) = fupd (tagB s) (wr_idx s) (true, wr_tag s)).
  { unfold step, tag_waddr, tag_wdata. rewrite Hr, Hw, Ht, Hi. by destruct (next_state s r e) as [[? ?] ?]. }
  destruct Hd as (D1 & D2 & D3 & D4). rewrite D3, D4. unfold fupd at 1 2.
  destruct (Z.eqb_spec k (wr_idx s)) as [->|Hne].
  - assert (line_ok (step a r e l s) (wr_idx s) (true, wr_tag s)) as Hok; [|by split].
    intros _ h Hh. cbn [snd]. cbn zeta. rewrite D1, D2, !fupd_eq. unfold wr_tag, wr_idx.
    assert (line_addr (m_tag (miss_addr_q s)) (m_idx (miss_addr_q s)) = mem_req_addr s) as ->.
    { rewrite line_addr_decode, line16. unfold mem_req_addr. specialize (Hf Hs). divlia. }
    unfold wd_even, wd_odd, half_of, mem_half, mem_byte.
    rewrite <-!Z.add_assoc. change (2 + 1) with 3. by split; intros F0 F1; rewrite !Hm.
  - destruct (Hl k) as [HA HB]; [split; [done|by rewrite Hs]|].
    split; apply (line_ok_same s); by rewrite ?D1, ?D2, ?fupd_ne by done.
Qed.

(** The sweep after reset. *)
Lemma sweep_ok (a : Z) (r : request) (e : cycle_env) (l : Z -> Z) (s : regs) :
  rst e = false -> state s = S_INIT -> icache_ok s -> icache_ok (step a r e l s).
Proof.
  intros Hr Hs [Hl Hsw _ _]. pose proof (step_state a r e l s Hr) as Est. specialize (Hsw Hs).
  unfold next_state in Est. rewrite Hs in Est. injection Est as E1 E2 _.
  assert (wr_en s e = false) as Hw by (unfold wr_en; by rewrite is_state_not by (by rewrite Hs)).
  assert (init_en s = true) as Hi by (by apply is_state_iff).
  assert (Hd : dat_even (step a r e l s) = dat_even s /\ dat_odd (step a r e l s) = dat_odd s /\
    tagA (step a r e l s) = fupd (tagA s) (sweep_cnt s) (false, 0) /\
    tagB (step a r e l s) = fupd (tagB s) (sweep_cnt s) (false, 0)).
  { unfold step, tag_we, tag_waddr, tag_wdata. rewrite Hr, Hw, Hi. by destruct (next_state s r e) as [[? ?] ?]. }
  destruct Hd as (D1 & D2 & D3 & D4). split.
  - intros k [Hk Hk']. rewrite D3, D4. unfold fupd. destruct (Z.eqb_spec k (sweep_cnt s)); [by split|].
    destruct (Hl k) as [HA HB].
    + split; [done|]. intros _. rewrite E1 in Hk'. destruct (Z.eqb_spec (sweep_cnt s) (NUM_SETS - 1)); [lia|].
      specialize (Hk' eq_refl). rewrite E2, Z.mod_small in Hk' by lia. lia.
    + split; apply (line_ok_same s); by rewrite ?D1, ?D2.
  - intros _. rewrite E2. apply Z.mod_pos_bound, NUM_SETS_pos.
  - rewrite E1. by case_match.
  - rewrite E1. by case_match.
Qed.

Lemma step_ok (a : Z) (r : request) (e : cycle_env) (l : Z -> Z) (s : regs) :
  rst e = false -> (forall o, fixed (mem_req_addr s + o) -> l o = cm (mem_req_addr s + o)) ->
  icache_ok s -> icache_ok (step a r e l s).
Proof.
  intros Hr Hm Hok. destruct (fsm_state_eq_dec (state s) S_INIT); [by apply sweep_ok|].
  destruct (wr_en s e) eqn:Hw; [by apply fill_ok|by apply no_write_ok].
Qed.

Lemma reset_ok (s : regs) : icache_ok (reset s).
Proof.
  pose proof NUM_SETS_pos. split; cbn [reset state sweep_cnt]; try done.
  intros k [Hk Hs]. specialize (Hs eq_refl). cbn [reset sweep_cnt] in Hs. lia.
Qed.

(** ** A fetch *)

Lemma line_ok_half (s : regs) (k : Z) (e : bool * Z) (b : Z) :
  line_ok s k e -> k = m_idx b -> tag_is e (m_tag b) = true -> fixed b -> fixed (b + 1) ->
  (b mod 4 = 0 -> dat_even s k ((b / 4) mod 4) = mem_half cm b) /\
  (b mod 4 = 2 -> dat_odd s k ((b / 4) mod 4) = mem_half cm b).
Proof.
  intros Hl -> [Hv Ht]%andb_true_iff F0 F1. apply Z.eqb_eq in Ht.
  specialize (Hl Hv ((b / 4) mod 4) ltac:(apply Z.mod_pos_bound; lia)). cbn zeta in Hl.
  rewrite Ht, line_addr_decode, line16 in Hl. destruct Hl as [G0 G2]. split; intros Hb.
  - assert (b / 16 * 16 + 4 * ((b / 4) mod 4) = b) as E by divlia. rewrite E in G0. by apply G0.
  - assert (b / 16 * 16 + 4 * ((b / 4) mod 4) + 2 = b) as E by divlia.
    assert (b / 16 * 16 + 4 * ((b / 4) mod 4) + 3 = b + 1) as E' by divlia. rewrite E, E' in G2. by apply G2.
Qed.

(** What the tag compares confirm, for the address that was speculated. *)
Lemma index_bits_even (a b : Z) :
  a mod 2 = 0 -> b mod 2 = 0 ->
  (a / 2) mod (LINE_BYTES / 2 * NUM_SETS) = (b / 2) mod (LINE_BYTES / 2 * NUM_SETS) ->
  erow a = erow b /\ esel a = esel b /\ osel a = osel b /\ bit 1 a = bit 1 b /\ m_idx a = m_idx b /\ idxB a = idxB b.
Proof.
  clear fixed. intros Ha Hb. rewrite line16. change (16 / 2) with 8. pose proof NUM_SETS_pos as Hn. intros E.
  assert (exists q, a = b + 16 * NUM_SETS * q) as [q ->].
  { exists (a / 2 / (8 * NUM_SETS) - b / 2 / (8 * NUM_SETS)).
    pose proof (Z.div_mod (a / 2) (8 * NUM_SETS)). pose proof (Z.div_mod (b / 2) (8 * NUM_SETS)).
    assert (a = 2 * (a / 2) /\ b = 2 * (b / 2)) as [Ea Eb] by (split; divlia). nia. }
  clear E Ha.
  assert (bit 1 (b + 16 * NUM_SETS * q) = bit 1 b) as Eb.
  { rewrite !bit1_mod4. replace (b + 16 * NUM_SETS * q) with (b + (4 * NUM_SETS * q) * 4) by lia.
    by rewrite Z.mod_add by lia. }
  assert (word (b + 16 * NUM_SETS * q) = word b) as Ew.
  { unfold word. replace (b + 16 * NUM_SETS * q) with (b + (4 * NUM_SETS * q) * 4) by lia. rewrite Z.div_add by lia.
    replace (b / 4 + 4 * NUM_SETS * q) with (b / 4 + q * (4 * NUM_SETS)) by lia. by rewrite Z.mod_add by lia. }
  assert (m_idx (b + 16 * NUM_SETS * q) = m_idx b) as Ei.
  { unfold m_idx. rewrite line16. replace (b + 16 * NUM_SETS * q) with (b + (NUM_SETS * q) * 16) by lia.
    rewrite Z.div_add by lia. replace (b / 16 + NUM_SETS * q) with (b / 16 + q * NUM_SETS) by lia.
    by rewrite Z.mod_add by lia. }
  assert (crosses (b + 16 * NUM_SETS * q) = crosses b) as Ec.
  { unfold crosses. rewrite line16. replace (b + 16 * NUM_SETS * q) with (b + (8 * NUM_SETS * q) * 2) by lia.
    rewrite Z.div_add by lia. replace (b / 2 + 8 * NUM_SETS * q) with (b / 2 + NUM_SETS * q * 8) by lia.
    change (16 / 2) with 8. by rewrite Z.mod_add by lia. }
  unfold erow, esel, eword, osel, idxB. by rewrite Eb, Ew, Ei, Ec.
Qed.

Lemma index_bits (a b : Z) :
  b mod 2 = 0 ->
  (a / 2) mod (LINE_BYTES / 2 * NUM_SETS) = (b / 2) mod (LINE_BYTES / 2 * NUM_SETS) ->
  erow a = erow b /\ esel a = esel b /\ osel a = osel b /\ bit 1 a = bit 1 b /\ m_idx a = m_idx b /\ idxB a = idxB b.
Proof.
  clear fixed. intros Hb E. set (a' := 2 * (a / 2)).
  assert (a' / 2 = a / 2 /\ a' / 4 = a / 4 /\ a' / 16 = a / 16 /\ a' mod 2 = 0 /\ (2 <=? a' mod 4) = (2 <=? a mod 4))
    as (E2 & E4 & E16 & Ep & Eb).
  { unfold a'. split_and!; [divlia..|].
    destruct (Z.leb_spec 2 (2 * (a / 2) mod 4)), (Z.leb_spec 2 (a mod 4)); try done; divlia. }
  rewrite <-E2 in E. pose proof (index_bits_even a' b Ep Hb E) as Hr. clear E.
  unfold erow, esel, eword, osel, idxB, crosses, word, m_idx in *. rewrite !bit1_mod4, line16 in *.
  by rewrite Eb, E2, E4, E16 in Hr.
Qed.

Lemma fetch_hits (s : regs) (r : request) :
  let a := fetch_addr r in
  icache_ok s -> fetch_ready s r = true -> a mod 2 = 0 -> a + 2 < 2 ^ 32 -> 0 <= a ->
  (exists e, line_ok s (m_idx (even_addr a)) e /\ tag_is e (m_tag (even_addr a)) = true) /\
  (exists e, line_ok s (m_idx (odd_addr a)) e /\ tag_is e (m_tag (odd_addr a)) = true) /\
  he s = dat_even s (m_idx (even_addr a)) ((even_addr a / 4) mod 4) /\
  ho s = dat_odd s (m_idx (odd_addr a)) ((odd_addr a / 4) mod 4) /\
  q_unal s = bit 1 a.
Proof.
  intros a Hok Hrdy Ha Hlt Hpos. unfold fetch_ready in Hrdy.
  apply andb_true_iff in Hrdy as [[[[Hst%is_state_iff _]%andb_true_iff Hsp%Z.eqb_eq]%andb_true_iff HA]%andb_true_iff HB].
  destruct Hok as [Hl _ _ Hf]. destruct (Hf Hst) as [F1 F2 F3 F4 F5 F6 F7].
  destruct (index_bits _ _ Ha Hsp) as (E1 & E2 & E3 & E4 & E5 & E6). fold a in E1, E2, E3, E4, E5, E6.
  unfold hitA in HA. unfold hitB, fa2 in HB. fold a in HA, HB.
  assert (u32 (a + 2) = a + 2) as Eu by (apply uwrap_id; unfold is_uint; lia). rewrite Eu in HB.
  rewrite F3, E5 in HA. rewrite F4, E6 in HB.
  assert (forall k, 0 <= k < NUM_SETS -> swept s k) as Hsw by (split; [done|by rewrite Hst]).
  pose proof (Hl (m_idx a) (Hsw _ (m_idx_range a))) as [LA _].
  assert (Hnext : exists e, line_ok s (m_idx (a + 2)) e /\ tag_is e (m_tag (a + 2)) = true).
  { pose proof (next_line a Ha) as Hn. destruct (crosses a).
    - exists (tagB s (idxB a)). cbn [negb orb] in HB. split; [|done]. rewrite Hn. apply Hl, Hsw, m_idx_range.
    - destruct Hn as [-> ->]. by exists (tagA s (m_idx a)). }
  assert (Hthis : exists e, line_ok s (m_idx a) e /\ tag_is e (m_tag a) = true) by (by exists (tagA s (m_idx a))).
  destruct (even_bank a Ha) as (G1 & G2 & _), (odd_bank a Ha) as (G3 & G4 & _).
  split_and!.
  1-2: unfold even_addr, odd_addr; by destruct (bit 1 a).
  - unfold he. by rewrite F1, F5, E1, E2, G1, G2.
  - unfold ho. by rewrite F2, F6, E3, E5, G4, <-G3.
  - by rewrite F7, E4.
Qed.

Lemma fetch_correct (s : regs) (r : request) :
  let a := fetch_addr r in
  icache_ok s -> fetch_ready s r = true -> a mod 2 = 0 -> a + 2 < 2 ^ 32 -> 0 <= a ->
  (forall k, 0 <= k < 4 -> fixed (a + k)) -> fetch_rdata s = mem_word cm a.
Proof.
  intros a Hok Hrdy Ha Hlt Hpos Hfix.
  destruct (fetch_hits s r Hok Hrdy Ha Hlt Hpos) as ((e1 & L1 & T1) & (e2 & L2 & T2) & H1 & H2 & H3).
  fold a in L1, T1, L2, T2, H1, H2, H3. destruct (even_bank a Ha) as (_ & _ & M1), (odd_bank a Ha) as (_ & _ & M2).
  pose proof (Hfix 0 ltac:(lia)) as F0. pose proof (Hfix 1 ltac:(lia)) as F1.
  pose proof (Hfix 2 ltac:(lia)) as F2. pose proof (Hfix 3 ltac:(lia)) as F3. rewrite Z.add_0_r in F0.
  replace (a + 3) with (a + 2 + 1) in F3 by lia.
  assert (he s = mem_half cm (even_addr a) /\ ho s = mem_half cm (odd_addr a)) as [Ee Eo].
  { rewrite H1, H2. split; [eapply (line_ok_half _ _ e1)|eapply (line_ok_half _ _ e2)]; try done;
      unfold even_addr, odd_addr; by destruct (bit 1 a). }
  unfold fetch_rdata. rewrite H3, Ee, Eo, !two_halves. unfold even_addr, odd_addr, mem_word.
  assert (forall b, mem_half cm b mod 2 ^ 16 = mem_half cm b) as Er.
  { intros b. apply Z.mod_small. unfold mem_half. pose proof (mem_byte_range cm b).
    pose proof (mem_byte_range cm (b + 1)). eval_pow2. lia. }
  rewrite !Er. by destruct (bit 1 a).
Qed.
End Proofs.

(** ** Any sequence of cycles *)

(** A cycle: the fetch and the speculated next address, the rest of the inputs,
    and the memory behind the line port. *)
Record cycle : Type := mk_cycle { c_next : Z; c_fetch : request; c_env : cycle_env; c_mem : mem }.

Section Cycles.
Context `{DcGeom}.

Definition cycle_clock (c : cycle) (s : regs) : regs :=
  step (c_next c) (c_fetch c) (c_env c) (fun o => c_mem c (mem_req_addr s + o)) s.
Fixpoint cycles (cs : list cycle) (s : regs) : regs :=
  match cs with [] => s | c :: cs => cycles cs (cycle_clock c s) end.

(** Out of reset, and the memory keeps the bytes [fixed] as they are in [cm]. *)
Definition cycle_ok (cm : mem) (fixed : Z -> Prop) (c : cycle) : Prop :=
  rst (c_env c) = false /\ forall b, fixed b -> c_mem c b = cm b.
End Cycles.

Lemma cycles_ok `{DcGeom} `{!DcGeomOk} (cm : mem) (fixed : Z -> Prop) (cs : list cycle) (s : regs) :
  LINE_BYTES = 16 -> Forall (cycle_ok cm fixed) cs -> icache_ok cm fixed s -> icache_ok cm fixed (cycles cs s).
Proof.
  intros Hl Hcs. induction Hcs as [|c cs [Hr Hm] _ IH] in s |- *; intros Hs; [done|]. cbn [cycles].
  apply IH, step_ok; [done|done| |done]. intros o. apply Hm.
Qed.

(** C21: a ready fetch shows the memory.  After any cycles from reset, whatever
    the arrays held, whatever addresses were fetched and speculated, however
    long refills took and whatever the RAMs return where they are written in
    the same cycle: a ready fetch of four bytes that the memory does not change
    returns them, at any even address, in one line or across two. *)
Theorem icache_serves_memory `{DcGeom} `{!DcGeomOk} (cm : mem) (fixed : Z -> Prop) (cs : list cycle) (s : regs) (r : request) :
  LINE_BYTES = 16 -> Forall (cycle_ok cm fixed) cs ->
  let a := fetch_addr r in
  let s' := cycles cs (reset s) in
  fetch_ready s' r = true -> a mod 2 = 0 -> 0 <= a -> a + 2 < 2 ^ 32 ->
  (forall k, 0 <= k < 4 -> fixed (a + k)) ->
  fetch_rdata s' = mem_word cm a.
Proof.
  intros Hl Hcs a s' Hr Ha Hpos Hlt Hfix. apply (fetch_correct Hl cm fixed s' r); try done.
  by apply cycles_ok, reset_ok.
Qed.

(** A fetch that crosses from the line at 0x110 into the line at 0x120. *)
Module IcacheWitness.
#[local] Instance geom_tiny : DcGeom := {| OFF := 4; IDX := 1 |}.
#[local] Instance geom_tiny_ok : DcGeomOk.
Proof. split; cbn; lia. Qed.
Definition code_mem : mem := fun b => b mod 251.
Definition fetch : request := mk_request true 0x11E.
Definition any_regs : regs :=
  mk_regs (fun _ _ => 1) (fun _ _ => 2) (fun _ => (true, 8)) (fun _ => (true, 9)) (fun _ => 3) (fun _ => 4) (true, 8) (true, 9)
    1 2 true 0x11E S_FILL 1 0x44.
Definition answers (b : bool) : cycle :=
  mk_cycle 0x11E fetch (mk_env false b (fun _ => 5) (fun _ => 6) (true, 8) (true, 9)) code_mem.
(** The sweep, and two refills with a memory that is ready every second cycle. *)
Definition held : list cycle := map answers [false; true; false; true; false; true; false; true; false; true; true; true].

Lemma icache_serves_memory_witness :
  fetch_ready (cycles held (reset any_regs)) fetch = true /\
  fetch_rdata (cycles held (reset any_regs)) = mem_word code_mem 0x11E.
Proof.
  split; [vm_compute; reflexivity|].
  apply (icache_serves_memory code_mem (fun _ => True) held any_regs fetch).
  - reflexivity.
  - repeat constructor.
  - vm_compute; reflexivity.
  - reflexivity.
  - vm_compute; discriminate.
  - vm_compute; reflexivity.
  - done.
Defined.
End IcacheWitness.
