(* ===== verification/DcachePort.v ===== *)
(** * The data cache as the pipeline sees it

    The invariant of a cycle of [DcacheFsm] with a request on the port
    ([serving]), and what one cycle does for it ([port_cycle]): a ready cycle
    performs the access on the bytes that [Dcache.view] shows, every other
    cycle leaves them alone. *)

From S2P Require Import Prelude Dcache DcacheFsm.

Section Port.
Context `{DcGeom} `{!DcGeomOk}.
Hypothesis four_banks : LINE_BYTES = 16.

(** Out of reset: arrays and data registers hold anything. *)
Definition reset_regs (s : regs) : regs :=
  {| d := d s; tagv := tagv s; dirty := dirty s; q := q s; q_tagv := q_tagv s; q_a_idx := q_a_idx s;
     state := S_INIT; sweep_cnt := 0; miss_idx := 0; miss_tag := 0; wb_tag := wb_tag s; wb_line := wb_line s;
     byp_v := false; byp_word := byp_word s; byp_be := byp_be s; byp_data := byp_data s |}.

Lemma dcache_step_rst (a_idx : Z) (r : request) (e : cycle_env) (l : Z -> Z) (s : regs) :
  rst e = true -> step a_idx r e l s = reset_regs (step a_idx r e l s).
Proof. intros Hr. unfold step. by rewrite Hr. Qed.

(** The sweep after reset. *)
Definition sweeping (sm : regs * mem) (x : memsys) : Prop :=
  state sm.1 = S_INIT /\ 0 <= sweep_cnt sm.1 < NUM_SETS /\
  (forall k, 0 <= k < sweep_cnt sm.1 -> (tagv sm.1 k).1 = false) /\
  (forall k, dc_valid x k = false) /\ forall b, sm.2 b = dram x b.

Definition serving (x : memsys) (r : request) (sm : regs * mem) : Prop :=
  sweeping sm x \/ (state sm.1 = S_RECHECK /\ abs sm x) \/ at_rest sm x \/
  (cpu_req_valid r = true /\ (capturing r sm x \/ writing_back r sm x \/ filling r sm x)).

Lemma reset_serving (s : regs) (m : mem) (r : request) : serving (dc_reset m) r (reset_regs s, m).
Proof. left. pose proof NUM_SETS_pos. split_and!; cbn; try done; try lia. Qed.

(** ** The bytes of a word access *)

Definition all_coherent (x : memsys) : Prop := forall b, coherent x b.

Lemma same_word_line (a b : Z) : b / 4 = a / 4 -> m_idx b = m_idx a /\ m_tag b = m_tag a.
Proof.
  intros E. assert (b / 16 = a / 16) as E16 by divlia. unfold m_idx, m_tag. rewrite four_banks.
  pose proof NUM_SETS_pos. split; [by rewrite E16|]. rewrite <-!Z.div_div by lia. by rewrite E16.
Qed.

Lemma word_bank (a b : Z) :
  m_idx b = m_idx a -> m_tag b = m_tag a -> (m_bank a =? m_off b / 4) = (b / 4 =? a / 4).
Proof.
  intros Ei Et. assert (b / 16 = a / 16) as E.
  { pose proof (line_number a). pose proof (line_number b). rewrite four_banks in *. congruence. }
  unfold m_bank, m_off. rewrite four_banks.
  destruct (Z.eqb_spec (a mod 16 / 4) (b mod 16 / 4)), (Z.eqb_spec (b / 4) (a / 4)); try done; divlia.
Qed.

Lemma word_access_view (r : request) (x : memsys) :
  all_coherent x ->
  let a := cpu_req_addr r in
  let y := (word_access r x).2 in
  all_coherent y /\
  (forall b, view y b = if cpu_req_write r && (b / 4 =? a / 4) && cpu_wmask r (b mod 4)
                        then cpu_wdata r (b mod 4) else view x b) /\
  (forall l, 0 <= l < 4 -> (word_access r x).1 l = view x (4 * (a / 4) + l)).
Proof.
  intros Hc a y. set (z := ensure x a).
  assert (forall b, view z b = view x b /\ coherent z b) as Hz by (intros b; apply ensure_view, Hc).
  assert (hit z a = true) as Hha by apply ensure_hit.
  assert (Hw : forall b, b / 4 = a / 4 -> hit z b = true).
  { intros b Eb. destruct (same_word_line a b Eb) as [Ei Et]. unfold hit in *. by rewrite Ei, Et. }
  assert (forall b, m_off b mod 4 = b mod 4) as Hoff by (intros b; unfold m_off; rewrite four_banks; divlia).
  assert (forall l, 0 <= l < 4 -> (word_access r x).1 l = view x (4 * (a / 4) + l)) as Hl.
  { intros l Hl. destruct (Hz (4 * (a / 4) + l)) as [<- _]. assert ((4 * (a / 4) + l) / 4 = a / 4) as E by divlia.
    unfold view. rewrite Hw by done. destruct (same_word_line _ _ E) as [-> _]. unfold word_access. cbn [fst].
    fold a z. f_equal. unfold m_bank, m_off. rewrite four_banks. divlia. }
  destruct (cpu_req_write r) eqn:Ew; cbn [andb]; [|unfold y, word_access; fold a z; rewrite Ew; cbn [snd];
    split_and!; [intros b; apply Hz|intros b; apply Hz|done]].
  assert (forall b, hit y b = hit z b) as Hh by (intros b; unfold y, word_access; rewrite Ew; done).
  assert (forall b, m_tag b = m_tag a \/ m_idx b <> m_idx a \/ hit z b = false) as Hcases.
  { intros b. destruct (decide (m_idx b = m_idx a)) as [Ei|]; [|by right; left].
    destruct (hit z b) eqn:E; [left|by right; right]. unfold hit in *. rewrite Ei in E.
    apply andb_true_iff in Hha as [_ Ha%Z.eqb_eq], E as [_ Eb%Z.eqb_eq]. congruence. }
  assert (forall b, m_idx b <> m_idx a -> view y b = view z b /\ coherent y b /\ (b / 4 =? a / 4) = false) as Hother.
  { intros b Hb. split_and!; [..|apply Z.eqb_neq; intros E; by destruct (same_word_line a b E)].
    - unfold view. rewrite Hh. destruct (hit z b); unfold y, word_access; rewrite Ew; cbn [snd dc_data dram]; [|done].
      by rewrite fupd_ne.
    - destruct (Hz b) as [_ Hcb]. unfold coherent, view, wbval in *. rewrite Hh.
      unfold y, word_access; rewrite Ew; cbn [snd dc_data dc_dirty dram]. by rewrite !fupd_ne. }
  assert (forall b, hit z b = false -> view y b = view z b /\ coherent y b /\ (b / 4 =? a / 4) = false) as Hmiss.
  { intros b Hb. split_and!; [|by apply coherent_nonresident; rewrite Hh|apply Z.eqb_neq; intros E; by rewrite Hw in Hb].
    unfold view. rewrite Hh, Hb. unfold y, word_access. by rewrite Ew. }
  assert (Hsame : forall b, m_idx b = m_idx a -> m_tag b = m_tag a ->
    coherent y b /\ view y b = if (b / 4 =? a / 4) && cpu_wmask r (b mod 4) then cpu_wdata r (b mod 4) else view z b).
  { intros b Ei Et. assert (hit z b = true) as Hb by (unfold hit in *; by rewrite Ei, Et). split.
    - apply coherent_dirty. unfold dirty_at. rewrite Hh, Hb. unfold y, word_access. rewrite Ew. cbn [snd dc_dirty].
      by rewrite Ei, fupd_eq.
    - unfold view. rewrite Hh, Hb. unfold y, word_access. rewrite Ew. cbn [snd dc_data]. fold a z.
      by rewrite Ei, fupd_eq, word_bank, Hoff. }
  split_and!; [| |done]; intros b.
  - destruct (decide (m_idx b = m_idx a)) as [Ei|]; [|by apply Hother].
    destruct (Hcases b) as [Et|[?|Eh]]; [by apply Hsame|done|by apply Hmiss].
  - destruct (Hz b) as [<- _]. destruct (decide (m_idx b = m_idx a)) as [Ei|Ei].
    + destruct (Hcases b) as [Et|[?|Eh]]; [by apply Hsame|done|]. by destruct (Hmiss b Eh) as (-> & _ & ->).
    + by destruct (Hother b Ei) as (-> & _ & ->).
Qed.

(** ** One cycle *)

Lemma settle_cycle (nxt : Z) (r : request) (e : cycle_env) (sm : regs * mem) (x : memsys) :
  rst e = false -> state sm.1 = S_RECHECK -> abs sm x -> at_rest (clock nxt r e sm) x.
Proof.
  intros He Hs [Hx Hm]. destruct sm as [s m]. cbn [fst snd] in *.
  destruct (quiet_step nxt r e (read_line m (mem_req_addr s)) s) as (Hx' & Hf & _ & _ & _ & _ & _ & Hst);
    [apply quiet_state; by rewrite Hs|done|].
  unfold next_state in Hst. rewrite Hs in Hst. injection Hst as Hst _ _. unfold clock.
  rewrite no_write_req by (by rewrite Hs). split; [done|]. split; [done|]. split; [by apply Hx'|done].
Qed.

Lemma sweep_cycle (nxt : Z) (r r' : request) (e : cycle_env) (sm : regs * mem) (x : memsys) :
  rst e = false -> sweeping sm x -> serving x r' (clock nxt r e sm) /\ (clock nxt r e sm).2 = sm.2.
Proof.
  intros He (Hs & Hc & Hclr & Hval & Hm). destruct sm as [s m]. cbn [fst snd] in *.
  destruct (init_cycle nxt r e s m Hs He) as (s1 & -> & Hs1 & Hc1 & Ht1). split; [|done].
  assert (forall k, 0 <= k <= sweep_cnt s -> (tagv s1 k).1 = false) as Hclr'.
  { intros k Hk. rewrite Ht1. unfold fupd. destruct (Z.eqb_spec k (sweep_cnt s)); [done|]. apply Hclr. lia. }
  destruct (Z.eqb_spec (sweep_cnt s) (NUM_SETS - 1)) as [E|E].
  - right. left. split; [done|]. split; [|done]. intros k Hk. rewrite Hval. cbn [fst].
    by rewrite Hclr' by lia.
  - left. assert (sweep_cnt s1 = sweep_cnt s + 1) as E1 by (rewrite Hc1; apply Z.mod_small; lia).
    split_and!; cbn [fst snd]; try done; try lia. intros k Hk. apply Hclr'. lia.
Qed.

(** A miss, from the cycle that finds it to the refill. *)
Lemma miss_cycles (r : request) (e : cycle_env) (sm : regs * mem) (x : memsys) :
  rst e = false -> cpu_req_valid r = true ->
  capturing r sm x \/ writing_back r sm x \/ filling r sm x ->
  let sm' := clock (m_idx (cpu_req_addr r)) r e sm in
  (serving x r sm' \/ serving (ensure x (cpu_req_addr r)) r sm') /\
  forall b, sm'.2 b = sm.2 b \/ sm'.2 b = wbval x b.
Proof.
  intros He Hv Hmiss sm'. set (i := m_idx (cpu_req_addr r)) in *.
  assert (Hkeep : state sm.1 <> S_WB -> sm'.2 = sm.2).
  { intros Hs. unfold sm', clock. destruct sm as [s m]. cbn [snd]. by rewrite no_write_req. }
  destruct Hmiss as [Hc|[Hc|Hc]].
  - pose proof (capture_cycle r e sm x He Hc) as Hn. split.
    + left. do 3 right. split; [done|]. fold i sm' in Hn. destruct (wb_needed x i); auto.
    + intros b. left. rewrite Hkeep; [done|]. destruct Hc as [-> _]. done.
  - pose proof (wb_cycle r e sm x He Hc) as Hn. fold i sm' in Hn. split.
    + left. do 3 right. split; [done|]. destruct (mem_ready e); auto.
    + intros b. destruct Hc as (_ & (_ & _ & _ & _) & Hm & _). destruct (mem_ready e).
      * destruct Hn as (_ & _ & ->). destruct (decide (m_idx b = i)) as [Eb|Hb].
        -- right. fold i. rewrite <-Eb. apply writeback_wbval.
        -- left. rewrite writeback_other by (done || apply m_idx_range). symmetry. apply Hm.
      * left. destruct Hn as (_ & _ & -> & _). symmetry. apply Hm.
  - pose proof (fill_cycle r e sm x He Hc) as Hn. fold i sm' in Hn.
    assert (hit x (cpu_req_addr r) = false) as Hh by (by destruct Hc as (_ & (? & _) & _)). split.
    + destruct (mem_ready e).
      * right. right. left. unfold ensure. by rewrite Hh.
      * left. do 3 right. auto.
    + intros b. left. rewrite Hkeep; [done|]. destruct Hc as [-> _]. done.
Qed.

Lemma waiting_state (x : memsys) (r : request) (sm : regs * mem) :
  cpu_ready sm.1 r = true -> serving x r sm -> cpu_req_valid r = true /\ at_rest sm x.
Proof.
  intros Hr Hs. unfold cpu_ready in Hr. apply andb_true_iff in Hr as [[Hst Hv]%andb_true_iff _].
  unfold is_state in Hst. apply bool_decide_eq_true in Hst. split; [done|].
  destruct Hs as [[Hs _]|[[Hs _]|[Hs|[_ [[Hs _]|[[Hs _]|[Hs _]]]]]]]; [congruence..|done|congruence|congruence|congruence].
Qed.

(** A cycle in which the cache is not ready.  The request is then held. *)
Lemma waiting_cycle (nxt : Z) (r r' : request) (e : cycle_env) (sm : regs * mem) (x : memsys) :
  rst e = false -> serving x r sm -> cpu_ready sm.1 r = false ->
  (cpu_req_valid r = true -> nxt = m_idx (cpu_req_addr r) /\ r' = r) ->
  let sm' := clock nxt r e sm in
  (serving x r' sm' \/ serving (ensure x (cpu_req_addr r)) r' sm') /\
  forall b, sm'.2 b = sm.2 b \/ sm'.2 b = wbval x b.
Proof.
  intros He Hs Hnr Hheld sm'. destruct Hs as [Hs|[[Hs Hx]|[Hs|[Hv Hs]]]].
  - destruct (sweep_cycle nxt r r' e sm x He Hs) as [Hn Em]. fold sm' in Hn, Em. rewrite Em. auto.
  - split; [left; right; right; left; by apply settle_cycle|]. intros b. left.
    unfold sm', clock. destruct sm as [s m]. cbn [fst snd] in *. by rewrite no_write_req by (by rewrite Hs).
  - assert (sm'.2 = sm.2) as Em.
    { destruct Hs as [Hs _]. unfold sm', clock. destruct sm as [s m]. cbn [fst snd] in *.
      by rewrite no_write_req by (by rewrite Hs). }
    rewrite Em. split; [left|auto]. destruct (cpu_req_valid r) eqn:Hv.
    + destruct Hheld as [-> ->]; [done|]. pose proof Hs as (Hst & Hf & Hx & _).
      destruct (spec_ok sm.1 r) eqn:Esp.
      * assert (hit x (cpu_req_addr r) = false) as Hh.
        { rewrite <-(tag_hit_abs sm.1 r x) by done. unfold cpu_ready in Hnr.
          by rewrite (is_state_true _ _ Hst), Hv in Hnr. }
        do 3 right. split; [done|]. left. by apply miss_cycle.
      * right. left. by apply respec_cycle.
    + right. right. left. by apply idle_cycle.
  - destruct (Hheld Hv) as [-> ->]. by apply miss_cycles.
Qed.

(** A ready cycle. *)
Lemma ready_cycle (nxt : Z) (r r' : request) (e : cycle_env) (sm : regs * mem) (x : memsys) :
  rst e = false -> serving x r sm -> cpu_ready sm.1 r = true ->
  (forall l, 0 <= l < 4 -> cpu_rdata sm.1 r l = (word_access r x).1 l) /\
  serving (word_access r x).2 r' (clock nxt r e sm) /\ (clock nxt r e sm).2 = sm.2.
Proof.
  intros He Hs Hr. destruct (waiting_state x r sm Hr Hs) as [Hv Hrest].
  destruct (hit_cycle four_banks r Hv nxt e sm x He Hrest Hr) as [Hd Hn].
  split; [done|]. split; [by right; right; left|]. destruct Hrest as [Hst _]. unfold clock. destruct sm as [s m].
  cbn [fst snd] in *. by rewrite no_write_req by (by rewrite Hst).
Qed.
End Port.
