(* ===== verification/CacheLive.v ===== *)
(** * The caches answer

    A request that is held is answered, whatever state the cache is in, if the
    memory behind it answers every line request at some time; and a cache that
    is ready stays ready while the request is held. *)

From S2P Require Import Prelude Bits Dcache DcacheFsm DcachePort Tcm Icache.

(** ** The data cache *)

Module Data.
Import DcacheFsm.

Section Live.
Context `{DcGeom} `{!DcGeomOk}.
Hypothesis four_banks : LINE_BYTES = 16.
Variable env : nat -> cycle_env.
Hypothesis no_reset : forall t, rst (env t) = false.
Hypothesis mem_answers : forall t, exists k, mem_ready (env (t + k)) = true.
Variable r : request.
Hypothesis valid : cpu_req_valid r = true.
Abbreviation a := (cpu_req_addr r).
Abbreviation held_clock := (clock (m_idx a) r).

(** The held request is answered at some cycle from [t] on. *)
Inductive answered (t : nat) (sm : regs * mem) : Prop :=
  | answered_now : cpu_ready sm.1 r = true -> answered t sm
  | answered_later : answered (S t) (held_clock (env t) sm) -> answered t sm.

Lemma access_answered (fuel t : nat) (nxt : Z) (sm : regs * mem) (res : (Z -> Z) * nat * (regs * mem)) :
  access env fuel t r nxt sm = Some res -> answered t sm.
Proof.
  induction fuel as [|fuel IH] in t, sm |- *; cbn [access]; [done|].
  destruct (cpu_ready sm.1 r) eqn:Hr; [by left|]. intros Ha. right. by apply (IH _ _ Ha).
Qed.

Lemma leads_answered (t t' : nat) (nxt : Z) (sm sm' : regs * mem) :
  leads env r nxt t sm t' sm' -> cpu_ready sm'.1 r = true -> answered t sm.
Proof.
  intros [n L] Hr. specialize (L 1%nat). cbn [access] in L. rewrite Hr in L. by apply access_answered in L.
Qed.

Lemma hit_ready (sm : regs * mem) (x : memsys) :
  at_rest sm x -> spec_ok sm.1 r = true -> hit x a = true -> cpu_ready sm.1 r = true.
Proof.
  intros (Hs & Hf & Hx & _) Hsp Hh. unfold cpu_ready.
  by rewrite (is_state_true sm.1 S_IDLE), valid, (tag_hit_abs sm.1 r x) by done.
Qed.

Lemma rest_answered (t : nat) (sm : regs * mem) (x : memsys) : at_rest sm x -> answered t sm.
Proof.
  intros Hs. destruct (leads_ready env no_reset mem_answers r valid 0 t sm x Hs) as (t' & sm' & L & _ & Hr).
  by apply (leads_answered t t' 0 sm sm').
Qed.

Lemma recheck_answered (t : nat) (sm : regs * mem) (x : memsys) :
  state sm.1 = S_RECHECK -> abs sm x -> answered t sm.
Proof.
  intros Hs Hx. right. eapply rest_answered. by apply (settle_cycle (m_idx a) r (env t) sm x).
Qed.

Lemma miss_answered (t : nat) (sm : regs * mem) (x : memsys) :
  capturing r sm x \/ writing_back r sm x \/ filling r sm x -> answered t sm.
Proof.
  intros Hm.
  assert (refilled env r 0 t sm x) as (t' & sm' & L & Hrest & Hsp).
  { destruct Hm as [Hm|[Hm|Hm]];
      [by apply leads_capturing|by apply leads_writing|by apply leads_filling]. }
  apply (leads_answered t t' 0 sm sm' L). apply (hit_ready sm' (refill x a)); [done..|].
  unfold hit, refill. cbn [dc_valid dc_tag]. by rewrite !fupd_eq, Z.eqb_refl.
Qed.

Lemma sweep_answered (n t : nat) (sm : regs * mem) (x : memsys) :
  sweeping sm x -> (Z.to_nat (NUM_SETS - sweep_cnt sm.1) <= n)%nat -> answered t sm.
Proof.
  induction n as [|n IH] in t, sm |- *; intros Hs Hn; pose proof Hs as (Hst & Hc & _); [lia|].
  destruct (sweep_cycle (m_idx a) r r (env t) sm x (no_reset t) Hs) as [Hn' _]. right.
  destruct sm as [s m]. cbn [fst] in *.
  destruct (init_cycle (m_idx a) r (env t) s m Hst (no_reset t)) as (s1 & E & Hs1 & Hc1 & _).
  rewrite E in Hn' |- *. destruct Hn' as [Hw|[[Hr Hx]|[[Hr _]|[_ Hr]]]].
  - apply IH; [done|]. pose proof Hw as (Hi & _). cbn [fst] in *. rewrite Hs1 in Hi.
    destruct (Z.eqb_spec (sweep_cnt s) (NUM_SETS - 1)); [done|]. rewrite Hc1, Z.mod_small by lia. lia.
  - by apply (recheck_answered _ _ x).
  - cbn [fst] in Hr. rewrite Hs1 in Hr. by case_match.
  - by apply (miss_answered _ _ x).
Qed.

Lemma serving_answered (t : nat) (sm : regs * mem) (x : memsys) : serving x r sm -> answered t sm.
Proof.
  intros [Hs|[[Hs Hx]|[Hs|[_ Hs]]]].
  - by eapply sweep_answered.
  - by apply (recheck_answered t sm x).
  - by apply (rest_answered t sm x).
  - by apply (miss_answered t sm x).
Qed.

(** The memory's answer matters only to a line request. *)
Definition answering (s : regs) (e : cycle_env) : cycle_env :=
  mk_env (rst e) (mem_ready e || negb (mem_req_valid s)) (q_undef e) (tagv_undef e).

Lemma clock_answering (nxt : Z) (e : cycle_env) (s : regs) (m : mem) :
  clock nxt r (answering s e) (s, m) = clock nxt r e (s, m).
Proof.
  unfold clock, step, mem_req_write, next_state, tagv_we, be, wd, waddr, fill_en, answering, mem_req_valid, is_state.
  cbn [rst mem_ready q_undef tagv_undef].
  destruct (state s); cbn [bool_decide]; rewrite ?orb_false_r; reflexivity.
Qed.

(** A ready cycle is followed by a ready cycle. *)
Lemma ready_stays (e : cycle_env) (sm : regs * mem) (x : memsys) :
  rst e = false -> serving x r sm -> cpu_ready sm.1 r = true -> cpu_ready (held_clock e sm).1 r = true.
Proof.
  intros He Hs Hr. destruct (waiting_state x r sm Hr Hs) as [_ Hrest].
  destruct (hit_cycle four_banks r valid (m_idx a) e sm x He Hrest Hr) as [_ Hn].
  apply (hit_ready _ _ Hn).
  - destruct sm as [s m]. unfold spec_ok, clock. cbn [fst]. unfold step.
    destruct (if rst e then _ else _) as [[[? ?] ?] ?]. cbn [q_a_idx]. apply Z.eqb_refl.
  - pose proof (ensure_hit x a) as Hh. unfold word_access. destruct (cpu_req_write r); exact Hh.
Qed.
End Live.
End Data.

(** ** The instruction cache

    Two sets are needed: the two lines of a fetch that crosses would otherwise
    evict each other for ever. *)

Module Fetch.
Import Icache.

Section Live.
Context `{DcGeom} `{!DcGeomOk}.
Hypothesis line16 : LINE_BYTES = 16.
Hypothesis sets : 1 <= IDX <= 28.
Variable env : nat -> cycle_env.
Hypothesis no_reset : forall t, rst (env t) = false.
Hypothesis mem_answers : forall t, exists k, mem_ready (env (t + k)) = true.
Variable line : nat -> Z -> Z.
Variable r : request.
Hypothesis valid : fetch_valid r = true.
Abbreviation a := (fetch_addr r).
Abbreviation held_step t := (step a r (env t) (line t)).

Inductive answered (t : nat) (s : regs) : Prop :=
  | answered_now : fetch_ready s r = true -> answered t s
  | answered_later : answered (S t) (held_step t s) -> answered t s.

(** The two lines of the fetch are resident. *)
Definition hasA (s : regs) : bool := tag_is (tagA s (m_idx a)) (m_tag a).
Definition hasB (s : regs) : bool := tag_is (tagB s (idxB a)) (m_tag (fa2 a)).
Definition settled (s : regs) : Prop := state s = S_IDLE /\ fresh s /\ q_a s = a.

Lemma settled_ready (s : regs) : settled s -> fetch_ready s r = hasA s && (negb (crosses a) || hasB s).
Proof.
  intros (Hs & [_ _ FA FB _ _ _] & Hq). unfold fetch_ready, spec_ok, hitA, hitB, hasA, hasB.
  rewrite (proj2 (is_state_iff s S_IDLE) Hs), valid, FA, FB, Hq, Z.eqb_refl. done.
Qed.

(** A cycle without refill or sweep. *)
Lemma quiet_cycle (t : nat) (s : regs) :
  state s <> S_INIT -> wr_en s (env t) = false ->
  let s' := held_step t s in
  tagA s' = tagA s /\ tagB s' = tagB s /\ fresh s' /\ q_a s' = a /\
  (state s', miss_addr_q s') = ((next_state s r (env t)).1.1, (next_state s r (env t)).2).
Proof.
  intros Hi Hw s'.
  assert (tag_we s (env t) = false) as Ht by (unfold tag_we, init_en; by rewrite Hw, is_state_not).
  destruct (step_quiet a r (env t) (line t) s (no_reset t) Ht Hw) as (_ & _ & E1 & E2 & Hf).
  split_and!; try done; unfold s', step; rewrite no_reset; by destruct (next_state s r (env t)) as [[? ?] ?].
Qed.

Lemma recheck_settles (t : nat) (s : regs) :
  state s = S_RECHECK ->
  (forall s', settled s' -> tagA s' = tagA s -> tagB s' = tagB s -> answered (S t) s') -> answered t s.
Proof.
  intros Hs Hn. assert (wr_en s (env t) = false) as Hw by (unfold wr_en; by rewrite is_state_not by (by rewrite Hs)).
  destruct (quiet_cycle t s) as (E1 & E2 & Hf & Hq & Est); [by rewrite Hs|done|].
  unfold next_state in Est. rewrite Hs in Est. injection Est as Est _. right. by apply Hn.
Qed.

Lemma fill_settles (t : nat) (s : regs) :
  state s = S_FILL ->
  (forall t' s', settled s' -> tagA s' = fupd (tagA s) (wr_idx s) (true, wr_tag s) ->
     tagB s' = fupd (tagB s) (wr_idx s) (true, wr_tag s) -> answered t' s') -> answered t s.
Proof.
  destruct (mem_answers t) as [k Hk]. revert t s Hk. induction k as [|k IH]; intros t s Hk Hs Hn;
    (destruct (mem_ready (env t)) eqn:Er; [|try (rewrite Nat.add_0_r in Hk; congruence)]).
  1, 2: right; set (s' := held_step t s).
  1, 2: assert (Hd : state s' = S_RECHECK /\ tagA s' = fupd (tagA s) (wr_idx s) (true, wr_tag s) /\
    tagB s' = fupd (tagB s) (wr_idx s) (true, wr_tag s)).
  1, 3: unfold s', step, next_state, tag_we, tag_waddr, tag_wdata, wr_en, init_en; rewrite no_reset, Hs, Er;
    rewrite (is_state_not s S_INIT) by (by rewrite Hs); by rewrite (proj2 (is_state_iff s S_FILL) Hs).
  1, 2: destruct Hd as (Hs' & EA & EB); apply (recheck_settles _ _ Hs'); intros s2 H2 EA2 EB2;
    apply Hn; [done|by rewrite EA2|by rewrite EB2].
  assert (wr_en s (env t) = false) as Hw by (unfold wr_en; by rewrite Er, andb_false_r).
  destruct (quiet_cycle t s) as (E1 & E2 & _ & _ & Est); [by rewrite Hs|done|].
  unfold next_state in Est. rewrite Hs, Er in Est. injection Est as Est Ema. right.
  apply IH; [by rewrite Nat.add_succ_comm|done|]. unfold wr_idx, wr_tag. rewrite E1, E2, Ema. exact Hn.
Qed.

Lemma miss_settles (t : nat) (s : regs) :
  settled s -> fetch_ready s r = false ->
  let m := miss_addr s r in
  (forall t' s', settled s' -> tagA s' = fupd (tagA s) (m_idx m) (true, m_tag m) ->
     tagB s' = fupd (tagB s) (m_idx m) (true, m_tag m) -> answered t' s') -> answered t s.
Proof.
  intros (Hs & _ & Hq) Hr m Hn.
  destruct (quiet_cycle t s) as (E1 & E2 & _ & _ & Est);
    [by rewrite Hs|unfold wr_en; by rewrite is_state_not by (by rewrite Hs)|].
  unfold next_state, spec_ok in Est. rewrite Hs, valid, Hr, Hq, Z.eqb_refl in Est. injection Est as Est Ema.
  right. apply (fill_settles _ _ Est). unfold wr_idx, wr_tag. rewrite E1, E2, Ema. exact Hn.
Qed.

(** *** Two lines in two sets *)

Lemma line_of_set (b : Z) : m_idx (line_of b) = m_idx b /\ m_tag (line_of b) = m_tag b.
Proof. unfold line_of, m_idx, m_tag. rewrite line16, <-!Z.div_div, Z.div_mul by (lia || apply NUM_SETS_pos). done. Qed.

Lemma second_line : crosses a = true -> m_idx (fa2 a) = idxB a /\ idxB a <> m_idx a.
Proof.
  unfold idxB, crosses. rewrite line16. change (16 / 2) with 8. change (8 - 1) with 7.
  intros Hc. rewrite Hc. apply Z.eqb_eq in Hc. cbn [Z.b2z].
  assert (0 < NUM_SETS /\ 2 <= NUM_SETS) as [Hn Hn2].
  { unfold NUM_SETS. split; [lia|]. change 2 with (2 ^ 1) at 1. apply Z.pow_le_mono_r; lia. }
  assert (2 ^ 32 = 16 * NUM_SETS * 2 ^ (28 - IDX)) as E32.
  { unfold NUM_SETS. change 16 with (2 ^ 4). rewrite <-!Z.pow_add_r by lia. f_equal. lia. }
  assert ((fa2 a) / 16 mod NUM_SETS = (a + 2) / 16 mod NUM_SETS) as E.
  { assert (exists z, fa2 a = a + 2 + 16 * (NUM_SETS * z)) as [z ->].
    { exists (- (2 ^ (28 - IDX) * ((a + 2) / 2 ^ 32))). unfold fa2, u32, uwrap.
      pose proof (Z.div_mod (a + 2) (2 ^ 32)) as Hdm. rewrite E32 in Hdm at 2. lia. }
    rewrite (Z.mul_comm 16), Z.div_add, (Z.mul_comm NUM_SETS), Z.mod_add by lia. done. }
  assert ((a + 2) / 16 = a / 16 + 1) as Ea by divlia.
  unfold m_idx. rewrite line16, E, Ea, Zplus_mod_idemp_l. split; [done|].
  pose proof (Z.div_mod (a / 16) NUM_SETS). pose proof (Z.mod_pos_bound (a / 16) NUM_SETS Hn).
  rewrite <-Zplus_mod_idemp_l. set (x := (a / 16) mod NUM_SETS) in *.
  destruct (Z.eq_dec (x + 1) NUM_SETS) as [Ex|]; [rewrite Ex, Z.mod_same by lia; lia|].
  rewrite Z.mod_small by lia. lia.
Qed.

(** *** Every fetch is answered *)

Lemma second_answered (t : nat) (s : regs) : settled s -> hasA s = true -> answered t s.
Proof.
  intros Hs HA. destruct (fetch_ready s r) eqn:Hr; [by left|].
  apply (miss_settles t s Hs Hr). intros t' s' Hs' EA EB. left. rewrite (settled_ready s Hs), HA in Hr.
  destruct (crosses a) eqn:Hc; cbn [andb orb negb] in Hr; [|done].
  destruct (second_line Hc) as [E1 E2].
  assert (miss_addr s r = line_of (fa2 a)) as Em.
  { unfold miss_addr, hitA. destruct Hs as (_ & [_ _ FA _ _ _ _] & Hq). rewrite FA, Hq. fold (hasA s). by rewrite HA. }
  destruct (line_of_set (fa2 a)) as [L1 L2]. rewrite Em, L1, L2, E1 in EA, EB.
  rewrite (settled_ready s' Hs'), Hc. unfold hasA, hasB in *. rewrite EA, EB, fupd_eq, fupd_ne by done. rewrite HA.
  unfold tag_is. cbn. apply Z.eqb_refl.
Qed.

Lemma settled_answered (t : nat) (s : regs) : settled s -> answered t s.
Proof.
  intros Hs. destruct (hasA s) eqn:HA; [by apply second_answered|].
  apply (miss_settles t s Hs); [by rewrite (settled_ready s Hs), HA|]. intros t' s' Hs' EA _.
  apply (second_answered t' s' Hs').
  assert (miss_addr s r = line_of a) as Em.
  { unfold miss_addr, hitA. destruct Hs as (_ & [_ _ FA _ _ _ _] & Hq). rewrite FA, Hq. fold (hasA s). by rewrite HA. }
  destruct (line_of_set a) as [L1 L2]. rewrite Em, L1, L2 in EA. unfold hasA. rewrite EA, fupd_eq.
  unfold tag_is. cbn. apply Z.eqb_refl.
Qed.

Lemma sweep_fetched (n t : nat) (s : regs) :
  state s = S_INIT -> 0 <= sweep_cnt s < NUM_SETS -> (Z.to_nat (NUM_SETS - sweep_cnt s) <= n)%nat -> answered t s.
Proof.
  induction n as [|n IH] in t, s |- *; intros Hs Hc Hn; [lia|]. right. set (s' := held_step t s).
  assert (state s' = (if sweep_cnt s =? NUM_SETS - 1 then S_RECHECK else S_INIT) /\
    sweep_cnt s' = (sweep_cnt s + 1) mod NUM_SETS) as [E1 E2].
  { unfold s', step, next_state. by rewrite no_reset, Hs. }
  destruct (Z.eqb_spec (sweep_cnt s) (NUM_SETS - 1)).
  - apply (recheck_settles _ _ E1). intros. by apply settled_answered.
  - rewrite Z.mod_small in E2 by lia. apply IH; [done|lia|lia].
Qed.

Lemma fetch_answered (t : nat) (s : regs) :
  (state s = S_INIT -> 0 <= sweep_cnt s < NUM_SETS) -> answered t s.
Proof.
  intros Hi. destruct (state s) eqn:Hs.
  - by eapply sweep_fetched; [|apply Hi|].
  - destruct (fetch_ready s r) eqn:Hr; [by left|]. right.
    destruct (quiet_cycle t s) as (_ & _ & _ & _ & Est);
      [by rewrite Hs|unfold wr_en; by rewrite is_state_not by (by rewrite Hs)|].
    unfold next_state in Est. rewrite Hs, valid, Hr in Est. cbn [negb andb] in Est.
    destruct (negb (spec_ok s r)); injection Est as Est _.
    + apply (recheck_settles _ _ Est). intros. by apply settled_answered.
    + apply (fill_settles _ _ Est). intros. by apply settled_answered.
  - apply (fill_settles _ _ Hs). intros. by apply settled_answered.
  - apply (recheck_settles _ _ Hs). intros. by apply settled_answered.
Qed.

(** The memory's answer matters only to a line request. *)
Definition answering (s : regs) (e : cycle_env) : cycle_env :=
  mk_env (rst e) (mem_ready e || negb (mem_req_valid s)) (even_undef e) (odd_undef e) (tagA_undef e) (tagB_undef e).

Lemma step_answering (nxt : Z) (e : cycle_env) (l : Z -> Z) (s : regs) :
  step nxt r (answering s e) l s = step nxt r e l s.
Proof.
  unfold step, next_state, tag_we, wr_en, answering, mem_req_valid, is_state.
  cbn [rst mem_ready even_undef odd_undef tagA_undef tagB_undef].
  destruct (state s); cbn [bool_decide]; rewrite ?orb_false_r; reflexivity.
Qed.

(** A ready cycle is followed by a ready cycle. *)
Lemma fetch_stays (t : nat) (s : regs) :
  (state s = S_IDLE -> fresh s) -> fetch_ready s r = true -> fetch_ready (held_step t s) r = true.
Proof.
  intros Hf Hr. pose proof Hr as Hr'. unfold fetch_ready in Hr'.
  apply andb_true_iff in Hr' as [[[[Hs%is_state_iff _]%andb_true_iff Hsp%Z.eqb_eq]%andb_true_iff HA]%andb_true_iff HB].
  destruct (Hf Hs) as [_ _ FA FB _ _ _].
  assert (m_idx (q_a s) = m_idx a /\ idxB (q_a s) = idxB a) as [E1 E2].
  { assert (2 * (a / 2) mod 2 = 0 /\ 2 * (a / 2) / 2 = a / 2) as [Hev Hd] by (split; divlia).
    destruct (index_bits line16 (q_a s) (2 * (a / 2)) Hev) as (_ & _ & _ & _ & -> & ->); [by rewrite Hd|].
    by destruct (index_bits line16 a (2 * (a / 2)) Hev) as (_ & _ & _ & _ & -> & ->); [by rewrite Hd|]. }
  unfold hitA in HA. unfold hitB in HB. rewrite FA, E1 in HA. rewrite FB, E2 in HB.
  destruct (quiet_cycle t s) as (EA & EB & Hf' & Hq' & Est);
    [by rewrite Hs|unfold wr_en; by rewrite is_state_not by (by rewrite Hs)|].
  unfold next_state in Est. rewrite Hs, valid, Hr in Est. injection Est as Est _.
  rewrite settled_ready by (split; [exact Est|by split]). unfold hasA, hasB. by rewrite EA, EB, HA.
Qed.
End Live.
End Fetch.
