(* ===== verification/Arbiter.v ===== *)
(** * The arbiter of the memory path, [src/src/mem_arbiter_rw.v]

    The line ports of the two caches and the split port of the accelerator
    share one read and one write channel to DRAM, each with a rotating
    priority.  A line is the function of its bytes.

    The result: a transaction carries the request of the cache it is for, for
    caches that hold a request until it is answered, and no cache waits for ever
    behind the others. *)

From S2P Require Import Prelude.

Inductive r_fsm : Type := R_IDLE | R_D | R_I | R_A.
Inductive r_turn : Type := RL_D | RL_I | RL_A.
Inductive w_fsm : Type := W_IDLE | W_D | W_A.

#[export] Instance r_fsm_eq_dec : EqDecision r_fsm.
Proof. solve_decision. Defined.
#[export] Instance r_turn_eq_dec : EqDecision r_turn.
Proof. solve_decision. Defined.
#[export] Instance w_fsm_eq_dec : EqDecision w_fsm.
Proof. solve_decision. Defined.

Record arbiter : Type := mk_arbiter {
  r_state : r_fsm; r_last : r_turn; r_addr : Z; r_lines : Z; r_count : Z;
  w_state : w_fsm; w_last_a : bool; w_addr : Z; w_lines : Z; w_line_latched : Z -> Z;
}.

(** The requesters' side of a cycle. *)
Record requests : Type := mk_requests {
  icache_req_valid : bool; icache_req_addr : Z;
  dcache_req_valid : bool; dcache_req_write : bool; dcache_req_addr : Z; dcache_wline : Z -> Z;
  accel_rd_req_valid : bool; accel_rd_req_addr : Z; accel_rd_req_lines : Z;
  accel_wr_req_valid : bool; accel_wr_req_addr : Z; accel_wr_req_lines : Z; accel_wline : Z -> Z;
}.

(** The answers of the two channels. *)
Record channels : Type := mk_channels { rd_ready : bool; wr_next : bool; wr_ready : bool }.

Definition reset : arbiter :=
  mk_arbiter R_IDLE RL_D 0 1 0 W_IDLE true 0 1 (fun _ => 0).

Section Cycle.
Variables (q : requests) (d : channels) (a : arbiter).

Definition r_is (x : r_fsm) : bool := bool_decide (r_state a = x).
Definition r_last_is (x : r_turn) : bool := bool_decide (r_last a = x).
Definition w_is (x : w_fsm) : bool := bool_decide (w_state a = x).

Definition d_rd_req : bool := dcache_req_valid q && negb (dcache_req_write q).
Definition d_wr_req : bool := dcache_req_valid q && dcache_req_write q.
Definition a_rd_req : bool := accel_rd_req_valid q.
Definition a_wr_req : bool := accel_wr_req_valid q.

(** ** The read side *)

Definition r_grant_d : bool :=
  r_is R_IDLE && d_rd_req &&
  (if r_last_is RL_A then true
   else if r_last_is RL_I then negb a_rd_req else negb a_rd_req && negb (icache_req_valid q)).
Definition r_grant_i : bool :=
  r_is R_IDLE && icache_req_valid q && negb r_grant_d &&
  (if r_last_is RL_D then true
   else if r_last_is RL_A then negb d_rd_req else negb d_rd_req && negb a_rd_req).
Definition r_grant_a : bool := r_is R_IDLE && a_rd_req && negb r_grant_d && negb r_grant_i.

Definition some_lines (n : Z) : Z := if n =? 0 then 1 else n.

(** Next [r_state], [r_last], [r_addr], [r_lines], [r_count]. *)
Definition r_next : r_fsm * r_turn * Z * Z * Z :=
  let keep st n := (st, r_last a, r_addr a, r_lines a, n) in
  match r_state a with
  | R_IDLE =>
      if r_grant_d then (R_D, RL_D, dcache_req_addr q, 1, 0)
      else if r_grant_i then (R_I, RL_I, icache_req_addr q, 1, 0)
      else if r_grant_a then (R_A, RL_A, accel_rd_req_addr q, some_lines (accel_rd_req_lines q), 0)
      else keep R_IDLE 0
  | R_D => keep (if rd_ready d then R_IDLE else R_D) (r_count a)
  | R_I => keep (if rd_ready d then R_IDLE else R_I) (r_count a)
  | R_A =>
      if rd_ready d then
        if r_lines a <=? u8 (r_count a + 1) then keep R_IDLE 0 else keep R_A (u8 (r_count a + 1))
      else keep R_A (r_count a)
  end.

(** ** The write side *)

Definition w_grant_d : bool := w_is W_IDLE && d_wr_req && (w_last_a a || negb a_wr_req).
Definition w_grant_a : bool := w_is W_IDLE && a_wr_req && negb w_grant_d.

Definition w_next : w_fsm * bool * Z * Z * (Z -> Z) :=
  let keep st := (st, w_last_a a, w_addr a, w_lines a, w_line_latched a) in
  match w_state a with
  | W_IDLE =>
      if w_grant_d then (W_D, false, dcache_req_addr q, 1, dcache_wline q)
      else if w_grant_a then (W_A, true, accel_wr_req_addr q, some_lines (accel_wr_req_lines q), accel_wline q)
      else keep W_IDLE
  | st => keep (if wr_ready d then W_IDLE else st)
  end.

Definition arbiter_clock : arbiter :=
  let '(rs, rl, ra, rn, rc) := r_next in
  let '(ws, wl, wa, wn, wd) := w_next in
  mk_arbiter rs rl ra rn rc ws wl wa wn wd.

(** ** The wires to the channels and back *)

Definition rd_req_valid : bool := negb (r_is R_IDLE).
Definition rd_req_addr : Z := if r_is R_IDLE then 0 else r_addr a.
Definition rd_req_lines : Z := if r_is R_IDLE then 1 else r_lines a.
Definition wr_req_valid : bool := negb (w_is W_IDLE).
Definition wr_req_addr : Z := if w_is W_IDLE then 0 else w_addr a.
Definition wr_req_lines : Z := if w_is W_IDLE then 1 else w_lines a.
Definition wr_wline : Z -> Z := if w_is W_A && (1 <? w_lines a) then accel_wline q else w_line_latched a.

Definition icache_ready : bool := r_is R_I && rd_ready d.
Definition dcache_ready : bool := (r_is R_D && rd_ready d) || (w_is W_D && wr_ready d).
Definition accel_rd_ready : bool := r_is R_A && rd_ready d.
Definition accel_wr_ready : bool := w_is W_A && wr_ready d.
Definition accel_wnext : bool := w_is W_A && wr_next d.
End Cycle.

(** ** A transaction carries the request of its cache *)

(** A cache that is not answered requests the same in the next cycle. *)
Definition keeps (q : requests) (d : channels) (a : arbiter) (q' : requests) : Prop :=
  (icache_req_valid q = true -> icache_ready d a = false ->
     icache_req_valid q' = true /\ icache_req_addr q' = icache_req_addr q) /\
  (dcache_req_valid q = true -> dcache_ready d a = false ->
     dcache_req_valid q' = true /\ dcache_req_write q' = dcache_req_write q /\
     dcache_req_addr q' = dcache_req_addr q /\ dcache_wline q' = dcache_wline q).

Record carries (q : requests) (a : arbiter) : Prop := {
  ca_i : r_state a = R_I -> icache_req_valid q = true /\ r_addr a = icache_req_addr q;
  ca_dr : r_state a = R_D -> d_rd_req q = true /\ r_addr a = dcache_req_addr q;
  ca_dw : w_state a = W_D -> d_wr_req q = true /\ w_addr a = dcache_req_addr q /\ w_line_latched a = dcache_wline q;
  ca_lines : r_state a = R_A -> 0 <= r_count a < r_lines a /\ r_lines a < 256;
}.

Lemma carries_reset (q : requests) : carries q reset.
Proof. by split. Qed.

Lemma clock_r (q : requests) (d : channels) (a : arbiter) :
  let a' := arbiter_clock q d a in (r_state a', r_last a', r_addr a', r_lines a', r_count a') = r_next q d a.
Proof. unfold arbiter_clock. by destruct (r_next q d a) as [[[[? ?] ?] ?] ?], (w_next q d a) as [[[[? ?] ?] ?] ?]. Qed.

Lemma clock_w (q : requests) (d : channels) (a : arbiter) :
  let a' := arbiter_clock q d a in
  (w_state a', w_last_a a', w_addr a', w_lines a', w_line_latched a') = w_next q d a.
Proof. unfold arbiter_clock. by destruct (r_next q d a) as [[[[? ?] ?] ?] ?], (w_next q d a) as [[[[? ?] ?] ?] ?]. Qed.

(** A state that is entered by a grant, or left when the channel answers. *)
Lemma r_enters (q : requests) (d : channels) (a : arbiter) :
  match r_state (arbiter_clock q d a) with
  | R_IDLE => True
  | R_D => if r_is a R_D then rd_ready d = false /\ r_addr (arbiter_clock q d a) = r_addr a
           else r_state a = R_IDLE /\ d_rd_req q = true /\ r_addr (arbiter_clock q d a) = dcache_req_addr q
  | R_I => if r_is a R_I then rd_ready d = false /\ r_addr (arbiter_clock q d a) = r_addr a
           else r_state a = R_IDLE /\ icache_req_valid q = true /\ r_addr (arbiter_clock q d a) = icache_req_addr q
  | R_A => if r_is a R_A
           then r_lines (arbiter_clock q d a) = r_lines a /\
                r_count (arbiter_clock q d a) = (if rd_ready d then u8 (r_count a + 1) else r_count a) /\
                (rd_ready d = true -> u8 (r_count a + 1) < r_lines a)
           else r_state a = R_IDLE /\ r_count (arbiter_clock q d a) = 0 /\
                r_lines (arbiter_clock q d a) = some_lines (accel_rd_req_lines q)
  end.
Proof.
  pose proof (clock_r q d a) as E. cbn zeta in E. unfold r_next in E. unfold r_is.
  set (a' := arbiter_clock q d a) in *. destruct (r_state a) eqn:Ea.
  - destruct (r_grant_d q a) eqn:Gd; [|destruct (r_grant_i q a) eqn:Gi; [|destruct (r_grant_a q a) eqn:Ga]];
      injection E as Es _ E1 E2 E3; rewrite Es; cbn [bool_decide r_fsm_eq_dec]; try done.
    + split_and!; try done. unfold r_grant_d in Gd. by apply andb_true_iff in Gd as [[_ ?]%andb_true_iff _].
    + split_and!; try done. unfold r_grant_i in Gi.
      by apply andb_true_iff in Gi as [[[_ ?]%andb_true_iff _]%andb_true_iff _].
  - destruct (rd_ready d); injection E as Es _ E1 E2 E3; by rewrite Es.
  - destruct (rd_ready d); injection E as Es _ E1 E2 E3; by rewrite Es.
  - destruct (rd_ready d); [destruct (Z.leb_spec (r_lines a) (u8 (r_count a + 1)))|];
      injection E as Es _ E1 E2 E3; rewrite Es; done.
Qed.

Lemma w_enters (q : requests) (d : channels) (a : arbiter) :
  w_state (arbiter_clock q d a) = W_D ->
  if w_is a W_D
  then wr_ready d = false /\ w_addr (arbiter_clock q d a) = w_addr a /\
       w_line_latched (arbiter_clock q d a) = w_line_latched a
  else w_state a = W_IDLE /\ d_wr_req q = true /\ w_addr (arbiter_clock q d a) = dcache_req_addr q /\
       w_line_latched (arbiter_clock q d a) = dcache_wline q.
Proof.
  pose proof (clock_w q d a) as E. cbn zeta in E. unfold w_next in E. unfold w_is.
  set (a' := arbiter_clock q d a) in *. destruct (w_state a) eqn:Ea.
  - destruct (w_grant_d q a) eqn:Gd; [|destruct (w_grant_a q a)]; injection E as Es _ E1 _ E2; rewrite Es; try done.
    intros _. cbn [bool_decide w_fsm_eq_dec]. split_and!; try done. unfold w_grant_d in Gd.
    by apply andb_true_iff in Gd as [[_ ?]%andb_true_iff _].
  - destruct (wr_ready d); injection E as Es _ E1 _ E2; by rewrite Es.
  - destruct (wr_ready d); injection E as Es _ E1 _ E2; by rewrite Es.
Qed.

(** The two channels do not both work for the data cache. *)
Lemma one_direction (q : requests) (a : arbiter) : carries q a -> r_is a R_D = true -> w_is a W_D = true -> False.
Proof.
  intros [_ Cr Cw _] Er%bool_decide_eq_true Ew%bool_decide_eq_true. destruct (Cr Er) as [R _], (Cw Ew) as [W _].
  unfold d_rd_req, d_wr_req in *. destruct (dcache_req_write q); by rewrite ?andb_false_r in *.
Qed.

Lemma carries_clock (q q' : requests) (d : channels) (a : arbiter) :
  is_uint 8 (accel_rd_req_lines q) -> keeps q d a q' -> carries q a -> carries q' (arbiter_clock q d a).
Proof.
  intros Hl [Ki Kd] Ca. pose proof (r_enters q d a) as Hr. pose proof (w_enters q d a) as Hw.
  pose proof (one_direction q a Ca) as H1. destruct Ca as [Ci Cr Cw Cl].
  unfold icache_ready, dcache_ready, d_rd_req, d_wr_req in *. split.
  - intros E. rewrite E in Hr. destruct (r_is a R_I) eqn:Es.
    + destruct Hr as [Hn ->]. rewrite Hn in Ki. apply bool_decide_eq_true in Es.
      destruct (Ci Es) as [Hv ->]. by destruct (Ki Hv) as [-> ->].
    + destruct Hr as (_ & Hv & ->). by destruct (Ki Hv) as [-> ->].
  - intros E. rewrite E in Hr. unfold d_rd_req. destruct (r_is a R_D) eqn:Es.
    + destruct Hr as [Hn ->]. assert (w_is a W_D = false) as Ew by (destruct (w_is a W_D); [by destruct H1|done]).
      rewrite Ew, Hn in Kd. apply bool_decide_eq_true in Es. destruct (Cr Es) as [Hv ->].
      apply andb_true_iff in Hv as [Hv Hnw]. destruct (Kd Hv eq_refl) as (-> & -> & -> & _). by rewrite Hnw.
    + destruct Hr as (Hidle & Hv & ->). apply andb_true_iff in Hv as [Hv Hnw].
      assert (w_is a W_D = false) as Ew.
      { destruct (w_is a W_D) eqn:Ew; [|done]. apply bool_decide_eq_true in Ew. destruct (Cw Ew) as [W _].
        apply negb_true_iff in Hnw. by rewrite Hnw, andb_false_r in W. }
      rewrite Ew in Kd. destruct (Kd Hv eq_refl) as (-> & -> & -> & _). by rewrite Hnw.
  - intros E. specialize (Hw E). unfold d_wr_req.
    assert (Hnr : dcache_req_write q = true -> r_is a R_D = false).
    { intros Hyw. destruct (r_is a R_D) eqn:Er; [|done]. apply bool_decide_eq_true in Er. destruct (Cr Er) as [R _].
      by rewrite Hyw, andb_false_r in R. }
    destruct (w_is a W_D) eqn:Es.
    + destruct Hw as (Hn & -> & ->). apply bool_decide_eq_true in Es. destruct (Cw Es) as (Hv & -> & ->).
      apply andb_true_iff in Hv as [Hv Hyw]. rewrite Hn, (Hnr Hyw) in Kd.
      destruct (Kd Hv eq_refl) as (-> & -> & -> & ->). by rewrite Hyw.
    + destruct Hw as (Hidle & Hv & -> & ->). apply andb_true_iff in Hv as [Hv Hyw].
      rewrite (Hnr Hyw) in Kd. destruct (Kd Hv eq_refl) as (-> & -> & -> & ->). by rewrite Hyw.
  - intros E. rewrite E in Hr. destruct (r_is a R_A) eqn:Es.
    + apply bool_decide_eq_true in Es. destruct (Cl Es) as [Hc Hlt].
      destruct Hr as (-> & -> & Hn). split; [|done]. destruct (rd_ready d); [|done]. specialize (Hn eq_refl).
      pose proof (uwrap_range 8 (r_count a + 1)). unfold u8, is_uint in *. lia.
    + destruct Hr as (_ & -> & ->). unfold some_lines. unfold is_uint in Hl. destruct (Z.eqb_spec (accel_rd_req_lines q) 0); lia.
Qed.

(** ** No cache waits for ever *)

(** A channel with a rotating priority and one of its requesters, [mine] while
    the channel works for this requester: [meas] counts the others that may
    still go before it. *)
Section Rotation.
Context (idle mine req rdy : nat -> bool) (meas : nat -> nat).
Context (frees : forall t, exists k, idle (t + k)%nat = true)
  (keeps_req : forall t, req t = true -> mine t && rdy t = false -> req (S t) = true)
  (grant : forall t, idle t = true -> req t = true -> mine (S t) = true \/ (meas (S t) < meas t)%nat)
  (busy : forall t, idle t = false -> meas (S t) = meas t)
  (works : forall t, mine t = true -> rdy t = false -> mine (S t) = true)
  (answers : forall t, mine t = true -> exists k, rdy (t + k)%nat = true).

Lemma mine_served (t : nat) : mine t = true -> exists k, mine (t + k)%nat && rdy (t + k)%nat = true.
Proof.
  intros Hm. destruct (answers t Hm) as [k Hk]. revert t Hm Hk. induction k as [|k IH]; intros t Hm Hk.
  - exists O. rewrite Nat.add_0_r in *. by rewrite Hm.
  - destruct (rdy t) eqn:Hr; [exists O; by rewrite Nat.add_0_r, Hm, Hr|].
    destruct (IH (S t) (works t Hm Hr)) as [j Hj]; [by rewrite Nat.add_succ_comm|].
    exists (S j). by rewrite <-Nat.add_succ_comm.
Qed.

Lemma req_served (t : nat) : req t = true -> exists k, mine (t + k)%nat && rdy (t + k)%nat = true.
Proof.
  remember (meas t) as n eqn:En. revert t En. induction n as [n IHn] using lt_wf_ind.
  intros t. destruct (frees t) as [k Hk]. revert t Hk. induction k as [|k IHk]; intros t Hk En Hr;
    (destruct (mine t && rdy t) eqn:Ht; [exists O; by rewrite Nat.add_0_r|]).
  1: rewrite Nat.add_0_r in Hk.
  2: destruct (idle t) eqn:Hi.
  1, 2: destruct (grant t) as [Hm|Hlt]; [done|done|destruct (mine_served (S t) Hm) as [j Hj]
    |destruct (IHn (meas (S t)) ltac:(lia) (S t) eq_refl (keeps_req t Hr Ht)) as [j Hj]].
  1-4: exists (S j); by rewrite <-Nat.add_succ_comm.
  destruct (IHk (S t)) as [j Hj]; [by rewrite Nat.add_succ_comm|by rewrite busy|by apply keeps_req|].
  exists (S j). by rewrite <-Nat.add_succ_comm.
Qed.
End Rotation.

Section Run.
Context (q : nat -> requests) (d : nat -> channels) (a : nat -> arbiter).
Context (a_init : a O = reset) (a_clock : forall t, a (S t) = arbiter_clock (q t) (d t) (a t)).
Context (q_keeps : forall t, keeps (q t) (d t) (a t) (q (S t))) (q_lines : forall t, is_uint 8 (accel_rd_req_lines (q t))).
Context (rd_answers : forall t, rd_req_valid (a t) = true -> exists k, rd_ready (d (t + k)%nat) = true).
Context (wr_answers : forall t, wr_req_valid (a t) = true -> exists k, wr_ready (d (t + k)%nat) = true).

Lemma carries_at (t : nat) : carries (q t) (a t).
Proof.
  induction t as [|t IH]; [rewrite a_init; apply carries_reset|]. rewrite a_clock. by apply carries_clock.
Qed.

Definition r_others_i (l : r_turn) : nat := match l with RL_D => 0 | RL_A => 1 | RL_I => 2 end.
Definition r_others_d (l : r_turn) : nat := match l with RL_A => 0 | RL_I => 1 | RL_D => 2 end.

Lemma r_at (t : nat) :
  (r_state (a (S t)), r_last (a (S t)), r_addr (a (S t)), r_lines (a (S t)), r_count (a (S t))) = r_next (q t) (d t) (a t).
Proof. rewrite a_clock. apply clock_r. Qed.

Lemma w_at (t : nat) :
  (w_state (a (S t)), w_last_a (a (S t)), w_addr (a (S t)), w_lines (a (S t)), w_line_latched (a (S t))) = w_next (q t) (d t) (a t).
Proof. rewrite a_clock. apply clock_w. Qed.

Lemma r_waits (t : nat) : r_state (a t) <> R_IDLE ->
  exists k, rd_ready (d (t + k)%nat) = true /\ r_state (a (t + k)%nat) = r_state (a t) /\
    r_count (a (t + k)%nat) = r_count (a t) /\ r_lines (a (t + k)%nat) = r_lines (a t).
Proof.
  intros Hs. destruct (rd_answers t) as [k Hk].
  { unfold rd_req_valid, r_is. by rewrite bool_decide_eq_false_2. }
  revert t Hs Hk. induction k as [|k IH]; intros t Hs Hk.
  - exists O. by rewrite Nat.add_0_r in *.
  - destruct (rd_ready (d t)) eqn:Hr; [exists O; by rewrite Nat.add_0_r|].
    pose proof (r_at t) as E. unfold r_next in E. rewrite Hr in E.
    assert (r_state (a (S t)) = r_state (a t) /\ r_count (a (S t)) = r_count (a t) /\ r_lines (a (S t)) = r_lines (a t))
      as (E1 & E2 & E3) by (destruct (r_state (a t)); [done|..]; by injection E as -> _ _ -> ->).
    destruct (IH (S t)) as (j & H1 & H2 & H3 & H4); [by rewrite E1|by rewrite Nat.add_succ_comm|].
    exists (S j). rewrite <-Nat.add_succ_comm. split_and!; congruence.
Qed.

Lemma r_frees (t : nat) : exists k, r_is (a (t + k)%nat) R_IDLE = true.
Proof.
  remember (Z.to_nat (256 - r_count (a t))) as n eqn:En. revert t En. induction n as [n IH] using lt_wf_ind. intros t ->.
  destruct (decide (r_state (a t) = R_IDLE)) as [Hs|Hs].
  { exists O. rewrite Nat.add_0_r. by apply bool_decide_eq_true_2. }
  destruct (r_waits t Hs) as (k & Hr & E1 & E2 & E3). pose proof (r_at (t + k)) as E. unfold r_next in E.
  rewrite Hr, E1 in E. pose proof (ca_lines _ _ (carries_at t)) as Hl.
  assert (forall P : Prop, (r_state (a (S (t + k))) = R_IDLE -> P) ->
    (r_count (a (S (t + k))) = r_count (a t) + 1 -> 0 <= r_count (a t) < 256 -> P) -> P) as Hc.
  { intros P H1 H2. destruct (r_state (a t)); [done|apply H1; congruence|apply H1; congruence|].
    destruct (Hl eq_refl). destruct (_ <=? _); [apply H1; congruence|]. injection E as _ _ _ _ E.
    rewrite E2 in *. apply H2; [|lia]. rewrite E. unfold u8, uwrap. rewrite Z.mod_small; lia. }
  apply Hc.
  - intros Hi. exists (S k). rewrite Nat.add_succ_r. by apply bool_decide_eq_true_2.
  - intros Hn Hb. destruct (IH (Z.to_nat (256 - r_count (a (S (t + k))))) ltac:(lia) _ eq_refl) as [j Hj].
    exists (S k + j)%nat. by replace (t + (S k + j))%nat with (S (t + k) + j)%nat by lia.
Qed.

Lemma r_keeps_last (t : nat) : r_is (a t) R_IDLE = false -> r_last (a (S t)) = r_last (a t).
Proof.
  intros Hi%bool_decide_eq_false. pose proof (r_at t) as E. unfold r_next in E.
  destruct (r_state (a t)); [done|..]; destruct (rd_ready (d t)); try destruct (_ <=? _); by injection E.
Qed.

Lemma r_works (x : r_fsm) (t : nat) : x <> R_IDLE ->
  r_is (a t) x = true -> rd_ready (d t) = false -> r_is (a (S t)) x = true.
Proof.
  intros Hx Hm%bool_decide_eq_true Hr. pose proof (r_at t) as E. unfold r_next in E. rewrite Hm, Hr in E.
  unfold r_is. apply bool_decide_eq_true_2. destruct x; [done|..]; by injection E.
Qed.

Lemma r_answers (x : r_fsm) (t : nat) : x <> R_IDLE -> r_is (a t) x = true -> exists k, rd_ready (d (t + k)%nat) = true.
Proof.
  intros Hx Hm%bool_decide_eq_true. apply rd_answers. unfold rd_req_valid, r_is. rewrite bool_decide_eq_false_2; [done|congruence].
Qed.

(** The order of the grants. *)
Lemma r_order (t : nat) : r_is (a t) R_IDLE = true ->
  (icache_req_valid (q t) = true ->
     r_is (a (S t)) R_I = true \/ (r_others_i (r_last (a (S t))) < r_others_i (r_last (a t)))%nat) /\
  (d_rd_req (q t) = true ->
     r_is (a (S t)) R_D = true \/ (r_others_d (r_last (a (S t))) < r_others_d (r_last (a t)))%nat).
Proof.
  intros Hi%bool_decide_eq_true. pose proof (r_at t) as E. unfold r_next in E. rewrite Hi in E.
  unfold r_grant_a, r_grant_i, r_grant_d, r_is, r_last_is, bool_decide in E. rewrite Hi in E. unfold r_is.
  destruct (r_last (a t)), (icache_req_valid (q t)), (d_rd_req (q t)), (a_rd_req (q t)); cbn in E;
    injection E as Es El _ _ _; rewrite Es, El; cbn; split; intros; done || (by left) || (right; lia).
Qed.

Definition w_others (last_a : bool) : nat := if last_a then 0 else 1.

Lemma w_waits (t : nat) : exists k, w_is (a (t + k)%nat) W_IDLE = true.
Proof.
  destruct (w_is (a t) W_IDLE) eqn:Hs; [exists O; by rewrite Nat.add_0_r|].
  destruct (wr_answers t) as [k Hk]; [unfold wr_req_valid; by rewrite Hs|].
  revert t Hs Hk. induction k as [|k IH]; intros t Hs Hk; pose proof (w_at t) as E; unfold w_next in E;
    apply bool_decide_eq_false in Hs; (destruct (wr_ready (d t)) eqn:Hr;
    [exists 1%nat; rewrite Nat.add_1_r; apply bool_decide_eq_true_2; destruct (w_state (a t)); [done|..]; by injection E|]).
  - rewrite Nat.add_0_r in Hk. congruence.
  - destruct (IH (S t)) as [j Hj]; [|by rewrite Nat.add_succ_comm|exists (S j); by rewrite <-Nat.add_succ_comm].
    apply bool_decide_eq_false_2. destruct (w_state (a t)); [done|..]; by injection E as ->.
Qed.

(** *** The three requests of the caches *)

Lemma icache_served (t : nat) :
  icache_req_valid (q t) = true -> exists k, icache_ready (d (t + k)%nat) (a (t + k)%nat) = true.
Proof.
  apply (req_served (fun t => r_is (a t) R_IDLE) (fun t => r_is (a t) R_I) (fun t => icache_req_valid (q t))
    (fun t => rd_ready (d t)) (fun t => r_others_i (r_last (a t))) r_frees).
  - intros u Hv Hr. by apply q_keeps.
  - intros u Hi. by apply r_order.
  - intros u Hi. by rewrite r_keeps_last.
  - intros u. by apply r_works.
  - intros u. by apply r_answers.
Qed.

Lemma dcache_read_served (t : nat) :
  d_rd_req (q t) = true -> exists k, r_is (a (t + k)%nat) R_D && rd_ready (d (t + k)%nat) = true.
Proof.
  apply (req_served (fun t => r_is (a t) R_IDLE) (fun t => r_is (a t) R_D) (fun t => d_rd_req (q t))
    (fun t => rd_ready (d t)) (fun t => r_others_d (r_last (a t))) r_frees).
  - intros u Hv Hr. pose proof (carries_at u) as Hc. destruct (q_keeps u) as [_ Kd]. unfold dcache_ready in Kd. rewrite Hr in Kd.
    destruct (w_is (a u) W_D) eqn:Ew.
    { apply bool_decide_eq_true in Ew. destruct (ca_dw _ _ Hc Ew) as [Hw _]. unfold d_rd_req, d_wr_req in *.
      destruct (dcache_req_write (q u)); by rewrite ?andb_false_r in *. }
    unfold d_rd_req in *. apply andb_true_iff in Hv as [Hv Hn]. destruct (Kd Hv eq_refl) as (-> & -> & _). by rewrite Hn.
  - intros u Hi. by apply r_order.
  - intros u Hi. by rewrite r_keeps_last.
  - intros u. by apply r_works.
  - intros u. by apply r_answers.
Qed.

Lemma dcache_write_served (t : nat) :
  d_wr_req (q t) = true -> exists k, w_is (a (t + k)%nat) W_D && wr_ready (d (t + k)%nat) = true.
Proof.
  apply (req_served (fun t => w_is (a t) W_IDLE) (fun t => w_is (a t) W_D) (fun t => d_wr_req (q t))
    (fun t => wr_ready (d t)) (fun t => w_others (w_last_a (a t))) w_waits).
  - intros u Hv Hr. pose proof (carries_at u) as Hc. destruct (q_keeps u) as [_ Kd]. unfold dcache_ready in Kd.
    rewrite Hr, orb_false_r in Kd. destruct (r_is (a u) R_D) eqn:Er.
    { apply bool_decide_eq_true in Er. destruct (ca_dr _ _ Hc Er) as [Hw _]. unfold d_rd_req, d_wr_req in *.
      destruct (dcache_req_write (q u)); by rewrite ?andb_false_r in *. }
    unfold d_wr_req in *. apply andb_true_iff in Hv as [Hv Hn]. destruct (Kd Hv eq_refl) as (-> & -> & _). by rewrite Hn.
  - intros u Hi%bool_decide_eq_true Hv. pose proof (w_at u) as E. unfold w_next, w_grant_a, w_grant_d, w_is, bool_decide in E.
    rewrite Hi, Hv in E. unfold w_is. destruct (w_last_a (a u)), (a_wr_req (q u)); cbn in E; injection E as Es El _ _ _;
      rewrite Es, El; cbn; (by left) || (right; lia).
  - intros u Hi%bool_decide_eq_false. pose proof (w_at u) as E. unfold w_next in E.
    destruct (w_state (a u)); [done|..]; destruct (wr_ready (d u)); by injection E as _ -> _ _ _.
  - intros u Hm%bool_decide_eq_true Hr. pose proof (w_at u) as E. unfold w_next in E. rewrite Hm, Hr in E.
    apply bool_decide_eq_true_2. by injection E.
  - intros u Hm%bool_decide_eq_true. apply wr_answers. unfold wr_req_valid, w_is. by rewrite Hm.
Qed.

Lemma dcache_served (t : nat) :
  dcache_req_valid (q t) = true -> exists k, dcache_ready (d (t + k)%nat) (a (t + k)%nat) = true.
Proof.
  intros Hv. destruct (dcache_req_write (q t)) eqn:Hw.
  - destruct (dcache_write_served t) as [k Hk]; [unfold d_wr_req; by rewrite Hv, Hw|].
    exists k. unfold dcache_ready. by rewrite Hk, orb_true_r.
  - destruct (dcache_read_served t) as [k Hk]; [unfold d_rd_req; by rewrite Hv, Hw|].
    exists k. unfold dcache_ready. by rewrite Hk.
Qed.
End Run.
