(* ===== verification/Chip.v ===== *)
(** * The core with its caches and its tightly coupled memory

    [src/src/cpu.v] with the instances of [icache.v], [dcache.v] and [tcm.v]
    wired as they are there: the requests of the core go to the tightly coupled
    memory in its range of addresses and to a cache elsewhere, and the answers
    of this cycle are the inputs of [Cpu.clock].  The lower memory is DRAM,
    which answers the two line ports whenever it likes. *)

From S2P Require Import Prelude Bits Dcache DcacheFsm DcachePort Tcm Icache.
From S2P Require Import Rv32 Rvc Decoder DivUnit CpuUnits Cpu.

Record chip : Type := mk_chip {
  cpu_core : cpu;
  ic : Icache.regs;
  ic_pending : bool;            (* icache.v, tcm_req_pending *)
  dc : DcacheFsm.regs;
  dc_pending : bool;            (* dcache.v, tcm_req_pending *)
  tcm0 : tcm;
  ddr : mem;
  dev_log : list event;
}.

(** A cycle of the rest of the chip: the peripherals, the two line ports, and
    what block RAMs return where they are written in the same cycle. *)
Record chip_env : Type := mk_chip_env {
  e_uart_ready : bool; e_uart_rdata : Z;
  e_intc_ready : bool; e_intc_rdata : Z;
  e_accel_ready : bool; e_accel_rdata : Z;
  e_intc_irq_out : bool;
  icache_mem_ready : bool;
  dcache_mem_ready : bool;
  u_even : Z -> Z; u_odd : Z -> Z; u_tagA : bool * Z; u_tagB : bool * Z;
  u_q : Z -> Z; u_tagv : bool * Z;
}.

(** [geom_i] and [geom_d] are the geometries of the two caches. *)
Section Chip.
Context (geom_i geom_d : DcGeom) `{TcmGeom}.

Section Signals.
Variable (c : chip) (e : chip_env).
Let s := cpu_core c.
Let a := ex_mem_alu (ex_mem s).

(** icache.v *)
Definition req_is_tcm : bool := in_tcm (pc s).
Definition fetch_req : Icache.request := Icache.mk_request (negb req_is_tcm) (pc s).
Definition tcm_i_req : bool := tcm_req_valid true req_is_tcm (ic_pending c).
Definition if_word : Z := if req_is_tcm then i_rdata (tcm0 c) else Icache.fetch_rdata (ic c).
Definition if_ready : bool :=
  if req_is_tcm then i_ready (tcm0 c) else @Icache.fetch_ready geom_i (ic c) fetch_req.

(** dcache.v *)
Definition cpu_addr_is_tcm : bool := in_tcm a.
Definition data_req : DcacheFsm.request :=
  DcacheFsm.mk_request (dcache_valid s && negb cpu_addr_is_tcm) (dcache_wen s) a
    (fun l => u8 (store_data s .>> (8 * l))) (fun l => Z.testbit (mem_write_mask_out s) l).
Definition tcm_d_req : bool := tcm_req_valid (dcache_valid s) cpu_addr_is_tcm (dc_pending c).
Definition word_of (f : Z -> Z) : Z := cat [lit 8 (f 3); lit 8 (f 2); lit 8 (f 1); lit 8 (f 0)].
Definition data_word : Z :=
  if cpu_addr_is_tcm then d_rdata (tcm0 c) else word_of (@DcacheFsm.cpu_rdata geom_d (dc c) data_req).
Definition data_ready : bool :=
  if cpu_addr_is_tcm then d_ready (tcm0 c) else @DcacheFsm.cpu_ready geom_d (dc c) data_req.

(** The inputs of the core in this cycle. *)
Definition chip_inputs : inputs :=
  {| cache_ready := if_ready; if_inst := if_word;
     dcache_ready := data_ready; dcache_read_data := data_word;
     uart_ready := e_uart_ready e; uart_rdata := e_uart_rdata e;
     intc_ready := e_intc_ready e; intc_rdata := e_intc_rdata e;
     accel_ready := e_accel_ready e; accel_rdata := e_accel_rdata e;
     intc_irq_out := e_intc_irq_out e |}.

(** The speculated addresses. *)
Definition pc_next_out : Z := pc_clock s chip_inputs.
Definition DC_SPEC_W : Z := @IDX geom_d + @OFF geom_d.
Definition dc_ea_spec : Z :=
  uwrap DC_SPEC_W (uwrap DC_SPEC_W (fwd_rs1 s) + uwrap DC_SPEC_W (id_ex_imm (id_ex s))).
Definition dc_addr_next : Z := if global_mem_stall s chip_inputs then uwrap DC_SPEC_W a else dc_ea_spec.

Definition tcm_requests : tcm_request :=
  {| i_req := tcm_i_req; i_addr := pc s;
     d_req := tcm_d_req; d_we := dcache_wen s; d_addr := a; d_wdata := store_data s;
     d_wmask := mem_write_mask_out s |}.

Definition ic_env : Icache.cycle_env :=
  Icache.mk_env false (icache_mem_ready e) (u_even e) (u_odd e) (u_tagA e) (u_tagB e).
Definition dc_env : DcacheFsm.cycle_env :=
  DcacheFsm.mk_env false (dcache_mem_ready e) (u_q e) (u_tagv e).

Definition dc_clock : DcacheFsm.regs * mem :=
  @DcacheFsm.clock geom_d (@m_idx geom_d dc_addr_next) data_req dc_env (dc c, ddr c).

Definition chip_clock : chip :=
  {| cpu_core := clock s chip_inputs;
     ic := @Icache.step geom_i pc_next_out fetch_req ic_env
             (fun o => ddr c (Icache.mem_req_addr (ic c) + o)) (ic c);
     ic_pending := pending_clock tcm_i_req (i_ready (tcm0 c)) (ic_pending c);
     dc := dc_clock.1;
     dc_pending := pending_clock tcm_d_req (d_ready (tcm0 c)) (dc_pending c);
     tcm0 := tcm_clock tcm_requests (tcm0 c);
     ddr := dc_clock.2;
     dev_log := dev_log c ++ events s chip_inputs |}.
End Signals.

Fixpoint chip_cycles (es : list chip_env) (c : chip) : chip :=
  match es with [] => c | e :: es => chip_cycles es (chip_clock c e) end.

(** What the memories hold as reset ends; all of it is arbitrary. *)
Record power_on : Type := {
  po_regs : Z -> Z; po_pht : Z -> Z; po_ras : Z -> Z; po_div : DivUnit.regs; po_old : Z;
  po_ic : Icache.regs; po_dc : DcacheFsm.regs; po_tcm : tcm; po_ddr : mem;
}.

Definition chip_init (p : power_on) : chip :=
  {| cpu_core := reset (po_regs p) (po_pht p) (po_ras p) (po_div p) (po_old p);
     ic := Icache.reset (po_ic p); ic_pending := false;
     dc := reset_regs (po_dc p); dc_pending := false;
     tcm0 := tcm_reset (po_tcm p); ddr := po_ddr p; dev_log := [] |}.

(** The memory that software sees at reset. *)
Definition boot_mem (p : power_on) : mem := fun b => if in_tcm b then tcm_mem (po_tcm p) b else po_ddr p b.

(** A peripheral answers only a pending request, with a 32-bit word. *)
Definition env_ok (s : cpu) (e : chip_env) : Prop :=
  (e_uart_ready e = true -> pending (uart s) = true) /\
  (e_intc_ready e = true -> pending (intc s) = true) /\
  (e_accel_ready e = true -> pending (accel s) = true) /\
  is_uint 32 (e_uart_rdata e) /\ is_uint 32 (e_intc_rdata e) /\ is_uint 32 (e_accel_rdata e).

Fixpoint envs_ok (es : list chip_env) (c : chip) : Prop :=
  match es with [] => True | e :: es => env_ok (cpu_core c) e /\ envs_ok es (chip_clock c e) end.
End Chip.
