(* ===== verification/ChipCorrect.v ===== *)
(** * The chip implements the instruction set

    The caches and the tightly coupled memory of [Chip] keep the protocol that
    [CpuCorrect] asks of them, so the core on top of them runs the architecture
    of [Rv32] on one flat memory. *)

From S2P Require Import Prelude Bits Dcache DcacheFsm DcachePort Tcm Icache.
From S2P Require Import Rv32 Rvc Decoder DivUnit CpuUnits Cpu CpuSpec CpuMem CpuEx CpuFront CpuRefine CpuLive.
From S2P Require Import CpuCorrect Chip.

(** ** A request is held while the pipeline stands still

    An atomic access has its phases, which last until the memory answers. *)

Section Held.
Context (i : inputs) (w : soc) (a : arch) (alog : list event) (op : mop).
Context (Hin : in_mem w a alog op) (Hg : global_mem_stall (core w) i = true).
Context (Hwait : ex_mem_is_amo (ex_mem (core w)) = true -> dcache_valid (core w) = true /\ dcache_ready i = false).
Abbreviation s := (core w).
Abbreviation s' := (core (tick i w)).

Lemma held_sc : ex_mem_is_sc (ex_mem s) = true -> sc_success_flag s' = sc_success_flag s.
Proof.
  intros Hsc. pose proof (im_op _ _ _ _ Hin) as H. unfold sc_success_flag.
  rewrite (frozen_rm i w Hg), (frozen_ex_mem i w Hg).
  assert (ex_mem_is_lr (ex_mem s) = false /\ ex_mem_is_amo (ex_mem s) = false) as [El Ea]
    by (destruct op; mop_wires; split; congruence).
  unfold lr_reservation_set, normal_store_reservation_clear, amo_write_phase. cbv zeta.
  by rewrite El, Ea, Hsc, andb_false_r.
Qed.

Lemma held_amo :
  amo_read_phase s' = amo_read_phase s /\ amo_write_phase s' = amo_write_phase s /\
  amo_old_value s' = amo_old_value s.
Proof.
  pose proof (im_op _ _ _ _ Hin) as H. unfold amo_read_phase, amo_write_phase.
  rewrite (frozen_ex_mem i w Hg).
  change (amo_state s') with (amo_state_clock s i). change (amo_result_ready s') with (amo_result_ready_clock s i).
  change (amo_old_value s') with (amo_old_value_clock s i).
  unfold amo_state_clock, amo_result_ready_clock, amo_old_value_clock, amo_restart. rewrite Hg, andb_false_r, orb_false_r.
  destruct (ex_mem_is_amo (ex_mem s)) eqn:Ea; cbn [negb andb]; [|by split_and!].
  destruct (Hwait eq_refl) as [Hv ->]. unfold dcache_valid, dcache_ren, dcache_wen in Hv.
  rewrite (is_amo_op _ op H) in Ea.
  assert (is_load s = false /\ store_commits s = false) as [El Es].
  { split; [rewrite (is_load_op s op H); by destruct op|]. unfold store_commits. rewrite (is_store_op s op H).
    by destruct op. }
  rewrite El, Es in Hv. unfold amo_read_phase, amo_write_phase in Hv. rewrite (is_amo_op _ op H), Ea in Hv.
  by destruct (amo_state s).
Qed.

Lemma held_request :
  ex_mem s' = ex_mem s /\ dcache_ren s' = dcache_ren s /\ dcache_wen s' = dcache_wen s /\
  dcache_valid s' = dcache_valid s /\ store_data s' = store_data s /\ mem_write_mask_out s' = mem_write_mask_out s.
Proof.
  pose proof (frozen_ex_mem i w Hg) as Ee. destruct held_amo as (E1 & E2 & E3).
  assert (store_commits s' = store_commits s) as Ec.
  { unfold store_commits, is_store. rewrite Ee. destruct (ex_mem_is_sc (ex_mem s)) eqn:Esc; [|done].
    by rewrite held_sc. }
  assert (block_sc_store s' = block_sc_store s) as Eb.
  { unfold block_sc_store. rewrite Ee. destruct (ex_mem_is_sc (ex_mem s)) eqn:Esc; [|done]. by rewrite held_sc. }
  assert (dcache_ren s' = dcache_ren s) as Er by (unfold dcache_ren, is_load; by rewrite Ee, E1).
  assert (dcache_wen s' = dcache_wen s) as Ew by (unfold dcache_wen; by rewrite Ee, E2, Ec).
  split_and!; [done..| | |].
  - unfold dcache_valid. by rewrite Er, Ew.
  - unfold store_data, amo_new_value. by rewrite Ee, E2, E3.
  - unfold mem_write_mask_out, raw_write_mask. by rewrite Ee, E2, Eb.
Qed.
End Held.

(** ** Addresses *)

Lemma spec_index `{DcGeom} `{!DcGeomOk} (a : Z) : m_idx (uwrap (IDX + OFF) a) = m_idx a.
Proof.
  unfold m_idx, uwrap, NUM_SETS, LINE_BYTES. pose proof OFF_nonneg. pose proof IDX_nonneg.
  rewrite (Z.add_comm IDX), Z.pow_add_r by lia.
  pose proof LINE_BYTES_pos as Hl. pose proof NUM_SETS_pos as Hn. unfold LINE_BYTES, NUM_SETS in Hl, Hn.
  rewrite Z.rem_mul_r, (Z.mul_comm (2 ^ OFF)), Z.div_add by lia.
  rewrite (Z.div_small (a mod 2 ^ OFF)) by (apply Z.mod_pos_bound; lia). rewrite Z.add_0_l. apply Z.mod_mod. lia.
Qed.

Section Word.
Context `{TcmGeom}.

(** A word is inside the tightly coupled memory or outside it. *)
Lemma in_tcm_word (a b : Z) : b / 4 = a / 4 -> in_tcm b = in_tcm a.
Proof.
  intros E. pose proof (eq_refl : TCM_BYTES = 4 * 2 ^ INDEX_BITS) as Hb. revert Hb. generalize (2 ^ INDEX_BITS).
  intros k Hb. apply eq_true_iff_eq. unfold in_tcm. rewrite Hb, !andb_true_iff, !Z.leb_le, !Z.ltb_lt.
  unfold TCM_BASE. divlia.
Qed.

Lemma in_tcm_parcel (p k : Z) : in_tcm (p + 3) = in_tcm p -> 0 <= k < 4 -> in_tcm (p + k) = in_tcm p.
Proof.
  intros E Hk. pose proof tcm_size as Hs. revert E. unfold in_tcm.
  destruct (Z.leb_spec TCM_BASE p), (Z.ltb_spec p (TCM_BASE + TCM_BYTES)),
    (Z.leb_spec TCM_BASE (p + 3)), (Z.ltb_spec (p + 3) (TCM_BASE + TCM_BYTES)),
    (Z.leb_spec TCM_BASE (p + k)), (Z.ltb_spec (p + k) (TCM_BASE + TCM_BYTES)); cbn; intros; try done; lia.
Qed.
End Word.

Lemma write_lanes_word (m : mem) (a mask data b : Z) :
  write_lanes m a mask data b =
  if (b / 4 =? a / 4) && Z.testbit mask (b mod 4) then u8 (data .>> (8 * (b mod 4))) else m b.
Proof.
  unfold write_lanes. cbv zeta.
  replace ((a - a mod 4 <=? b) && (b <? a - a mod 4 + 4)) with (b / 4 =? a / 4).
  - destruct (Z.eqb_spec (b / 4) (a / 4)) as [E|]; [|done]. cbn [andb].
    assert (b - (a - a mod 4) = b mod 4) as -> by divlia. done.
  - apply eq_true_iff_eq. rewrite andb_true_iff, Z.leb_le, Z.ltb_lt, Z.eqb_eq. divlia.
Qed.

Lemma word_of_mem (m : mem) (wa : Z) (f : Z -> Z) :
  (forall l, 0 <= l < 4 -> f l = m (wa + l)) -> word_of f = mem_word m wa.
Proof.
  intros Hf. unfold word_of, mem_word, mem_half, mem_byte. rewrite !Hf by lia. rewrite Z.add_0_r.
  replace (wa + 2 + 1) with (wa + 3) by lia. unfold u8, uwrap. cat_arith. unfold uwrap. eval_pow2. lia.
Qed.

Lemma word_base (a : Z) : a - a mod 4 = 4 * (a / 4).
Proof. divlia. Qed.

Lemma write_lanes_ext (m m' : mem) (a mask data b : Z) :
  m b = m' b -> write_lanes m a mask data b = write_lanes m' a mask data b.
Proof. intros E. unfold write_lanes. by rewrite E. Qed.

(** ** The bytes of the program *)

Lemma ram_reached (w : soc) (a : arch) (alog : list event) (op : mop) (next : Z) (c : csrs) (v : Z) :
  in_mem w a alog op ->
  mem_same (ram w) (a_mem a) \/ mem_same (ram w) (a_mem (perform next c op v a).1).
Proof.
  intros Hin. pose proof (im_ram _ _ _ _ Hin) as Hram.
  destruct op; cbn [ram_at perform] in *; try (by left); try (by destruct (dev ea); left).
  - destruct Hram as [?|[-> ?]]; [by left|by right].
  - destruct Hram as [?|[-> ?]]; [by left|by right].
  - destruct (amo_result_ready (core w)); [by right|by left].
Qed.

(** The program is a region of the initial memory [m0] that it never writes. *)
Record code_ok `{TcmGeom} (m0 : mem) (code : Z -> bool) (a0 : arch) : Prop := {
  code_addr : forall p, code p = true -> p mod 2 = 0 /\ 0 <= p /\ p + 3 < 2 ^ 32 /\ in_tcm (p + 3) = in_tcm p;
  code_kept : forall lbs a evs, Forall label_ok lbs -> arch_run (mem_word m0) lbs a0 = Some (a, evs) ->
    forall p k, code p = true -> 0 <= k < 4 -> a_mem a (p + k) = m0 (p + k);
}.

Section Program.
Context `{TcmGeom} (m0 : mem) (code : Z -> bool) (a0 : arch) (Hcode : code_ok m0 code a0).
Abbreviation imem := (mem_word m0).

Definition in_code (b : Z) : Prop := exists p k, code p = true /\ 0 <= k < 4 /\ b = p + k.
Definition reached (a : arch) : Prop :=
  exists lbs evs, Forall label_ok lbs /\ arch_run imem lbs a0 = Some (a, evs).

Lemma imem_range (p : Z) : is_uint 32 (imem p).
Proof. apply mem_word_range. Qed.

Lemma reached_run (a a' : arch) (lbs : list label) (evs : list event) :
  reached a -> Forall label_ok lbs -> arch_run imem lbs a = Some (a', evs) -> reached a'.
Proof.
  intros (l0 & e0 & Hl0 & Hr0) Hl Hr. exists (l0 ++ lbs), (e0 ++ evs).
  split; [by apply Forall_app|by apply (arch_run_app _ _ _ _ a)].
Qed.

Lemma reached_code (a : arch) (b : Z) : reached a -> in_code b -> a_mem a b = m0 b.
Proof. intros (lbs & evs & Hl & Hr) (p & k & Hp & Hk & ->). by apply (code_kept _ _ _ Hcode lbs a evs). Qed.

Lemma ram_code (w : soc) (a : arch) (alog : list event) (b : Z) :
  corresponds imem code w a alog -> reached a -> in_code b -> ram w b = m0 b.
Proof.
  intros Hco Ha Hb. pose proof Hco as [(op & Hin & Hi) _ _ _ _].
  destruct (completes imem code w a alog op 0 Hco Hi ltac:(by split)) as (lbs & Hl & _ & Hr).
  destruct (perform _ _ _ _ _) as [a1 evs] eqn:E.
  destruct (ram_reached w a alog op (front_pc (core w)) (csr (core w)) 0 Hin) as [->| ->].
  - by apply reached_code.
  - rewrite E. apply reached_code; [|done]. by apply (reached_run a a1 lbs evs).
Qed.

(** ... nor is a store that is under way to the program. *)
Definition would_answer (w : soc) : inputs :=
  {| cache_ready := false; if_inst := 0; dcache_ready := true; dcache_read_data := ram_word (core w) (ram w);
     uart_ready := false; uart_rdata := 0; intc_ready := false; intc_rdata := 0;
     accel_ready := false; accel_rdata := 0; intc_irq_out := false |}.

Lemma store_spares_code (w : soc) (a : arch) (alog : list event) (b : Z) :
  corresponds imem code w a alog -> reached a -> in_code b -> dcache_wen (core w) = true ->
  write_lanes (ram w) (ex_mem_alu (ex_mem (core w))) (mem_write_mask_out (core w)) (store_data (core w)) b = m0 b.
Proof.
  intros Hco Ha Hb Hw.
  assert (corresponds imem code (tick (would_answer w) w) a alog) as Hco'.
  { apply frozen_corresponds; [apply imem_range| | |done].
    - split; try done. intros _. unfold dcache_valid. by rewrite Hw, orb_true_r.
    - unfold global_mem_stall, imem_stall. cbn [would_answer cache_ready negb]. by rewrite orb_true_r. }
  rewrite <-(ram_code _ a alog b Hco' Ha Hb). unfold tick. cbn [ram]. unfold ram_clock.
  by rewrite Hw.
Qed.
End Program.

(** ** The invariant of a cycle *)

Section Composition.
Context (geom_i geom_d : DcGeom) `{TcmGeom}.
Context (ok_i : @DcGeomOk geom_i) (ok_d : @DcGeomOk geom_d).
Context (line_i : @LINE_BYTES geom_i = 16) (line_d : @LINE_BYTES geom_d = 16).
Context (m0 : mem) (code : Z -> bool) (a0 : arch) (Hcode : code_ok m0 code a0).
Abbreviation imem := (mem_word m0).
Abbreviation view := (@Dcache.view geom_d).

(** The bytes of the program that the instruction cache serves. *)
Definition cached_code (b : Z) : Prop := in_code code b /\ in_tcm b = false.

Definition mem_addr (c : chip) : Z := ex_mem_alu (ex_mem (cpu_core c)).

(** The memory behind the data port, with the cache's contents [x]. *)
Definition visible (c : chip) (x : memsys) : mem :=
  fun b => if in_tcm b then tcm_mem (tcm0 c) b else view x b.

(** A store to the tightly coupled memory is done one cycle before it is
    answered. *)
Definition early_store (c : chip) (m : mem) : mem :=
  if d_ready (tcm0 c) && dcache_wen (cpu_core c)
  then write_lanes m (mem_addr c) (mem_write_mask_out (cpu_core c)) (store_data (cpu_core c)) else m.

Record chip_inv (c : chip) (w : soc) (a : arch) (alog : list event) (x : memsys) : Prop := {
  ci_core : core w = cpu_core c;
  ci_log : log w = dev_log c;
  ci_co : corresponds imem code w a alog;
  ci_reached : reached m0 a0 a;
  ci_dc : @serving geom_d x (data_req c) (dc c, ddr c);
  ci_coherent : @all_coherent geom_d x;
  ci_ram : forall b, visible c x b = early_store c (ram w) b;
  ci_dpend : dc_pending c = d_ready (tcm0 c);
  ci_dready : d_ready (tcm0 c) = true ->
    dcache_valid (cpu_core c) = true /\ in_tcm (mem_addr c) = true /\
    d_rdata (tcm0 c) = ram_word (cpu_core c) (ram w);
  ci_ipend : ic_pending c = i_ready (tcm0 c);
  ci_iready : i_ready (tcm0 c) = true ->
    in_tcm (pc (cpu_core c)) = true /\
    (code (pc (cpu_core c)) = true -> i_rdata (tcm0 c) = imem (pc (cpu_core c)));
  ci_ic : @icache_ok geom_i m0 cached_code (ic c);
  ci_ddr : forall b, cached_code b -> ddr c b = m0 b;
}.

Lemma visible_code (c : chip) (w : soc) (a : arch) (alog : list event) (x : memsys) (b : Z) :
  chip_inv c w a alog x -> in_code code b -> visible c x b = m0 b.
Proof.
  intros Hc Hb. rewrite (ci_ram _ _ _ _ _ Hc). unfold early_store, mem_addr. rewrite <-(ci_core _ _ _ _ _ Hc).
  pose proof (ci_co _ _ _ _ _ Hc) as Hco. pose proof (ci_reached _ _ _ _ _ Hc) as Hr.
  destruct (d_ready (tcm0 c)); cbn [andb]; [destruct (dcache_wen (core w)) eqn:Ew|].
  - by apply (store_spares_code m0 code a0 Hcode w a alog).
  - by apply (ram_code m0 code a0 Hcode w a alog).
  - by apply (ram_code m0 code a0 Hcode w a alog).
Qed.

(** ** The answers of a cycle *)

Section Step.
Context (c : chip) (e : chip_env) (w : soc) (a : arch) (alog : list event) (x : memsys).
Context (Hc : chip_inv c w a alog x) (He : env_ok (cpu_core c) e).
Abbreviation s := (cpu_core c).
Abbreviation i := (chip_inputs geom_i geom_d c e).
Abbreviation w' := (tick i w).

(** The data cache answers a request outside the tightly coupled memory. *)
Lemma cached_ready :
  @cpu_ready geom_d (dc c) (data_req c) = true ->
  in_tcm (mem_addr c) = false /\ dcache_valid s = true /\ dcache_ready i = true.
Proof.
  intros Hr. pose proof Hr as Hr'. unfold cpu_ready in Hr'.
  apply andb_true_iff in Hr' as [[_ [Hv Ht%negb_true_iff]%andb_true_iff]%andb_true_iff _].
  split_and!; [done..|]. cbn [chip_inputs dcache_ready]. unfold data_ready. by rewrite Ht.
Qed.

Lemma outside_ram : in_tcm (mem_addr c) = false -> forall b, visible c x b = ram w b.
Proof.
  intros Ht b. rewrite (ci_ram _ _ _ _ _ Hc). unfold early_store. destruct (d_ready (tcm0 c)) eqn:Ed; [|done].
  destruct (ci_dready _ _ _ _ _ Hc Ed) as (_ & ? & _). congruence.
Qed.

Lemma cached_word :
  @cpu_ready geom_d (dc c) (data_req c) = true ->
  word_of (@cpu_rdata geom_d (dc c) (data_req c)) = ram_word (core w) (ram w).
Proof.
  intros Hr. destruct (cached_ready Hr) as (Ht & _ & _). rewrite (ci_core _ _ _ _ _ Hc). unfold ram_word.
  apply word_of_mem. intros l Hl.
  destruct (@ready_cycle geom_d ok_d line_d 0 (data_req c) (data_req c) (dc_env e) (dc c, ddr c) x
    eq_refl (ci_dc _ _ _ _ _ Hc) Hr) as (Hd & _ & _).
  destruct (@word_access_view geom_d ok_d line_d (data_req c) x (ci_coherent _ _ _ _ _ Hc)) as (_ & _ & Hv).
  cbn [fst] in Hd. rewrite Hd, Hv by done. cbn [data_req cpu_req_addr]. fold (mem_addr c).
  rewrite word_base. rewrite <-(outside_ram Ht). unfold visible.
  rewrite (in_tcm_word (mem_addr c)) by divlia. by rewrite Ht.
Qed.

Lemma chip_inputs_ok : inputs_ok w i.
Proof.
  pose proof (ci_core _ _ _ _ _ Hc) as Ew. destruct He as (Hu & Hi & Ha & Hru & Hri & Hra).
  assert (dcache_ready i = true -> dcache_valid s = true /\ dcache_read_data i = ram_word (core w) (ram w)) as Hd.
  { cbn [chip_inputs dcache_ready dcache_read_data]. unfold data_ready, data_word, cpu_addr_is_tcm.
    fold (mem_addr c). destruct (in_tcm (mem_addr c)) eqn:Et; intros Hr.
    - destruct (ci_dready _ _ _ _ _ Hc Hr) as (Hv & _ & Hd). by rewrite Ew.
    - destruct (cached_ready Hr) as (_ & Hv & _). split; [done|]. by apply cached_word. }
  split; rewrite ?Ew; try done.
  - by intros [? _]%Hd.
  - intros [_ Hd']%Hd _. by rewrite Hd', Ew.
Qed.

Lemma chip_fetch_ok : fetch_ok imem code (core w) i.
Proof.
  rewrite (ci_core _ _ _ _ _ Hc). unfold fetch_ok. cbn [chip_inputs cache_ready if_inst].
  unfold if_ready, if_word, req_is_tcm. intros Hr Hp. destruct (in_tcm (pc s)) eqn:Et.
  - by apply (ci_iready _ _ _ _ _ Hc).
  - destruct (code_addr _ _ _ Hcode _ Hp) as (H2 & Hpos & Hlt & Hin).
    apply (@fetch_correct geom_i ok_i line_i m0 cached_code (ic c) (fetch_req c)); try done;
      cbn [fetch_req fetch_addr]; [apply Hc|lia|].
    intros k Hk. split; [by exists (pc s), k|]. by rewrite in_tcm_parcel.
Qed.

(** ** The state after the cycle *)

Abbreviation c' := (chip_clock geom_i geom_d c e).

Lemma waits_stall : dcache_valid s = true -> dcache_ready i = false -> global_mem_stall s i = true.
Proof. intros Hv Hr. unfold global_mem_stall, dmem_stall. by rewrite Hv, Hr. Qed.

Lemma still_held :
  global_mem_stall s i = true ->
  (ex_mem_is_amo (ex_mem s) = true -> dcache_valid s = true /\ dcache_ready i = false) ->
  ex_mem (cpu_core c') = ex_mem s /\ dcache_wen (cpu_core c') = dcache_wen s /\
  dcache_valid (cpu_core c') = dcache_valid s /\
  store_data (cpu_core c') = store_data s /\ mem_write_mask_out (cpu_core c') = mem_write_mask_out s /\
  data_req c' = data_req c.
Proof.
  intros Hg Hwait. pose proof (ci_core _ _ _ _ _ Hc) as Ew. pose proof (ci_co _ _ _ _ _ Hc) as [(op & Hin & _) _ _ _ _].
  rewrite <-Ew in Hg, Hwait. destruct (held_request i w a alog op Hin Hg Hwait) as (E1 & _ & E3 & E4 & E5 & E6).
  assert (core w' = cpu_core c') as Ew' by (cbn; by rewrite Ew).
  rewrite Ew, Ew' in *. split_and!; try done.
  unfold data_req, cpu_addr_is_tcm. by rewrite E1, E3, E4, E5, E6.
Qed.

(** A request that waits is the request of the next cycle. *)
Lemma waits_held :
  dcache_valid s = true -> dcache_ready i = false ->
  mem_addr c' = mem_addr c /\ dcache_wen (cpu_core c') = dcache_wen s /\ dcache_valid (cpu_core c') = true /\
  store_data (cpu_core c') = store_data s /\ mem_write_mask_out (cpu_core c') = mem_write_mask_out s /\
  data_req c' = data_req c.
Proof.
  intros Hv Hr. destruct (still_held (waits_stall Hv Hr)) as (E1 & E2 & E3 & E4 & E5 & E6); [done|].
  rewrite E3. unfold mem_addr. by rewrite E1.
Qed.

(** The cache and DRAM. *)
Lemma cache_waits :
  @cpu_ready geom_d (dc c) (data_req c) = false ->
  (@serving geom_d x (data_req c') (dc c', ddr c') \/
   @serving geom_d (@ensure geom_d x (mem_addr c)) (data_req c') (dc c', ddr c')) /\
  forall b, ddr c' b = ddr c b \/ ddr c' b = @wbval geom_d x b.
Proof.
  intros Hr. pose proof (@waiting_cycle geom_d ok_d (@m_idx geom_d (dc_addr_next geom_i geom_d c e)) (data_req c)
    (data_req c') (dc_env e) (dc c, ddr c) x eq_refl (ci_dc _ _ _ _ _ Hc) Hr) as Hw.
  cbn [data_req cpu_req_addr] in Hw. fold (mem_addr c) in Hw.
  replace (dc c', ddr c') with (dc_clock geom_i geom_d c e) by (cbn [chip_clock dc ddr]; by destruct (dc_clock _ _ _ _)).
  apply Hw. cbn [cpu_req_valid]. intros [Hv Ht%negb_true_iff]%andb_true_iff. change (in_tcm (mem_addr c) = false) in Ht.
  assert (dcache_ready i = false) as Hnr.
  { cbn [chip_inputs dcache_ready]. unfold data_ready, cpu_addr_is_tcm. fold (mem_addr c). by rewrite Ht. }
  split; [|by apply (waits_held Hv Hnr)]. unfold dc_addr_next. rewrite (waits_stall Hv Hnr).
  apply (@spec_index geom_d ok_d).
Qed.

Lemma cache_answers :
  @cpu_ready geom_d (dc c) (data_req c) = true ->
  @serving geom_d (@word_access geom_d (data_req c) x).2 (data_req c') (dc c', ddr c') /\ ddr c' = ddr c.
Proof.
  intros Hr. pose proof (@ready_cycle geom_d ok_d line_d (@m_idx geom_d (dc_addr_next geom_i geom_d c e)) (data_req c)
    (data_req c') (dc_env e) (dc c, ddr c) x eq_refl (ci_dc _ _ _ _ _ Hc) Hr) as (_ & Hs & Hm).
  split; [|exact Hm].
  replace (dc c', ddr c') with (dc_clock geom_i geom_d c e) by (cbn [chip_clock dc ddr]; by destruct (dc_clock _ _ _ _)).
  exact Hs.
Qed.

(** The tightly coupled memory. *)
Lemma tcm_pending_flag (req : bool) (r p : bool) : p = r -> pending_clock (req && negb p) r p = req && negb p.
Proof. intros ->. by destruct req, r. Qed.

Lemma tcm_d_flags :
  d_ready (tcm0 c') = dcache_valid s && in_tcm (mem_addr c) && negb (d_ready (tcm0 c)) /\
  dc_pending c' = d_ready (tcm0 c').
Proof.
  cbn [chip_clock tcm0 dc_pending]. unfold tcm_clock, tcm_d_req, tcm_req_valid, cpu_addr_is_tcm. fold (mem_addr c).
  cbn [d_ready tcm_requests d_req d_addr]. rewrite (ci_dpend _ _ _ _ _ Hc).
  unfold tcm_d_req, tcm_req_valid, cpu_addr_is_tcm. fold (mem_addr c). rewrite (ci_dpend _ _ _ _ _ Hc).
  rewrite tcm_pending_flag by done.
  by destruct (dcache_valid s), (in_tcm (mem_addr c)), (d_ready (tcm0 c)).
Qed.

Lemma tcm_i_flags :
  i_ready (tcm0 c') = in_tcm (pc s) && negb (i_ready (tcm0 c)) /\ ic_pending c' = i_ready (tcm0 c').
Proof.
  cbn [chip_clock tcm0 ic_pending]. unfold tcm_clock, tcm_i_req, tcm_req_valid, req_is_tcm.
  cbn [i_ready tcm_requests i_req i_addr]. unfold tcm_i_req, tcm_req_valid, req_is_tcm.
  rewrite (ci_ipend _ _ _ _ _ Hc). cbn [andb]. rewrite tcm_pending_flag by done.
  by destruct (in_tcm (pc s)), (i_ready (tcm0 c)).
Qed.

Lemma tcm_bytes (b : Z) :
  tcm_mem (tcm0 c') b =
  if d_ready (tcm0 c') && dcache_wen s
  then write_lanes (tcm_mem (tcm0 c)) (mem_addr c) (mem_write_mask_out s) (store_data s) b
  else tcm_mem (tcm0 c) b.
Proof.
  change (d_ready (tcm0 c')) with (tcm_d_req c && in_tcm (mem_addr c)).
  cbn [chip_clock tcm0]. destruct (_ && dcache_wen s) eqn:E.
  - apply andb_true_iff in E as [[E1 E2]%andb_true_iff E3]. by apply tcm_mem_write.
  - by apply tcm_mem_keep.
Qed.

Lemma ram_after (b : Z) :
  ram w' b = if dcache_wen s && dcache_ready i
             then write_lanes (ram w) (mem_addr c) (mem_write_mask_out s) (store_data s) b else ram w b.
Proof. unfold tick, ram_clock. cbn [ram]. rewrite (ci_core _ _ _ _ _ Hc). by destruct (_ && _). Qed.

Lemma word_write (m : mem) (b : Z) :
  in_tcm b <> in_tcm (mem_addr c) ->
  write_lanes m (mem_addr c) (mem_write_mask_out s) (store_data s) b = m b.
Proof.
  intros Hb. rewrite write_lanes_word. destruct (Z.eqb_spec (b / 4) (mem_addr c / 4)) as [E|]; [|done].
  by apply in_tcm_word in E.
Qed.

(** The bytes that the data port shows, after a cycle in which the cache
    answers, ... *)
Lemma visible_answers (b : Z) :
  @cpu_ready geom_d (dc c) (data_req c) = true ->
  visible c' (@word_access geom_d (data_req c) x).2 b = early_store c' (ram w') b.
Proof.
  intros Hr. destruct (cached_ready Hr) as (Ht & Hv & Hrdy). destruct tcm_d_flags as [Ed _].
  rewrite Ht, andb_false_r in Ed. cbn [andb] in Ed. unfold early_store. rewrite Ed. cbn [andb].
  rewrite ram_after, Hrdy, andb_true_r. unfold visible. rewrite tcm_bytes, Ed. cbn [andb].
  destruct (@word_access_view geom_d ok_d line_d (data_req c) x (ci_coherent _ _ _ _ _ Hc)) as (_ & Hw & _).
  rewrite Hw. cbn [data_req cpu_req_write cpu_req_addr cpu_wmask cpu_wdata]. fold (mem_addr c).
  pose proof (outside_ram Ht b) as Em. unfold visible in Em. destruct (in_tcm b) eqn:Eb.
  - rewrite Em. destruct (dcache_wen s); [|done]. rewrite word_write; [done|]. by rewrite Eb, Ht.
  - destruct (dcache_wen s); cbn [andb]; [|done]. rewrite write_lanes_word. by destruct (_ && _).
Qed.

(** ... and after the others. *)
Lemma visible_waits (y : memsys) (b : Z) :
  @cpu_ready geom_d (dc c) (data_req c) = false -> (forall b, view y b = view x b) ->
  visible c' y b = early_store c' (ram w') b.
Proof.
  intros Hr Hy. destruct tcm_d_flags as [Ed _]. pose proof (ci_ram _ _ _ _ _ Hc b) as Em.
  assert (dcache_ready i = in_tcm (mem_addr c) && d_ready (tcm0 c)) as Erdy.
  { cbn [chip_inputs dcache_ready]. unfold data_ready, cpu_addr_is_tcm. fold (mem_addr c).
    destruct (in_tcm (mem_addr c)); [done|exact Hr]. }
  unfold visible, early_store in *. rewrite tcm_bytes, Hy, Ed. destruct (d_ready (tcm0 c)) eqn:Edr.
  - destruct (ci_dready _ _ _ _ _ Hc Edr) as (Hv & Ht & _). rewrite Ht in *. cbn [negb andb] in *.
    rewrite !andb_false_r. cbn [andb]. rewrite ram_after, Erdy, Em, andb_true_r. by destruct (dcache_wen s).
  - rewrite andb_false_r in Erdy. cbn [negb andb] in *. rewrite andb_true_r.
    assert (ram w' b = ram w b) as Er by (by rewrite ram_after, Erdy, andb_false_r).
    destruct (dcache_valid s && in_tcm (mem_addr c)) eqn:E; cbn [andb]; [|by rewrite Er].
    apply andb_true_iff in E as [Hv Ht].
    destruct (waits_held Hv Erdy) as (E1 & E2 & _ & E4 & E5 & _).
    rewrite E1, E2, E4, E5. destruct (dcache_wen s); [|by rewrite Er].
    destruct (in_tcm b) eqn:Eb; [apply write_lanes_ext; by rewrite Er|].
    rewrite Em, word_write, Er; [done|]. by rewrite Eb, Ht.
Qed.

Lemma step_dready :
  d_ready (tcm0 c') = true ->
  dcache_valid (cpu_core c') = true /\ in_tcm (mem_addr c') = true /\
  d_rdata (tcm0 c') = ram_word (cpu_core c') (ram w').
Proof.
  intros Hd. destruct tcm_d_flags as [Ed _]. rewrite Hd in Ed. symmetry in Ed.
  apply andb_true_iff in Ed as [[Hv Ht]%andb_true_iff Hnd%negb_true_iff].
  assert (dcache_ready i = false) as Hnr.
  { cbn [chip_inputs dcache_ready]. unfold data_ready, cpu_addr_is_tcm. fold (mem_addr c). by rewrite Ht. }
  destruct (waits_held Hv Hnr) as (E1 & E2 & E3 & _). rewrite E3, E1. split_and!; [done..|].
  unfold ram_word. fold (mem_addr c'). rewrite E1.
  destruct (tcm_d_read (tcm_requests c) (tcm0 c)) as [_ Hrd]; [|done|].
  { cbn [tcm_requests d_req]. unfold tcm_d_req, tcm_req_valid, cpu_addr_is_tcm. fold (mem_addr c).
    by rewrite Hv, Ht, (ci_dpend _ _ _ _ _ Hc), Hnd. }
  transitivity (mem_word (tcm_mem (tcm0 c)) (mem_addr c - mem_addr c mod 4)); [exact Hrd|].
  assert (forall k, 0 <= k < 4 -> tcm_mem (tcm0 c) (mem_addr c - mem_addr c mod 4 + k) =
    ram w' (mem_addr c - mem_addr c mod 4 + k)) as Hb.
  { intros k Hk. rewrite ram_after, Hnr, andb_false_r. pose proof (ci_ram _ _ _ _ _ Hc (mem_addr c - mem_addr c mod 4 + k)) as Em.
    unfold visible, early_store in Em. rewrite Hnd in Em. rewrite (in_tcm_word (mem_addr c)), Ht in Em by divlia. exact Em. }
  by apply mem_word_ext.
Qed.

Lemma step_iready :
  i_ready (tcm0 c') = true ->
  in_tcm (pc (cpu_core c')) = true /\
  (code (pc (cpu_core c')) = true -> i_rdata (tcm0 c') = imem (pc (cpu_core c'))).
Proof.
  intros Hi. destruct tcm_i_flags as [Ei _]. rewrite Hi in Ei. symmetry in Ei.
  apply andb_true_iff in Ei as [Ht Hni%negb_true_iff].
  assert (pc (cpu_core c') = pc s) as Epc.
  { cbn [chip_clock cpu_core clock pc]. unfold pc_clock, pc_stall.
    assert (global_mem_stall s i = true) as ->; [|by rewrite orb_true_r].
    unfold global_mem_stall, imem_stall. cbn [chip_inputs cache_ready]. unfold if_ready, req_is_tcm.
    rewrite Ht, Hni. cbn [negb]. by rewrite orb_true_r. }
  rewrite Epc. split; [done|]. intros Hp. destruct (code_addr _ _ _ Hcode _ Hp) as (H2 & _ & _ & Hin).
  assert (forall k, 0 <= k < 4 -> tcm_mem (tcm0 c) (pc s + k) = m0 (pc s + k)) as Hb.
  { intros k Hk. rewrite <-(visible_code c w a alog x (pc s + k) Hc) by (by exists (pc s), k).
    unfold visible. by rewrite in_tcm_parcel, Ht. }
  transitivity (mem_word (tcm_mem (tcm0 c)) (pc s)).
  - apply (tcm_i_read (tcm_requests c) (tcm0 c)); cbn [tcm_requests i_req i_addr]; try done.
    + unfold tcm_i_req, tcm_req_valid, req_is_tcm. by rewrite Ht, (ci_ipend _ _ _ _ _ Hc), Hni.
    + by rewrite in_tcm_parcel.
  - by apply mem_word_ext.
Qed.

Lemma step_ddr (b : Z) : cached_code b -> ddr c' b = m0 b.
Proof.
  intros Hb. pose proof (ci_ddr _ _ _ _ _ Hc b Hb) as Hd.
  destruct (@cpu_ready geom_d (dc c) (data_req c)) eqn:Hr.
  - destruct (cache_answers Hr) as [_ ->]. exact Hd.
  - destruct (cache_waits Hr) as [_ Hm]. destruct (Hm b) as [->|E]; [done|].
    transitivity (view x b); [rewrite E; symmetry; apply (ci_coherent _ _ _ _ _ Hc)|].
    destruct Hb as [Hb Ht]. rewrite <-(visible_code c w a alog x b Hc Hb). unfold visible. by rewrite Ht.
Qed.

Lemma step_cache :
  exists y, @serving geom_d y (data_req c') (dc c', ddr c') /\ @all_coherent geom_d y /\
    forall b, visible c' y b = early_store c' (ram w') b.
Proof.
  pose proof (ci_coherent _ _ _ _ _ Hc) as Hco. destruct (@cpu_ready geom_d (dc c) (data_req c)) eqn:Hr.
  - exists (@word_access geom_d (data_req c) x).2. destruct (cache_answers Hr) as [Hs _].
    split_and!; [done| |intros b; by apply visible_answers].
    by apply (@word_access_view geom_d ok_d line_d (data_req c) x Hco).
  - destruct (cache_waits Hr) as [[Hs|Hs] _].
    + exists x. split_and!; [done..|]. intros b. by apply visible_waits.
    + exists (@ensure geom_d x (mem_addr c)).
      assert (forall b, view (@ensure geom_d x (mem_addr c)) b = view x b /\ @coherent geom_d (@ensure geom_d x (mem_addr c)) b)
        as He' by (intros b; apply (@ensure_view geom_d ok_d), Hco).
      split_and!; [done|intros b; apply He'|]. intros b. apply visible_waits; [done|]. intros b'. apply He'.
Qed.

Lemma chip_step : exists lbs a' evs y,
  Forall label_ok lbs /\ arch_run imem lbs a = Some (a', evs) /\ chip_inv c' w' a' (alog ++ evs) y /\
  (lbs = [] -> if global_mem_stall s i then rank (cpu_core c') = rank s else (rank (cpu_core c') < rank s)%nat).
Proof.
  destruct (tick_corresponds imem code (imem_range m0) i w a alog (chip_inputs_ok) (chip_fetch_ok)
    (ci_co _ _ _ _ _ Hc)) as (lbs & a' & evs & Hl & Hr & Hco & _ & Hrank).
  destruct step_cache as (y & Hs & Hcoh & Hv). pose proof (ci_core _ _ _ _ _ Hc) as Ew.
  assert (core w' = cpu_core c') as Ew' by (cbn; by rewrite Ew). rewrite Ew, Ew' in Hrank.
  exists lbs, a', evs, y. split_and!; [done..| |done]. split; try done.
  - cbn. by rewrite Ew, (ci_log _ _ _ _ _ Hc).
  - by apply (reached_run m0 a0 a a' lbs evs); [apply Hc|..].
  - apply tcm_d_flags.
  - apply step_dready.
  - apply tcm_i_flags.
  - apply step_iready.
  - apply (@step_ok geom_i ok_i line_i); [done| |apply Hc]. intros o Ho. by apply Hc.
  - apply step_ddr.
Qed.
End Step.

(** ** Runs *)

(** The inputs of the core in every cycle. *)
Fixpoint chip_answers (es : list chip_env) (c : chip) : list inputs :=
  match es with
  | [] => []
  | e :: es => chip_inputs geom_i geom_d c e :: chip_answers es (chip_clock geom_i geom_d c e)
  end.

Lemma chip_run_ok (es : list chip_env) (c : chip) (w : soc) (a : arch) (alog : list event) (x : memsys) :
  chip_inv c w a alog x -> envs_ok geom_i geom_d es c ->
  run_ok imem code (chip_answers es c) w /\
  exists a' alog' y, chip_inv (chip_cycles geom_i geom_d es c) (run (chip_answers es c) w) a' alog' y.
Proof.
  induction es as [|e es IH] in c, w, a, alog, x |- *; intros Hc He; [by split; [|exists a, alog, x]|].
  destruct He as [He Hes]. cbn [chip_answers run_ok run chip_cycles].
  destruct (chip_step c e w a alog x Hc He) as (lbs & a' & evs & y & _ & _ & Hc' & _).
  destruct (IH _ _ _ _ _ Hc' Hes) as [Hok Hex]. split; [|done]. split; [by eapply chip_inputs_ok|].
  split; [by eapply chip_fetch_ok|done].
Qed.

(** The byte that software sees: in the tightly coupled memory, in a resident
    line of the data cache, or in DRAM. *)
Definition chip_byte (c : chip) (b : Z) : Z :=
  let t := tagv (dc c) (@m_idx geom_d b) in
  if in_tcm b then tcm_mem (tcm0 c) b
  else if negb (DcacheFsm.is_state (dc c) DcacheFsm.S_INIT) && t.1 && (t.2 =? @m_tag geom_d b)
  then DcacheFsm.d (dc c) (@m_idx geom_d b) (@m_off geom_d b) else ddr c b.

Lemma abs_byte (r : DcacheFsm.regs) (m : mem) (x : memsys) (b : Z) :
  @abs geom_d (r, m) x ->
  (if (tagv r (@m_idx geom_d b)).1 && ((tagv r (@m_idx geom_d b)).2 =? @m_tag geom_d b)
   then DcacheFsm.d r (@m_idx geom_d b) (@m_off geom_d b) else m b) = view x b.
Proof.
  intros [Hx Hm]. cbn [fst snd] in *. destruct (Hx (@m_idx geom_d b) (@m_idx_range geom_d ok_d b)) as [Hv Hrest].
  unfold Dcache.view, Dcache.hit. rewrite Hv. destruct (tagv r (@m_idx geom_d b)).1; cbn [andb]; [|by rewrite Hm].
  destruct (Hrest Hv) as (-> & _ & Hd). destruct (_ =? _); [|by rewrite Hm]. symmetry. apply Hd.
  apply (@m_off_range geom_d ok_d).
Qed.

Lemma chip_byte_visible (c : chip) (x : memsys) (b : Z) :
  cpu_req_valid (data_req c) = false -> @serving geom_d x (data_req c) (dc c, ddr c) ->
  chip_byte c b = visible c x b.
Proof.
  intros Hv Hs. unfold chip_byte, visible. destruct (in_tcm b); [done|].
  destruct Hs as [(Hst & _ & _ & Hval & Hm)|[[Hst Hx]|[(Hst & _ & Hx)|[Hv' _]]]]; [..|congruence].
  - cbn [fst snd] in *. rewrite (DcacheFsm.is_state_true _ _ Hst). cbn [negb andb].
    unfold Dcache.view, Dcache.hit. by rewrite Hval, Hm.
  - cbn [fst] in Hst. rewrite DcacheFsm.is_state_false by (by rewrite Hst). cbn [negb andb]. by apply abs_byte.
  - cbn [fst] in Hst. rewrite DcacheFsm.is_state_false by (by rewrite Hst). cbn [negb andb]. by apply abs_byte.
Qed.

(** Between two instructions in MEM the chip is in the state [a]. *)
Record chip_state (c : chip) (a : arch) : Prop := {
  cs_regs : forall r, read_data (cpu_core c) r = getreg a r;
  cs_csr : csr (cpu_core c) = a_csr a;
  cs_mem : forall b, chip_byte c b = a_mem a b;
  cs_resv : resv_of (rm (cpu_core c)) = a_resv a;
  cs_pc : front_pc (cpu_core c) = a_pc a;
}.

Lemma chip_state_of (c : chip) (w : soc) (a : arch) :
  core w = cpu_core c -> (forall b, chip_byte c b = ram w b) -> holds_state w a -> chip_state c a.
Proof.
  intros Ew Hb [E1 E2 E3 E4 E5]. rewrite Ew in E2, E4, E5. split; try done.
  - intros r. rewrite <-Ew. apply E1.
  - intros b. by rewrite Hb, E3.
Qed.

Lemma empty_mem (c : chip) (w : soc) (a : arch) (alog : list event) (x : memsys) :
  chip_inv c w a alog x -> ex_mem_valid (ex_mem (cpu_core c)) = false ->
  forall b, chip_byte c b = ram w b.
Proof.
  intros Hc Hv b. pose proof (ci_co _ _ _ _ _ Hc) as [(op & Hin & Hi) _ _ _ _].
  pose proof (ci_core _ _ _ _ _ Hc) as Ew. unfold issued in Hi. rewrite Ew, Hv in Hi. destruct Hi as [[v ->] _].
  assert (dcache_valid (cpu_core c) = false) as Hd.
  { pose proof (im_op _ _ _ _ Hin) as Hop. rewrite Ew in Hop. unfold dcache_valid.
    rewrite (dcache_wen_op _ _ Hop), orb_false_r. unfold dcache_ren, amo_read_phase.
    by rewrite (is_load_op _ _ Hop), (is_amo_op _ _ Hop). }
  rewrite (chip_byte_visible c x); [|cbn; by rewrite Hd|apply Hc]. rewrite (ci_ram _ _ _ _ _ Hc).
  unfold early_store. destruct (d_ready (tcm0 c)) eqn:Er; [|done].
  destruct (ci_dready _ _ _ _ _ Hc Er) as [? _]. congruence.
Qed.

Lemma seen_state (c : chip) (w : soc) (a b : arch) (alog : list event) (x : memsys) :
  chip_inv c w a alog x -> (ex_mem_valid (ex_mem (core w)) = false -> holds_state w b) ->
  ex_mem_valid (ex_mem (cpu_core c)) = false -> chip_state c b.
Proof.
  intros Hc Hw Hv. pose proof (ci_core _ _ _ _ _ Hc) as Ew. apply (chip_state_of c w); [done| |].
  - by apply (empty_mem c w a alog x).
  - apply Hw. by rewrite Ew.
Qed.
End Composition.

Lemma chip_init_inv (geom_i geom_d : DcGeom) `{TcmGeom} (ok_i : @DcGeomOk geom_i) (ok_d : @DcGeomOk geom_d)
    (code : Z -> bool) (p : power_on) :
  let m0 := boot_mem p in
  (forall r, is_uint 32 (po_regs p r)) ->
  well_behaved (mem_word m0) code (arch_reset (po_regs p) m0) -> code_ok m0 code (arch_reset (po_regs p) m0) ->
  chip_inv geom_i geom_d m0 code (arch_reset (po_regs p) m0) (chip_init p)
    (chip_reset (po_regs p) (po_pht p) (po_ras p) (po_div p) (po_old p) m0) (arch_reset (po_regs p) m0) []
    (dc_reset (po_ddr p)).
Proof.
  intros m0 Hr Hw Hcode. split; try done.
  - by apply reset_corresponds.
  - exists [], []. by split; [constructor|].
  - apply (@reset_serving geom_d ok_d).
  - apply (@reset_ok geom_i ok_i).
  - intros b [_ Hb]. cbn [chip_init ddr]. unfold m0, boot_mem. by rewrite Hb.
Qed.

(** C1: the chip with its caches implements the instruction set.  From reset,
    with any contents of the register file, the predictor, the caches' arrays,
    the tightly coupled memory and DRAM, for every program that stays in [code]
    and does not write there, for any answers of the peripherals, any latency of
    DRAM on both line ports and any value a RAM returns where it is written in
    the same cycle: there is a run of the sequential architecture on one flat
    memory such that the device accesses the chip has made are exactly the
    run's, in order, and whenever no instruction is in MEM the registers, the
    CSRs, the reservation, the next address, and every byte as the tightly
    coupled memory, a resident line of the data cache or DRAM holds it, are
    those of the run's last state. *)
Theorem chip_refines_architecture (geom_i geom_d : DcGeom) `{TcmGeom} (p : power_on) (code : Z -> bool)
    (es : list chip_env) :
  @DcGeomOk geom_i -> @DcGeomOk geom_d -> @LINE_BYTES geom_i = 16 -> @LINE_BYTES geom_d = 16 ->
  let m0 := boot_mem p in
  let a0 := arch_reset (po_regs p) m0 in
  (forall r, is_uint 32 (po_regs p r)) ->
  well_behaved (mem_word m0) code a0 -> code_ok m0 code a0 ->
  envs_ok geom_i geom_d es (chip_init p) ->
  let c := chip_cycles geom_i geom_d es (chip_init p) in
  exists lbs a evs,
    Forall label_ok lbs /\ arch_run (mem_word m0) lbs a0 = Some (a, evs) /\ dev_log c = evs /\
    (ex_mem_valid (ex_mem (cpu_core c)) = false -> chip_state geom_d c a).
Proof.
  intros ok_i ok_d line_i line_d m0 a0 Hr Hw Hcode Hes c.
  pose proof (chip_init_inv geom_i geom_d ok_i ok_d code p Hr Hw Hcode) as H0.
  destruct (chip_run_ok geom_i geom_d ok_i ok_d line_i line_d m0 code a0 Hcode es _ _ _ _ _ H0 Hes)
    as (Hok & a1 & l1 & y & Hc).
  destruct (chip_run (mem_word m0) code (imem_range m0) _ _ _ _ _ _ _ Hr Hw Hok)
    as (lbs & a & evs & H1 & H2 & H3 & H4 & _).
  exists lbs, a, evs. split_and!; [done|done| |].
  - rewrite <-H3. symmetry. apply Hc.
  - exact (seen_state geom_i geom_d ok_d m0 code a0 _ _ a1 a l1 y Hc H4).
Qed.

(** ** A program

    Its first instructions are in the tightly coupled memory, its loop in DRAM:
    it stores 5 to memory, loads it again and writes it to the LED register. *)
Module ChipWitness.
Definition geom_small : DcGeom := {| OFF := 4; IDX := 1 |}.
#[local] Instance tcm_small : TcmGeom.
Proof. refine {| INDEX_BITS := 4 |}. lia. Defined.

Lemma geom_small_ok : @DcGeomOk geom_small.
Proof. split; cbn; lia. Qed.

Definition word_at (w a : Z) : Z :=
  if a =? 0x40000000 then 0x000032b7     (* lui x5, 3 *)
  else if a =? 0x40000004 then 0x10000067 (* jalr x0, 256(x0) *)
  else if a =? 0x100 then 0x00500313     (* addi x6, x0, 5 *)
  else if a =? 0x104 then 0x0062a023     (* sw x6, 0(x5) *)
  else if a =? 0x108 then 0x0002a383     (* lw x7, 0(x5) *)
  else if a =? 0x10c then 0x00002437     (* lui x8, 2 *)
  else if a =? 0x110 then 0x00742023     (* sw x7, 0(x8) *)
  else if a =? 0x114 then 0xff1ff06f     (* jal x0, -16 *)
  else w.

Definition zeros : Z -> Z := fun _ => 0.
Definition junk : bool * Z := (true, 16).
Definition power : power_on :=
  {| po_regs := zeros; po_pht := zeros; po_ras := zeros; po_div := DivUnit.reset 0 0 0 0 0 false false; po_old := 0;
     po_ic := Icache.mk_regs (fun _ _ => 7) (fun _ _ => 7) (fun _ => junk) (fun _ => junk) zeros zeros junk junk 0 0 false 0
                Icache.S_IDLE 0 0;
     po_dc := DcacheFsm.mk_regs (fun _ _ => 7) (fun _ => junk) (fun _ => true) zeros junk 0 DcacheFsm.S_IDLE 0 0 0 0 zeros
                false 0 (fun _ => false) zeros;
     po_tcm := mk_tcm (fun n => bits 15 0 (word_at 0 (0x40000000 + 4 * n))) (fun n => bits 31 16 (word_at 0 (0x40000000 + 4 * n)))
                 0 0 false false 0 0 false;
     po_ddr := fun b => u8 (word_at 0xAB (b - b mod 4) .>> (8 * (b mod 4))) |}.

(** DRAM answers at once, the peripherals never. *)
Definition env0 : chip_env :=
  mk_chip_env false 0 false 0 false 0 false true true zeros zeros junk junk zeros junk.
Definition after (n : nat) : chip := chip_cycles geom_small geom_small (repeat env0 n) (chip_init power).

Definition m0 : mem := boot_mem power.
Definition a0 : arch := arch_reset zeros m0.
Definition places : list Z := [0x40000000; 0x40000004; 0x100; 0x104; 0x108; 0x10c; 0x110; 0x114].
Definition inside (p : Z) : bool := existsb (Z.eqb p) places.

Section Track.
Variables (imem : Z -> Z) (m1 : mem).

Definition program (p : Z) : instr :=
  if p =? 0x40000000 then Lui 5 0x3000
  else if p =? 0x40000004 then Jalr 0 0 256
  else if p =? 0x100 then OpImm ADD 6 0 5
  else if p =? 0x104 then Store SW 5 6 0
  else if p =? 0x108 then Load LW 7 5 0
  else if p =? 0x10c then Lui 8 0x2000
  else if p =? 0x110 then Store SW 8 7 0
  else Jal 0 (-16).

Hypothesis fetched : forall p, In p places -> arch_decode (imem p) = Legal (program p) 4.

(** The only byte addresses that the program writes are those of one word. *)
Record on_track (a : arch) : Prop := {
  ot_csr : a_csr a = csr_reset;
  ot_mem : forall b, b < 0x3000 \/ 0x3004 <= b -> a_mem a b = m1 b;
  ot_pc : In (a_pc a) places;
  ot_r5 : a_pc a = 0x40000000 \/ a_regs a 5 = 0x3000;
  ot_r8 : a_pc a = 0x110 -> a_regs a 8 = 0x2000;
}.

Lemma track_instr (l : lines) (v : Z) (a a' : arch) (evs : list event) :
  on_track a -> arch_step imem (LInstr l v) a = Some (a', evs) -> on_track a'.
Proof.
  intros [Hcsr Hmem Hpc H5 H8]. unfold arch_step. rewrite (fetched _ Hpc).
  destruct a as [pc0 r0 c0 mm0 v0]. cbn [a_pc a_regs a_csr a_mem] in *. subst c0. cbn [places In] in Hpc.
  destruct Hpc as [<-|[<-|[<-|[<-|[<-|[<-|[<-|[<-|[]]]]]]]]];
    (destruct H5 as [H5|H5]; [try discriminate H5|]); try specialize (H8 eq_refl);
    cbn [program Z.eqb Pos.eqb]; unfold exec, exec_store, exec_load, goto, getreg, setreg, fupd;
    cbn [a_pc a_regs a_csr a_mem a_resv Z.eqb Pos.eqb]; rewrite ?H5, ?H8.
  all: try (change (misaligned _ _) with false); cbn beta iota.
  all: try (change (dev (u32 (0x3000 + 0))) with false); try (change (dev (u32 (0x2000 + 0))) with true); cbn beta iota.
  all: intros E; injection E as <- _; split; cbn [a_pc a_regs a_csr a_mem]; try done.
  all: try (by right). all: try (by vm_compute; auto 12).
  intros b Hb. unfold store_bytes. change (u32 (0x3000 + 0)) with 0x3000. rewrite <-Hmem by done.
  destruct (Z.leb_spec 0x3000 b), (Z.ltb_spec b (0x3000 + 4)); try done. lia.
Qed.

Lemma track_run (lbs : list label) (a a' : arch) (evs : list event) :
  on_track a -> arch_run imem lbs a = Some (a', evs) -> on_track a'.
Proof.
  induction lbs as [|lb lbs IH] in a, evs |- *; cbn; intros Ha Hr; [by simplify_eq|].
  destruct (arch_step imem lb a) as [[b f]|] eqn:E; [|done]. cbn in Hr.
  destruct (arch_run imem lbs b) as [[c g]|] eqn:E2; [|done]. cbn in Hr. simplify_eq.
  eapply IH; [|exact E2]. destruct lb as [l v|ext]; [by eapply track_instr|].
  cbn [arch_step] in E. unfold irq_enabled in E. by rewrite (ot_csr _ Ha) in E.
Qed.

Lemma track_safe (a : arch) : on_track a -> safe imem inside a.
Proof.
  intros [_ _ Hp _ _]. unfold safe. rewrite (fetched _ Hp). cbn [places In] in Hp.
  destruct Hp as [<-|[<-|[<-|[<-|[<-|[<-|[<-|[<-|[]]]]]]]]]; by vm_compute.
Qed.
End Track.

Lemma m0_fetched (p : Z) : In p places -> arch_decode (mem_word m0 p) = Legal (program p) 4.
Proof. intros Hp. cbn [places In] in Hp. destruct Hp as [<-|[<-|[<-|[<-|[<-|[<-|[<-|[<-|[]]]]]]]]]; by vm_compute. Qed.

Lemma start_on_track : on_track m0 a0.
Proof. split; [done|done|by left|by left|done]. Qed.

Lemma places_bounds (p : Z) : inside p = true ->
  In p places /\ p mod 2 = 0 /\ 0 <= p /\ p + 3 < 2 ^ 32 /\ in_tcm (p + 3) = in_tcm p /\ (p < 0x2000 \/ 0x4000 <= p).
Proof.
  unfold inside. intros [q [Hq Hp%Z.eqb_eq]]%existsb_exists. subst q. split; [done|]. cbn [places In] in Hq.
  destruct Hq as [<-|[<-|[<-|[<-|[<-|[<-|[<-|[<-|[]]]]]]]]]; (split_and!; [done|done|done|by vm_compute|]); lia.
Qed.

Lemma program_well_behaved : well_behaved (mem_word m0) inside a0.
Proof.
  intros lbs a evs _ Hr. apply (track_safe _ m0 m0_fetched).
  exact (track_run _ m0 m0_fetched lbs a0 a evs start_on_track Hr).
Qed.

Lemma program_code_ok : code_ok m0 inside a0.
Proof.
  split.
  - intros p Hp%places_bounds. tauto.
  - intros lbs a evs _ Hr p k Hp%places_bounds Hk.
    apply (ot_mem _ _ (track_run _ m0 m0_fetched lbs a0 a evs start_on_track Hr)). lia.
Qed.

Lemma envs_quiet (n : nat) (c : chip) : envs_ok geom_small geom_small (repeat env0 n) c.
Proof. induction n as [|n IH] in c |- *; cbn [repeat envs_ok]; [done|]. split; [by repeat split|apply IH]. Qed.

(** After 30 cycles the LEDs have been written twice. *)
Lemma chip_refines_architecture_witness :
  dev_log (after 30) = [DevWrite LED_ADDR 5; DevWrite LED_ADDR 5] /\
  exists lbs a evs,
    Forall label_ok lbs /\ arch_run (mem_word m0) lbs a0 = Some (a, evs) /\ dev_log (after 30) = evs /\
    (ex_mem_valid (ex_mem (cpu_core (after 30))) = false -> chip_state geom_small (after 30) a).
Proof.
  split; [by vm_compute|].
  apply (chip_refines_architecture geom_small geom_small power inside (repeat env0 30)).
  - apply geom_small_ok.
  - apply geom_small_ok.
  - done.
  - done.
  - by split.
  - apply program_well_behaved.
  - apply program_code_ok.
  - apply envs_quiet.
Defined.
End ChipWitness.
