(* ===== verification/ChipLive.v ===== *)
(** * The chip makes progress

    The pipeline moves only in a cycle in which nothing holds it.  Every reason
    to hold it ends and does not come back while the pipeline stands still, but
    for the two ports of the tightly coupled memory, which are ready every
    second cycle; they are ready in the same ones.  So the pipeline moves again
    and again, and after a bounded number of moves the architecture steps. *)

From S2P Require Import Prelude Bits Dcache DcacheFsm DcachePort Tcm Icache CacheLive.
From S2P Require Import Rv32 Rvc Decoder DivUnit CpuUnits Cpu CpuSpec CpuMem CpuEx CpuFront CpuRefine CpuLive.
From S2P Require Import CpuCorrect Chip ChipCorrect.

(** An infinite run: the chip [c t] in cycle [t], in the surroundings [env t]. *)
Record chip_trace (geom_i geom_d : DcGeom) `{TcmGeom} (p : power_on) (env : nat -> chip_env) (c : nat -> chip) : Prop := {
  tr_init : c O = chip_init p;
  tr_clock : forall t, c (S t) = chip_clock geom_i geom_d (c t) (env t);
}.

(** The surroundings keep the handshakes, and answer at some time: DRAM whenever
    a line port requests, a peripheral whenever a request is pending. *)
Record fair (env : nat -> chip_env) (c : nat -> chip) : Prop := {
  fr_ok : forall t, env_ok (cpu_core (c t)) (env t);
  fr_icache : forall t, Icache.mem_req_valid (ic (c t)) = true -> exists k, icache_mem_ready (env (t + k)%nat) = true;
  fr_dcache : forall t, DcacheFsm.mem_req_valid (dc (c t)) = true -> exists k, dcache_mem_ready (env (t + k)%nat) = true;
  fr_uart : forall t, pending (uart (cpu_core (c t))) = true -> exists k, e_uart_ready (env (t + k)%nat) = true;
  fr_intc : forall t, pending (intc (cpu_core (c t))) = true -> exists k, e_intc_ready (env (t + k)%nat) = true;
  fr_accel : forall t, pending (accel (cpu_core (c t))) = true -> exists k, e_accel_ready (env (t + k)%nat) = true;
}.

(** The two ports of the tightly coupled memory are in step.  An atomic access
    starts its own requests later, but does not need to meet a fetch. *)
Definition in_step `{TcmGeom} (c : chip) : Prop :=
  in_tcm (pc (cpu_core c)) = true -> dcache_valid (cpu_core c) = true -> in_tcm (mem_addr c) = true ->
  ex_mem_is_amo (ex_mem (cpu_core c)) = false -> i_ready (tcm0 c) = d_ready (tcm0 c).

Section Live.
Context (geom_i geom_d : DcGeom) `{TcmGeom}.
Context (ok_i : @DcGeomOk geom_i) (ok_d : @DcGeomOk geom_d).
Context (line_i : @LINE_BYTES geom_i = 16) (line_d : @LINE_BYTES geom_d = 16) (sets : 1 <= @IDX geom_i <= 28).
Context (m0 : mem) (code : Z -> bool) (a0 : arch) (Hcode : code_ok m0 code a0).
Abbreviation chip_inv := (chip_inv geom_i geom_d m0 code a0).
Context (env : nat -> chip_env) (c : nat -> chip) (Hfair : fair env c).
Context (Hclock : forall t, c (S t) = chip_clock geom_i geom_d (c t) (env t)).
Context (Hinit : exists w x, chip_inv (c O) w a0 [] x) (Hin_step : in_step (c O)).

Abbreviation s t := (cpu_core (c t)).
Abbreviation ins t := (chip_inputs geom_i geom_d (c t) (env t)).
Abbreviation stalls t := (global_mem_stall (s t) (ins t)).

(** The chip in cycle [t] is in a run of the architecture of at least [n] steps. *)
Definition did (n t : nat) : Prop := exists lbs w a alog x,
  Forall label_ok lbs /\ arch_run (mem_word m0) lbs a0 = Some (a, alog) /\ (n <= length lbs)%nat /\
  chip_inv (c t) w a alog x.

Lemma did_next (n t : nat) : did n t ->
  did (S n) (S t) \/
  did n (S t) /\ if global_mem_stall (s t) (ins t) then rank (s (S t)) = rank (s t)
                 else (rank (s (S t)) < rank (s t))%nat.
Proof.
  intros (l0 & w & a & alog & x & Hl0 & Hr0 & Hn & Hc).
  destruct (chip_step geom_i geom_d ok_i ok_d line_i line_d m0 code a0 Hcode (c t) (env t) w a alog x Hc
    (fr_ok _ _ Hfair t)) as (lbs & a' & evs & y & Hl & Hr & Hc' & Hrank). rewrite <-Hclock in *.
  assert (forall k, (k <= n + length lbs)%nat -> did k (S t)) as Hd.
  { intros k Hk. exists (l0 ++ lbs), (tick (ins t) w), a', (alog ++ evs), y.
    split; [by apply Forall_app|]. split; [by apply (arch_run_app _ _ _ _ a)|]. split; [rewrite length_app; lia|done]. }
  destruct lbs as [|lb lbs]; [right; split; [apply Hd; lia|by apply Hrank]|left; apply Hd; cbn [length]; lia].
Qed.

Lemma did_mono (n t k : nat) : did n t -> did n (k + t)%nat.
Proof.
  intros Hd. induction k as [|k IH]; [done|]. destruct (did_next _ _ IH) as [(l & w & a & e & x & H1 & H2 & H3 & H4)|[Hd' _]]; [|done].
  exists l, w, a, e, x. split_and!; try done. lia.
Qed.

Lemma did_zero (t : nat) : did 0 t.
Proof.
  destruct Hinit as (w0 & x0 & H0). rewrite <-(Nat.add_0_r t). apply did_mono. by exists [], w0, a0, [], x0.
Qed.

Lemma inv_at (t : nat) : exists w a alog x, chip_inv (c t) w a alog x.
Proof. destruct (did_zero t) as (_ & w & a & alog & x & _ & _ & _ & Hc). eauto. Qed.

Lemma next_core (t : nat) : s (S t) = clock (s t) (ins t).
Proof. by rewrite Hclock. Qed.

(** ** Soon: before the pipeline moves *)

Inductive soon (Q : nat -> Prop) (t : nat) : Prop :=
  | soon_now : Q t -> soon Q t
  | soon_moves : stalls t = false -> soon Q t
  | soon_next : stalls t = true -> soon Q (S t) -> soon Q t.

Definition stable (Q : nat -> Prop) : Prop := forall t, stalls t = true -> Q t -> Q (S t).

Lemma soon_step (Q : nat -> Prop) (t : nat) : (stalls t = true -> soon Q (S t)) -> soon Q t.
Proof. intros Hn. destruct (stalls t) eqn:Hg; [by apply soon_next; [|apply Hn]|by apply soon_moves]. Qed.

Lemma soon_then (Q R : nat -> Prop) (t : nat) : soon Q t -> (forall t', Q t' -> soon R t') -> soon R t.
Proof. intros HQ HR. induction HQ; [by apply HR|by apply soon_moves|by apply soon_next]. Qed.

Lemma soon_both (Q R : nat -> Prop) (t : nat) :
  stable Q -> (forall t', soon R t') -> soon Q t -> soon (fun t => Q t /\ R t) t.
Proof.
  intros Hs HR HQ. apply (soon_then Q _ t HQ). intros t' Hq. specialize (HR t').
  induction HR as [t' Hr|t' Hm|t' Hg _ IH]; [by apply soon_now|by apply soon_moves|].
  apply soon_next; [done|]. by apply IH, Hs.
Qed.

Lemma stable_both (Q R : nat -> Prop) : stable Q -> stable R -> stable (fun t => Q t /\ R t).
Proof. intros HQ HR t Hg [Hq Hr]. split; auto. Qed.

(** What a cycle that stands still keeps. *)
Lemma still (t : nat) : stalls t = true ->
  pc (s (S t)) = pc (s t) /\ ex_mem (s (S t)) = ex_mem (s t) /\ id_ex (s (S t)) = id_ex (s t).
Proof.
  intros Hg. rewrite next_core. unfold clock. cbn [pc ex_mem id_ex].
  unfold pc_clock, pc_stall, ex_mem_clock, id_ex_clock. by rewrite Hg, orb_true_r.
Qed.

(** ** The divider *)

Definition div_free (t : nat) : Prop := div_stall (s t) = false.

Lemma div_stable : stable div_free.
Proof.
  intros t Hg. destruct (still t Hg) as (_ & _ & E). unfold div_free, div_stall, is_div_op. rewrite E, next_core.
  unfold clock. cbn [div_result_ready]. unfold div_result_ready_clock. rewrite Hg.
  destruct (_ =? 4); cbn [andb negb]; [|done]. destruct (DivUnit.done _), (div_result_ready _); done.
Qed.

Lemma div_soon (t : nat) : soon div_free t.
Proof.
  remember (div_wait (s t)) as n eqn:En. revert t En. induction n as [n IH] using lt_wf_ind. intros t ->.
  destruct (div_stall (s t)) eqn:Hd; [|by apply soon_now]. apply soon_step. intros Hg.
  destruct (inv_at t) as (w & a & alog & x & Hc). pose proof (ci_core _ _ _ _ _ _ _ _ _ _ Hc) as Ew.
  destruct (div_falls (s t) (s (S t)) (ins t)) as [_ Hlt]; try (rewrite next_core; done); [done| | | |by eapply IH; [exact (Hlt Hd)|]].
  - destruct (still t Hg) as (_ & _ & E). unfold is_div_op. by rewrite E.
  - intros Hop. rewrite <-Ew in *. by apply (frozen_div_range (mem_word m0) code (imem_range m0) w a alog (ci_co _ _ _ _ _ _ _ _ _ _ Hc)).
  - rewrite <-Ew. exact (co_div _ _ _ _ _ (ci_co _ _ _ _ _ _ _ _ _ _ Hc)).
Qed.

(** ** The peripherals *)

Section Port.
Context (sel : cpu -> bool) (p : cpu -> port) (ready : nat -> bool) (data : nat -> Z).
Context (Hnext : forall t, stalls t = true -> sel (s (S t)) = sel (s t) /\
  p (s (S t)) = port_clock (sel (s t)) true (ready t) (data t) (p (s t))).
Context (Hanswer : forall t, pending (p (s t)) = true -> exists k, ready (t + k)%nat = true).

Definition port_free (t : nat) : Prop := sel (s t) && negb (Cpu.done (p (s t))) = false.

Lemma port_stable : stable port_free.
Proof.
  intros t Hg. unfold port_free. destruct (Hnext t Hg) as [-> ->]. unfold port_clock. cbn [Cpu.done negb].
  destruct (sel (s t)), (Cpu.done (p (s t))); cbn; try done. by destruct (ready t).
Qed.

Lemma pending_soon (t : nat) : pending (p (s t)) = true -> sel (s t) = true -> soon port_free t.
Proof.
  intros Hp. destruct (Hanswer t Hp) as [k Hk]. revert t Hp Hk. induction k as [|k IH]; intros t Hp Hk Hs;
    apply soon_step; intros Hg; destruct (Hnext t Hg) as [Es Ep].
  - rewrite Nat.add_0_r in Hk. apply soon_now. unfold port_free. rewrite Ep. unfold port_clock. cbn [Cpu.done].
    by rewrite Hk, andb_false_r.
  - destruct (ready t) eqn:Er.
    + apply soon_now. unfold port_free. rewrite Ep. unfold port_clock. cbn [Cpu.done]. by rewrite andb_false_r.
    + apply IH; [|by rewrite Nat.add_succ_comm|by rewrite Es]. rewrite Ep. unfold port_clock. cbn [pending].
      rewrite Hp. by rewrite andb_false_r.
Qed.

Lemma port_soon (t : nat) : soon port_free t.
Proof.
  destruct (sel (s t) && negb (Cpu.done (p (s t)))) eqn:E; [|by apply soon_now].
  apply andb_true_iff in E as [Hs Hd%negb_true_iff].
  destruct (pending (p (s t))) eqn:Hp; [by apply pending_soon|].
  apply soon_step. intros Hg. destruct (Hnext t Hg) as [Es Ep]. apply pending_soon; [|by rewrite Es].
  rewrite Ep. unfold port_clock. cbn [pending]. by rewrite Hs, Hp, Hd.
Qed.
End Port.

Lemma op_at (t : nat) : exists w a alog op,
  in_mem w a alog op /\ inputs_ok w (ins t) /\ core w = s t /\ core (tick (ins t) w) = s (S t).
Proof.
  destruct (inv_at t) as (w & a & alog & x & Hc). pose proof (ci_core _ _ _ _ _ _ _ _ _ _ Hc) as Ew.
  pose proof (ci_co _ _ _ _ _ _ _ _ _ _ Hc) as [(op & Hin & _) _ _ _ _].
  exists w, a, alog, op. split_and!; [done| |done|rewrite next_core; cbn; by rewrite Ew].
  exact (chip_inputs_ok geom_i geom_d ok_d line_d m0 code a0 (c t) (env t) w a alog x Hc (fr_ok _ _ Hfair t)).
Qed.

Ltac at_op t w op Hin Hok Ew Ew' := destruct (op_at t) as (w & ? & ? & op & Hin & Hok & Ew & Ew').

Definition uart_free : nat -> Prop := port_free uart_valid uart.
Definition intc_free : nat -> Prop := port_free intc_valid intc.
Definition accel_free : nat -> Prop := port_free accel_valid accel.

Lemma uart_next (t : nat) : stalls t = true -> uart_valid (s (S t)) = uart_valid (s t) /\
  uart (s (S t)) = port_clock (uart_valid (s t)) true (e_uart_ready (env t)) (e_uart_rdata (env t)) (uart (s t)).
Proof.
  intros Hg. at_op t w op Hin Hok Ew Ew'. split.
  - rewrite <-Ew'. rewrite <-Ew in *. by eapply frozen_uart.
  - rewrite next_core. unfold clock. cbn [uart]. by rewrite Hg.
Qed.

Lemma intc_next (t : nat) : stalls t = true -> intc_valid (s (S t)) = intc_valid (s t) /\
  intc (s (S t)) = port_clock (intc_valid (s t)) true (e_intc_ready (env t)) (e_intc_rdata (env t)) (intc (s t)).
Proof.
  intros Hg. at_op t w op Hin Hok Ew Ew'. split.
  - rewrite <-Ew'. rewrite <-Ew in *. by eapply frozen_intc.
  - rewrite next_core. unfold clock. cbn [intc]. by rewrite Hg.
Qed.

Lemma accel_next (t : nat) : stalls t = true -> accel_valid (s (S t)) = accel_valid (s t) /\
  accel (s (S t)) = port_clock (accel_valid (s t)) true (e_accel_ready (env t)) (e_accel_rdata (env t)) (accel (s t)).
Proof.
  intros Hg. at_op t w op Hin Hok Ew Ew'. split.
  - rewrite <-Ew'. rewrite <-Ew in *. by eapply frozen_accel.
  - rewrite next_core. unfold clock. cbn [accel]. by rewrite Hg.
Qed.

(** Each reason to stand still. *)
Lemma stall_reasons (t : nat) :
  dmem_stall (s t) (ins t) || imem_stall (ins t) || div_stall (s t) || uart_stall (s t) || intc_stall (s t)
  || amo_stall (s t) || accel_stall (s t) = stalls t.
Proof. done. Qed.

Lemma uart_soon (t : nat) : soon uart_free t.
Proof. apply (port_soon _ _ _ _ uart_next), Hfair. Qed.
Lemma intc_soon (t : nat) : soon intc_free t.
Proof. apply (port_soon _ _ _ _ intc_next), Hfair. Qed.
Lemma accel_soon (t : nat) : soon accel_free t.
Proof. apply (port_soon _ _ _ _ accel_next), Hfair. Qed.

(** ** The fetch *)

(** A fetch from the instruction cache is answered. *)
Definition fetch_free (t : nat) : Prop := in_tcm (pc (s t)) = false -> cache_ready (ins t) = true.

Abbreviation fetch_env := (fun t => Fetch.answering (ic (c t)) (ic_env (env t))).
Abbreviation fetch_line := (fun t o => ddr (c t) (Icache.mem_req_addr (ic (c t)) + o)).

Lemma fetch_memory (t : nat) : exists k, Icache.mem_ready (fetch_env (t + k)%nat) = true.
Proof.
  destruct (Icache.mem_req_valid (ic (c t))) eqn:Hv.
  - destruct (fr_icache _ _ Hfair t Hv) as [k Hk]. exists k. cbn. by rewrite Hk.
  - exists O. rewrite Nat.add_0_r. cbn. by rewrite Hv, orb_true_r.
Qed.

(** The next state of the instruction cache, while the program counter stands. *)
Lemma ic_next (t : nat) : stalls t = true ->
  ic (c (S t)) = @Icache.step geom_i (pc (s t)) (fetch_req (c t)) (fetch_env t) (fetch_line t) (ic (c t)) /\
  fetch_req (c (S t)) = fetch_req (c t).
Proof.
  intros Hg. destruct (still t Hg) as (Epc & _). rewrite (@Fetch.step_answering geom_i). split.
  - rewrite Hclock. unfold chip_clock. cbn [ic]. f_equal. unfold pc_next_out, pc_clock, pc_stall.
    by rewrite Hg, orb_true_r.
  - unfold fetch_req, req_is_tcm. by rewrite Epc.
Qed.

Lemma if_ready_cache (t : nat) : in_tcm (pc (s t)) = false ->
  cache_ready (ins t) = @Icache.fetch_ready geom_i (ic (c t)) (fetch_req (c t)).
Proof. intros Ht. cbn [chip_inputs cache_ready]. unfold if_ready, req_is_tcm. by rewrite Ht. Qed.

Lemma fetch_soon (t : nat) : soon fetch_free t.
Proof.
  destruct (in_tcm (pc (s t))) eqn:Ht; [apply soon_now; unfold fetch_free; by rewrite Ht|].
  destruct (inv_at t) as (w & a & alog & x & Hc).
  assert (Icache.fetch_valid (fetch_req (c t)) = true) as Hv by (cbn; unfold req_is_tcm; by rewrite Ht).
  pose proof (@Fetch.fetch_answered geom_i ok_i line_i sets fetch_env (fun _ => eq_refl) fetch_memory
    fetch_line (fetch_req (c t)) Hv t (ic (c t))) as Ha.
  specialize (Ha (ok_sweep _ _ _ (ci_ic _ _ _ _ _ _ _ _ _ _ Hc))). clear Hc Hv.
  remember (fetch_req (c t)) as r eqn:Er. remember (ic (c t)) as i0 eqn:Ei. revert Er Ei Ht.
  induction Ha as [t i0 Hr|t i0 _ IH]; intros -> -> Ht.
  - apply soon_now. intros _. by rewrite if_ready_cache.
  - apply soon_step. intros Hg. destruct (ic_next t Hg) as [Ei Er]. destruct (still t Hg) as (Epc & _).
    apply IH; [by rewrite Er|by rewrite Ei|by rewrite Epc].
Qed.

Lemma fetch_stable : stable fetch_free.
Proof.
  intros t Hg Hq. destruct (ic_next t Hg) as [Ei Er]. destruct (still t Hg) as (Epc & _).
  unfold fetch_free in *. rewrite Epc. intros Ht. specialize (Hq Ht).
  rewrite if_ready_cache in * by (by rewrite ?Epc). rewrite Ei, Er.
  destruct (inv_at t) as (w & a & alog & x & Hc).
  assert (Icache.fetch_valid (fetch_req (c t)) = true) as Hv by (cbn; unfold req_is_tcm; by rewrite Ht).
  apply (@Fetch.fetch_stays geom_i ok_i line_i fetch_env (fun _ => eq_refl) fetch_line (fetch_req (c t)) Hv t (ic (c t)));
    [|exact Hq]. apply (ci_ic _ _ _ _ _ _ _ _ _ _ Hc).
Qed.

(** ** The data port *)

Lemma data_ready_at (t : nat) :
  dcache_ready (ins t) = if in_tcm (mem_addr (c t)) then d_ready (tcm0 (c t))
                         else @cpu_ready geom_d (dc (c t)) (data_req (c t)).
Proof. done. Qed.

Lemma waits_stalls (t : nat) : dcache_valid (s t) = true -> dcache_ready (ins t) = false -> stalls t = true.
Proof. apply waits_stall. Qed.

Abbreviation data_env := (fun t => Data.answering (dc (c t)) (dc_env (env t))).

Lemma data_memory (t : nat) : exists k, DcacheFsm.mem_ready (data_env (t + k)%nat) = true.
Proof.
  destruct (DcacheFsm.mem_req_valid (dc (c t))) eqn:Hv.
  - destruct (fr_dcache _ _ Hfair t Hv) as [k Hk]. exists k. cbn. by rewrite Hk.
  - exists O. rewrite Nat.add_0_r. cbn. by rewrite Hv, orb_true_r.
Qed.

(** The cycle of the data cache while its request is held. *)
Lemma dc_next (t : nat) : stalls t = true -> in_tcm (mem_addr (c t)) = false ->
  (dc (c (S t)), ddr (c (S t))) =
    @DcacheFsm.clock geom_d (@m_idx geom_d (cpu_req_addr (data_req (c t)))) (data_req (c t)) (data_env t) (dc (c t), ddr (c t)).
Proof.
  intros Hg Ht. cbv beta. rewrite (@Data.clock_answering geom_d), Hclock. cbn [chip_clock dc ddr]. unfold dc_clock, dc_addr_next. rewrite Hg.
  rewrite (@spec_index geom_d ok_d). by destruct (DcacheFsm.clock _ _ _ _).
Qed.

(** A request is answered, and the phases of an atomic access wait for it. *)
Record held (t t' : nat) : Prop := {
  he_ready : dcache_ready (ins t') = true;
  he_mem : ex_mem (s t') = ex_mem (s t);
  he_read : amo_read_phase (s t') = amo_read_phase (s t);
  he_write : amo_write_phase (s t') = amo_write_phase (s t);
}.

Lemma waits_next (t : nat) :
  dcache_valid (s t) = true -> dcache_ready (ins t) = false ->
  ex_mem (s (S t)) = ex_mem (s t) /\ dcache_valid (s (S t)) = true /\ data_req (c (S t)) = data_req (c t) /\
  amo_read_phase (s (S t)) = amo_read_phase (s t) /\ amo_write_phase (s (S t)) = amo_write_phase (s t).
Proof.
  intros Hv Hr. pose proof (waits_stalls t Hv Hr) as Hg.
  destruct (inv_at t) as (w & a & alog & x & Hc).
  destruct (waits_held geom_i geom_d m0 code a0 (c t) (env t) w a alog x Hc Hv Hr) as (_ & _ & Hv' & _ & _ & Hreq).
  rewrite <-Hclock in Hv', Hreq. destruct (still t Hg) as (_ & E & _). split_and!; try done.
  all: at_op t w1 op Hin Hok Ew Ew'; rewrite <-Ew, <-Ew' in *;
    by destruct (held_amo (ins t) w1 _ _ op Hin Hg (fun _ => conj Hv Hr)) as (E1 & E2 & _).
Qed.

Lemma held_later (t t' : nat) :
  dcache_valid (s t) = true -> dcache_ready (ins t) = false -> held (S t) t' -> held t t'.
Proof.
  intros Hv Hr [H1 H2 H3 H4]. destruct (waits_next t Hv Hr) as (E1 & _ & _ & E3 & E4).
  split; [done|by rewrite H2|by rewrite H3|by rewrite H4].
Qed.

Lemma soon_wait (t : nat) :
  dcache_valid (s t) = true -> (dcache_ready (ins t) = false -> soon (held (S t)) (S t)) -> soon (held t) t.
Proof.
  intros Hv Hn. destruct (dcache_ready (ins t)) eqn:Hr; [apply soon_now; by split|].
  apply soon_next; [by apply waits_stalls|]. apply (soon_then (held (S t))); [by apply Hn|].
  intros t' Ht. apply soon_now. by apply held_later.
Qed.

Lemma data_soon (t : nat) : dcache_valid (s t) = true -> soon (held t) t.
Proof.
  intros Hv. destruct (in_tcm (mem_addr (c t))) eqn:Ht.
  - apply soon_wait; [done|]. intros Hr. apply soon_now. split; try done.
    destruct (inv_at t) as (w & a & alog & x & Hc). destruct (waits_next t Hv Hr) as (E & _).
    rewrite data_ready_at in Hr |- *. unfold mem_addr at 1. rewrite E. fold (mem_addr (c t)). rewrite Ht in *.
    rewrite Hclock. rewrite (proj1 (tcm_d_flags geom_i geom_d m0 code a0 (c t) (env t) w a alog x Hc)).
    by rewrite Hv, Ht, Hr.
  - destruct (inv_at t) as (w & a & alog & x & Hc).
    assert (cpu_req_valid (data_req (c t)) = true) as Hrv.
    { cbn. unfold cpu_addr_is_tcm. fold (mem_addr (c t)). by rewrite Hv, Ht. }
    pose proof (@Data.serving_answered geom_d ok_d data_env (fun _ => eq_refl) data_memory
      (data_req (c t)) Hrv t (dc (c t), ddr (c t)) x (ci_dc _ _ _ _ _ _ _ _ _ _ Hc)) as Ha. clear Hc Hrv.
    remember (data_req (c t)) as r eqn:Er. remember (dc (c t), ddr (c t)) as sm eqn:Es. revert Er Es Hv Ht.
    induction Ha as [t sm Hr|t sm _ IH]; intros -> -> Hv Ht.
    + apply soon_now. split; try done. by rewrite data_ready_at, Ht.
    + apply soon_wait; [done|]. intros Hr. destruct (waits_next t Hv Hr) as (E & Hv' & Hreq & _).
      apply IH; [by rewrite Hreq|by rewrite dc_next by (done || by apply waits_stalls)|done|].
      unfold mem_addr. by rewrite E.
Qed.

(** ** Atomic accesses *)

Definition amo_free (t : nat) : Prop := amo_stall (s t) = false.

(** The sequencer, while it is at work. *)
Lemma amo_next (t : nat) : stalls t = true -> ex_mem_is_amo (ex_mem (s t)) = true ->
  ex_mem_is_amo (ex_mem (s (S t))) = true /\
  amo_state (s (S t)) = match amo_state (s t) with
    | AMO_IDLE => AMO_READ
    | AMO_READ => if dcache_ready (ins t) then AMO_WRITE else AMO_READ
    | AMO_WRITE => AMO_WRITE
    end /\
  amo_result_ready (s (S t)) = match amo_state (s t) with
    | AMO_WRITE => dcache_ready (ins t) || amo_result_ready (s t)
    | _ => amo_result_ready (s t)
    end.
Proof.
  intros Hg Ha. destruct (still t Hg) as (_ & -> & _). split; [done|]. rewrite next_core. unfold clock.
  cbn [amo_state amo_result_ready]. unfold amo_state_clock, amo_result_ready_clock, amo_restart.
  rewrite Ha, Hg, andb_false_r. cbn [negb orb]. split; [done|].
  by destruct (amo_state (s t)), (dcache_ready (ins t)).
Qed.

Lemma amo_asks_at (t : nat) : ex_mem_is_amo (ex_mem (s t)) = true ->
  dcache_valid (s t) = match amo_state (s t) with
    | AMO_IDLE => false | AMO_READ => true | AMO_WRITE => negb (amo_result_ready (s t)) end /\
  (amo_result_ready (s t) = true -> amo_state (s t) = AMO_WRITE).
Proof.
  intros Ha. at_op t w op Hin Hok Ew Ew'. rewrite <-Ew in *. pose proof (im_op _ _ _ _ Hin) as H0.
  rewrite (is_amo_op _ _ H0) in Ha. split; [by eapply amo_asks|]. pose proof (im_amo _ _ _ _ Hin) as Hst.
  destruct op; try done. cbn [amo_at] in Hst. destruct (amo_state (core w)); congruence.
Qed.

Lemma amo_stable : stable amo_free.
Proof.
  intros t Hg. unfold amo_free, amo_stall. destruct (still t Hg) as (_ & E & _).
  destruct (ex_mem_is_amo (ex_mem (s t))) eqn:Ha; [|by rewrite E, Ha]. cbn [andb].
  destruct (amo_next t Hg Ha) as (_ & _ & ->). intros ->%negb_false_iff. rewrite E, Ha. cbn [andb].
  destruct (amo_state (s t)); rewrite ?orb_true_r; done.
Qed.

(** A phase that asks the memory ends. *)
Lemma amo_write_soon (t : nat) :
  ex_mem_is_amo (ex_mem (s t)) = true -> amo_state (s t) = AMO_WRITE -> soon amo_free t.
Proof.
  intros Ha Hs. destruct (amo_asks_at t Ha) as [Hv _]. rewrite Hs in Hv.
  destruct (amo_result_ready (s t)) eqn:Hr.
  { apply soon_now. unfold amo_free, amo_stall. by rewrite Hr, andb_false_r. }
  apply (soon_then (held t)); [by apply data_soon|]. intros t' [Hd Em _ Ew].
  unfold amo_write_phase in Ew. rewrite Em, Ha, Hs, Hr in Ew. cbn [andb negb] in Ew. rewrite <-Em in Ha.
  apply soon_step. intros Hg. destruct (amo_next t' Hg Ha) as (_ & _ & E). apply soon_now.
  unfold amo_free, amo_stall. rewrite E. destruct (amo_state (s t')); try done. by rewrite Hd, andb_false_r.
Qed.

Lemma amo_read_soon (t : nat) :
  ex_mem_is_amo (ex_mem (s t)) = true -> amo_state (s t) = AMO_READ -> soon amo_free t.
Proof.
  intros Ha Hs. destruct (amo_asks_at t Ha) as [Hv _]. rewrite Hs in Hv.
  apply (soon_then (held t)); [by apply data_soon|]. intros t' [Hd Em Er _].
  unfold amo_read_phase in Er. rewrite Em, Ha, Hs in Er. cbn [andb] in Er. rewrite <-Em in Ha.
  apply soon_step. intros Hg. destruct (amo_next t' Hg Ha) as (Ha' & E & _). apply amo_write_soon; [done|].
  rewrite E. destruct (amo_state (s t')); try done. by rewrite Hd.
Qed.

Lemma amo_soon (t : nat) : soon amo_free t.
Proof.
  destruct (ex_mem_is_amo (ex_mem (s t))) eqn:Ha; [|apply soon_now; unfold amo_free, amo_stall; by rewrite Ha].
  destruct (amo_state (s t)) eqn:Hs; [|by apply amo_read_soon|by apply amo_write_soon].
  apply soon_step. intros Hg. destruct (amo_next t Hg Ha) as (Ha' & E & _). apply amo_read_soon; [done|].
  by rewrite E, Hs.
Qed.

(** ** The request of an instruction that waits for nothing else *)

Lemma free_plain (t : nat) : amo_free t -> dcache_valid (s t) = true -> ex_mem_is_amo (ex_mem (s t)) = false.
Proof.
  unfold amo_free, amo_stall. intros Hf Hv. destruct (ex_mem_is_amo (ex_mem (s t))) eqn:Ha; [|done].
  cbn [andb] in Hf. apply negb_false_iff in Hf. destruct (amo_asks_at t Ha) as [Hd Hw].
  by rewrite (Hw Hf), Hf, Hv in Hd.
Qed.

(** Without an atomic access, the request is the same while the pipeline stands. *)
Lemma plain_next (t : nat) : stalls t = true -> ex_mem_is_amo (ex_mem (s t)) = false ->
  mem_addr (c (S t)) = mem_addr (c t) /\ dcache_valid (s (S t)) = dcache_valid (s t) /\
  data_req (c (S t)) = data_req (c t).
Proof.
  intros Hg Ha. destruct (inv_at t) as (w & a & alog & x & Hc).
  destruct (still_held geom_i geom_d m0 code a0 (c t) (env t) w a alog x Hc Hg) as (E1 & _ & E3 & _ & _ & E6);
    [by rewrite Ha|]. rewrite <-Hclock in *. split_and!; try done. unfold mem_addr. by rewrite E1.
Qed.

Lemma valid_next (t : nat) : stalls t = true -> amo_free t -> dcache_valid (s (S t)) = dcache_valid (s t).
Proof.
  intros Hg Hf. destruct (ex_mem_is_amo (ex_mem (s t))) eqn:Ha; [|by apply plain_next].
  pose proof (amo_stable t Hg Hf) as Hf'. destruct (amo_next t Hg Ha) as (Ha' & _).
  destruct (dcache_valid (s t)) eqn:Hv; [rewrite (free_plain t Hf Hv) in Ha; done|].
  destruct (dcache_valid (s (S t))) eqn:Hv'; [rewrite (free_plain (S t) Hf' Hv') in Ha'; done|done].
Qed.

Definition cached (t : nat) : Prop := dcache_valid (s t) = true /\ in_tcm (mem_addr (c t)) = false.
Definition data_free (t : nat) : Prop := amo_free t /\ (cached t -> dcache_ready (ins t) = true).

Lemma data_free_soon (t : nat) : soon data_free t.
Proof.
  apply (soon_then amo_free); [apply amo_soon|]. clear t. intros t Hf.
  destruct (dcache_valid (s t)) eqn:Hv; [|apply soon_now; split; [done|intros [? _]; congruence]].
  pose proof (free_plain t Hf Hv) as Ha. apply (soon_then (held t)); [by apply data_soon|].
  intros t' [Hd Em _ _]. apply soon_now. split; [|done]. unfold amo_free, amo_stall. by rewrite Em, Ha.
Qed.

Lemma data_free_stable : stable data_free.
Proof.
  intros t Hg [Hf Hd]. split; [by apply amo_stable|]. intros [Hv Ht].
  assert (ex_mem_is_amo (ex_mem (s t)) = false) as Ha.
  { destruct (still t Hg) as (_ & E & _). rewrite <-E. by apply free_plain; [apply amo_stable|]. }
  destruct (plain_next t Hg Ha) as (Em & Ev & Er). rewrite Ev in Hv. rewrite Em in Ht.
  specialize (Hd (conj Hv Ht)). rewrite data_ready_at, Ht in Hd. rewrite data_ready_at, Em, Ht, Er.
  destruct (inv_at t) as (w & a & alog & x & Hc).
  assert (cpu_req_valid (data_req (c t)) = true) as Hrv.
  { cbn. unfold cpu_addr_is_tcm. fold (mem_addr (c t)). by rewrite Hv, Ht. }
  pose proof (@Data.ready_stays geom_d ok_d line_d (data_req (c t)) Hrv (data_env t) (dc (c t), ddr (c t)) x
    eq_refl (ci_dc _ _ _ _ _ _ _ _ _ _ Hc) Hd) as Hs.
  cbv beta in Hs. by rewrite <-(dc_next t Hg Ht) in Hs.
Qed.

(** ** The two ports of the tightly coupled memory *)

Lemma tcm_next (t : nat) :
  i_ready (tcm0 (c (S t))) = in_tcm (pc (s t)) && negb (i_ready (tcm0 (c t))) /\
  d_ready (tcm0 (c (S t))) = dcache_valid (s t) && in_tcm (mem_addr (c t)) && negb (d_ready (tcm0 (c t))).
Proof.
  destruct (inv_at t) as (w & a & alog & x & Hc). rewrite Hclock. split.
  - exact (proj1 (tcm_i_flags geom_i geom_d m0 code a0 (c t) (env t) w a alog x Hc)).
  - exact (proj1 (tcm_d_flags geom_i geom_d m0 code a0 (c t) (env t) w a alog x Hc)).
Qed.

Lemma moves_ready (t : nat) : stalls t = false ->
  cache_ready (ins t) = true /\ (dcache_valid (s t) = true -> dcache_ready (ins t) = true).
Proof.
  rewrite <-stall_reasons. intros Hs. do 5 apply orb_false_iff in Hs as [Hs _].
  apply orb_false_iff in Hs as [Hd Hi%negb_false_iff]. split; [done|]. unfold dmem_stall in Hd. intros Hv.
  rewrite Hv in Hd. by apply negb_false_iff in Hd.
Qed.


Lemma in_step_at (t : nat) : in_step (c t).
Proof.
  induction t as [|t IH]; [done|]. destruct (tcm_next t) as [Ei Ed]. unfold in_step. rewrite Ei, Ed.
  destruct (stalls t) eqn:Hg.
  - destruct (still t Hg) as (Epc & Em & _). rewrite Epc, Em. intros Hi Hv Ht Ha.
    destruct (plain_next t Hg Ha) as (Ea & Ev & _). rewrite Ev in Hv. rewrite Ea in Ht.
    by rewrite Hi, Hv, Ht, (IH Hi Hv Ht Ha).
  - intros _ _ _ _. destruct (moves_ready t Hg) as [Hi Hd]. cbn [chip_inputs cache_ready] in Hi.
    unfold if_ready, req_is_tcm in Hi. rewrite data_ready_at in Hd.
    transitivity false; [|symmetry].
    + by destruct (in_tcm (pc (s t))); [rewrite Hi|].
    + destruct (dcache_valid (s t)); [specialize (Hd eq_refl)|done].
      by destruct (in_tcm (mem_addr (c t))); [rewrite Hd|].
Qed.

(** ** The pipeline moves *)

Definition free (t : nat) : Prop :=
  div_free t /\ uart_free t /\ intc_free t /\ accel_free t /\ fetch_free t /\ data_free t.

Lemma free_stable : stable free.
Proof.
  apply stable_both; [apply div_stable|].
  apply stable_both; [apply (port_stable _ _ _ _ uart_next)|].
  apply stable_both; [apply (port_stable _ _ _ _ intc_next)|].
  apply stable_both; [apply (port_stable _ _ _ _ accel_next)|].
  apply stable_both; [apply fetch_stable|apply data_free_stable].
Qed.

Lemma free_soon (t : nat) : soon free t.
Proof.
  apply soon_both; [apply div_stable| |apply div_soon]. clear t. intros t.
  apply soon_both; [apply (port_stable _ _ _ _ uart_next)| |apply uart_soon]. clear t. intros t.
  apply soon_both; [apply (port_stable _ _ _ _ intc_next)| |apply intc_soon]. clear t. intros t.
  apply soon_both; [apply (port_stable _ _ _ _ accel_next)| |apply accel_soon]. clear t. intros t.
  apply soon_both; [apply fetch_stable|apply data_free_soon|apply fetch_soon].
Qed.

(** What is left to wait for: the two ports. *)
Lemma free_stalls (t : nat) : free t ->
  stalls t = (in_tcm (pc (s t)) && negb (i_ready (tcm0 (c t))))
             || (dcache_valid (s t) && in_tcm (mem_addr (c t)) && negb (d_ready (tcm0 (c t)))).
Proof.
  intros (Hdiv & Hu & Hi & Ha & Hf & Hamo & Hd). rewrite <-stall_reasons.
  unfold div_free, uart_free, intc_free, accel_free, port_free, amo_free in *.
  unfold uart_stall, intc_stall, accel_stall. rewrite Hdiv, Hu, Hi, Ha, Hamo, !orb_false_r, orb_comm. f_equal.
  - unfold imem_stall, fetch_free in *. cbn [chip_inputs cache_ready] in *. unfold if_ready, req_is_tcm in *.
    destruct (in_tcm (pc (s t))); [done|]. by rewrite (Hf eq_refl).
  - unfold dmem_stall, cached in *. rewrite data_ready_at in *. destruct (dcache_valid (s t)); [|done].
    destruct (in_tcm (mem_addr (c t))); [done|]. by rewrite Hd.
Qed.

Lemma moves (t : nat) : soon (fun _ => False) t.
Proof.
  apply (soon_then free); [apply free_soon|]. clear t. intros t Hf.
  apply soon_step. intros Hg. apply soon_moves. pose proof (free_stable t Hg Hf) as Hf'.
  rewrite (free_stalls t Hf) in Hg. rewrite (free_stalls (S t) Hf'). destruct (tcm_next t) as [-> ->].
  assert (stalls t = true) as Hs by (by rewrite (free_stalls t Hf)).
  destruct (still t Hs) as (-> & _). pose proof (in_step_at t) as Hstep. unfold in_step in Hstep.
  destruct Hf as (_ & _ & _ & _ & _ & Hamo & _). rewrite (valid_next t Hs Hamo).
  destruct (dcache_valid (s t)) eqn:Hv; cbn [andb] in *.
  - pose proof (free_plain t Hamo Hv) as Ha. destruct (plain_next t Hs Ha) as (-> & _).
    destruct (in_tcm (pc (s t))), (in_tcm (mem_addr (c t))); cbn [andb orb negb] in *; try done.
    + rewrite (Hstep eq_refl eq_refl eq_refl Ha) in *. by destruct (d_ready (tcm0 (c t))).
    + by destruct (i_ready (tcm0 (c t))).
    + by destruct (d_ready (tcm0 (c t))).
  - rewrite orb_false_r in Hg. apply andb_true_iff in Hg as [-> ->]. cbn [andb negb orb].
    done.
Qed.

(** ** Progress *)

Lemma one_more (n t : nat) : did n t -> exists t', did (S n) t'.
Proof.
  remember (rank (s t)) as r eqn:Er. revert t Er. induction r as [r IHr] using lt_wf_ind. intros t.
  induction (moves t) as [t []|t Hg|t Hg _ IH]; intros -> Hd;
    (destruct (did_next n t Hd) as [Hd'|[Hd' Hrank]]; [by exists (S t)|]); rewrite Hg in Hrank.
  - by apply (IHr _ Hrank (S t)).
  - by apply IH.
Qed.

Lemma any_number (n : nat) : exists t0, forall t, (t0 <= t)%nat -> did n t.
Proof.
  assert (exists t0, did n t0) as [t0 H0].
  { induction n as [|n [t Ht]]; [|by apply (one_more n t)]. destruct Hinit as (w0 & x0 & H0).
    by exists O, [], w0, a0, [], x0. }
  exists t0. intros t Ht. replace t with ((t - t0) + t0)%nat by lia. by apply did_mono.
Qed.

Lemma did_seen (n t : nat) : did n t -> exists lbs a evs,
  Forall label_ok lbs /\ arch_run (mem_word m0) lbs a0 = Some (a, evs) /\ dev_log (c t) = evs /\
  (n <= length lbs)%nat /\ (ex_mem_valid (ex_mem (s t)) = false -> chip_state geom_d (c t) a).
Proof.
  intros (l1 & w & a1 & e1 & x & Hl1 & Hr1 & Hn & Hc).
  destruct (corresponds_seen (mem_word m0) code w a1 e1 (ci_co _ _ _ _ _ _ _ _ _ _ Hc))
    as (l2 & a2 & e2 & Hl2 & Hr2 & Hlog & Hs).
  exists (l1 ++ l2), a2, (e1 ++ e2). split_and!; [by apply Forall_app|by apply (arch_run_app _ _ _ _ a1)| | |].
  - rewrite <-Hlog. symmetry. apply Hc.
  - rewrite length_app. lia.
  - exact (seen_state geom_i geom_d ok_d m0 code a0 (c t) w a1 a2 e1 x Hc Hs).
Qed.
End Live.

(** C3: the chip never stops. Whatever the memories and the predictor hold at
    reset, in surroundings in which DRAM answers every line request and a
    peripheral every request at some time, each as late as it likes: for every [n] there is a cycle from which on the chip is, in the
    sense of [chip_refines_architecture], in a run of the architecture of at
    least [n] steps.  No combination of cache misses, sweeps and write-backs,
    fetches that cross lines, accesses to the tightly coupled memory on both
    ports, divisions, atomics, device accesses, hazards and traps stops the
    pipeline.  The instruction cache needs two sets: with one, the two lines of
    a fetch that crosses would evict each other. *)
Theorem chip_makes_progress (geom_i geom_d : DcGeom) `{TcmGeom} (p : power_on) (code : Z -> bool)
    (env : nat -> chip_env) (c : nat -> chip) :
  @DcGeomOk geom_i -> @DcGeomOk geom_d -> @LINE_BYTES geom_i = 16 -> @LINE_BYTES geom_d = 16 ->
  1 <= @IDX geom_i <= 28 ->
  let m0 := boot_mem p in
  let a0 := arch_reset (po_regs p) m0 in
  (forall r, is_uint 32 (po_regs p r)) ->
  well_behaved (mem_word m0) code a0 -> code_ok m0 code a0 ->
  chip_trace geom_i geom_d p env c -> fair env c ->
  forall n, exists t0, forall t, (t0 <= t)%nat ->
  exists lbs a evs,
    Forall label_ok lbs /\ arch_run (mem_word m0) lbs a0 = Some (a, evs) /\ dev_log (c t) = evs /\
    (n <= length lbs)%nat /\ (ex_mem_valid (ex_mem (cpu_core (c t))) = false -> chip_state geom_d (c t) a).
Proof.
  intros ok_i ok_d line_i line_d sets m0 a0 Hr Hw Hcode [Hinit Hclock] Hfair n.
  pose proof (chip_init_inv geom_i geom_d ok_i ok_d code p Hr Hw Hcode) as H0. rewrite <-Hinit in H0.
  assert (in_step (c O)) as Hs by (by rewrite Hinit).
  destruct (any_number geom_i geom_d ok_i ok_d line_i line_d sets m0 code a0 Hcode env c Hfair Hclock
    ltac:(eauto) Hs n) as [t0 Ht0].
  exists t0. intros t Ht. by apply (did_seen geom_i geom_d ok_d m0 code a0 c n t), Ht0.
Qed.

(** The program of [ChipWitness], for ever. *)
Module ChipLiveWitness.
Import ChipWitness.
#[local] Existing Instance tcm_small.

(** The peripherals answer in the cycle after they are asked. *)
Definition respond (c : chip) : chip_env :=
  let s := cpu_core c in
  mk_chip_env (pending (uart s)) 0 (pending (intc s)) 0 (pending (accel s)) 0 false true true zeros zeros junk junk zeros junk.

Fixpoint chip_at (t : nat) : chip :=
  match t with O => chip_init power | S t => chip_clock geom_small geom_small (chip_at t) (respond (chip_at t)) end.
Definition env_at (t : nat) : chip_env := respond (chip_at t).

Lemma fair_at : fair env_at chip_at.
Proof.
  split.
  - by repeat split.
  - by exists O.
  - by exists O.
  - intros t Ht. exists O. by rewrite Nat.add_0_r.
  - intros t Ht. exists O. by rewrite Nat.add_0_r.
  - intros t Ht. exists O. by rewrite Nat.add_0_r.
Qed.

Lemma chip_makes_progress_witness : exists t0, forall t, (t0 <= t)%nat ->
  exists lbs a evs,
    Forall label_ok lbs /\ arch_run (mem_word m0) lbs a0 = Some (a, evs) /\ dev_log (chip_at t) = evs /\
    (100 <= length lbs)%nat /\
    (ex_mem_valid (ex_mem (cpu_core (chip_at t))) = false -> chip_state geom_small (chip_at t) a).
Proof.
  apply (chip_makes_progress geom_small geom_small power inside env_at chip_at).
  - apply geom_small_ok.
  - apply geom_small_ok.
  - done.
  - done.
  - done.
  - by split.
  - apply program_well_behaved.
  - apply program_code_ok.
  - by split.
  - apply fair_at.
Defined.
End ChipLiveWitness.
