(* ===== verification/Fabric.v ===== *)
(** * The chip on one DRAM

    [fpga_top.v] with [MEM_PATH_RW = 1]: the line ports of the two caches reach
    DRAM through the arbiter.  A read is answered with the line at the address
    the arbiter sends, a write stores the line that the arbiter holds.  The
    accelerator may read lines at any time; it does not store.

    The system behaves as the chip whose two ports have the memory to
    themselves, and a cache that waits for the other requesters waits for a
    bounded number of their transactions: it makes progress like the chip. *)

From S2P Require Import Prelude Bits Dcache DcacheFsm DcachePort Tcm Icache CacheLive Arbiter.
From S2P Require Import Rv32 Rvc Decoder DivUnit CpuUnits Cpu CpuSpec CpuMem CpuEx CpuFront CpuRefine CpuLive.
From S2P Require Import CpuCorrect Chip ChipCorrect ChipLive.

Record fabric : Type := mk_fabric { soc : chip; arb : arbiter }.

(** A cycle around the chip: the peripherals and block RAMs, as in [chip_env]
    (the answers at the line ports come from the arbiter instead), the two
    channels, and the read requests of the accelerator. *)
Record fabric_env : Type := mk_fabric_env {
  around : chip_env;
  chans : channels;
  accel_rd : bool; accel_rd_addr : Z; accel_rd_lines : Z;
}.

Section Fabric.
Context (geom_i geom_d : DcGeom) `{TcmGeom}.

Definition wired (f : fabric) (e : fabric_env) : requests :=
  let c := soc f in
  {| icache_req_valid := Icache.mem_req_valid (ic c); icache_req_addr := Icache.mem_req_addr (ic c);
     dcache_req_valid := DcacheFsm.mem_req_valid (dc c); dcache_req_write := DcacheFsm.mem_req_write (dc c);
     dcache_req_addr := @DcacheFsm.mem_req_addr geom_d (dc c); dcache_wline := wb_line (dc c);
     accel_rd_req_valid := accel_rd e; accel_rd_req_addr := accel_rd_addr e; accel_rd_req_lines := accel_rd_lines e;
     accel_wr_req_valid := false; accel_wr_req_addr := 0; accel_wr_req_lines := 0; accel_wline := fun _ => 0 |}.

(** What the chip meets in this cycle. *)
Definition met (f : fabric) (e : fabric_env) : chip_env :=
  let o := around e in
  {| e_uart_ready := e_uart_ready o; e_uart_rdata := e_uart_rdata o;
     e_intc_ready := e_intc_ready o; e_intc_rdata := e_intc_rdata o;
     e_accel_ready := e_accel_ready o; e_accel_rdata := e_accel_rdata o; e_intc_irq_out := e_intc_irq_out o;
     icache_mem_ready := icache_ready (chans e) (arb f); dcache_mem_ready := Arbiter.dcache_ready (chans e) (arb f);
     u_even := u_even o; u_odd := u_odd o; u_tagA := u_tagA o; u_tagB := u_tagB o; u_q := u_q o; u_tagv := u_tagv o |}.

(** The line on the read channel. *)
Definition rd_rline (f : fabric) : Z -> Z := read_line (ddr (soc f)) (rd_req_addr (arb f)).

Definition fabric_clock (f : fabric) (e : fabric_env) : fabric :=
  let c := soc f in let m := met f e in let q := wired f e in
  {| soc :=
       {| cpu_core := Cpu.clock (cpu_core c) (chip_inputs geom_i geom_d c m);
          ic := @Icache.step geom_i (pc_next_out geom_i geom_d c m) (fetch_req c) (ic_env m) (rd_rline f) (ic c);
          ic_pending := pending_clock (tcm_i_req c) (i_ready (tcm0 c)) (ic_pending c);
          dc := @DcacheFsm.step geom_d (@m_idx geom_d (dc_addr_next geom_i geom_d c m)) (data_req c) (dc_env m)
                  (rd_rline f) (dc c);
          dc_pending := pending_clock (tcm_d_req c) (d_ready (tcm0 c)) (dc_pending c);
          tcm0 := tcm_clock (tcm_requests c) (tcm0 c);
          ddr := if wr_req_valid (arb f) && wr_ready (chans e)
                 then @write_line geom_d (ddr c) (wr_req_addr (arb f)) (wr_wline q (arb f)) else ddr c;
          dev_log := dev_log c ++ events (cpu_core c) (chip_inputs geom_i geom_d c m) |};
     arb := arbiter_clock q (chans e) (arb f) |}.

Definition fabric_init (p : power_on) : fabric := mk_fabric (chip_init p) Arbiter.reset.

(** The arbiter works for the caches as they ask, and stores for the data cache only. *)
Definition fabric_ok (f : fabric) (e : fabric_env) : Prop :=
  carries (wired f e) (arb f) /\ w_state (arb f) <> W_A.

Lemma icache_line (nxt : Z) (r : Icache.request) (e : Icache.cycle_env) (l l' : Z -> Z) (s : Icache.regs) :
  (Icache.wr_en s e = true -> l = l') -> @Icache.step geom_i nxt r e l s = @Icache.step geom_i nxt r e l' s.
Proof. unfold Icache.step. destruct (Icache.wr_en s e); intros Hl; [by rewrite Hl|reflexivity]. Qed.

Lemma dcache_line (i : Z) (r : DcacheFsm.request) (e : DcacheFsm.cycle_env) (l l' : Z -> Z) (s : DcacheFsm.regs) :
  (DcacheFsm.fill_en s e = true -> l = l') -> @DcacheFsm.step geom_d i r e l s = @DcacheFsm.step geom_d i r e l' s.
Proof. unfold DcacheFsm.step, wd. destruct (fill_en s e); intros Hl; [by rewrite Hl|reflexivity]. Qed.

(** Which channel answers the data cache, and how. *)
Lemma dcache_fills (f : fabric) (e : fabric_env) : fabric_ok f e ->
  DcacheFsm.mem_req_write (dc (soc f)) = false -> Arbiter.dcache_ready (chans e) (arb f) = true ->
  rd_rline f = read_line (ddr (soc f)) (@DcacheFsm.mem_req_addr geom_d (dc (soc f))).
Proof.
  intros [[_ Cr Cw _] _] Hnw [Hr|Hw]%orb_true_iff.
  - apply andb_true_iff in Hr as [Hs%bool_decide_eq_true _]. destruct (Cr Hs) as [_ E].
    unfold rd_rline, rd_req_addr, r_is. by rewrite Hs, E.
  - apply andb_true_iff in Hw as [Hs%bool_decide_eq_true _]. destruct (Cw Hs) as [[_ Hw]%andb_true_iff _].
    cbn in Hw. congruence.
Qed.

Lemma dcache_stores (f : fabric) (e : fabric_env) : fabric_ok f e ->
  (if wr_req_valid (arb f) && wr_ready (chans e)
   then @write_line geom_d (ddr (soc f)) (wr_req_addr (arb f)) (wr_wline (wired f e) (arb f)) else ddr (soc f)) =
  (if DcacheFsm.mem_req_write (dc (soc f)) && Arbiter.dcache_ready (chans e) (arb f)
   then @write_line geom_d (ddr (soc f)) (@DcacheFsm.mem_req_addr geom_d (dc (soc f))) (wb_line (dc (soc f)))
   else ddr (soc f)).
Proof.
  intros [[_ Cr Cw _] Hwa]. unfold wr_req_valid, wr_req_addr, wr_wline, Arbiter.dcache_ready, w_is, r_is.
  destruct (w_state (arb f)) eqn:Ew; [|destruct (Cw eq_refl) as ([_ Hw]%andb_true_iff & -> & ->)|done].
  - rewrite orb_false_r. destruct (r_state (arb f)) eqn:Er; cbn; rewrite ?andb_false_r; try done.
    destruct (Cr eq_refl) as [[_ Hnw%negb_true_iff]%andb_true_iff _]. cbn in Hnw. by rewrite Hnw.
  - cbn in Hw |- *. rewrite Hw. destruct (r_state (arb f)) eqn:Er; try done.
    destruct (Cr eq_refl) as [[_ Hnw%negb_true_iff]%andb_true_iff _]. cbn in Hnw. congruence.
Qed.

(** The system in a cycle is the chip in a cycle. *)
Lemma fabric_is_chip (f : fabric) (e : fabric_env) : fabric_ok f e ->
  soc (fabric_clock f e) = chip_clock geom_i geom_d (soc f) (met f e).
Proof.
  intros Hok. unfold fabric_clock, chip_clock, dc_clock, DcacheFsm.clock. cbn [soc fst snd]. f_equal.
  - apply icache_line. unfold Icache.wr_en. cbn [ic_env met Icache.mem_ready icache_mem_ready].
    intros [_ [Hs%bool_decide_eq_true _]%andb_true_iff]%andb_true_iff. destruct Hok as [[Ci _ _ _] _].
    unfold rd_rline, rd_req_addr, r_is. rewrite Hs. by destruct (Ci Hs) as [_ ->].
  - apply dcache_line. unfold fill_en. cbn [dc_env met DcacheFsm.mem_ready dcache_mem_ready].
    intros [Hf%bool_decide_eq_true Hr]%andb_true_iff. apply (dcache_fills f e Hok); [|done].
    unfold DcacheFsm.mem_req_write, DcacheFsm.is_state. by rewrite Hf.
  - apply (dcache_stores f e Hok).
Qed.

(** A cache holds its request until it is answered. *)
Lemma wired_keeps (f : fabric) (e e' : fabric_env) :
  keeps (wired f e) (chans e) (arb f) (wired (fabric_clock f e) e').
Proof.
  unfold keeps, wired. cbn -[Icache.step DcacheFsm.step Icache.mem_req_valid Icache.mem_req_addr DcacheFsm.mem_req_valid
    DcacheFsm.mem_req_write DcacheFsm.mem_req_addr icache_ready Arbiter.dcache_ready]. split.
  - intros Hv Hr. apply bool_decide_eq_true in Hv. unfold Icache.mem_req_valid, Icache.mem_req_addr, Icache.is_state, Icache.step.
    unfold Icache.next_state. rewrite Hv. cbn. by rewrite Hr.
  - intros Hv Hr. unfold DcacheFsm.mem_req_valid, DcacheFsm.mem_req_write, DcacheFsm.mem_req_addr, DcacheFsm.is_state in *.
    unfold DcacheFsm.step, DcacheFsm.next_state, DcacheFsm.is_state.
    destruct (DcacheFsm.state (dc (soc f))) eqn:Es; try done; cbn; by rewrite Hr.
Qed.

Lemma fabric_ok_clock (f : fabric) (e e' : fabric_env) :
  is_uint 8 (accel_rd_lines e) -> fabric_ok f e -> fabric_ok (fabric_clock f e) e'.
Proof.
  intros Hl [Hc Hwa]. split; [by apply (carries_clock (wired f e)); [|apply wired_keeps|]|].
  cbn [fabric_clock arb]. pose proof (clock_w (wired f e) (chans e) (arb f)) as E. cbn zeta in E.
  unfold w_next, w_grant_a, a_wr_req in E. cbn [wired accel_wr_req_valid] in E. rewrite andb_false_r in E.
  destruct (w_state (arb f)) eqn:Ew; [destruct (w_grant_d _ _)|destruct (wr_ready _)|done]; injection E as -> _ _ _ _; congruence.
Qed.

(** An infinite run of the system. *)
Record fabric_trace (p : power_on) (env : nat -> fabric_env) (f : nat -> fabric) : Prop := {
  ft_init : f O = fabric_init p;
  ft_clock : forall t, f (S t) = fabric_clock (f t) (env t);
}.
End Fabric.

(** The surroundings keep the handshakes, and answer at some time: a channel a
    request of the arbiter, a peripheral a request of the core. *)
Record fabric_fair (env : nat -> fabric_env) (f : nat -> fabric) : Prop := {
  ff_ok : forall t, env_ok (cpu_core (soc (f t))) (around (env t));
  ff_lines : forall t, is_uint 8 (accel_rd_lines (env t));
  ff_read : forall t, rd_req_valid (arb (f t)) = true -> exists k, rd_ready (chans (env (t + k)%nat)) = true;
  ff_write : forall t, wr_req_valid (arb (f t)) = true -> exists k, wr_ready (chans (env (t + k)%nat)) = true;
  ff_uart : forall t, pending (uart (cpu_core (soc (f t)))) = true -> exists k, e_uart_ready (around (env (t + k)%nat)) = true;
  ff_intc : forall t, pending (intc (cpu_core (soc (f t)))) = true -> exists k, e_intc_ready (around (env (t + k)%nat)) = true;
  ff_accel : forall t, pending (accel (cpu_core (soc (f t)))) = true -> exists k, e_accel_ready (around (env (t + k)%nat)) = true;
}.

Section Progress.
Context (geom_i geom_d : DcGeom) `{TcmGeom} (p : power_on) (env : nat -> fabric_env) (f : nat -> fabric).
Context (Htrace : fabric_trace geom_i geom_d p env f) (Hfair : fabric_fair env f).

Abbreviation c_at := (fun t => soc (f t)).
Abbreviation met_at := (fun t => met (f t) (env t)).

Lemma fabric_ok_at (t : nat) : fabric_ok geom_d (f t) (env t).
Proof.
  induction t as [|t IH].
  - rewrite (ft_init _ _ _ _ _ Htrace). split; [apply carries_reset|done].
  - rewrite (ft_clock _ _ _ _ _ Htrace). apply fabric_ok_clock; [apply Hfair|done].
Qed.

Lemma soc_clock (t : nat) : soc (f (S t)) = chip_clock geom_i geom_d (soc (f t)) (met_at t).
Proof. rewrite (ft_clock _ _ _ _ _ Htrace). apply fabric_is_chip, fabric_ok_at. Qed.

(** The arbiter is fair to the caches. *)
Lemma met_fair : fair met_at c_at.
Proof.
  assert (forall t, arb (f (S t)) = arbiter_clock (wired geom_d (f t) (env t)) (chans (env t)) (arb (f t))) as Ha
    by (intros t; by rewrite (ft_clock _ _ _ _ _ Htrace)).
  assert (forall t, keeps (wired geom_d (f t) (env t)) (chans (env t)) (arb (f t)) (wired geom_d (f (S t)) (env (S t)))) as Hk
    by (intros t; rewrite (ft_clock _ _ _ _ _ Htrace); apply wired_keeps).
  assert (arb (f O) = Arbiter.reset) as H0 by (by rewrite (ft_init _ _ _ _ _ Htrace)).
  split; try apply Hfair.
  - exact (icache_served _ _ (fun t => arb (f t)) H0 Ha Hk (ff_lines _ _ Hfair) (ff_read _ _ Hfair)).
  - exact (dcache_served _ _ (fun t => arb (f t)) H0 Ha Hk (ff_lines _ _ Hfair) (ff_read _ _ Hfair) (ff_write _ _ Hfair)).
Qed.
End Progress.

(** C2: the core with its caches on one DRAM, behind the arbiter that they share
    with the accelerator's reads, runs the program: in every cycle it has
    committed a run of the architecture, and for every number there is a cycle
    from which on this run has at least so many steps. *)
Theorem fabric_makes_progress (geom_i geom_d : DcGeom) `{TcmGeom} (p : power_on) (code : Z -> bool)
    (env : nat -> fabric_env) (f : nat -> fabric) :
  @DcGeomOk geom_i -> @DcGeomOk geom_d -> @LINE_BYTES geom_i = 16 -> @LINE_BYTES geom_d = 16 ->
  1 <= @IDX geom_i <= 28 ->
  let m0 := boot_mem p in
  let a0 := arch_reset (po_regs p) m0 in
  (forall r, is_uint 32 (po_regs p r)) ->
  well_behaved (mem_word m0) code a0 -> code_ok m0 code a0 ->
  fabric_trace geom_i geom_d p env f -> fabric_fair env f ->
  forall n, exists t0, (n = 0%nat -> t0 = 0%nat) /\ forall t, (t0 <= t)%nat ->
  let c := soc (f t) in
  exists lbs a evs,
    Forall label_ok lbs /\ arch_run (mem_word m0) lbs a0 = Some (a, evs) /\ dev_log c = evs /\
    (n <= length lbs)%nat /\ (ex_mem_valid (ex_mem (cpu_core c)) = false -> chip_state geom_d c a).
Proof.
  intros ok_i ok_d line_i line_d sets m0 a0 Hr Hw Hcode Htrace Hfair n.
  pose proof (chip_init_inv geom_i geom_d ok_i ok_d code p Hr Hw Hcode) as H0.
  assert (soc (f O) = chip_init p) as E0 by (by rewrite (ft_init _ _ _ _ _ Htrace)). rewrite <-E0 in H0.
  assert (in_step (soc (f O))) as Hs by (by rewrite E0).
  pose proof (met_fair geom_i geom_d p env f Htrace Hfair) as Hf. pose proof (soc_clock geom_i geom_d p env f Htrace Hfair) as Hc.
  destruct (decide (n = 0%nat)) as [->|Hn].
  - exists O. split; [done|]. intros t _. apply (did_seen geom_i geom_d ok_d m0 code a0 (fun t => soc (f t)) 0 t).
    apply (did_zero geom_i geom_d ok_i ok_d line_i line_d m0 code a0 Hcode _ _ Hf Hc). eauto.
  - destruct (any_number geom_i geom_d ok_i ok_d line_i line_d sets m0 code a0 Hcode _ _ Hf Hc
      ltac:(eauto) Hs n) as [t0 Ht0].
    exists t0. split; [done|]. intros t Ht. by apply (did_seen geom_i geom_d ok_d m0 code a0 (fun t => soc (f t)) n t), Ht0.
Qed.

(** The program of [ChipWitness] for ever, while the accelerator reads
    lines; a channel answers in the second cycle of a request. *)
Module FabricWitness.
Import ChipWitness.
#[local] Existing Instance tcm_small.

Definition respond (t : nat) (f : fabric) : fabric_env :=
  mk_fabric_env (ChipLiveWitness.respond (soc f)) (mk_channels (Nat.odd t) false (Nat.odd t)) true 0x80000000 3.

Fixpoint fabric_at (t : nat) : fabric :=
  match t with
  | O => fabric_init power
  | S t => fabric_clock geom_small geom_small (fabric_at t) (respond t (fabric_at t))
  end.
Definition env_at (t : nat) : fabric_env := respond t (fabric_at t).

Lemma odd_soon (t : nat) : exists k, Nat.odd (t + k) = true.
Proof.
  destruct (Nat.odd t) eqn:E; [exists O; by rewrite Nat.add_0_r|]. exists 1%nat.
  by rewrite Nat.add_1_r, Nat.odd_succ, <-Nat.negb_odd, E.
Qed.

Lemma fabric_fair_at : fabric_fair env_at fabric_at.
Proof.
  split; try (intros t Ht; exists O; by rewrite Nat.add_0_r).
  - by repeat split.
  - by split.
  - intros t _. apply odd_soon.
  - intros t _. apply odd_soon.
Qed.

Lemma fabric_makes_progress_witness : exists t0, (100 = 0 -> t0 = 0)%nat /\ forall t, (t0 <= t)%nat ->
  let c := soc (fabric_at t) in
  exists lbs a evs,
    Forall label_ok lbs /\ arch_run (mem_word m0) lbs a0 = Some (a, evs) /\ dev_log c = evs /\
    (100 <= length lbs)%nat /\ (ex_mem_valid (ex_mem (cpu_core c)) = false -> chip_state geom_small c a).
Proof.
  apply (fabric_makes_progress geom_small geom_small power inside env_at fabric_at).
  - apply geom_small_ok.
  - apply geom_small_ok.
  - done.
  - done.
  - done.
  - by split.
  - apply program_well_behaved.
  - apply program_code_ok.
  - by split.
  - apply fabric_fair_at.
Defined.
End FabricWitness.
