(* ===== verification/CacheDriver.v ===== *)
(** * Cache maintenance by set displacement

    Model of [src/zephyr/drivers/cache/cache_rv32_5stage.c].  The hardware has
    no cache-maintenance instruction; the driver evicts a line by loading
    another address of the same set.  Every access of the driver, including
    the ones to its volatile [sink] local, goes through the data cache of
    [Dcache]. *)

From S2P Require Import Prelude Zephyr Dcache.

(** Kconfig values and the link-time address of [displace_buf]. *)
Class CacheConfig : Type := {
  CONFIG_DCACHE_LINE_SIZE : Z;
  CONFIG_CACHE_RV32_5STAGE_DCACHE_BYTES : Z;
  displace_buf : Z;
}.

Definition DC_LINE `{CacheConfig} : Z := CONFIG_DCACHE_LINE_SIZE.
Definition DC_BYTES `{CacheConfig} : Z := CONFIG_CACHE_RV32_5STAGE_DCACHE_BYTES.
Definition DC_SETS `{CacheConfig} : Z := DC_BYTES / DC_LINE.

(** CPU accesses as stateful code. *)
Definition load `{DcGeom} (a : Z) : M memsys Z := fun s => Some (cpu_load a s).
Definition store `{DcGeom} (a v : Z) : M memsys () := fun s => Some ((), cpu_store a v s).

Section Driver.
Context `{DcGeom} `{SysUtil} `{CacheConfig}.

(** [sink] is the stack address of the volatile local; C leaves the order of
    the two reads of [sink ^= displace_buf[i]] open, so both are covered. *)
Variable sink : Z.
Variable sink_first : bool.

Definition sink_xor (p : Z) : M memsys () :=
  if sink_first
  then (v ← load sink; d ← load p; store sink (u8 (v .^ d)))
  else (d ← load p; v ← load sink; store sink (u8 (v .^ d))).

Definition displace_range (fuel : nat) (addr size : Z) : M memsys () :=
  _ ← store sink 0;
  let end_ := u32 (addr + size) in
  _ ← while_M fuel
        (fun a => mret (a <? end_))
        (fun a =>
           let set := (a / DC_LINE) .& (DC_SETS - 1) in
           _ ← sink_xor (displace_buf + set * DC_LINE);
           mret (u32 (a + DC_LINE)))
        (ROUND_DOWN addr DC_LINE);
  _ ← load sink;
  mret ().

Definition displace_all : M memsys () :=
  _ ← store sink 0;
  _ ← for_M (Z.to_nat DC_SETS) 0 (fun set => sink_xor (displace_buf + set * DC_LINE));
  _ ← load sink;
  mret ().

Definition cache_data_enable : M memsys () := mret ().
Definition cache_data_disable : M memsys () := mret ().

Definition cache_data_flush_all : M memsys rc := _ ← displace_all; mret RC_OK.
Definition cache_data_invd_all : M memsys rc := _ ← displace_all; mret RC_OK.
Definition cache_data_flush_and_invd_all : M memsys rc := _ ← displace_all; mret RC_OK.

Definition cache_data_flush_range (fuel : nat) (addr size : Z) : M memsys rc :=
  _ ← displace_range fuel addr size; mret RC_OK.
Definition cache_data_invd_range (fuel : nat) (addr size : Z) : M memsys rc :=
  _ ← displace_range fuel addr size; mret RC_OK.
Definition cache_data_flush_and_invd_range (fuel : nat) (addr size : Z) : M memsys rc :=
  _ ← displace_range fuel addr size; mret RC_OK.

Definition cache_data_line_size_get : M memsys Z := mret DC_LINE.

(** Instruction cache: nothing reaches it from software. *)
Definition cache_instr_enable : M memsys () := mret ().
Definition cache_instr_disable : M memsys () := mret ().
Definition cache_instr_flush_all : M memsys rc := mret (RC_ERR ENOTSUP).
Definition cache_instr_invd_all : M memsys rc := mret (RC_ERR ENOTSUP).
Definition cache_instr_flush_and_invd_all : M memsys rc := mret (RC_ERR ENOTSUP).
Definition cache_instr_flush_range (addr size : Z) : M memsys rc := mret (RC_ERR ENOTSUP).
Definition cache_instr_invd_range (addr size : Z) : M memsys rc := mret (RC_ERR ENOTSUP).
Definition cache_instr_flush_and_invd_range (addr size : Z) : M memsys rc :=
  mret (RC_ERR ENOTSUP).
Definition cache_instr_line_size_get : M memsys Z := mret DC_LINE.
End Driver.

(** ** The configuration the driver is correct for

    The line size is the hardware's; the two [BUILD_ASSERT]s hold; the buffer
    is aligned to its own size; and the configured number of sets is a
    multiple of the real one (the Kconfig help allows a larger cache size). *)
Class CacheConfigOk `{DcGeom} `{CacheConfig} : Prop := {
  cfg_line : DC_LINE = LINE_BYTES;
  cfg_whole_lines : DC_BYTES mod DC_LINE = 0;
  cfg_sets_pow2 : DC_SETS .& (DC_SETS - 1) = 0;
  cfg_sets_pos : 0 < DC_SETS;
  cfg_multiple : (NUM_SETS | DC_SETS);
  cfg_aligned : (DC_BYTES | displace_buf);
}.

(** The lines a byte range occupies, and the driver's own lines. *)
Definition range_line `{DcGeom} (addr size b : Z) : Prop :=
  addr / LINE_BYTES <= b / LINE_BYTES /\ b / LINE_BYTES * LINE_BYTES < addr + size.

Definition in_displace_buf `{CacheConfig} (b : Z) : Prop :=
  displace_buf <= b < displace_buf + DC_BYTES.

Section Proofs.
Context `{DcGeom} `{!DcGeomOk}.

(** ** What a run of accesses preserves

    [frame sink s s']: no line but the sink's has its write-back value
    changed, the CPU's view of every coherent address but [sink] is kept, with
    its coherence, and no line but the sink's has become dirty. *)
Definition frame (sink : Z) (s s' : memsys) : Prop :=
  (forall b, ~ same_line sink b -> wbval s' b = wbval s b) /\
  (forall b, b <> sink -> coherent s b -> view s' b = view s b /\ coherent s' b) /\
  (forall b, ~ same_line sink b -> dirty_at s b = false -> dirty_at s' b = false).

Lemma frame_refl (sink : Z) (s : memsys) : frame sink s s.
Proof. split; [|split]; auto. Qed.

Lemma frame_trans (sink : Z) (s1 s2 s3 : memsys) :
  frame sink s1 s2 -> frame sink s2 s3 -> frame sink s1 s3.
Proof.
  intros (W1 & V1 & D1) (W2 & V2 & D2). split; [|split].
  - intros b Hb. by rewrite W2, W1.
  - intros b Hb Hc. destruct (V1 b Hb Hc) as [<- Hc']. apply V2; done.
  - auto.
Qed.

Lemma frame_load (sink a : Z) (s : memsys) : frame sink s (cpu_load a s).2.
Proof.
  split; [|split]; cbn.
  - intros b _. apply ensure_wbval.
  - intros b _ Hc. by apply ensure_view.
  - intros b _. apply ensure_clean.
Qed.

Lemma frame_store (sink v : Z) (s : memsys) : frame sink s (cpu_store sink v s).
Proof.
  split; [|split].
  - intros b Hb. by apply cpu_store_wbval.
  - intros b Hb Hc. destruct (cpu_store_view s sink v b (or_introl Hc)) as [Hv Hc'].
    split; [|done]. rewrite Hv. by destruct (Z.eqb_spec b sink).
  - intros b Hb Hd. by apply cpu_store_clean.
Qed.

(** An access to another line never brings [b] in, and evicts it when the two
    share a set. *)
Lemma load_evicts (s : memsys) (a b : Z) :
  ~ same_line a b -> m_idx a = m_idx b \/ hit s b = false ->
  hit (cpu_load a s).2 b = false.
Proof.
  intros Hl Hc. cbn [cpu_load snd]. rewrite ensure_resident.
  destruct (Z.eqb_spec (m_idx b) (m_idx a)) as [Hi|Hi].
  - apply Z.eqb_neq. intros Ht. apply Hl, same_line_decode. done.
  - destruct Hc as [Hc|Hc]; [congruence|done].
Qed.

Lemma store_keeps_out (s : memsys) (a v b : Z) :
  ~ same_line a b -> hit s b = false -> hit (cpu_store a v s) b = false.
Proof. intros Hl Hc. rewrite cpu_store_hit. by apply (load_evicts s a b); [|right]. Qed.

(** ** What a run of stores leaves

    [wrote f W P s s']: every address of [P] was stored with its value of [f],
    and nothing outside [W] was stored to. *)
Definition wrote (f : Z -> Z) (W P : Z -> Prop) (s s' : memsys) : Prop :=
  (forall b, P b -> view s' b = f b /\ coherent s' b) /\
  (forall b, coherent s b -> coherent s' b /\ (view s' b = view s b \/ view s' b = f b)) /\
  (forall b, (forall a, W a -> ~ same_line a b) -> dirty_at s b = false -> dirty_at s' b = false).

Lemma wrote_none (f : Z -> Z) (W : Z -> Prop) (s : memsys) : wrote f W (fun _ => False) s s.
Proof. split; [done|]. split; [by auto|done]. Qed.

Lemma wrote_store (f : Z -> Z) (W : Z -> Prop) (a v : Z) (s : memsys) :
  W a -> v = f a -> wrote f W (eq a) s (cpu_store a v s).
Proof.
  intros Ha ->. split; [|split].
  - intros b <-. destruct (cpu_store_view s a (f a) a (or_intror eq_refl)) as [Hv Hc]. by rewrite Z.eqb_refl in Hv.
  - intros b Hb. destruct (cpu_store_view s a (f a) b (or_introl Hb)) as [Hv Hc]. split; [done|].
    destruct (Z.eqb_spec b a) as [->|]; auto.
  - intros b Hb. apply cpu_store_clean. by apply Hb.
Qed.

Lemma wrote_trans (f : Z -> Z) (W P Q R : Z -> Prop) (s1 s2 s3 : memsys) :
  wrote f W P s1 s2 -> wrote f W Q s2 s3 -> (forall b, R b -> P b \/ Q b) -> wrote f W R s1 s3.
Proof.
  intros (P1 & V1 & D1) (P2 & V2 & D2) HR. split; [|split].
  - intros b [Hb|Hb]%HR; [|by apply P2]. destruct (P1 b Hb) as [E C]. destruct (V2 b C) as [C' [-> | ->]]; done.
  - intros b Hb. destruct (V1 b Hb) as [C1 E1]. destruct (V2 b C1) as [C2 E2]. split; [done|].
    destruct E2 as [-> | ->]; auto.
  - auto.
Qed.

Lemma wrote_loop (f : Z -> Z) (W : Z -> Prop) (P : Z -> Z -> Prop) (n : nat) (body : Z -> M memsys ()) (s : memsys) :
  (forall i s, 0 <= i < Z.of_nat n -> exists s', body i s = Some ((), s') /\ wrote f W (P i) s s') ->
  exists s', for_M n 0 body s = Some ((), s') /\ wrote f W (fun b => exists i, 0 <= i < Z.of_nat n /\ P i b) s s'.
Proof.
  intros Hb. edestruct (for_M_inv (fun i s' => wrote f W (fun b => exists j, 0 <= j < i /\ P j b) s s') n 0 body s)
    as (s' & R & Hw).
  - eapply wrote_trans; [apply wrote_none|apply wrote_none|]. intros b (j & ? & _). lia.
  - intros i v Hi Hv. destruct (Hb i v) as (v' & R & Hw); [lia|]. exists v'. split; [done|].
    eapply wrote_trans; [exact Hv|exact Hw|]. intros b (j & Hj & Hp).
    destruct (Z.eq_dec j i) as [->|]; [by right|left; exists j; split; [lia|done]].
  - by exists s'.
Qed.

Section Displace.
Context `{SysUtil} `{!SysUtilSpec} `{CacheConfig} `{!CacheConfigOk}.
Variables (sink : Z) (sink_first : bool).

(** One iteration: frame, and the effect on a line that is neither the
    sink's nor the displacing one. *)
Lemma sink_xor_spec (p : Z) (s : memsys) :
  exists s', sink_xor sink sink_first p s = Some ((), s') /\
    frame sink s s' /\
    (forall b, ~ same_line sink b -> ~ same_line p b ->
       m_idx p = m_idx b \/ hit s b = false -> hit s' b = false).
Proof.
  unfold sink_xor. destruct sink_first;
    (eexists; split; [reflexivity|split;
       [repeat (apply frame_store || (eapply frame_trans; [apply frame_load|]))|]]).
  all: intros b Hs Hp Hb; apply store_keeps_out; [done|].
  - apply load_evicts; [done|]. destruct Hb as [Hb|Hb]; [by left|right].
    apply load_evicts; auto.
  - apply load_evicts; [done|right]. by apply load_evicts.
Qed.

Lemma DC_BYTES_eq : DC_BYTES = DC_SETS * LINE_BYTES.
Proof.
  pose proof cfg_line. pose proof cfg_whole_lines. pose proof LINE_BYTES_pos.
  unfold DC_SETS in *. pose proof (Z.div_mod DC_BYTES DC_LINE). nia.
Qed.

Lemma displace_buf_line (k : Z) :
  0 <= k < DC_SETS ->
  (displace_buf + k * DC_LINE) / LINE_BYTES = displace_buf / LINE_BYTES + k.
Proof.
  intros. pose proof LINE_BYTES_pos. rewrite cfg_line. by rewrite Z.div_add by lia.
Qed.

(** The alignment of the buffer puts entry [k] in set [k]. *)
Lemma displace_buf_idx (k : Z) :
  0 <= k < DC_SETS -> m_idx (displace_buf + k * DC_LINE) = k mod NUM_SETS.
Proof.
  intros Hk. unfold m_idx. rewrite displace_buf_line by done.
  pose proof LINE_BYTES_pos. pose proof NUM_SETS_pos.
  destruct cfg_aligned as [q Hq]. destruct cfg_multiple as [r Hr].
  rewrite Hq, DC_BYTES_eq, Hr.
  replace (q * (r * NUM_SETS * LINE_BYTES) / LINE_BYTES) with (q * r * NUM_SETS)
    by (replace (q * (r * NUM_SETS * LINE_BYTES)) with (q * r * NUM_SETS * LINE_BYTES) by ring;
        by rewrite Z.div_mul by lia).
  by rewrite Z.add_comm, Z.mod_add by lia.
Qed.

(** A line outside the buffer is not one of the displacing lines. *)
Lemma displace_buf_other_line (k b : Z) :
  0 <= k < DC_SETS -> ~ in_displace_buf b -> ~ same_line (displace_buf + k * DC_LINE) b.
Proof.
  intros Hk Hb Hl. unfold same_line in Hl. rewrite displace_buf_line in Hl by done.
  apply Hb. unfold in_displace_buf. rewrite DC_BYTES_eq.
  pose proof LINE_BYTES_pos. destruct cfg_aligned as [q Hq].
  assert (displace_buf = displace_buf / LINE_BYTES * LINE_BYTES) as E.
  { rewrite Hq, DC_BYTES_eq, Z.mul_assoc, Z.div_mul; lia. }
  pose proof (Z.div_mod b LINE_BYTES). pose proof (Z.mod_pos_bound b LINE_BYTES). nia.
Qed.

(** The set the driver computes for line address [a] is the one it maps to. *)
Lemma driver_set (a : Z) :
  let set := (a / DC_LINE) .& (DC_SETS - 1) in
  0 <= set < DC_SETS /\ set mod NUM_SETS = m_idx a.
Proof.
  cbn. pose proof cfg_sets_pos. pose proof NUM_SETS_pos.
  rewrite land_pow2_pred by (done || apply cfg_sets_pow2).
  split; [by apply Z.mod_pos_bound|]. unfold m_idx. rewrite cfg_line.
  by rewrite Z.mod_mod_divide by apply cfg_multiple.
Qed.

(** Loop invariant of [displace_range] at line address [a]. *)
Definition range_inv (addr size : Z) (s0 : memsys) (a : Z) (s : memsys) : Prop :=
  (LINE_BYTES | a) /\ addr / LINE_BYTES <= a / LINE_BYTES /\
  a < addr + size + LINE_BYTES /\ frame sink s0 s /\
  (forall b, range_line addr size b -> b / LINE_BYTES < a / LINE_BYTES -> hit s b = false).

Lemma div_next_line (a : Z) : (a + LINE_BYTES) / LINE_BYTES = a / LINE_BYTES + 1.
Proof.
  pose proof LINE_BYTES_pos. replace (a + LINE_BYTES) with (a + 1 * LINE_BYTES) by lia.
  by rewrite Z.div_add by lia.
Qed.

Definition clear_of_driver (addr size : Z) : Prop :=
  forall b, range_line addr size b -> ~ same_line sink b /\ ~ in_displace_buf b.

Lemma range_inv_step (addr size a : Z) (s0 s : memsys) :
  0 <= addr -> clear_of_driver addr size -> range_inv addr size s0 a s -> a < addr + size ->
  exists s', sink_xor sink sink_first
      (displace_buf + ((a / DC_LINE) .& (DC_SETS - 1)) * DC_LINE) s = Some ((), s') /\
    range_inv addr size s0 (a + LINE_BYTES) s'.
Proof.
  intros Haddr Hclear (Hdiv & Hlo & Hhi & Hf & Hout) Ha.
  destruct (driver_set a) as [Hset Hidx]. cbv zeta in Hset, Hidx.
  set (k := (a / DC_LINE) .& (DC_SETS - 1)) in *.
  destruct (sink_xor_spec (displace_buf + k * DC_LINE) s) as (s' & Hrun & Hf' & Hev).
  exists s'. split; [done|]. pose proof LINE_BYTES_pos. unfold range_inv.
  rewrite div_next_line. split_and!.
  - apply Z.divide_add_r; [done|apply Z.divide_refl].
  - lia.
  - lia.
  - by eapply frame_trans.
  - intros b Hb Hbl. destruct (Hclear b Hb) as [Hs Hd].
    apply Hev; [done|by apply displace_buf_other_line|].
    destruct (Z.eq_dec (b / LINE_BYTES) (a / LINE_BYTES)) as [E|E].
    + left. rewrite displace_buf_idx, Hidx by done. unfold m_idx. by rewrite E.
    + right. apply Hout; [done|lia].
Qed.

Lemma range_inv_init (addr size : Z) (s : memsys) :
  0 <= addr -> 0 <= size -> range_inv addr size s (ROUND_DOWN addr DC_LINE) s.
Proof.
  intros Ha Hs. pose proof LINE_BYTES_pos as HL. rewrite cfg_line.
  pose proof (ROUND_DOWN_bounds addr LINE_BYTES Ha HL).
  destruct (ROUND_DOWN_multiple addr LINE_BYTES Ha HL) as [q Hq]. rewrite Hq in *.
  assert (addr / LINE_BYTES = q) as E
    by (symmetry; apply Z.div_unique with (addr - q * LINE_BYTES); lia).
  unfold range_inv. rewrite Z.div_mul by lia.
  split_and!; [apply Z.divide_factor_r|lia|lia|apply frame_refl|].
  intros b [Hb _]. lia.
Qed.

(** The loop variable does not wrap around. *)
Lemma range_inv_no_wrap (addr size a : Z) (s0 s : memsys) :
  0 <= addr -> addr + size + LINE_BYTES <= 2 ^ 32 -> range_inv addr size s0 a s ->
  a < addr + size -> u32 (a + LINE_BYTES) = a + LINE_BYTES.
Proof.
  intros Ha Hov (_ & ? & ? & _) Hlt. pose proof LINE_BYTES_pos.
  apply uwrap_id. pose proof (Z.div_pos addr LINE_BYTES).
  pose proof (Z.div_mod a LINE_BYTES). pose proof (Z.mod_pos_bound a LINE_BYTES).
  unfold is_uint. nia.
Qed.

(** Lines still to visit from line address [a]: the loop's measure. *)
Definition lines_left (addr size a : Z) : nat :=
  Z.to_nat ((addr + size + LINE_BYTES - 1 - a) / LINE_BYTES).

Lemma lines_left_step (addr size a : Z) :
  a < addr + size -> (lines_left addr size (a + LINE_BYTES) < lines_left addr size a)%nat.
Proof.
  intros Hlt. pose proof LINE_BYTES_pos. unfold lines_left.
  replace (addr + size + LINE_BYTES - 1 - a)
    with (addr + size + LINE_BYTES - 1 - (a + LINE_BYTES) + 1 * LINE_BYTES) by lia.
  rewrite Z.div_add by lia.
  pose proof (Z.div_pos (addr + size + LINE_BYTES - 1 - (a + LINE_BYTES)) LINE_BYTES). lia.
Qed.

Definition displace_fuel (size : Z) : nat := Z.to_nat (size / LINE_BYTES + 3).

Lemma lines_left_init (addr size : Z) :
  0 <= addr -> 0 <= size ->
  (lines_left addr size (ROUND_DOWN addr DC_LINE) < displace_fuel size)%nat.
Proof.
  intros Ha Hs. pose proof LINE_BYTES_pos as HL. unfold displace_fuel, lines_left.
  rewrite cfg_line. pose proof (ROUND_DOWN_bounds addr LINE_BYTES Ha HL).
  assert ((addr + size + LINE_BYTES - 1 - ROUND_DOWN addr LINE_BYTES) / LINE_BYTES
          <= (size + 2 * LINE_BYTES) / LINE_BYTES) as Hm by (apply Z.div_le_mono; lia).
  rewrite Z.div_add in Hm by lia. pose proof (Z.div_pos size LINE_BYTES). lia.
Qed.

Lemma displace_range_spec (fuel : nat) (addr size : Z) (s : memsys) :
  0 <= addr -> 0 <= size -> addr + size + LINE_BYTES <= 2 ^ 32 ->
  (displace_fuel size <= fuel)%nat -> clear_of_driver addr size ->
  exists s', displace_range sink sink_first fuel addr size s = Some ((), s') /\
    frame sink s s' /\ (forall b, range_line addr size b -> hit s' b = false).
Proof.
  intros Ha Hs Hov Hfuel Hclear. pose proof LINE_BYTES_pos as HL.
  set (s1 := cpu_store sink 0 s). pose proof (lines_left_init addr size Ha Hs).
  edestruct (while_M_total (range_inv addr size s1) (fun a _ => lines_left addr size a)
    (fun a => mret (a <? u32 (addr + size))) (fun a => _ ← sink_xor sink sink_first
       (displace_buf + ((a / DC_LINE) .& (DC_SETS - 1)) * DC_LINE); mret (u32 (a + DC_LINE)))
    (fun a s' => range_inv addr size s1 a s' /\ addr + size <= a)
    fuel (ROUND_DOWN addr DC_LINE) s1) as (a' & s' & Hloop & Hinv & Hend).
  - by apply range_inv_init.
  - intros a v Hinv. unfold u32 at 1. rewrite (uwrap_id 32 (addr + size)) by (unfold is_uint; lia).
    exists (a <? addr + size), v. split; [done|].
    destruct (Z.ltb_spec a (addr + size)) as [Hlt|]; [|done].
    destruct (range_inv_step addr size a s1 v Ha Hclear Hinv Hlt) as (v' & Hrun & Hinv').
    exists (a + LINE_BYTES), v'. split_and!; [|done|by apply lines_left_step].
    rewrite (M_bind_Some _ _ _ _ _ Hrun), cfg_line.
    by rewrite (range_inv_no_wrap addr size a s1 v).
  - lia.
  - exists (cpu_load sink s').2. destruct Hinv as ([q ->] & _ & _ & Hf & Hout). split_and!.
    + unfold displace_range. erewrite M_bind_Some by reflexivity.
      fold s1. by rewrite (M_bind_Some _ _ _ _ _ Hloop).
    + eapply frame_trans; [apply frame_store|]. eapply frame_trans; [apply Hf|apply frame_load].
    + intros b Hb. apply load_evicts; [by apply Hclear|right]. apply Hout; [done|].
      destruct Hb as [_ Hb]. rewrite Z.div_mul by lia. nia.
Qed.

Lemma displace_all_spec (s : memsys) :
  exists s', displace_all sink sink_first s = Some ((), s') /\ frame sink s s' /\
    (forall b, ~ same_line sink b -> ~ in_displace_buf b -> hit s' b = false).
Proof.
  pose proof cfg_sets_pos. pose proof NUM_SETS_pos. set (s1 := cpu_store sink 0 s).
  destruct (for_M_inv (fun k v => frame sink s1 v /\
      forall b, ~ same_line sink b -> ~ in_displace_buf b ->
        (exists j, 0 <= j < k /\ j mod NUM_SETS = m_idx b) -> hit v b = false)
    (Z.to_nat DC_SETS) 0 (fun set => sink_xor sink sink_first (displace_buf + set * DC_LINE)) s1)
    as (s' & Hloop & Hf & Hout).
  - split; [apply frame_refl|]. intros b _ _ (j & Hj & _). lia.
  - intros k v Hk [Hf Hout].
    destruct (sink_xor_spec (displace_buf + k * DC_LINE) v) as (v' & Hrun & Hf' & Hev).
    exists v'. split; [done|]. split; [by eapply frame_trans|].
    intros b Hs Hd (j & Hj & Hi). apply Hev; [done|apply displace_buf_other_line; [lia|done]|].
    destruct (Z.eq_dec j k) as [->|].
    + left. rewrite displace_buf_idx by lia. done.
    + right. apply Hout; [done..|]. exists j. split; [lia|done].
  - exists (cpu_load sink s').2. split_and!.
    + unfold displace_all. erewrite M_bind_Some by reflexivity. fold s1.
      by rewrite (M_bind_Some _ _ _ _ _ Hloop).
    + eapply frame_trans; [apply frame_store|]. eapply frame_trans; [apply Hf|apply frame_load].
    + intros b Hs Hd. apply load_evicts; [done|right]. apply Hout; [done..|].
      exists (m_idx b). pose proof (m_idx_range b). rewrite Z.mod_small by done.
      pose proof (Z.divide_pos_le NUM_SETS DC_SETS cfg_sets_pos cfg_multiple).
      split; [lia|done].
Qed.
End Displace.
End Proofs.

(** ** The contract other drivers rely on

    [sys_cache_data_*] are Zephyr's entry points; with
    [CONFIG_EXTERNAL_CACHE] they call the functions above.  [maint_private] are
    the addresses the maintenance code itself uses, [maint_scratch] the one byte
    of them it writes. *)
Class CacheMaint : Type := {
  sys_cache_data_flush_range : Z -> Z -> M memsys rc;
  sys_cache_data_invd_range : Z -> Z -> M memsys rc;
  sys_cache_data_flush_all : M memsys rc;
  maint_private : Z -> Prop;
  maint_scratch : Z;
}.

Definition maint_spec `{DcGeom} (private : Z -> Prop) (scratch : Z)
    (op : Z -> Z -> M memsys rc) : Prop :=
  forall addr size s,
    0 <= addr -> 0 <= size -> addr + size + LINE_BYTES <= 2 ^ 32 ->
    (forall b, range_line addr size b -> ~ private b) ->
    exists s', op addr size s = Some (RC_OK, s') /\ frame scratch s s' /\
      (forall b, range_line addr size b -> hit s' b = false).

Class CacheMaintOk {geom : DcGeom} {cm : CacheMaint} : Prop := {
  scratch_private : forall b, same_line maint_scratch b -> maint_private b;
  flush_range_ok :
    maint_spec maint_private maint_scratch sys_cache_data_flush_range;
  invd_range_ok :
    maint_spec maint_private maint_scratch sys_cache_data_invd_range;
  flush_all_ok (s : memsys) :
    exists s', sys_cache_data_flush_all s = Some (RC_OK, s') /\ frame maint_scratch s s' /\
      (forall b, ~ maint_private b -> hit s' b = false);
}.

(** The displacement driver is an implementation of the contract. *)
Definition displacing_maint `{DcGeom} `{SysUtil} `{CacheConfig}
    (sink : Z) (sink_first : bool) : CacheMaint := {|
  sys_cache_data_flush_range := fun addr size =>
    cache_data_flush_range sink sink_first (displace_fuel size) addr size;
  sys_cache_data_invd_range := fun addr size =>
    cache_data_invd_range sink sink_first (displace_fuel size) addr size;
  sys_cache_data_flush_all := cache_data_flush_all sink sink_first;
  maint_private := fun b => same_line sink b \/ in_displace_buf b;
  maint_scratch := sink;
|}.

Section Contract.
Context `{DcGeom} `{!DcGeomOk} `{SysUtil} `{!SysUtilSpec} `{CacheConfig} `{!CacheConfigOk}.

Lemma displacing_op_ok (sink : Z) (sink_first : bool) :
  maint_spec (fun b => same_line sink b \/ in_displace_buf b) sink
    (fun addr size => _ ← displace_range sink sink_first (displace_fuel size) addr size;
                      mret RC_OK).
Proof.
  intros addr size s Ha Hs Hov Hp.
  destruct (displace_range_spec sink sink_first (displace_fuel size) addr size s)
    as (s' & Hrun & Hf & Hout); [done..| |].
  - intros b Hb. specialize (Hp b Hb). tauto.
  - exists s'. by rewrite (M_bind_Some _ _ _ _ _ Hrun).
Qed.

#[export] Instance displacing_maint_ok (sink : Z) (sink_first : bool) :
  CacheMaintOk (cm := displacing_maint sink sink_first).
Proof.
  split; [by left|apply displacing_op_ok..|]. intros s.
  destruct (displace_all_spec sink sink_first s) as (s' & Hrun & Hf & Hout).
  exists s'. cbn. unfold cache_data_flush_all. rewrite (M_bind_Some _ _ _ _ _ Hrun).
  split_and!; [done|done|]. intros b Hb. apply Hout; tauto.
Qed.
End Contract.

(** ** Consequences of the contract *)

Section Coherence.
Context {geom : DcGeom} {geom_ok : DcGeomOk} {cm : CacheMaint} {cm_ok : CacheMaintOk}.

Lemma range_line_in (addr size b : Z) : addr <= b < addr + size -> range_line addr size b.
Proof.
  intros Hb. pose proof LINE_BYTES_pos. split; [apply Z.div_le_mono; lia|].
  pose proof (Z.div_mod b LINE_BYTES). pose proof (Z.mod_pos_bound b LINE_BYTES). lia.
Qed.

(** A maintained line is in DRAM with the value its write-back has. *)
Lemma maint_dram (s s' : memsys) (b : Z) :
  frame maint_scratch s s' -> ~ maint_private b -> hit s' b = false -> dram s' b = wbval s b.
Proof.
  intros [Hw _] Hp Hh. rewrite <-(wbval_nonresident s' b Hh). apply Hw.
  intros Hl. by apply Hp, scratch_private.
Qed.

(** flush, DMA store, invalidate: the sequence the driver's header gives for a
    DMA destination. *)
Definition dma_into (addr size : Z) (f : Z -> Z) : M memsys rc :=
  _ ← sys_cache_data_flush_range addr size;
  _ ← modify_world (dma_write_range addr size f);
  sys_cache_data_invd_range addr size.

Lemma dma_into_spec (addr size : Z) (f : Z -> Z) (s : memsys) :
  0 <= addr -> 0 <= size -> addr + size + LINE_BYTES <= 2 ^ 32 ->
  (forall b, range_line addr size b -> ~ maint_private b) ->
  exists s', dma_into addr size f s = Some (RC_OK, s') /\
    (forall b, addr <= b < addr + size -> (cpu_load b s').1 = f b) /\
    (forall b, ~ (addr <= b < addr + size) -> b <> maint_scratch -> coherent s b ->
       view s' b = view s b /\ coherent s' b).
Proof.
  intros Ha Hs Hov Hp.
  destruct (flush_range_ok addr size s) as (s1 & R1 & F1 & O1); [done..|].
  set (s2 := dma_write_range addr size f s1).
  destruct (invd_range_ok addr size s2) as (s3 & R3 & F3 & O3); [done..|].
  exists s3. split_and!.
  - unfold dma_into. rewrite (M_bind_Some _ _ _ _ _ R1). by erewrite M_bind_Some by reflexivity.
  - intros b Hb. pose proof (range_line_in addr size b Hb) as Hr.
    rewrite cpu_load_miss by auto. rewrite (maint_dram s2 s3 b) by auto.
    unfold s2. rewrite dma_write_range_wbval. unfold dirty_at. rewrite O1 by done. cbn.
    destruct (Z.leb_spec addr b), (Z.ltb_spec b (addr + size)); cbn; done || lia.
  - intros b Hb Hs' Hc. destruct (proj1 (proj2 F1) b Hs' Hc) as [V1 C1].
    destruct (dma_write_range_coherent addr size f s1 b C1 (or_introl Hb)) as [C2 V2].
    destruct (proj1 (proj2 F3) b Hs' C2) as [V3 C3]. split; [|done].
    rewrite V3. fold s2 in V2. rewrite V2, V1.
    destruct (Z.leb_spec addr b), (Z.ltb_spec b (addr + size)); cbn; done || lia.
Qed.
End Coherence.

(** ** Concrete configurations *)

Definition cfg_16k : CacheConfig := {|
  CONFIG_DCACHE_LINE_SIZE := 16;
  CONFIG_CACHE_RV32_5STAGE_DCACHE_BYTES := 16384;
  displace_buf := 0x104000;
|}.

Definition cfg_8k : CacheConfig := {|
  CONFIG_DCACHE_LINE_SIZE := 16;
  CONFIG_CACHE_RV32_5STAGE_DCACHE_BYTES := 8192;
  displace_buf := 0x104000;
|}.

#[export] Instance geom_fpga_ok : DcGeomOk (H := geom_fpga).
Proof. split; cbn; lia. Qed.
#[export] Instance geom_asic_ok : DcGeomOk (H := geom_asic).
Proof. split; cbn; lia. Qed.

#[export] Instance cfg_16k_fpga : CacheConfigOk (H := geom_fpga) (H0 := cfg_16k).
Proof. split; try reflexivity. exists 65. reflexivity. Qed.

(** The 16 KB configuration on the 8 KB build: twice the real size. *)
#[export] Instance cfg_16k_asic : CacheConfigOk (H := geom_asic) (H0 := cfg_16k).
Proof. split; try reflexivity; [exists 2|exists 65]; reflexivity. Qed.

(** ** Properties *)

Section Properties.
Context `{DcGeom} `{!DcGeomOk} `{SysUtil} `{!SysUtilSpec} `{CacheConfig} `{!CacheConfigOk}.
Variables (sink : Z) (sink_first : bool).

(** C12: [cache_data_flush_range] terminates and returns 0; afterwards no line
    of the range is in the cache, DRAM holds for each of its bytes the value
    the cache was due to write back, and no other byte of memory that the CPU
    sees coherently has changed (the driver's own [sink] byte excepted). *)
Theorem flush_range_writes_back (fuel : nat) (addr size : Z) (s : memsys) :
  0 <= addr -> 0 <= size -> addr + size + LINE_BYTES <= 2 ^ 32 ->
  (displace_fuel size <= fuel)%nat -> clear_of_driver sink addr size ->
  exists s', cache_data_flush_range sink sink_first fuel addr size s = Some (RC_OK, s') /\
    (forall b, range_line addr size b ->
       hit s' b = false /\ dma_read b s' = wbval s b) /\
    (forall b, b <> sink -> coherent s b -> view s' b = view s b /\ coherent s' b).
Proof.
  intros Ha Hs Hov Hfuel Hclear.
  destruct (displace_range_spec sink sink_first fuel addr size s)
    as (s' & Hrun & (Hw & Hv & _) & Hout); [done..|].
  exists s'. unfold cache_data_flush_range. rewrite (M_bind_Some _ _ _ _ _ Hrun).
  split_and!; [done| |done]. intros b Hb. split; [by apply Hout|]. unfold dma_read.
  rewrite <-(wbval_nonresident s' b) by auto. apply Hw, Hclear, Hb.
Qed.

(** C13: the destination protocol of the driver's header (flush the range, let
    the accelerator store into it, "invalidate" it) makes every CPU load of
    the range return what the accelerator wrote, whatever the cache held
    before, and disturbs nothing else. *)
Theorem dma_destination_protocol (addr size : Z) (f : Z -> Z) (s : memsys) :
  0 <= addr -> 0 <= size -> addr + size + LINE_BYTES <= 2 ^ 32 ->
  clear_of_driver sink addr size ->
  exists s1 s2,
    cache_data_flush_range sink sink_first (displace_fuel size) addr size s = Some (RC_OK, s1) /\
    cache_data_invd_range sink sink_first (displace_fuel size) addr size
      (dma_write_range addr size f s1) = Some (RC_OK, s2) /\
    (forall b, addr <= b < addr + size -> (cpu_load b s2).1 = f b) /\
    (forall b, ~ (addr <= b < addr + size) -> b <> sink -> coherent s b ->
       view s2 b = view s b /\ coherent s2 b).
Proof.
  intros Ha Hs Hov Hclear.
  destruct (dma_into_spec (cm := displacing_maint sink sink_first) addr size f s)
    as (s2 & Hrun & Hin & Hout); [done..| |].
  - intros b Hb. destruct (Hclear b Hb). cbn. tauto.
  - apply M_bind_inv in Hrun as (r1 & s1 & R1 & Hrun). apply M_bind_inv in R1 as E.
    destruct E as (u & s1' & _ & E). injection E as <- ->.
    exists s1, s2. auto.
Qed.

(** C23: the hazard the header warns of. A destination byte that is dirty in
    the cache when the accelerator stores over it ends up with the stale CPU
    value: [cache_data_invd_range] writes it back over the DMA result. *)
Theorem invd_dirty_clobbers_dma (addr size : Z) (f : Z -> Z) (s : memsys) (b : Z) :
  0 <= addr -> 0 <= size -> addr + size + LINE_BYTES <= 2 ^ 32 ->
  clear_of_driver sink addr size -> addr <= b < addr + size -> dirty_at s b = true ->
  exists s', cache_data_invd_range sink sink_first (displace_fuel size) addr size
      (dma_write_range addr size f s) = Some (RC_OK, s') /\
    (cpu_load b s').1 = view s b.
Proof.
  intros Ha Hs Hov Hclear Hb Hd.
  pose proof (range_line_in addr size b Hb) as Hr.
  destruct (displacing_op_ok sink sink_first addr size (dma_write_range addr size f s))
    as (s' & Hrun & [Hw _] & Hout); [done..| |].
  { intros c Hc. destruct (Hclear c Hc). tauto. }
  exists s'. split; [done|]. rewrite cpu_load_miss by auto.
  rewrite <-(wbval_nonresident s' b) by auto. rewrite Hw by (apply Hclear, Hr).
  rewrite dma_write_range_wbval, Hd. symmetry. by apply coherent_dirty.
Qed.

(** [cache_data_flush_all] returns 0 with every line of memory outside the
    driver's own buffer and stack slot out of the cache and written back. *)
Theorem flush_all_writes_back (s : memsys) :
  exists s', cache_data_flush_all sink sink_first s = Some (RC_OK, s') /\
    (forall b, ~ same_line sink b -> ~ in_displace_buf b ->
       hit s' b = false /\ dma_read b s' = wbval s b) /\
    (forall b, b <> sink -> coherent s b -> view s' b = view s b /\ coherent s' b).
Proof.
  destruct (displace_all_spec sink sink_first s) as (s' & Hrun & (Hw & Hv & _) & Hout).
  exists s'. unfold cache_data_flush_all. rewrite (M_bind_Some _ _ _ _ _ Hrun).
  split_and!; [done| |done]. intros b Hs Hb. split; [by apply Hout|]. unfold dma_read.
  by rewrite <-(wbval_nonresident s' b), Hw by auto.
Qed.
End Properties.

(** ** The properties at work: FPGA geometry, 16 KB configuration *)

Module CacheDriverWitness.
#[local] Existing Instance geom_fpga.
#[local] Existing Instance cfg_16k.

Definition stack_slot : Z := 0x180000.
Definition buf : Z := 0x120008.

(** One dirty line in the cache: the CPU has stored to [buf]. *)
Definition s_dirty : memsys := cpu_store buf 0x42 (dc_reset (fun _ => 0)).

Lemma buf_clear : clear_of_driver stack_slot buf 64.
Proof.
  intros b [Hlo Hhi]. unfold same_line, in_displace_buf.
  change DC_BYTES with 16384. change displace_buf with 0x104000.
  change LINE_BYTES with 16 in *. unfold stack_slot, buf in *. divlia.
Qed.

Lemma flush_range_writes_back_witness :
  exists s', cache_data_flush_range stack_slot true (displace_fuel 64) buf 64 s_dirty
      = Some (RC_OK, s') /\
    (forall b, range_line buf 64 b -> hit s' b = false /\ dma_read b s' = wbval s_dirty b) /\
    (forall b, b <> stack_slot -> coherent s_dirty b ->
       view s' b = view s_dirty b /\ coherent s' b).
Proof.
  apply (flush_range_writes_back stack_slot true (displace_fuel 64) buf 64 s_dirty);
    [discriminate..|vm_compute; reflexivity|exact buf_clear].
Defined.

Lemma dma_destination_protocol_witness :
  exists s1 s2,
    cache_data_flush_range stack_slot true (displace_fuel 64) buf 64 s_dirty
      = Some (RC_OK, s1) /\
    cache_data_invd_range stack_slot true (displace_fuel 64) buf 64
      (dma_write_range buf 64 (fun a => a mod 251) s1) = Some (RC_OK, s2) /\
    (forall b, buf <= b < buf + 64 -> (cpu_load b s2).1 = b mod 251) /\
    (forall b, ~ (buf <= b < buf + 64) -> b <> stack_slot -> coherent s_dirty b ->
       view s2 b = view s_dirty b /\ coherent s2 b).
Proof.
  apply (dma_destination_protocol stack_slot true buf 64 (fun a => a mod 251) s_dirty);
    [discriminate..|exact buf_clear].
Defined.

(** The stale byte [0x42] survives the accelerator's store of [0x99]. *)
Lemma invd_dirty_clobbers_dma_witness :
  view s_dirty buf = 0x42 /\
  exists s', cache_data_invd_range stack_slot false (displace_fuel 64) buf 64
      (dma_write_range buf 64 (fun _ => 0x99) s_dirty) = Some (RC_OK, s') /\
    (cpu_load buf s').1 = view s_dirty buf.
Proof.
  split; [vm_compute; reflexivity|].
  apply (invd_dirty_clobbers_dma stack_slot false buf 64 (fun _ => 0x99) s_dirty buf);
    [discriminate..|exact buf_clear|split; [discriminate|reflexivity]|reflexivity].
Defined.

Lemma flush_all_writes_back_witness :
  exists s', cache_data_flush_all stack_slot true s_dirty = Some (RC_OK, s') /\
    (forall b, ~ same_line stack_slot b -> ~ in_displace_buf b ->
       hit s' b = false /\ dma_read b s' = wbval s_dirty b) /\
    (forall b, b <> stack_slot -> coherent s_dirty b ->
       view s' b = view s_dirty b /\ coherent s' b).
Proof. apply (flush_all_writes_back stack_slot true s_dirty). Defined.
End CacheDriverWitness.

(** The other half of the Kconfig help. With a configured size smaller
    than the cache (8 KB on the 16 KB build) the displacing line falls in
    another set: after the flush returns 0, a byte the CPU has written is
    still only in the cache and DRAM is stale. *)
Theorem undersized_config_misses :
  let run := (_ ← store (H := geom_fpga) 0x122000 0x42;
              cache_data_flush_range (H := geom_fpga) (H1 := cfg_8k) 0x180000 true 3 0x122000 16)
  in
  (fun '(r, s') => (r, view (H := geom_fpga) s' 0x122000, dma_read 0x122000 s'))
    <$> run (dc_reset (fun _ => 0)) = Some (RC_OK, 0x42, 0).
Proof. vm_compute. reflexivity. Qed.
