(* ===== verification/CacheTest.v ===== *)
(** * A client of the cache driver,
    [src/zephyr/samples/cache_test/src/main.c]

    The smoke test of the maintenance calls: a patterned buffer survives a
    flush, and the two measurements of what a range costs against the whole
    cache.  Every byte is written and read through the cache of [Dcache]; the
    cycle counter's readings are a parameter and printing is the result. *)

From S2P Require Import Prelude Zephyr Dcache CacheDriver.

Definition BUF_BYTES : Z := 4096.

Definition pattern_of (i : Z) : Z := u8 (u32 (i * 31 + 7) .& 0xFF).

(** What a run prints: the failed return code; or the mismatches shown (index,
    got, want), their number, the two costs and their ratio in hundredths. *)
Inductive outcome : Type :=
  | FlushFailed (r : rc)
  | Measured (shown : list (Z * Z * Z)) (bad t_range t_all : Z) (cheaper : option (Z * Z)).

Definition cheaper_by (t_range t_all : Z) : option (Z * Z) :=
  if truthy t_range then Some (t_all / t_range, u32 (t_all * 100) / t_range mod 100) else None.

Section CacheTest.
Context `{DcGeom} `{CacheMaint}.

(** The static buffer, and the successive readings of the cycle counter. *)
Variable buf : Z.
Variable cycles : nat -> Z.

Definition fill (f : Z -> Z) : M memsys () := for_M (Z.to_nat BUF_BYTES) 0 (fun i => store (buf + i) (f i)).

Definition compare : M memsys (list (Z * Z * Z) * Z) :=
  for_MS (Z.to_nat BUF_BYTES) 0 (fun i st =>
    v ← load (buf + i);
    mret (if v =? pattern_of i then st
          else (if st.2 <? 4 then st.1 ++ [(i, v, pattern_of i)] else st.1, s32 (st.2 + 1)))) ([], 0).

Definition cache_test_main : M memsys outcome :=
  _ ← fill pattern_of;
  r ← sys_cache_data_flush_range buf BUF_BYTES;
  if bool_decide (r = RC_OK) then
    found ← compare;
    _ ← fill (fun i => u8 (pattern_of i .^ 0xFF));
    _ ← sys_cache_data_flush_range buf BUF_BYTES;
    let t_range := u32 (cycles 1 - cycles 0) in
    _ ← fill pattern_of;
    _ ← sys_cache_data_flush_all;
    let t_all := u32 (cycles 3 - cycles 2) in
    mret (Measured found.1 found.2 t_range t_all (cheaper_by t_range t_all))
  else mret (FlushFailed r).
End CacheTest.

(** ** The test passes *)

Section Proofs.
Context {geom : DcGeom} {geom_ok : DcGeomOk} {cm : CacheMaint} {cm_ok : CacheMaintOk}.
Variables (buf : Z) (cycles : nat -> Z).

(** Where the linker may put the buffer. *)
Hypothesis buf_low : 0 <= buf.
Hypothesis buf_high : buf + BUF_BYTES + LINE_BYTES <= 2 ^ 32.
Hypothesis buf_public : forall b, range_line buf BUF_BYTES b -> ~ maint_private b.

Definition holds (f : Z -> Z) (s : memsys) : Prop :=
  forall i, 0 <= i < BUF_BYTES -> view s (buf + i) = f i /\ coherent s (buf + i).

Lemma buf_byte (i : Z) :
  0 <= i < BUF_BYTES -> ~ maint_private (buf + i) /\ buf + i <> maint_scratch.
Proof.
  intros Hi. assert (~ maint_private (buf + i)) as Hp by (apply buf_public, range_line_in; lia).
  split; [done|]. intros E. apply Hp. rewrite E. by apply scratch_private.
Qed.

Lemma fill_run (f : Z -> Z) (s : memsys) : exists s', fill buf f s = Some ((), s') /\ holds f s'.
Proof.
  destruct (wrote_loop (fun b => f (b - buf)) (fun _ => True) (fun i => eq (buf + i)) (Z.to_nat BUF_BYTES)
    (fun i => store (buf + i) (f i)) s) as (s' & R & Hw & _).
  - intros i v Hi. eexists. split; [reflexivity|]. apply wrote_store; [done|]. f_equal. lia.
  - exists s'. split; [exact R|]. intros i Hi. destruct (Hw (buf + i)) as [Hv Hc].
    + exists i. split; [exact Hi|done].
    + split; [|done]. rewrite Hv. f_equal. lia.
Qed.

Lemma holds_frame (f : Z -> Z) (s s' : memsys) : frame maint_scratch s s' -> holds f s -> holds f s'.
Proof.
  intros (_ & Hv & _) H i Hi. destruct (H i Hi) as [<- Hc]. apply Hv; [by apply buf_byte|done].
Qed.

Lemma compare_run (s : memsys) :
  holds pattern_of s -> exists s', compare buf s = Some (([], 0), s').
Proof.
  intros Hs. unfold compare.
  edestruct (for_MS_inv (fun _ st v => st = (@nil (Z * Z * Z), 0) /\ holds pattern_of v) (Z.to_nat BUF_BYTES) 0)
    as (st & s' & R & -> & _); [by split| |by exists s'].
  intros i st v Hi [-> Hv]. destruct (Hv i Hi) as [Hp Hc].
  exists ([], 0), (cpu_load (buf + i) v).2.
  pose proof (cpu_load_value v (buf + i) Hc) as El. rewrite Hp in El.
  unfold load, mbind, M_bind, mret, M_ret. destruct (cpu_load (buf + i) v) as [x v'] eqn:Ev. cbn [fst snd] in *. subst x.
  rewrite Z.eqb_refl. split; [done|]. split; [done|].
  apply (holds_frame pattern_of v); [|done].
  replace v' with (cpu_load (buf + i) v).2 by (by rewrite Ev). apply frame_load.
Qed.

(** On a driver that keeps its contract the test reports no mismatch, whatever
    the cache held before, and leaves the pattern it wrote last in DRAM. *)
Theorem cache_test_passes (s : memsys) :
  let t_range := u32 (cycles 1 - cycles 0) in
  let t_all := u32 (cycles 3 - cycles 2) in
  exists s', cache_test_main buf cycles s = Some (Measured [] 0 t_range t_all (cheaper_by t_range t_all), s') /\
    (forall i, 0 <= i < BUF_BYTES -> dma_read (buf + i) s' = pattern_of i).
Proof.
  intros t_range t_all. unfold cache_test_main.
  assert (0 <= BUF_BYTES) by done.
  destruct (fill_run pattern_of s) as (s1 & R1 & H1). rewrite (M_bind_Some _ _ _ _ _ R1).
  destruct (flush_range_ok buf BUF_BYTES s1) as (s2 & R2 & F2 & _); [done..|].
  rewrite (M_bind_Some _ _ _ _ _ R2), bool_decide_eq_true_2 by done.
  destruct (compare_run s2) as (s3 & R3); [by eapply holds_frame|]. rewrite (M_bind_Some _ _ _ _ _ R3).
  destruct (fill_run (fun i => u8 (pattern_of i .^ 0xFF)) s3) as (s4 & R4 & _). rewrite (M_bind_Some _ _ _ _ _ R4).
  destruct (flush_range_ok buf BUF_BYTES s4) as (s5 & R5 & _ & _); [done..|]. rewrite (M_bind_Some _ _ _ _ _ R5).
  destruct (fill_run pattern_of s5) as (s6 & R6 & H6). rewrite (M_bind_Some _ _ _ _ _ R6).
  destruct (flush_all_ok s6) as (s7 & R7 & F7 & O7). rewrite (M_bind_Some _ _ _ _ _ R7).
  exists s7. split; [reflexivity|]. intros i Hi. destruct (H6 i Hi) as [Hv Hc].
  destruct (buf_byte i Hi) as [Hp _]. unfold dma_read.
  rewrite (maint_dram s6 s7) by auto. by rewrite <-Hc.
Qed.
End Proofs.

(** The printed ratio is the truncated quotient in hundredths as long as
    [t_all * 100] does not wrap. *)
Lemma cheaper_by_exact (t_range t_all q r : Z) :
  0 < t_range -> 0 <= t_all -> t_all * 100 < 2 ^ 32 ->
  cheaper_by t_range t_all = Some (q, r) -> q * 100 + r = t_all * 100 / t_range /\ 0 <= r < 100.
Proof.
  intros Hr Ha Hov. unfold cheaper_by. rewrite truthy_nonzero by lia. intros [= <- <-].
  unfold u32. rewrite uwrap_id by (unfold is_uint; lia). split; [|divlia].
  rewrite (Z.div_mod (t_all * 100 / t_range) 100) at 2 by lia. rewrite Z.div_div by lia.
  replace (t_all * 100 / (t_range * 100)) with (t_all / t_range) by (symmetry; apply Z.div_mul_cancel_r; lia). lia.
Qed.

(** ** The test on the 16 KB cache *)

Module CacheTestWitness.
#[local] Existing Instance geom_fpga.
#[local] Existing Instance cfg_16k.
#[local] Instance maint : CacheMaint := displacing_maint 0x180000 true.
#[local] Instance maint_ok : CacheMaintOk (cm := maint).
Proof. apply displacing_maint_ok. Qed.

Lemma cache_test_passes_witness :
  exists s', cache_test_main 0x120000 (fun k => Z.of_nat k * 1000) (dc_reset (fun _ => 0)) =
      Some (Measured [] 0 1000 1000 (Some (1, 0)), s') /\
    (forall i, 0 <= i < BUF_BYTES -> dma_read (0x120000 + i) s' = pattern_of i).
Proof.
  apply (cache_test_passes 0x120000 (fun k => Z.of_nat k * 1000)); [done|done|].
  intros b [H1 H2]. change LINE_BYTES with 16 in *. unfold BUF_BYTES in *. cbn.
  unfold in_displace_buf, same_line. change DC_BYTES with 16384. change displace_buf with 0x104000.
  change LINE_BYTES with 16. intros [Hl|Hl]; divlia.
Defined.
End CacheTestWitness.
