(* ===== verification/MmAccel.v ===== *)
(** * The GEMM accelerator, [src/chisel/src/MmAccel.scala], batch by batch

    The registers the driver uses and what a kicked descriptor queue does to
    DRAM: for each descriptor the operand panels are fetched, the array
    computes, and the tile is stored.  The hardware may fetch the next tile's
    operands before the current tile is stored; a batch whose destinations are
    also operands is outside the model's scope (and excluded where it matters). *)

From S2P Require Import Prelude Dcache.

(** Elaboration parameters. [AccelGeomOk]: the conditions that [MmAccel.scala]
    states ([require]; [int8Capable], for INT8 tiles), up to the sizes
    considered here. *)
Class AccelGeom : Type := { dim : Z; maxK : Z; bPanels : Z; descDepth : Z }.

Class AccelGeomOk `{AccelGeom} : Prop := {
  dim_range : 4 <= dim <= 16;
  dim_int8 : (dim | 16);
  maxK_range : 16 <= maxK <= 128;
  maxK_pow2 : (maxK | 128);
  bPanels_range : 1 <= bPanels <= 16;
  bPanels_pow2 : (bPanels | 16);
  descDepth_range : 1 <= descDepth < 256;
}.

Lemma maxK_lines `{AccelGeomOk} : (16 | maxK).
Proof.
  pose proof maxK_range. destruct maxK_pow2 as [q Hq]. assert (1 <= q <= 8) as Hr by nia.
  assert (q = 1 \/ q = 2 \/ q = 3 \/ q = 4 \/ q = 5 \/ q = 6 \/ q = 7 \/ q = 8) as Hc by lia.
  repeat destruct Hc as [-> |Hc]; try lia; [exists 8|exists 4|exists 2|subst; exists 1]; lia.
Qed.

(** The FPGA build. *)
Definition accel_fpga : AccelGeom := {| dim := 8; maxK := 64; bPanels := 4; descDepth := 8 |}.

#[export] Instance accel_fpga_ok : AccelGeomOk (H := accel_fpga).
Proof. split; cbn; try lia; [by exists 2|by exists 2|by exists 4]. Qed.

Record descriptor : Type := mk_desc { d_aSrc : Z; d_bSrc : Z; d_dest : Z; d_ctl : Z }.

(** [a_mem lane k], [b_mem panel lane k]: operand bytes. *)
Record accel : Type := mk_accel {
  a_mem : Z -> Z -> Z;
  b_mem : Z -> Z -> Z -> Z;
  descA : Z; descB : Z; descD : Z;
  descQ : list descriptor;
  destStride : Z;
  outShift : Z;
  int8Mode : bool;
  qBusy : bool; qDone : bool; qOverflow : bool;
  enginesDone : bool;
}.

Section Accel.
Context `{DcGeom} `{AccelGeom}.

(** ** Registers *)

Definition set_desc (a b d : Z) (x : accel) : accel :=
  mk_accel (a_mem x) (b_mem x) a b d (descQ x) (destStride x) (outShift x) (int8Mode x)
    (qBusy x) (qDone x) (qOverflow x) (enginesDone x).
Definition set_queue (q : list descriptor) (ov : bool) (x : accel) : accel :=
  mk_accel (a_mem x) (b_mem x) (descA x) (descB x) (descD x) q (destStride x) (outShift x) (int8Mode x)
    (qBusy x) (qDone x) ov (enginesDone x).
Definition set_out (stride shift : Z) (i8 : bool) (x : accel) : accel :=
  mk_accel (a_mem x) (b_mem x) (descA x) (descB x) (descD x) (descQ x) stride shift i8
    (qBusy x) (qDone x) (qOverflow x) (enginesDone x).
Definition set_flags (busy done ov eng : bool) (x : accel) : accel :=
  mk_accel (a_mem x) (b_mem x) (descA x) (descB x) (descD x) (descQ x) (destStride x) (outShift x)
    (int8Mode x) busy done ov eng.
Definition set_panels (a : Z -> Z -> Z) (b : Z -> Z -> Z -> Z) (x : accel) : accel :=
  mk_accel a b (descA x) (descB x) (descD x) (descQ x) (destStride x) (outShift x) (int8Mode x)
    (qBusy x) (qDone x) (qOverflow x) (enginesDone x).

(** A write of CTRL: kick the queue, then SOFT_RST with priority. *)
Definition write_ctrl (v : Z) (x : accel) : accel :=
  let x := if Z.testbit v 5 && negb (qBusy x) then set_flags true false false (enginesDone x) x else x in
  if Z.testbit v 1 then set_queue [] false (set_flags false false false false x) else x.

Definition push_desc (ctl : Z) (x : accel) : accel :=
  if Z.of_nat (length (descQ x)) <? descDepth
  then set_queue (descQ x ++ [mk_desc (descA x) (descB x) (descD x) ctl]) (qOverflow x) x
  else set_queue (descQ x) true x.

(** A register write, by word index. *)
Definition accel_write (word v : Z) (x : accel) : accel :=
  match word with
  | 0 => write_ctrl v x
  | 11 => set_out v (outShift x) (int8Mode x) x
  | 17 => set_desc v (descB x) (descD x) x
  | 18 => set_desc (descA x) v (descD x) x
  | 19 => set_desc (descA x) (descB x) v x
  | 20 => push_desc v x
  | 22 => set_out (destStride x) (v .& 0x1f) (Z.testbit v 8) x
  | _ => x
  end.

(** A register read between batches. *)
Definition accel_read (word : Z) (x : accel) : Z :=
  match word with
  | 1 => (Z.b2z (qOverflow x) .<< 8) .| (Z.b2z (qDone x) .<< 7) .| (Z.b2z (qBusy x) .<< 6)
           .| (if enginesDone x then 0x2a else 0)
  | 9 => (bPanels .<< 16) .| (maxK .<< 8) .| dim
  | 21 => u8 (descDepth - Z.of_nat (length (descQ x)))
  | _ => 0
  end.

(** ** One descriptor *)

Definition ctl_kLen (ctl : Z) : Z := ctl .& 0xff.
Definition ctl_panelUse (ctl : Z) : Z := (ctl .>> 8) mod bPanels.
Definition ctl_panelLoad (ctl : Z) : Z := (ctl .>> 12) mod bPanels.
Definition ctl_bOnly (ctl : Z) : bool := Z.testbit ctl 16.

(** Lines fetched per lane. *)
Definition ldLines (kLen : Z) : Z :=
  let ceilLines := (kLen + 15) / 16 in
  if ceilLines =? 0 then 1 else Z.min ceilLines (maxK / 16).

(** A panel fetched from [src], lanes packed in whole lines. *)
Definition load_panel (s : memsys) (src kLen : Z) (old : Z -> Z -> Z) : Z -> Z -> Z :=
  fun lane k =>
    if k <? 16 * ldLines kLen then dma_read (src + lane * (16 * ldLines kLen) + k) s else old lane k.

Definition load_operands (d : descriptor) (s : memsys) (x : accel) : accel :=
  let kLen := ctl_kLen (d_ctl d) in
  let a := if ctl_bOnly (d_ctl d) then a_mem x else load_panel s (d_aSrc d) kLen (a_mem x) in
  let p := ctl_panelLoad (d_ctl d) in
  set_panels a (fupd (b_mem x) p (load_panel s (d_bSrc d) kLen (b_mem x p))) x.

(** Accumulator [(i, j)] after the run: 32-bit sums of signed byte products. *)
Definition accumulator (x : accel) (d : descriptor) (i j : Z) : Z :=
  for_upto (ctl_kLen (d_ctl d))
    (fun k acc => s32 (acc + s8 (a_mem x i (k mod maxK)) *
                             s8 (b_mem x (ctl_panelUse (d_ctl d)) j (k mod maxK)))) 0.

(** Round half up, shift, saturate. *)
Definition requant (shift acc : Z) : Z :=
  let half := if shift =? 0 then 0 else u32 (1 .<< (shift - 1)) in
  let shifted := (acc + half) .>> shift in
  if 127 <? shifted then 127 else if shifted <? -128 then -128 else shifted.

(** Byte [n] of a 32-bit word. *)
Definition byte_of (v n : Z) : Z := (v .>> (8 * n)) .& 0xff.

Definition row_pitch (x : accel) : Z := if destStride x =? 0 then 4 * dim else destStride x.

Definition store_tile (x : accel) (d : descriptor) (s : memsys) : memsys :=
  if int8Mode x then
    dma_write_range (d_dest d) (dim * dim)
      (fun a => let o := a - d_dest d in
                u8 (requant (outShift x) (accumulator x d (o / dim) (o mod dim)))) s
  else
    for_upto dim
      (fun i s => let base := d_dest d + i * row_pitch x in
         dma_write_range base (4 * dim)
           (fun a => byte_of (accumulator x d i ((a - base) / 4)) ((a - base) mod 4)) s) s.

Definition run_desc (d : descriptor) (xs : accel * memsys) : accel * memsys :=
  let '(x, s) := xs in
  let x := load_operands d s x in
  (x, store_tile x d s).

Definition run_descs (ds : list descriptor) (xs : accel * memsys) : accel * memsys :=
  fold_left (fun xs d => run_desc d xs) ds xs.

(** A kicked queue runs until it is empty. *)
Definition run_queue (xs : accel * memsys) : accel * memsys :=
  let '(x, s) := run_descs (descQ xs.1) xs in
  (set_flags false true (qOverflow x) (enginesDone x || negb (bool_decide (descQ xs.1 = [])))
     (set_queue [] (qOverflow x) x), s).
End Accel.

(** ** What a batch computes *)

Section Batch.
Context `{DcGeom} `{AccelGeom} `{!AccelGeomOk}.

(** Entry [(i, j)] of the product of a panel of rows and a panel of columns. *)
Definition matprod (kl : Z) (A B : Z -> Z -> Z) (i j : Z) : Z :=
  s32 (zsum kl (fun k => s8 (A i k) * s8 (B j k))).

Lemma matprod_ext (kl : Z) (A A' B B' : Z -> Z -> Z) (i j : Z) :
  (forall k, 0 <= k < kl -> A i k = A' i k) -> (forall k, 0 <= k < kl -> B j k = B' j k) ->
  matprod kl A B i j = matprod kl A' B' i j.
Proof. intros EA EB. unfold matprod. f_equal. apply zsum_ext. intros k Hk. by rewrite EA, EB. Qed.

(** The packed operand panel at [src] in memory [m]. *)
Definition src_panel (m : mem) (src kl : Z) : Z -> Z -> Z := fun lane k => m (src + lane * kl + k).

(** The bytes of a tile, in row-major order from its destination. *)
Definition tile_size (i8 : bool) : Z := if i8 then dim * dim else 4 * (dim * dim).
Definition tile_byte (i8 : bool) (shift : Z) (C : Z -> Z -> Z) (o : Z) : Z :=
  if i8 then u8 (requant shift (C (o / dim) (o mod dim)))
  else byte_of (C (o / 4 / dim) (o / 4 mod dim)) (o mod 4).

Lemma accumulator_spec (x : accel) (d : descriptor) (i j : Z) :
  0 <= ctl_kLen (d_ctl d) <= maxK ->
  accumulator x d i j =
    matprod (ctl_kLen (d_ctl d)) (a_mem x) (b_mem x (ctl_panelUse (d_ctl d))) i j.
Proof.
  intros Hk. unfold accumulator, matprod.
  rewrite <-(zsum_s32 _ _ (fun k => s8 (a_mem x i k) * s8 (b_mem x (ctl_panelUse (d_ctl d)) j k))) by (lia || done).
  apply for_upto_ext. intros k t Hk'. by rewrite !Z.mod_small by lia.
Qed.

(** A store behind the cache. *)
Definition dma_rel (addr size : Z) (f : Z -> Z) (s s' : memsys) : Prop :=
  dc_valid s' = dc_valid s /\ dc_tag s' = dc_tag s /\ dc_dirty s' = dc_dirty s /\ dc_data s' = dc_data s /\
  forall a, dram s' a = if (addr <=? a) && (a <? addr + size) then f (a - addr) else dram s a.

Lemma div_range (a n q : Z) : 0 < n -> 0 <= a < n * q -> 0 <= a / n < q.
Proof. intros Hn Ha. split; [apply Z.div_pos; lia|apply Z.div_lt_upper_bound; lia]. Qed.

Lemma store_tile_spec (x : accel) (d : descriptor) (s : memsys) :
  destStride x = 0 ->
  dma_rel (d_dest d) (tile_size (int8Mode x)) (tile_byte (int8Mode x) (outShift x) (accumulator x d)) s
    (store_tile x d s).
Proof.
  intros Hst. pose proof dim_range as Hd. unfold store_tile, tile_size, tile_byte, dma_rel.
  destruct (int8Mode x); [by split_and!|]. unfold row_pitch. rewrite Hst, Z.eqb_refl.
  set (row := fun i s => dma_write_range (d_dest d + i * (4 * dim)) (4 * dim) _ s).
  pose proof (for_upto_inv (fun i t =>
    dc_valid t = dc_valid s /\ dc_tag t = dc_tag s /\ dc_dirty t = dc_dirty s /\ dc_data t = dc_data s /\
    forall a, dram t a = if (d_dest d <=? a) && (a <? d_dest d + i * (4 * dim))
      then byte_of (accumulator x d ((a - d_dest d) / 4 / dim) ((a - d_dest d) / 4 mod dim)) ((a - d_dest d) mod 4)
      else dram s a) dim row s) as Hinv.
  destruct Hinv as (E1 & E2 & E3 & E4 & E5); [lia| | |].
  - split_and!; try done. intros a. zbool; cbn; (done || lia).
  - intros i t Hi (E1 & E2 & E3 & E4 & E5). split_and!; try done.
    intros a. unfold row, dma_write_range. cbn. rewrite E5.
    set (o := a - d_dest d). replace a with (d_dest d + o) by lia. replace (d_dest d + o - d_dest d) with o by lia.
    destruct (Z.leb_spec (d_dest d + i * (4 * dim)) (d_dest d + o));
      destruct (Z.ltb_spec (d_dest d + o) (d_dest d + i * (4 * dim) + 4 * dim));
      destruct (Z.leb_spec (d_dest d) (d_dest d + o)); destruct (Z.ltb_spec (d_dest d + o) (d_dest d + i * (4 * dim)));
      destruct (Z.ltb_spec (d_dest d + o) (d_dest d + (i + 1) * (4 * dim))); cbn; try done; try nia.
    replace (d_dest d + o - (d_dest d + i * (4 * dim))) with (o - i * dim * 4) by lia.
    assert (o / 4 = i * dim + (o - i * dim * 4) / 4) as Eo.
    { replace o with (o - i * dim * 4 + i * dim * 4) at 1 by lia. rewrite Z.div_add by lia. lia. }
    assert (0 <= (o - i * dim * 4) / 4 < dim) as Hc by (apply div_range; lia).
    f_equal.
    + rewrite Eo. f_equal; symmetry.
      * rewrite Z.add_comm, Z.div_add by lia. rewrite Z.div_small by lia. lia.
      * rewrite Z.add_comm, Z.mod_add by lia. by apply Z.mod_small.
    + replace (o - i * dim * 4) with (o + (- (i * dim)) * 4) by lia. by rewrite Z.mod_add by lia.
  - split_and!; try done. intros a. unfold row in E5. rewrite E5.
    replace (dim * (4 * dim)) with (4 * (dim * dim)) by lia. done.
Qed.

Lemma ldLines_whole (kl : Z) : (16 | kl) -> 0 < kl <= maxK -> 16 * ldLines kl = kl.
Proof.
  intros [q ->] Hk. unfold ldLines. pose proof maxK_lines as [p Hp]. rewrite Hp in *.
  replace (q * 16 + 15) with (15 + q * 16) by lia. rewrite Z.div_add, Z.div_mul by lia.
  change (15 / 16) with 0. destruct (Z.eqb_spec (0 + q) 0); lia.
Qed.

Lemma load_panel_spec (s : memsys) (src kl : Z) (old : Z -> Z -> Z) (lane k : Z) :
  (16 | kl) -> 0 < kl <= maxK -> 0 <= k < kl ->
  load_panel s src kl old lane k = src_panel (dram s) src kl lane k.
Proof.
  intros Hd Hk Hk'. unfold load_panel. rewrite ldLines_whole by done.
  by destruct (Z.ltb_spec k kl); [|lia].
Qed.

Definition in_range (a addr size : Z) : Prop := addr <= a < addr + size.

(** A batch of descriptors with one reduction depth [kl], each using the panel
    it loads, into distinct destinations apart from every operand. *)
Section Batch_run.
Variables (kl : Z) (i8 : bool).
Hypothesis kl_whole : (16 | kl).
Hypothesis kl_range : 0 < kl <= maxK.

Definition simple_desc (d : descriptor) : Prop :=
  ctl_kLen (d_ctl d) = kl /\ ctl_panelUse (d_ctl d) = ctl_panelLoad (d_ctl d).

(** The operand bytes a descriptor fetches. *)
Definition operand_of (d : descriptor) (a : Z) : Prop :=
  (ctl_bOnly (d_ctl d) = false /\ in_range a (d_aSrc d) (dim * kl)) \/ in_range a (d_bSrc d) (dim * kl).

Definition dest_of (d : descriptor) (a : Z) : Prop := in_range a (d_dest d) (tile_size i8).

(** Each tile with its operands in memory [m]: a B-only descriptor keeps the
    rows [A] of the one before it. *)
Fixpoint jobs (m : mem) (A : Z -> Z -> Z) (ds : list descriptor) : list (Z * (Z -> Z -> Z) * (Z -> Z -> Z)) :=
  match ds with
  | [] => []
  | d :: ds' =>
      let A := if ctl_bOnly (d_ctl d) then A else src_panel m (d_aSrc d) kl in
      (d_dest d, A, src_panel m (d_bSrc d) kl) :: jobs m A ds'
  end.

Definition separate (ds : list descriptor) : Prop :=
  ForallOrdPairs (fun d e => forall a, dest_of d a -> ~ dest_of e a) ds /\
  (forall d e a, d ∈ ds -> e ∈ ds -> dest_of d a -> ~ operand_of e a).

(** Registers that a batch does not touch. *)
Definition same_config (x x' : accel) : Prop :=
  destStride x' = destStride x /\ outShift x' = outShift x /\ int8Mode x' = int8Mode x /\
  descQ x' = descQ x /\ qOverflow x' = qOverflow x.

Lemma dim_nat (lane : Z) : 0 <= lane < dim -> forall k, 0 <= k < kl -> in_range (lane * kl + k) 0 (dim * kl).
Proof. intros Hl k Hk. unfold in_range. nia. Qed.

Lemma desc_operands (d : descriptor) (x : accel) (s : memsys) (m : mem) (A : Z -> Z -> Z) (lane k : Z) :
  simple_desc d -> (forall a, operand_of d a -> dram s a = m a) ->
  (ctl_bOnly (d_ctl d) = true -> forall l j, 0 <= l < dim -> 0 <= j < kl -> a_mem x l j = A l j) ->
  0 <= lane < dim -> 0 <= k < kl ->
  a_mem (load_operands d s x) lane k = (if ctl_bOnly (d_ctl d) then A else src_panel m (d_aSrc d) kl) lane k /\
  b_mem (load_operands d s x) (ctl_panelUse (d_ctl d)) lane k = src_panel m (d_bSrc d) kl lane k.
Proof.
  intros [Hkl Hp] Hm HA Hl Hk. unfold load_operands. cbn [a_mem b_mem set_panels]. rewrite Hkl, Hp, fupd_eq.
  pose proof (dim_nat lane Hl k Hk) as Hin. unfold in_range in Hin. split.
  - destruct (ctl_bOnly (d_ctl d)) eqn:Eb; [by apply HA|].
    rewrite load_panel_spec by done. unfold src_panel. apply Hm. left. split; [done|]. unfold in_range. lia.
  - rewrite load_panel_spec by done. unfold src_panel. apply Hm. right. unfold in_range. lia.
Qed.

Lemma tile_byte_ext (shift : Z) (C C' : Z -> Z -> Z) (o : Z) :
  (forall i j, 0 <= i < dim -> 0 <= j < dim -> C i j = C' i j) ->
  0 <= o < tile_size i8 -> tile_byte i8 shift C o = tile_byte i8 shift C' o.
Proof.
  intros E Ho. pose proof dim_range. unfold tile_byte, tile_size in *. destruct i8.
  - rewrite E; [done|apply div_range; lia|by apply Z.mod_pos_bound; lia].
  - assert (0 <= o / 4 < dim * dim) by (apply div_range; lia).
    rewrite E; [done|apply div_range; lia|by apply Z.mod_pos_bound; lia].
Qed.

Lemma run_descs_spec (ds : list descriptor) (x : accel) (s : memsys) (m : mem) (A : Z -> Z -> Z) :
  Forall simple_desc ds -> separate ds ->
  (forall d a, d ∈ ds -> operand_of d a -> dram s a = m a) ->
  (forall l k, 0 <= l < dim -> 0 <= k < kl -> a_mem x l k = A l k) ->
  destStride x = 0 -> int8Mode x = i8 ->
  let '(x', s') := run_descs ds (x, s) in
  same_config x x' /\
  dc_valid s' = dc_valid s /\ dc_tag s' = dc_tag s /\ dc_dirty s' = dc_dirty s /\ dc_data s' = dc_data s /\
  (forall dest P Q o, (dest, P, Q) ∈ jobs m A ds -> 0 <= o < tile_size i8 ->
     dram s' (dest + o) = tile_byte i8 (outShift x) (matprod kl P Q) o) /\
  (forall a, (forall d, d ∈ ds -> ~ dest_of d a) -> dram s' a = dram s a).
Proof.
  revert x s A. induction ds as [|d ds IH]; intros x s A Hsd [Hpair Hsep] Hm HA Hst Hi8.
  { cbn. split; [by split_and!|]. do 4 (split; [done|]). split; [|done]. by intros ???? ?%elem_of_nil. }
  apply Forall_cons in Hsd as [Hd Hsd]. inversion Hpair as [|? ? Hfirst Hpair']; subst.
  cbn [run_descs fold_left]. unfold run_descs in IH. cbn [run_desc].
  set (x1 := load_operands d s x). set (s1 := store_tile x1 d s).
  set (A1 := if ctl_bOnly (d_ctl d) then A else src_panel m (d_aSrc d) kl).
  assert (forall l k, 0 <= l < dim -> 0 <= k < kl -> a_mem x1 l k = A1 l k /\
    b_mem x1 (ctl_panelUse (d_ctl d)) l k = src_panel m (d_bSrc d) kl l k) as Hop.
  { intros l k Hl Hk. apply desc_operands; [done| | |done|done].
    - intros a Ha. apply (Hm d); [left|done].
    - intros _ l' j Hl' Hj. by apply HA. }
  destruct (store_tile_spec x1 d s Hst) as (V1 & V2 & V3 & V4 & V5). fold s1 in V1, V2, V3, V4, V5.
  change (int8Mode x1) with (int8Mode x) in *. change (outShift x1) with (outShift x) in *. rewrite Hi8 in V5.
  assert (forall a, ~ dest_of d a -> dram s1 a = dram s a) as Hout.
  { intros a Ha. rewrite V5. unfold dest_of, in_range in Ha. zbool; cbn; (done || lia). }
  specialize (IH x1 s1 A1). destruct (fold_left _ ds (x1, s1)) as [x' s'] eqn:E.
  destruct IH as (Hc & W1 & W2 & W3 & W4 & Hres & Hrest); try done.
  { split; [done|]. intros d' e a Hd' He. apply Hsep; by right. }
  { intros e a He Ha. rewrite Hout; [apply (Hm e); [by right|done]|].
    intros Hde. eapply Hsep; [left|right; exact He|done|done]. }
  { intros l k Hl Hk. by apply Hop. }
  split; [exact Hc|]. do 4 (split; [congruence|]). split.
  - intros dest P Q o. cbn [jobs]. fold A1. intros [[= -> -> ->]|Hin]%elem_of_cons Ho; [|by apply (Hres dest P Q)].
    rewrite Hrest.
    + rewrite V5. destruct (Z.leb_spec (d_dest d) (d_dest d + o)); [|lia].
      destruct (Z.ltb_spec (d_dest d + o) (d_dest d + tile_size i8)); [|lia]. cbn.
      replace (d_dest d + o - d_dest d) with o by lia. apply tile_byte_ext; [|done].
      intros i j Hi Hj. destruct Hd as [Hkl Hp]. rewrite accumulator_spec by (rewrite Hkl; lia). rewrite Hkl.
      apply matprod_ext; intros k Hk; by apply Hop.
    + intros e He Hde. rewrite Forall_forall in Hfirst. apply (Hfirst e He (d_dest d + o)); [|done].
      unfold dest_of, in_range. lia.
  - intros a Ha. rewrite Hrest, Hout; [done|apply Ha; left|]. intros e He. apply Ha. by right.
Qed.
End Batch_run.
End Batch.
