(* ===== verification/Gemm.v ===== *)
(** * The GEMM accelerator driver, [src/zephyr/drivers/misc/gemm_rv32_5stage.c]

    The driver's state next to the data cache and the accelerator, every entry
    point of [gemm.h], and the coherence of a batch: what the CPU reads at the
    destinations is the product of what it had written at the operands.  One
    thread's calls are modelled; semaphore and mutex are the kernel's
    ([KernelSync]), and when the batch's completion interrupt arrives is a
    parameter. *)

From S2P Require Import Prelude Zephyr Dcache CacheDriver MmAccel.

(** ** Data *)

Definition REG_CTRL : Z := 0x00.
Definition REG_STATUS : Z := 0x04.
Definition REG_INFO : Z := 0x24.
Definition REG_DEST_STRIDE : Z := 0x2C.
Definition REG_DESC_A_SRC : Z := 0x44.
Definition REG_DESC_B_SRC : Z := 0x48.
Definition REG_DESC_DEST : Z := 0x4C.
Definition REG_DESC_PUSH : Z := 0x50.
Definition REG_QUEUE_FREE : Z := 0x54.
Definition REG_OUT_CTRL : Z := 0x58.

Section Bits.
Context `{SysUtil}.
Definition CTRL_SOFT_RST : Z := BIT 1.
Definition CTRL_START_QUEUE : Z := BIT 5.
Definition ST_QUEUE_DONE : Z := BIT 7.
Definition OUT_INT8 : Z := BIT 8.
Definition DESC_BONLY : Z := BIT 16.
End Bits.

(** The device's address window. *)
Record gemm_config : Type := mk_config { base : Z }.

Record gemm_info : Type := mk_info { info_dim : Z; info_max_k : Z; info_panels : Z }.

Record gemm_tile : Type := mk_tile {
  a_src : Z; b_src : Z; dest : Z;
  k_len : Z;
  panel_use : Z; panel_load : Z;
  b_only : bool; src_coherent : bool;
}.

Record gemm_stats : Type := mk_stats {
  batches : Z; wait_cycles : Z; flush_cycles : Z; submit_cycles : Z;
  already_done : Z; isr_cycles : Z; resume_cycles : Z; isr_seen : Z;
}.
Definition no_stats : gemm_stats := mk_stats 0 0 0 0 0 0 0 0.

(** When the kicked batch completes: before the thread gets to wait, while it
    waits (after so many status reads in polling mode), or not before the
    timeout, with so many tiles done by then. *)
Inductive completion : Type := Early | Waiting (polls : nat) | Never (tiles : nat).

Section State.
Context `{KernelSync}.

Record gemm_data : Type := mk_data {
  done : k_sem;
  lock : k_mutex;
  info : gemm_info;
  stats : gemm_stats;
  poll_mode : bool;
  t_isr : Z;
  isr_fired : bool;
}.

(** Cache and memory, accelerator, driver data, and how often the cycle counter
    has been read. *)
Record gsys : Type := mk_gsys { ms : memsys; acc : accel; gd : gemm_data; ticks : nat }.

Definition on_ms {A : Type} (m : M memsys A) : M gsys A :=
  fun w => '(a, s) ← m (ms w); Some (a, mk_gsys s (acc w) (gd w) (ticks w)).
Definition with_gd (f : gemm_data -> gemm_data) : M gsys () :=
  modify_world (fun w => mk_gsys (ms w) (acc w) (f (gd w)) (ticks w)).
Definition diverge {A : Type} : M gsys A := fun _ => None.
Definition get_data : M gsys gemm_data := fun w => Some (gd w, w).

Definition set_done (n : k_sem) (d : gemm_data) : gemm_data :=
  mk_data n (lock d) (info d) (stats d) (poll_mode d) (t_isr d) (isr_fired d).
Definition set_lock (b : k_mutex) (d : gemm_data) : gemm_data :=
  mk_data (done d) b (info d) (stats d) (poll_mode d) (t_isr d) (isr_fired d).
Definition set_info (i : gemm_info) (d : gemm_data) : gemm_data :=
  mk_data (done d) (lock d) i (stats d) (poll_mode d) (t_isr d) (isr_fired d).
Definition set_stats (f : gemm_stats -> gemm_stats) (d : gemm_data) : gemm_data :=
  mk_data (done d) (lock d) (info d) (f (stats d)) (poll_mode d) (t_isr d) (isr_fired d).
Definition set_poll (b : bool) (d : gemm_data) : gemm_data :=
  mk_data (done d) (lock d) (info d) (stats d) b (t_isr d) (isr_fired d).
Definition set_isr (t : Z) (b : bool) (d : gemm_data) : gemm_data :=
  mk_data (done d) (lock d) (info d) (stats d) (poll_mode d) t b.

End State.

(** The counters' updates, as [+=] on [uint32_t] fields. *)
Definition add_submit (sub flush : Z) (s : gemm_stats) : gemm_stats :=
  mk_stats (batches s) (wait_cycles s) (u32 (flush_cycles s + flush)) (u32 (submit_cycles s + sub))
    (already_done s) (isr_cycles s) (resume_cycles s) (isr_seen s).
Definition inc_already (s : gemm_stats) : gemm_stats :=
  mk_stats (batches s) (wait_cycles s) (flush_cycles s) (submit_cycles s)
    (u32 (already_done s + 1)) (isr_cycles s) (resume_cycles s) (isr_seen s).
Definition add_wait (n : Z) (s : gemm_stats) : gemm_stats :=
  mk_stats (batches s) (u32 (wait_cycles s + n)) (flush_cycles s) (submit_cycles s)
    (already_done s) (isr_cycles s) (resume_cycles s) (isr_seen s).
Definition inc_batches (s : gemm_stats) : gemm_stats :=
  mk_stats (u32 (batches s + 1)) (wait_cycles s) (flush_cycles s) (submit_cycles s)
    (already_done s) (isr_cycles s) (resume_cycles s) (isr_seen s).
Definition add_isr (i r : Z) (s : gemm_stats) : gemm_stats :=
  mk_stats (batches s) (wait_cycles s) (flush_cycles s) (submit_cycles s)
    (already_done s) (u32 (isr_cycles s + i)) (u32 (resume_cycles s + r)) (u32 (isr_seen s + 1)).

(** ** The kernel and the device as the driver sees them *)

Section Driver.
Context `{DcGeom} `{AccelGeom} `{CacheMaint} `{SysUtil} `{KernelSync}.

(** [AWADDR]/[ARADDR] bits 7..2 select the register. *)
#[local] Instance accel_mmio : Mmio gsys := {
  sys_read32 addr := fun w => Some (accel_read ((addr .>> 2) .& 0x3f) (acc w), w);
  sys_write32 v addr :=
    modify_world (fun w => mk_gsys (ms w) (accel_write ((addr .>> 2) .& 0x3f) v (acc w)) (gd w) (ticks w));
}.

Variable cfg : gemm_config.
(** The cycle counter's readings. *)
Variable clock_at : nat -> Z.
Variable timing : completion.

Definition rd (off : Z) : M gsys Z := sys_read32 (base cfg + off).
Definition wr (off v : Z) : M gsys () := sys_write32 v (base cfg + off).

Definition k_cycle_get_32 : M gsys Z :=
  fun w => Some (u32 (clock_at (ticks w)), mk_gsys (ms w) (acc w) (gd w) (S (ticks w))).

(** The calls on [data->done] and [data->lock]; one thread alone would wait for
    ever for a held mutex. *)
Definition k_sem_give : M gsys () := with_gd (fun d => set_done (sem_give (done d)) d).
Definition k_sem_reset : M gsys () := with_gd (fun d => set_done (sem_reset (done d)) d).
Definition k_sem_count_get : M gsys Z := d ← get_data; mret (sem_count (done d)).
Definition k_sem_take_nowait : M gsys bool :=
  d ← get_data;
  match sem_take (done d) with
  | Some s => _ ← with_gd (set_done s); mret true
  | None => mret false
  end.
Definition k_mutex_lock : M gsys () :=
  d ← get_data;
  match mutex_lock (lock d) with Some m => with_gd (set_lock m) | None => diverge end.
Definition k_mutex_unlock : M gsys () := with_gd (fun d => set_lock (mutex_unlock (lock d)) d).

Definition gemm_isr : M gsys () :=
  t ← k_cycle_get_32;
  _ ← with_gd (set_isr t true);
  k_sem_give.

(** The batch completes: the queue has run and the interrupt is taken. *)
Definition hw_complete : M gsys () :=
  _ ← modify_world (fun w => let '(x, s) := run_queue (acc w, ms w) in mk_gsys s x (gd w) (ticks w));
  gemm_isr.

(** What the hardware has done by the timeout of an unfinished batch. *)
Definition hw_partial (n : nat) : M gsys () :=
  modify_world (fun w => let '(x, s) := run_descs (take n (descQ (acc w))) (acc w, ms w) in
                         mk_gsys s x (gd w) (ticks w)).

Definition early_completion : M gsys () := match timing with Early => hw_complete | _ => mret () end.

(** [k_sem_take(&data->done, timeout)]: at once, or after the interrupt, or
    [-EAGAIN] at the timeout. *)
Definition k_sem_take : M gsys Z :=
  now ← k_sem_take_nowait;
  if now : bool then mret 0
  else match timing with
       | Never tiles => _ ← hw_partial tiles; mret (-11)
       | _ =>
           _ ← hw_complete;
           woken ← k_sem_take_nowait;
           if woken : bool then mret 0 else diverge
       end.

(** [while (!(rd(cfg, REG_STATUS) & ST_QUEUE_DONE)) {}]: diverges when the batch
    never completes. *)
Fixpoint poll_loop (polls : nat) : M gsys () :=
  st ← rd REG_STATUS;
  if truthy (st .& ST_QUEUE_DONE) then mret ()
  else match polls with
       | O =>
           match timing with
           | Never _ => diverge
           | _ => _ ← hw_complete;
                  st ← rd REG_STATUS;
                  if truthy (st .& ST_QUEUE_DONE) then mret () else diverge
           end
       | S n => poll_loop n
       end.
Definition poll_wait : M gsys () := poll_loop (match timing with Waiting n => n | _ => 0%nat end).

(** ** The driver *)

Definition gemm_get_info : M gsys gemm_info := d ← get_data; mret (info d).
Definition gemm_get_stats : M gsys gemm_stats := d ← get_data; mret (stats d).
Definition gemm_reset_stats : M gsys () := with_gd (set_stats (fun _ => no_stats)).
Definition gemm_set_poll_mode (poll : bool) : M gsys () :=
  _ ← k_mutex_lock;
  _ ← with_gd (set_poll poll);
  k_mutex_unlock.

Definition flush_if (cond : bool) (p bytes : Z) : M gsys () :=
  if cond && truthy p then (_ ← on_ms (sys_cache_data_flush_range p bytes); mret ()) else mret ().

Fixpoint flush_tiles (dim8 : Z) (ts : list gemm_tile) : M gsys () :=
  match ts with
  | [] => mret ()
  | t :: ts' =>
      let bytes := u32 (dim8 * k_len t) in
      _ ← flush_if true (a_src t) bytes;
      _ ← flush_if true (b_src t) bytes;
      flush_tiles dim8 ts'
  end.

(** [tiles] is [None] for NULL. *)
Definition gemm_flush_operands (tiles : option (list gemm_tile)) : M gsys rc :=
  match tiles with
  | None | Some [] => mret (RC_ERR EINVAL)
  | Some ts =>
      d ← get_data;
      _ ← flush_tiles (info_dim (info d)) ts;
      mret RC_OK
  end.

(** The word written to DESC_PUSH. *)
Definition desc_word (t : gemm_tile) : Z :=
  (if b_only t then DESC_BONLY else 0) .|
  ((panel_load t .& 0xF) .<< 12) .| ((panel_use t .& 0xF) .<< 8) .| (k_len t .& 0xFF).

Definition submit_tile (dim8 : Z) (t : gemm_tile) (flush_in_submit : Z) : M gsys Z :=
  let operand_bytes := u32 (dim8 * k_len t) in
  t_flush ← k_cycle_get_32;
  _ ← flush_if (negb (src_coherent t) && negb (b_only t)) (a_src t) operand_bytes;
  _ ← flush_if true (b_src t) operand_bytes;
  now ← k_cycle_get_32;
  let flush_in_submit := u32 (flush_in_submit + u32 (now - t_flush)) in
  _ ← wr REG_DESC_A_SRC (a_src t);
  _ ← wr REG_DESC_B_SRC (b_src t);
  _ ← wr REG_DESC_DEST (dest t);
  _ ← wr REG_DESC_PUSH (desc_word t);
  mret flush_in_submit.

Fixpoint submit_tiles (dim8 : Z) (ts : list gemm_tile) (flush_in_submit : Z) : M gsys Z :=
  match ts with
  | [] => mret flush_in_submit
  | t :: ts' => f ← submit_tile dim8 t flush_in_submit; submit_tiles dim8 ts' f
  end.

Fixpoint invd_tiles (tile_bytes : Z) (ts : list gemm_tile) : M gsys () :=
  match ts with
  | [] => mret ()
  | t :: ts' =>
      _ ← (if truthy (dest t) then (_ ← on_ms (sys_cache_data_invd_range (dest t) tile_bytes); mret ())
           else mret ());
      invd_tiles tile_bytes ts'
  end.

(** After the kick: wait in either mode; the result is whether the batch
    completed, [t_mark] is the start of the wait. *)
Definition wait_batch (t_mark : Z) : M gsys bool :=
  d ← get_data;
  if poll_mode d then (_ ← poll_wait; mret true)
  else
    r ← k_sem_take;
    if r =? 0 then mret true
    else
      now ← k_cycle_get_32;
      _ ← with_gd (set_stats (add_wait (u32 (now - t_mark))));
      _ ← wr REG_CTRL CTRL_SOFT_RST;
      mret false.

(** The accounting of a completed batch and the destination pass. *)
Definition finish_batch (t_kick t_mark tile_bytes : Z) (ts : list gemm_tile) : M gsys () :=
  t_resume ← k_cycle_get_32;
  _ ← with_gd (set_stats (add_wait (u32 (t_resume - t_mark))));
  _ ← with_gd (set_stats inc_batches);
  d ← get_data;
  _ ← (if isr_fired d
       then with_gd (set_stats (add_isr (u32 (t_isr d - t_kick)) (u32 (t_resume - t_isr d))))
       else mret ());
  t_mark ← k_cycle_get_32;
  _ ← invd_tiles tile_bytes ts;
  now ← k_cycle_get_32;
  with_gd (set_stats (add_submit 0 (u32 (now - t_mark)))).

(** The semaphore reset, the kick, and the count of completions that beat the
    wait. *)
Definition kick_batch : M gsys (Z * Z) :=
  _ ← k_sem_reset;
  _ ← with_gd (fun d => set_isr (t_isr d) false d);
  _ ← wr REG_CTRL CTRL_START_QUEUE;
  t_kick ← k_cycle_get_32;
  _ ← early_completion;
  n ← k_sem_count_get;
  _ ← (if 0 <? n then with_gd (set_stats inc_already) else mret ());
  t_mark ← k_cycle_get_32;
  mret (t_kick, t_mark).

(** The part under the lock. *)
Definition locked_batch (ts : list gemm_tile) (dest_stride : Z) (out_int8 : bool) (out_shift : Z) : M gsys rc :=
  d ← get_data;
  let dim8 := info_dim (info d) in
  let tile_bytes := if out_int8 then u32 (dim8 * dim8) else u32 (u32 (dim8 * dim8) * 4) in
  t_mark ← k_cycle_get_32;
  _ ← wr REG_DEST_STRIDE dest_stride;
  _ ← wr REG_OUT_CTRL (if out_int8 then OUT_INT8 .| (out_shift .& 0x1F) else 0);
  flush_in_submit ← submit_tiles dim8 ts 0;
  now ← k_cycle_get_32;
  _ ← with_gd (set_stats (add_submit (u32 (u32 (now - t_mark) - flush_in_submit)) flush_in_submit));
  '(t_kick, t_mark) ← kick_batch;
  ok ← wait_batch t_mark;
  if ok : bool then (_ ← finish_batch t_kick t_mark tile_bytes ts; mret RC_OK)
  else mret (RC_ERR ETIMEDOUT).

Definition gemm_run_batch (tiles : option (list gemm_tile)) (dest_stride : Z) (out_int8 : bool)
    (out_shift : Z) : M gsys rc :=
  match tiles with
  | None | Some [] => mret (RC_ERR EINVAL)
  | Some ts =>
      free ← rd REG_QUEUE_FREE;
      if free <? Z.of_nat (length ts) then mret (RC_ERR EBUSY)
      else if out_int8 && truthy dest_stride then mret (RC_ERR EINVAL)
      else
        _ ← k_mutex_lock;
        r ← locked_batch ts dest_stride out_int8 out_shift;
        _ ← k_mutex_unlock;
        mret r
  end.

(** [irq_config_func] and [irq_enable_next_level] are the kernel's. *)
Definition gemm_init (irq_setup : M gsys ()) : M gsys rc :=
  _ ← with_gd (set_done (sem_init 0 1));
  _ ← with_gd (set_lock mutex_init);
  v ← rd REG_INFO;
  _ ← with_gd (set_info (mk_info (v .& 0xFF) ((v .>> 8) .& 0xFF) ((v .>> 16) .& 0xFF)));
  _ ← irq_setup;
  mret RC_OK.
End Driver.


(** ** Descriptors *)

Section Proofs.
Context {geom : DcGeom} {geom_ok : DcGeomOk} {ag : AccelGeom} {ag_ok : AccelGeomOk}.
Context {cm : CacheMaint} {cm_ok : CacheMaintOk} {util : SysUtil} {util_ok : SysUtilSpec}.
Context {sync : KernelSync} {sync_ok : KernelSyncSpec}.

Definition desc_of (t : gemm_tile) : descriptor := mk_desc (a_src t) (b_src t) (dest t) (desc_word t).

(** Field widths of [struct gemm_tile]. *)
Definition tile_fields (t : gemm_tile) : Prop :=
  is_uint 8 (k_len t) /\ is_uint 8 (panel_use t) /\ is_uint 8 (panel_load t).

Lemma land_ones_mod (x n : Z) : 0 <= n -> x .& Z.ones n = x mod 2 ^ n.
Proof. apply Z.land_ones. Qed.

Lemma desc_word_sum (t : gemm_tile) :
  desc_word t = ((Z.b2z (b_only t) * 16 + panel_load t mod 16) * 16 + panel_use t mod 16) * 256 + k_len t mod 256.
Proof.
  unfold desc_word, DESC_BONLY. rewrite BIT_pow2 by lia.
  change 0xFF with (Z.ones 8). change 0xF with (Z.ones 4). rewrite !land_ones_mod by lia.
  change (2 ^ 4) with 16. change (2 ^ 8) with 256.
  pose proof (Z.mod_pos_bound (panel_load t) 16). pose proof (Z.mod_pos_bound (panel_use t) 16).
  pose proof (Z.mod_pos_bound (k_len t) 256).
  set (l := panel_load t mod 16) in *. set (u := panel_use t mod 16) in *. set (k := k_len t mod 256) in *.
  replace (if b_only t then 2 ^ 16 else 0) with (Z.b2z (b_only t) .<< 4 .<< 4 .<< 8) by by destruct (b_only t).
  replace (l .<< 12) with (l .<< 4 .<< 8) by by rewrite Z.shiftl_shiftl.
  rewrite <-!Z.shiftl_lor. rewrite !shiftl_lor_add by (unfold is_uint; lia). lia.
Qed.

Lemma desc_word_fields (t : gemm_tile) :
  tile_fields t ->
  ctl_kLen (desc_word t) = k_len t /\ ctl_panelUse (desc_word t) = panel_use t mod bPanels /\
  ctl_panelLoad (desc_word t) = panel_load t mod bPanels /\ ctl_bOnly (desc_word t) = b_only t.
Proof.
  intros (Hk & Hu & Hl). unfold is_uint in *. change (2 ^ 8) with 256 in *.
  pose proof bPanels_range. pose proof bPanels_pow2 as [q Hq].
  unfold ctl_kLen, ctl_panelUse, ctl_panelLoad, ctl_bOnly. rewrite desc_word_sum.
  set (b := Z.b2z (b_only t)). assert (0 <= b <= 1) by (unfold b; destruct (b_only t); cbn; lia).
  rewrite !Z.shiftr_div_pow2 by lia. change (2 ^ 8) with 256. change (2 ^ 12) with 4096.
  assert (forall x n, 0 <= x -> (n * 16 + x mod 16) mod bPanels = x mod bPanels) as Hmod.
  { intros x n Hx. rewrite Hq. replace (n * (q * bPanels)) with (n * q * bPanels) by lia.
    rewrite Z.add_comm, Z.mod_add by lia. rewrite <-Hq. apply Z.mod_mod_divide. by exists q. }
  split; [|split; [|split]].
  - change 0xff with (Z.ones 8). rewrite land_ones_mod by lia. change (2 ^ 8) with 256. divlia.
  - rewrite <-(Hmod (panel_use t) (b * 16 + panel_load t mod 16)) by lia. f_equal. divlia.
  - rewrite <-(Hmod (panel_load t) b) by lia. f_equal. divlia.
  - rewrite Z.testbit_odd, Z.shiftr_div_pow2 by lia. change (2 ^ 16) with 65536.
    replace (_ / 65536) with b by divlia. unfold b. by destruct (b_only t).
Qed.

(** ** Register accesses *)

Variable cfg : gemm_config.
Variable clock_at : nat -> Z.
Variable timing : completion.
(** The register window is a naturally aligned 256 bytes. *)
Hypothesis base_aligned : (256 | base cfg).

Lemma reg_word (off : Z) : 0 <= off < 256 -> ((base cfg + off) .>> 2) .& 0x3f = off / 4.
Proof.
  intros Ho. change 0x3f with (Z.ones 6). rewrite land_ones_mod, Z.shiftr_div_pow2 by lia.
  change (2 ^ 2) with 4. change (2 ^ 6) with 64. destruct base_aligned as [q Hq]. divlia.
Qed.

Lemma reg_wr_run (off v : Z) (w : gsys) :
  0 <= off < 256 ->
  wr cfg off v w = Some ((), mk_gsys (ms w) (accel_write (off / 4) v (acc w)) (gd w) (ticks w)).
Proof. intros Ho. unfold wr. cbn. unfold modify_world. by rewrite reg_word. Qed.

Lemma reg_rd_run (off : Z) (w : gsys) : 0 <= off < 256 -> rd cfg off w = Some (accel_read (off / 4) (acc w), w).
Proof. intros Ho. unfold rd. cbn. by rewrite reg_word. Qed.

Lemma status_done (x : accel) : truthy (accel_read 1 x .& ST_QUEUE_DONE) = qDone x.
Proof.
  unfold accel_read, ST_QUEUE_DONE. rewrite BIT_pow2 by lia.
  by destruct (qOverflow x), (qDone x), (qBusy x), (enginesDone x).
Qed.

(** What a driver call does to its own data besides the lock: statistics, the
    semaphore and the interrupt's time stamp. *)
Definition same_setup (d d' : gemm_data) : Prop :=
  lock d' = lock d /\ info d' = info d /\ poll_mode d' = poll_mode d /\
  sem_limit (done d') = sem_limit (done d).

Lemma same_setup_refl (d : gemm_data) : same_setup d d.
Proof. by split. Qed.
Lemma same_setup_trans (d1 d2 d3 : gemm_data) : same_setup d1 d2 -> same_setup d2 d3 -> same_setup d1 d3.
Proof. unfold same_setup. intuition congruence. Qed.

(** ** Operand flushes *)

(** A buffer that cache maintenance covers. *)
Definition buffer_ok (p size : Z) : Prop :=
  0 < p /\ 0 <= size /\ p + size + LINE_BYTES <= 2 ^ 32 /\
  forall b, range_line p size b -> ~ maint_private b.

Lemma buffer_ok_scratch (p size b : Z) : buffer_ok p size -> in_range b p size -> ~ same_line maint_scratch b /\ b <> maint_scratch.
Proof.
  intros (_ & _ & _ & Hp) Hb. assert (~ same_line maint_scratch b) as Hl.
  { intros Hl. eapply Hp; [by apply range_line_in|]. by apply scratch_private. }
  split; [done|]. intros ->. by apply Hl.
Qed.

Lemma nonresident_clean (s : memsys) (b : Z) : hit s b = false -> dirty_at s b = false.
Proof. unfold dirty_at. by intros ->. Qed.

Lemma clean_dram (s : memsys) (b : Z) : dirty_at s b = false -> dram s b = wbval s b.
Proof. unfold dirty_at, wbval. by intros ->. Qed.

Lemma flush_if_run (cond : bool) (p n : Z) (s : memsys) :
  (cond && truthy p = true -> buffer_ok p n) ->
  exists s', (forall x g k, flush_if cond p n (mk_gsys s x g k) = Some ((), mk_gsys s' x g k)) /\
    frame maint_scratch s s' /\
    (cond && truthy p = true -> forall b, in_range b p n -> dirty_at s' b = false).
Proof.
  unfold flush_if. intros Hb. destruct (cond && truthy p) eqn:E.
  - destruct (Hb eq_refl) as (Hp & Hn & Hov & Hpriv).
    destruct (flush_range_ok p n s) as (s' & R & F & O); [lia|done..|].
    exists s'. split; [|split; [done|]].
    + intros x g k. unfold on_ms, mbind, M_bind. cbn. by rewrite R.
    + intros _ b Hin. apply nonresident_clean, O, range_line_in, Hin.
  - exists s. split; [done|]. split; [apply frame_refl|done].
Qed.

(** The bytes that two flushes of a tile's operands cover. *)
Definition covers (n : Z) (ca : bool) (t : gemm_tile) (a : Z) : Prop :=
  (ca && truthy (a_src t) = true /\ in_range a (a_src t) n) \/
  (truthy (b_src t) = true /\ in_range a (b_src t) n).

Lemma flush_both_run (n : Z) (ca : bool) (t : gemm_tile) (s : memsys) :
  (ca && truthy (a_src t) = true -> buffer_ok (a_src t) n) -> (truthy (b_src t) = true -> buffer_ok (b_src t) n) ->
  exists s1 s2, (forall x g k, flush_if ca (a_src t) n (mk_gsys s x g k) = Some ((), mk_gsys s1 x g k)) /\
    (forall x g k, flush_if true (b_src t) n (mk_gsys s1 x g k) = Some ((), mk_gsys s2 x g k)) /\
    frame maint_scratch s s2 /\ (forall a, covers n ca t a -> dirty_at s2 a = false).
Proof.
  intros Ha Hb. destruct (flush_if_run ca (a_src t) n s Ha) as (s1 & R1 & F1 & D1).
  destruct (flush_if_run true (b_src t) n s1 Hb) as (s2 & R2 & F2 & D2).
  exists s1, s2. split; [done|]. split; [done|]. split; [by eapply frame_trans|].
  intros a [[Hc Hin]|[Hc Hin]]; [|by apply D2].
  apply F2; [|by apply D1]. by apply (buffer_ok_scratch (a_src t) n); [apply Ha|].
Qed.

(** ** Submission *)

(** The operands that a batch of depth [kl] flushes for a tile. *)
Definition flushes_a (t : gemm_tile) : bool := negb (src_coherent t) && negb (b_only t).

Definition tile_buffers (kl : Z) (t : gemm_tile) : Prop :=
  k_len t = kl /\
  (flushes_a t && truthy (a_src t) = true -> buffer_ok (a_src t) (dim * kl)) /\
  (truthy (b_src t) = true -> buffer_ok (b_src t) (dim * kl)).

Lemma operand_size (kl : Z) : 0 <= kl <= 255 -> u32 (dim * kl) = dim * kl.
Proof. intros Hk. pose proof dim_range. apply uwrap_id. unfold is_uint. nia. Qed.

(** The accelerator with [ds] pushed onto its queue. *)
Definition pushed (ds : list descriptor) (x x' : accel) : Prop :=
  exists a b d, x' = set_desc a b d (set_queue (descQ x ++ ds) (qOverflow x) x).

Lemma submit_tile_run (kl f : Z) (t : gemm_tile) (w : gsys) :
  0 <= kl <= 255 -> tile_buffers kl t -> Z.of_nat (length (descQ (acc w))) < descDepth ->
  exists f' w', submit_tile cfg clock_at dim t f w = Some (f', w') /\
    frame maint_scratch (ms w) (ms w') /\ gd w' = gd w /\ pushed [desc_of t] (acc w) (acc w') /\
    (forall a, covers (dim * kl) (flushes_a t) t a -> dirty_at (ms w') a = false).
Proof.
  intros Hk (<- & Ha & Hb) Hq. unfold submit_tile. rewrite operand_size by done. destruct w as [s x g k].
  destruct (flush_both_run (dim * k_len t) (flushes_a t) t s Ha Hb) as (s1 & s2 & R1 & R2 & F & D).
  eexists _, _. split; [|split; [|split; [|split]]].
  - erewrite M_bind_Some by reflexivity. rewrite (M_bind_Some _ _ _ _ _ (R1 _ _ _)).
    rewrite (M_bind_Some _ _ _ _ _ (R2 _ _ _)). erewrite M_bind_Some by reflexivity.
    do 4 (erewrite M_bind_Some by (apply reg_wr_run; unfold REG_DESC_A_SRC, REG_DESC_B_SRC, REG_DESC_DEST, REG_DESC_PUSH; lia)).
    reflexivity.
  - exact F.
  - done.
  - change (REG_DESC_A_SRC / 4) with 17. change (REG_DESC_B_SRC / 4) with 18.
    change (REG_DESC_DEST / 4) with 19. change (REG_DESC_PUSH / 4) with 20.
    exists (a_src t), (b_src t), (dest t). cbn -[desc_word]. unfold push_desc. cbn -[desc_word].
    destruct (Z.ltb_spec (Z.of_nat (length (descQ x))) descDepth); [done|cbn in Hq; lia].
  - exact D.
Qed.

Lemma pushed_nil (x : accel) : pushed [] x x.
Proof. exists (descA x), (descB x), (descD x). rewrite app_nil_r. by destruct x. Qed.

Lemma pushed_trans (ds1 ds2 : list descriptor) (x1 x2 x3 : accel) :
  pushed ds1 x1 x2 -> pushed ds2 x2 x3 -> pushed (ds1 ++ ds2) x1 x3.
Proof. intros (a & b & d & ->) (a' & b' & d' & ->). exists a', b', d'. cbn. by rewrite app_assoc. Qed.

Lemma covers_kept (n : Z) (ca : bool) (t : gemm_tile) (s s' : memsys) (a : Z) :
  (ca && truthy (a_src t) = true -> buffer_ok (a_src t) n) -> (truthy (b_src t) = true -> buffer_ok (b_src t) n) ->
  frame maint_scratch s s' -> covers n ca t a -> dirty_at s a = false -> dirty_at s' a = false.
Proof.
  intros Ha Hb F Hc. apply F.
  destruct Hc as [[Hc Hin]|[Hc Hin]];
    [by apply (buffer_ok_scratch (a_src t) n); [apply Ha|]|by apply (buffer_ok_scratch (b_src t) n); [apply Hb|]].
Qed.

Lemma submit_tiles_run (kl f : Z) (ts : list gemm_tile) (w : gsys) :
  0 <= kl <= 255 -> Forall (tile_buffers kl) ts ->
  Z.of_nat (length (descQ (acc w))) + Z.of_nat (length ts) <= descDepth ->
  exists f' w', submit_tiles cfg clock_at dim ts f w = Some (f', w') /\
    frame maint_scratch (ms w) (ms w') /\ gd w' = gd w /\
    pushed (desc_of <$> ts) (acc w) (acc w') /\
    (forall t a, t ∈ ts -> covers (dim * kl) (flushes_a t) t a -> dirty_at (ms w') a = false).
Proof.
  intros Hk. revert f w. induction ts as [|t ts IH]; intros f w Hts Hq.
  { exists f, w. split; [done|]. split; [apply frame_refl|]. split; [done|]. split; [apply pushed_nil|]. by intros ?? ?%elem_of_nil. }
  apply Forall_cons in Hts as [Ht Hts]. cbn [length] in Hq.
  destruct (submit_tile_run kl f t w) as (f1 & w1 & R1 & F1 & G1 & P1 & D1); [done..|lia|].
  destruct (IH f1 w1) as (f2 & w2 & R2 & F2 & G2 & P2 & D2); [done| |].
  { destruct P1 as (a & b & d & ->). cbn. rewrite length_app. cbn. lia. }
  exists f2, w2. cbn [submit_tiles]. rewrite (M_bind_Some _ _ _ _ _ R1). split; [done|].
  split; [by eapply frame_trans|]. split; [congruence|]. split.
  - change (desc_of <$> t :: ts) with ([desc_of t] ++ (desc_of <$> ts)). by eapply pushed_trans.
  - intros t' a [->|Hin]%elem_of_cons Hc; [|by apply (D2 t')].
    destruct Ht as (_ & Ha & Hb). eapply covers_kept; [exact Ha|exact Hb|exact F2|exact Hc|by apply D1].
Qed.
(** ** The destination pass *)

Lemma invd_tiles_run (n : Z) (ts : list gemm_tile) (s : memsys) :
  (forall t, t ∈ ts -> truthy (dest t) = true -> buffer_ok (dest t) n) ->
  exists s', (forall x g k, invd_tiles n ts (mk_gsys s x g k) = Some ((), mk_gsys s' x g k)) /\
    frame maint_scratch s s' /\
    (forall t b, t ∈ ts -> truthy (dest t) = true -> in_range b (dest t) n ->
       coherent s' b /\ view s' b = wbval s b).
Proof.
  revert s. induction ts as [|t ts IH]; intros s Hok.
  { exists s. split; [done|]. split; [apply frame_refl|]. by intros ?? ?%elem_of_nil. }
  assert (exists s1, (forall x g k, (if truthy (dest t)
        then (_ ← on_ms (sys_cache_data_invd_range (dest t) n); mret ()) else mret ())
        (mk_gsys s x g k) = Some ((), mk_gsys s1 x g k)) /\ frame maint_scratch s s1 /\
      (truthy (dest t) = true -> forall b, in_range b (dest t) n -> hit s1 b = false))
    as (s1 & R1 & F1 & O1).
  { destruct (truthy (dest t)) eqn:E; [|exists s; split; [done|split; [apply frame_refl|done]]].
    destruct (Hok t ltac:(left) E) as (Hp & Hn & Hov & Hpriv).
    destruct (invd_range_ok (dest t) n s) as (s1 & R & F & O); [lia|done..|]. exists s1.
    split; [|split; [done|intros _ b Hb; by apply O, range_line_in]].
    intros x g k. unfold on_ms, mbind, M_bind. cbn. by rewrite R. }
  destruct (IH s1) as (s2 & R2 & F2 & V2); [intros t' Ht'; apply Hok; by right|].
  exists s2. split; [|split; [by eapply frame_trans|]].
  - intros x g k. cbn [invd_tiles]. by rewrite (M_bind_Some _ _ _ _ _ (R1 x g k)).
  - intros t' b Ht' E Hb. destruct (buffer_ok_scratch (dest t') n b (Hok t' Ht' E) Hb) as [Hl Hne].
    apply elem_of_cons in Ht' as [->|Ht'].
    + pose proof (O1 E b Hb) as Hh. destruct (proj1 (proj2 F2) b Hne (coherent_nonresident s1 b Hh)) as [V C].
      split; [done|]. rewrite V, view_nonresident, <-(wbval_nonresident s1 b) by done. by apply F1.
    + destruct (V2 t' b Ht' E Hb) as [C V]. split; [done|]. rewrite V. by apply F1.
Qed.

(** ** The kick and the wait *)

Definition kicked (x : accel) : accel := set_flags true false false (enginesDone x) x.

Lemma start_queue (x : accel) : qBusy x = false -> accel_write 0 CTRL_START_QUEUE x = kicked x.
Proof.
  intros Hb. cbn [accel_write]. unfold write_ctrl, CTRL_START_QUEUE. rewrite BIT_pow2 by lia.
  change (Z.testbit (2 ^ 5) 5) with true. change (Z.testbit (2 ^ 5) 1) with false. by rewrite Hb.
Qed.

Lemma soft_rst (x : accel) :
  accel_write 0 CTRL_SOFT_RST x = set_queue [] false (set_flags false false false false x).
Proof.
  cbn [accel_write]. unfold write_ctrl, CTRL_SOFT_RST. rewrite BIT_pow2 by lia. reflexivity.
Qed.

Lemma hw_complete_run (s : memsys) (x : accel) (g : gemm_data) (k : nat) :
  exists g', same_setup g g' /\ (sem_limit (done g) = 1 -> sem_count (done g') = 1) /\
    hw_complete clock_at (mk_gsys s x g k) = Some ((), mk_gsys (run_queue (x, s)).2 (run_queue (x, s)).1 g' (S k)).
Proof.
  unfold hw_complete, gemm_isr, k_sem_give, with_gd, modify_world, mbind, M_bind. cbn.
  destruct (run_queue (x, s)) as [x' s']. eexists. split; [|split; [|reflexivity]]; cbn.
  - repeat (split; [done|]). apply sem_give_spec.
  - intros E. destruct (sem_give_spec (done g)) as [-> _]. rewrite E. pose proof (sem_count_nonneg (done g)). lia.
Qed.

Lemma run_queue_done (x : accel) (s : memsys) :
  qDone (run_queue (x, s)).1 = true /\ qBusy (run_queue (x, s)).1 = false /\ descQ (run_queue (x, s)).1 = [].
Proof. unfold run_queue. by destruct (run_descs _ _). Qed.

(** Cache and accelerator once the kick's own code has run. *)
Definition after_kick (x : accel) (s : memsys) : accel * memsys :=
  match timing with Early => run_queue (kicked x, s) | _ => (kicked x, s) end.

Lemma kick_run (s : memsys) (x : accel) (g : gemm_data) (k : nat) :
  qBusy x = false -> sem_limit (done g) = 1 ->
  exists tk tm g' k', same_setup g g' /\ sem_count (done g') = (match timing with Early => 1 | _ => 0 end) /\
    kick_batch cfg clock_at timing (mk_gsys s x g k) =
      Some ((tk, tm), mk_gsys (after_kick x s).2 (after_kick x s).1 g' k').
Proof.
  intros Hb Hl. unfold kick_batch. destruct (sem_reset_spec (done g)) as [Hr0 Hrl].
  set (g0 := set_isr (t_isr (set_done (sem_reset (done g)) g)) false (set_done (sem_reset (done g)) g)).
  assert (same_setup g g0) as S0 by by repeat split.
  destruct (hw_complete_run s (kicked x) g0 (S k)) as (g1 & S1 & D1 & R1). cbn in D1. rewrite Hrl in D1.
  unfold after_kick, early_completion. destruct timing.
  1: eexists _, _, (set_stats inc_already g1).
  2, 3: eexists _, _, g0.
  all: eexists; split; [|split]; [exact S0 || exact (same_setup_trans _ _ _ S0 S1)|exact Hr0 || by apply D1|].
  all: do 2 (erewrite M_bind_Some by reflexivity);
    erewrite M_bind_Some by (apply reg_wr_run; unfold REG_CTRL; lia); erewrite M_bind_Some by reflexivity;
    cbn [ms acc gd ticks set_done]; change (REG_CTRL / 4) with 0; rewrite start_queue by done.
  1: erewrite M_bind_Some by exact R1.
  2, 3: erewrite M_bind_Some by reflexivity.
  all: erewrite M_bind_Some by reflexivity; cbn [gd].
  1: rewrite D1 by done; cbn.
  2, 3: cbn; rewrite Hr0.
  all: reflexivity.
Qed.

(** A take that succeeds and one that does not. *)
Lemma take_some_run (w : gsys) :
  0 < sem_count (done (gd w)) ->
  exists g', same_setup (gd w) g' /\ k_sem_take_nowait w = Some (true, mk_gsys (ms w) (acc w) g' (ticks w)).
Proof.
  intros Hc. destruct (sem_take_spec _ Hc) as (s' & Hs & _ & Hl). exists (set_done s' (gd w)).
  split; [by repeat split|]. unfold k_sem_take_nowait. erewrite M_bind_Some by reflexivity. by rewrite Hs.
Qed.

Lemma take_none_run (w : gsys) : sem_count (done (gd w)) = 0 -> k_sem_take_nowait w = Some (false, w).
Proof.
  intros Hc. unfold k_sem_take_nowait. erewrite M_bind_Some by reflexivity. by rewrite (sem_take_empty _ Hc).
Qed.

Lemma poll_loop_run (n : nat) (s : memsys) (x : accel) (g : gemm_data) (k : nat) :
  qDone x = false -> (forall m, timing <> Never m) ->
  exists g' k', same_setup g g' /\
    poll_loop cfg clock_at timing n (mk_gsys s x g k) =
      Some ((), mk_gsys (run_queue (x, s)).2 (run_queue (x, s)).1 g' k').
Proof.
  intros Hq Ht.
  assert (forall w, rd cfg REG_STATUS w = Some (accel_read 1 (acc w), w)) as Hrd.
  { intros w. rewrite reg_rd_run by (unfold REG_STATUS; lia). reflexivity. }
  destruct (hw_complete_run s x g k) as (g' & S' & _ & R).
  induction n as [|n (g'' & k'' & S'' & IH)]; cbn [poll_loop];
    [exists g', (S k)|exists g'', k'']; (split; [done|]);
    rewrite (M_bind_Some _ _ _ _ _ (Hrd _)); cbn [acc]; rewrite status_done, Hq; [|exact IH].
  assert (forall m : M gsys (), match timing with Never _ => m | _ => _ ← hw_complete clock_at;
            st ← rd cfg REG_STATUS; if truthy (st .& ST_QUEUE_DONE) then mret () else m end
          = (_ ← hw_complete clock_at; st ← rd cfg REG_STATUS;
             if truthy (st .& ST_QUEUE_DONE) then mret () else m)) as ->
    by (destruct timing; try done; by edestruct Ht).
  rewrite (M_bind_Some _ _ _ _ _ R), (M_bind_Some _ _ _ _ _ (Hrd _)). cbn [acc].
  by rewrite status_done, (proj1 (run_queue_done x s)).
Qed.

Lemma wait_run (tm : Z) (s : memsys) (x : accel) (g : gemm_data) (k : nat) :
  (forall m, timing <> Never m) -> sem_limit (done g) = 1 -> sem_count (done g) = (match timing with Early => 1 | _ => 0 end) ->
  exists g' k', same_setup g g' /\
    wait_batch cfg clock_at timing tm (mk_gsys (after_kick x s).2 (after_kick x s).1 g k) =
      Some (true, mk_gsys (run_queue (kicked x, s)).2 (run_queue (kicked x, s)).1 g' k').
Proof.
  intros Ht Hl Hd. unfold wait_batch. pose proof (poll_loop_run (match timing with Waiting n => n | _ => 0%nat end)
    s (kicked x) g k eq_refl Ht) as (g1 & k1 & S1 & R1).
  destruct (hw_complete_run s (kicked x) g k) as (g2 & S2 & D2 & R2).
  unfold poll_wait. destruct (poll_mode g) eqn:Ep.
  - destruct timing as [|n|] eqn:ET; [|exists g1, k1; split; [done|]..].
    + exists g, k. split; [done|]. erewrite M_bind_Some by reflexivity. cbn [gd]. rewrite Ep.
      erewrite M_bind_Some; [reflexivity|]. cbn [poll_loop].
      erewrite M_bind_Some by (apply reg_rd_run; unfold REG_STATUS; lia).
      cbn [acc]. unfold after_kick. rewrite ET. change (REG_STATUS / 4) with 1.
      by rewrite status_done, (proj1 (run_queue_done _ _)).
    + erewrite M_bind_Some by reflexivity. cbn [gd]. rewrite Ep.
      erewrite M_bind_Some; [reflexivity|]. unfold after_kick. rewrite ET. exact R1.
    + by edestruct Ht.
  - unfold k_sem_take. destruct timing as [|n|] eqn:ET; [| |by edestruct Ht].
    + set (w := mk_gsys (after_kick x s).2 (after_kick x s).1 g k).
      destruct (take_some_run w) as (g3 & S3 & R3); [cbn; lia|].
      exists g3, k. split; [exact S3|]. erewrite M_bind_Some by reflexivity. cbn [gd w]. rewrite Ep.
      rewrite M_bind_assoc, (M_bind_Some _ _ _ _ _ R3). unfold w, after_kick. by rewrite ET.
    + set (w := mk_gsys (run_queue (kicked x, s)).2 (run_queue (kicked x, s)).1 g2 (S k)).
      destruct (take_some_run w) as (g3 & S3 & R3); [cbn; rewrite D2; lia|].
      exists g3, (S k). split; [exact (same_setup_trans _ _ _ S2 S3)|]. unfold after_kick. rewrite ET.
      erewrite M_bind_Some by reflexivity. cbn [gd]. rewrite Ep.
      rewrite M_bind_assoc, (M_bind_Some _ _ _ _ _ (take_none_run (mk_gsys s (kicked x) g k) Hd)), M_bind_assoc, (M_bind_Some _ _ _ _ _ R2).
      rewrite M_bind_assoc, (M_bind_Some _ _ _ _ _ R3). reflexivity.
Qed.

(** The wait that times out: the accelerator is reset. *)
Lemma wait_timeout_run (n : nat) (tm : Z) (s : memsys) (x : accel) (g : gemm_data) (k : nat) :
  timing = Never n -> poll_mode g = false -> sem_count (done g) = 0 ->
  exists s' x' g' k', same_setup g g' /\ sem_count (done g') = 0 /\ descQ x' = [] /\ qBusy x' = false /\ qDone x' = false /\
    wait_batch cfg clock_at timing tm (mk_gsys (after_kick x s).2 (after_kick x s).1 g k) =
      Some (false, mk_gsys s' x' g' k').
Proof.
  intros ET Ep Hd. unfold wait_batch, after_kick. rewrite ET. cbn [fst snd].
  destruct (run_descs (take n (descQ (kicked x))) (kicked x, s)) as [x1 s1] eqn:Er.
  exists s1. eexists _, _, _. split; [|split; [|split; [|split; [|split]]]]; [..|
    erewrite M_bind_Some by reflexivity; cbn [gd]; rewrite Ep; unfold k_sem_take;
    rewrite M_bind_assoc, (M_bind_Some _ _ _ _ _ (take_none_run (mk_gsys s (kicked x) g k) Hd)), M_bind_assoc;
    erewrite M_bind_Some by (unfold hw_partial, modify_world; cbn [ms acc gd ticks]; rewrite Er; reflexivity);
    rewrite M_ret_bind; cbn [Z.eqb]; do 2 (erewrite M_bind_Some by reflexivity);
    erewrite M_bind_Some by (apply reg_wr_run; unfold REG_CTRL; lia); cbn [ms acc gd ticks];
    change (REG_CTRL / 4) with 0; rewrite soft_rst; reflexivity].
  all: done.
Qed.

Lemma finish_run (tk tm n : Z) (ts : list gemm_tile) (s : memsys) (x : accel) (g : gemm_data) (k : nat) :
  (forall t, t ∈ ts -> truthy (dest t) = true -> buffer_ok (dest t) n) ->
  exists s' g' k', finish_batch clock_at tk tm n ts (mk_gsys s x g k) = Some ((), mk_gsys s' x g' k') /\
    same_setup g g' /\ frame maint_scratch s s' /\
    (forall t b, t ∈ ts -> truthy (dest t) = true -> in_range b (dest t) n ->
       coherent s' b /\ view s' b = wbval s b).
Proof.
  intros Hok. destruct (invd_tiles_run n ts s Hok) as (s' & R & F & V).
  exists s'. unfold finish_batch. do 4 (erewrite M_bind_Some by reflexivity). cbn [gd].
  destruct (isr_fired _); eexists _, _; (split; [|split; [|done]]).
  1, 3: do 2 (erewrite M_bind_Some by reflexivity); erewrite M_bind_Some by apply R; reflexivity.
  all: done.
Qed.
(** ** What a batch promises *)

Definition operand_byte (kl : Z) (t : gemm_tile) (a : Z) : Prop :=
  (b_only t = false /\ in_range a (a_src t) (dim * kl)) \/ in_range a (b_src t) (dim * kl).

(** Destination, rows and columns of each tile, the operands as memory [m]
    holds them; [A] is the resident row panel. *)
Fixpoint tile_products (kl : Z) (m : mem) (A : Z -> Z -> Z) (ts : list gemm_tile)
    : list (Z * (Z -> Z -> Z) * (Z -> Z -> Z)) :=
  match ts with
  | [] => []
  | t :: ts' =>
      let A := if b_only t then A else src_panel m (a_src t) kl in
      (dest t, A, src_panel m (b_src t) kl) :: tile_products kl m A ts'
  end.

(** A tile of depth [kl] that uses the panel it loads. *)
Record tile_ok (kl : Z) (i8 : bool) (t : gemm_tile) : Prop := {
  t_fields : tile_fields t;
  t_k_len : k_len t = kl;
  t_panel : panel_use t = panel_load t;
  t_a : b_only t = false -> buffer_ok (a_src t) (dim * kl);
  t_b : buffer_ok (b_src t) (dim * kl);
  t_dest : buffer_ok (dest t) (tile_size i8);
}.

(** What the caller has to see to: results land apart from each other and from
    the operands, no destination line is dirty, and a tile marked
    [src_coherent] is. *)
Record batch_ok (kl : Z) (i8 : bool) (ts : list gemm_tile) (s : memsys) : Prop := {
  b_whole : (16 | kl);
  b_depth : 0 < kl <= maxK;
  b_tiles : Forall (tile_ok kl i8) ts;
  b_apart : ForallOrdPairs (fun t u => forall a, in_range a (dest t) (tile_size i8) ->
              ~ in_range a (dest u) (tile_size i8)) ts;
  b_operands : forall t u a, t ∈ ts -> u ∈ ts -> in_range a (dest t) (tile_size i8) -> ~ operand_byte kl u a;
  b_coherent : forall t a, t ∈ ts -> operand_byte kl t a -> coherent s a;
  b_flushed : forall t a, t ∈ ts -> src_coherent t = true -> b_only t = false ->
              in_range a (a_src t) (dim * kl) -> dirty_at s a = false;
  b_dest : forall t a, t ∈ ts -> in_range a (dest t) (tile_size i8) -> dirty_at s a = false;
}.

(** Between batches. *)
Record ready (w : gsys) : Prop := {
  r_lock : mutex_free (lock (gd w));
  r_sem : sem_limit (done (gd w)) = 1;
  r_dim : info_dim (info (gd w)) = dim;
  r_idle : qBusy (acc w) = false;
  r_queue : descQ (acc w) = [];
}.

Lemma jobs_desc (kl : Z) (m : mem) (A : Z -> Z -> Z) (ts : list gemm_tile) :
  Forall tile_fields ts -> jobs kl m A (desc_of <$> ts) = tile_products kl m A ts.
Proof.
  intros Hts. revert A. induction Hts as [|t ts Ht _ IH]; intros A; [done|]. cbn [fmap list_fmap jobs tile_products desc_of d_ctl d_aSrc d_bSrc d_dest].
  rewrite (proj2 (proj2 (proj2 (desc_word_fields t Ht)))). by rewrite IH.
Qed.

Lemma tile_products_dest (kl : Z) (m : mem) (A P Q : Z -> Z -> Z) (ts : list gemm_tile) (d : Z) :
  (d, P, Q) ∈ tile_products kl m A ts -> exists t, t ∈ ts /\ d = dest t.
Proof.
  revert A. induction ts as [|t ts IH]; intros A; cbn; [by intros ?%elem_of_nil|].
  intros [[= -> _ _]|Hin]%elem_of_cons; [exists t; split; [left|done]|].
  destruct (IH _ Hin) as (u & ? & ?). exists u. split; [by right|done].
Qed.

Lemma operand_desc (kl : Z) (t : gemm_tile) (a : Z) :
  tile_fields t -> operand_of kl (desc_of t) a <-> operand_byte kl t a.
Proof. intros Ht. unfold operand_of. cbn [desc_of d_ctl d_aSrc d_bSrc]. by destruct (desc_word_fields t Ht) as (_ & _ & _ & ->). Qed.

Lemma tile_ok_buffers (kl : Z) (i8 : bool) (t : gemm_tile) : tile_ok kl i8 t -> tile_buffers kl t.
Proof.
  intros H. split; [apply H|]. split; intros E; [|apply H].
  apply H. unfold flushes_a in E. by destruct (b_only t); [rewrite andb_false_r in E|].
Qed.

(** Submission leaves DRAM holding every operand as the CPU had it. *)
Lemma operands_reach_dram (kl : Z) (i8 : bool) (ts : list gemm_tile) (s s' : memsys) (t : gemm_tile) (a : Z) :
  batch_ok kl i8 ts s -> frame maint_scratch s s' -> t ∈ ts -> operand_byte kl t a ->
  (forall t a, t ∈ ts -> covers (dim * kl) (flushes_a t) t a -> dirty_at s' a = false) ->
  dram s' a = view s a.
Proof.
  intros Hb F Ht Ha Hc. destruct (proj1 (Forall_forall _ _) (b_tiles _ _ _ _ Hb) t Ht) as [? ? ? HA HB ?].
  assert (~ same_line maint_scratch a) as Hs.
  { destruct Ha as [[E Ha]|Ha]; [by apply (buffer_ok_scratch _ _ _ (HA E))|by apply (buffer_ok_scratch _ _ _ HB)]. }
  assert (dirty_at s' a = false) as Hd.
  { destruct Ha as [[E Ha]|Ha].
    - destruct (src_coherent t) eqn:Es; [apply F; [done|by eapply b_flushed]|].
      apply (Hc t); [done|]. left. unfold flushes_a. rewrite Es, E, truthy_nonzero by (destruct (HA E); lia). done.
    - apply (Hc t); [done|]. right. split; [|done]. apply truthy_nonzero. destruct HB; lia. }
  rewrite clean_dram by done. destruct F as [-> _]; [|done]. symmetry. by apply (b_coherent _ _ _ _ Hb t).
Qed.

Lemma tile_bytes_eq (i8 : bool) :
  (if i8 then u32 (dim * dim) else u32 (u32 (dim * dim) * 4)) = tile_size i8.
Proof.
  pose proof dim_range. assert (0 <= dim * dim <= 256) by nia.
  unfold tile_size, u32. destruct i8; rewrite !uwrap_id by (unfold is_uint; rewrite ?uwrap_id; unfold is_uint; lia); lia.
Qed.

(** The queue's run on what submission left. *)
Lemma queue_spec (kl sh : Z) (i8 : bool) (ts : list gemm_tile) (s s2 : memsys) (x x2 : accel) :
  batch_ok kl i8 ts s -> frame maint_scratch s s2 -> descQ x = [] ->
  (forall t a, t ∈ ts -> covers (dim * kl) (flushes_a t) t a -> dirty_at s2 a = false) ->
  pushed (desc_of <$> ts) (set_out 0 sh i8 x) x2 ->
  let s3 := (run_queue (kicked x2, s2)).2 in
  dc_valid s3 = dc_valid s2 /\ dc_tag s3 = dc_tag s2 /\ dc_dirty s3 = dc_dirty s2 /\ dc_data s3 = dc_data s2 /\
  (forall d P Q o, (d, P, Q) ∈ tile_products kl (view s) (a_mem x) ts -> 0 <= o < tile_size i8 ->
     dram s3 (d + o) = tile_byte i8 sh (matprod kl P Q) o) /\
  (forall a, (forall t, t ∈ ts -> ~ in_range a (dest t) (tile_size i8)) -> dram s3 a = dram s2 a).
Proof.
  intros Hb F Hq Hc (ra & rb & rd' & ->). cbn zeta.
  set (x2 := set_desc _ _ _ _). assert (descQ (kicked x2) = desc_of <$> ts) as Eq by (cbn; by rewrite Hq).
  pose proof (b_tiles _ _ _ _ Hb) as Ht. rewrite Forall_forall in Ht.
  assert (Forall tile_fields ts) as Hf by (apply Forall_forall; intros t Hin; by destruct (Ht t Hin)).
  pose proof (run_descs_spec kl i8 (b_whole _ _ _ _ Hb) (b_depth _ _ _ _ Hb) (desc_of <$> ts) (kicked x2) s2
    (view s) (a_mem x)) as H.
  unfold run_queue. cbn [fst snd]. rewrite Eq. destruct (run_descs (desc_of <$> ts) (kicked x2, s2)) as [x3 s3].
  cbn [fst snd]. destruct H as (_ & V1 & V2 & V3 & V4 & Hres & Hrest); try done.
  - apply Forall_fmap, Forall_forall. intros t Hin. destruct (Ht t Hin) as [Hfl Hk Hp ? ? ?]. cbn.
    unfold simple_desc. cbn. destruct (desc_word_fields t Hfl) as (-> & -> & -> & _). by rewrite Hk, Hp.
  - split.
    + pose proof (b_apart _ _ _ _ Hb) as Hap. clear -Hap.
      induction Hap as [|t ts Hhd _ IH]; [constructor|]. cbn. constructor; [|exact IH]. by apply Forall_fmap.
    + intros ? ? a (t & -> & Hin)%list_elem_of_fmap (u & -> & Hin')%list_elem_of_fmap Hd Ho.
      apply operand_desc in Ho; [|by destruct (Ht u Hin')]. by eapply (b_operands _ _ _ _ Hb t u a).
  - intros ? a (t & -> & Hin)%list_elem_of_fmap Ho. apply operand_desc in Ho; [|by destruct (Ht t Hin)].
    by eapply operands_reach_dram.
  - split; [exact V1|split; [exact V2|split; [exact V3|split; [exact V4|split]]]].
    + intros d P Q o Hin. apply Hres. by rewrite jobs_desc.
    + intros a Ha. apply Hrest. intros ? (t & -> & Hin)%list_elem_of_fmap. by apply Ha.
Qed.
(** The part under the lock up to the kick: the submission. *)
Lemma submission_run (kl st sh : Z) (i8 : bool) (ts : list gemm_tile) (w : gsys) :
  0 <= kl <= 255 -> Forall (tile_buffers kl) ts -> Z.of_nat (length ts) <= descDepth ->
  descQ (acc w) = [] -> info_dim (info (gd w)) = dim ->
  exists w2 g2 k2 K,
    locked_batch cfg clock_at timing ts st i8 sh w = ('(tk, tm) ← kick_batch cfg clock_at timing; K tk tm)
      (mk_gsys (ms w2) (acc w2) g2 k2) /\
    K = (fun tk tm => ok ← wait_batch cfg clock_at timing tm;
           if ok : bool then (_ ← finish_batch clock_at tk tm (tile_size i8) ts; mret RC_OK)
           else mret (RC_ERR ETIMEDOUT)) /\
    frame maint_scratch (ms w) (ms w2) /\ same_setup (gd w) g2 /\
    (exists sh', (i8 = true -> sh' = sh .& 0x1f) /\ pushed (desc_of <$> ts) (set_out st sh' i8 (acc w)) (acc w2)) /\
    (forall t a, t ∈ ts -> covers (dim * kl) (flushes_a t) t a -> dirty_at (ms w2) a = false).
Proof.
  intros Hk Hts Hlen Hq Hdim. unfold locked_batch.
  set (v := if i8 then OUT_INT8 .| (sh .& 0x1f) else 0).
  assert (Z.testbit v 8 = i8 /\ (i8 = true -> v .& 0x1f = sh .& 0x1f)) as [Hv8 Hvs].
  { unfold v, OUT_INT8. rewrite BIT_pow2 by lia. destruct i8; [|done]. split.
    - rewrite Z.lor_spec, Z.land_spec. change (Z.testbit (2 ^ 8) 8) with true. done.
    - intros _. rewrite Z.land_lor_distr_l. change (2 ^ 8 .& 31) with 0. by rewrite Z.lor_0_l, <-Z.land_assoc. }
  set (w1 := mk_gsys (ms w) (set_out st (v .& 0x1f) i8 (acc w)) (gd w) (S (ticks w))).
  destruct (submit_tiles_run kl 0 ts w1) as (f2 & w2 & R2 & F2 & G2 & P2 & D2); [done..| |].
  { cbn. rewrite Hq. cbn. lia. }
  eexists w2, _, _, _. split; [|split; [reflexivity|split; [exact F2|split; [|split; [|exact D2]]]]].
  - do 2 (erewrite M_bind_Some by reflexivity).
    do 2 (erewrite M_bind_Some by (apply reg_wr_run; unfold REG_DEST_STRIDE, REG_OUT_CTRL; lia)).
    cbn [ms acc gd ticks]. rewrite Hdim, tile_bytes_eq. fold v.
    change (REG_DEST_STRIDE / 4) with 11. change (REG_OUT_CTRL / 4) with 22.
    cbn [ms acc gd ticks accel_write]. rewrite Hv8.
    match goal with |- mbind _ _ ?u = _ => change u with w1 end.
    rewrite (M_bind_Some _ _ _ _ _ R2). do 2 (erewrite M_bind_Some by reflexivity). reflexivity.
  - rewrite G2. by split_and!.
  - by exists (v .& 0x1f).
Qed.
(** The state under the lock, taken as [m]. *)
Definition locked (m : k_mutex) (w : gsys) : gsys := mk_gsys (ms w) (acc w) (set_lock m (gd w)) (ticks w).

Lemma mutex_lock_run (w : gsys) :
  ready w -> exists m, k_mutex_lock w = Some ((), locked m w) /\ mutex_free (mutex_unlock m).
Proof.
  intros Hr. destruct (mutex_lock_free _ (r_lock w Hr)) as (m & Hm & Hf). exists m. split; [|done].
  unfold k_mutex_lock. erewrite M_bind_Some by reflexivity. by rewrite Hm.
Qed.

Lemma run_batch_locked (ts : list gemm_tile) (st sh : Z) (i8 : bool) (m : k_mutex) (w : gsys) (r : rc) (w' : gsys) :
  ts <> [] -> Z.of_nat (length ts) <= descDepth -> i8 && truthy st = false -> ready w ->
  k_mutex_lock w = Some ((), locked m w) ->
  locked_batch cfg clock_at timing ts st i8 sh (locked m w) = Some (r, w') ->
  gemm_run_batch cfg clock_at timing (Some ts) st i8 sh w =
    Some (r, mk_gsys (ms w') (acc w') (set_lock (mutex_unlock (lock (gd w'))) (gd w')) (ticks w')).
Proof.
  intros Hne Hlen Hst Hr Hlock R. unfold gemm_run_batch. destruct ts as [|t ts]; [done|].
  erewrite M_bind_Some by (apply reg_rd_run; unfold REG_QUEUE_FREE; lia). change (REG_QUEUE_FREE / 4) with 21.
  cbn [accel_read]. rewrite (r_queue w Hr). pose proof descDepth_range.
  unfold u8. rewrite uwrap_id by (unfold is_uint; cbn; lia). cbn [length Z.of_nat] in *. rewrite Z.sub_0_r.
  destruct (Z.ltb_spec descDepth (Z.of_nat (S (length ts)))); [lia|]. rewrite Hst.
  rewrite (M_bind_Some _ _ _ _ _ Hlock), (M_bind_Some _ _ _ _ _ R). by erewrite M_bind_Some by reflexivity.
Qed.

Lemma batch_run (kl sh : Z) (i8 : bool) (ts : list gemm_tile) (w : gsys) :
  ts <> [] -> Z.of_nat (length ts) <= descDepth -> (forall n, timing <> Never n) ->
  ready w -> batch_ok kl i8 ts (ms w) ->
  exists w', gemm_run_batch cfg clock_at timing (Some ts) 0 i8 sh w = Some (RC_OK, w') /\ ready w' /\
    (forall d P Q o, (d, P, Q) ∈ tile_products kl (view (ms w)) (a_mem (acc w)) ts -> 0 <= o < tile_size i8 ->
       coherent (ms w') (d + o) /\ view (ms w') (d + o) = tile_byte i8 (sh .& 0x1f) (matprod kl P Q) o) /\
    (forall a, (forall t, t ∈ ts -> ~ in_range a (dest t) (tile_size i8)) -> a <> maint_scratch ->
       coherent (ms w) a -> view (ms w') a = view (ms w) a /\ coherent (ms w') a) /\
    (forall a, ~ same_line maint_scratch a -> dirty_at (ms w) a = false -> dirty_at (ms w') a = false).
Proof.
  intros Hne Hlen Htm Hr Hb. pose proof (b_depth _ _ _ _ Hb). pose proof maxK_range.
  pose proof (b_tiles _ _ _ _ Hb) as Ht. rewrite Forall_forall in Ht.
  destruct (mutex_lock_run w Hr) as (m & Rm & Hfree). set (w1 := locked m w) in *.
  destruct (submission_run kl 0 sh i8 ts w1) as (w2 & g2 & k2 & K & R & EK & F & G & (sh' & Esh & P) & D);
    [lia| |done|apply Hr|apply Hr|].
  { apply Forall_forall. intros t Hin. by apply (tile_ok_buffers kl i8), Ht. }
  destruct (queue_spec kl sh' i8 ts (ms w) (ms w2) (acc w) (acc w2) Hb F (r_queue w Hr) D P)
    as (V1 & V2 & V3 & V4 & Hres & Hrest). cbn zeta in *.
  assert (qBusy (acc w2) = false) as Hbusy by (destruct P as (? & ? & ? & ->); apply (r_idle w Hr)).
  assert (sem_limit (done g2) = 1) as Hl2 by (destruct G as (_ & _ & _ & ->); apply (r_sem w Hr)).
  destruct (kick_run (ms w2) (acc w2) g2 k2 Hbusy Hl2) as (tk & tm & g3 & k3 & G3 & D3 & R3).
  assert (sem_limit (done g3) = 1) as Hl3 by (destruct G3 as (_ & _ & _ & ->); exact Hl2).
  destruct (wait_run tm (ms w2) (acc w2) g3 k3 Htm Hl3 D3) as (g4 & k4 & G4 & R4).
  set (x5 := (run_queue (kicked (acc w2), ms w2)).1) in *. set (s5 := (run_queue (kicked (acc w2), ms w2)).2) in *.
  assert (forall t, t ∈ ts -> buffer_ok (dest t) (tile_size i8)) as Hdok by (intros t Hin; by destruct (Ht t Hin)).
  destruct (finish_run tk tm (tile_size i8) ts s5 x5 g4 k4) as (s6 & g6 & k6 & R6 & G6 & F6 & V6).
  { intros t Hin _. by apply Hdok. }
  assert (same_setup (set_lock m (gd w)) g6) as HG by (repeat (eapply same_setup_trans; [eassumption|]); apply same_setup_refl).
  eexists. split; [|split; [|split; [|split]]].
  - apply (run_batch_locked ts 0 sh i8 m w RC_OK (mk_gsys s6 x5 g6 k6)); [done|done|by destruct i8|done|done|].
    fold w1. rewrite R, (M_bind_Some _ _ _ _ _ R3), EK, (M_bind_Some _ _ _ _ _ R4).
    by rewrite (M_bind_Some _ _ _ _ _ R6).
  - destruct HG as (Hm & Hi & _ & Hs). destruct (run_queue_done (kicked (acc w2)) (ms w2)) as (_ & Hb' & Hq').
    split; cbn; [by rewrite Hm|rewrite Hs; apply Hr|rewrite Hi; apply Hr|exact Hb'|exact Hq'].
  - intros d Pm Qm o Hin Ho. cbn [ms]. destruct (tile_products_dest _ _ _ _ _ _ _ Hin) as (t & Hti & ->).
    assert (in_range (dest t + o) (dest t) (tile_size i8)) as Hdr by (unfold in_range; lia).
    destruct (V6 t (dest t + o)) as [C6 ->]; [done|apply truthy_nonzero; destruct (Hdok t Hti); lia|done|].
    split; [done|].
    assert (dirty_at (ms w2) (dest t + o) = false) as Hd2.
    { apply F; [by apply (buffer_ok_scratch _ _ _ (Hdok t Hti))|]. by apply (b_dest _ _ _ _ Hb t). }
    rewrite <-clean_dram; [|unfold dirty_at, hit in *; by rewrite V1, V2, V3].
    rewrite (Hres _ _ _ _ Hin Ho). unfold tile_byte. destruct i8; [by rewrite Esh|done].
  - intros a Ha Hs Hc. cbn [ms]. destruct (proj1 (proj2 F) a Hs Hc) as [Va Ca].
    assert (view s5 a = view (ms w2) a /\ wbval s5 a = wbval (ms w2) a) as [E1 E2].
    { unfold view, wbval, hit. rewrite V1, V2, V3, V4, (Hrest a Ha). done. }
    assert (coherent s5 a) as C5 by (unfold coherent; by rewrite E1, E2).
    destruct (proj1 (proj2 F6) a Hs C5) as [-> C6]. by rewrite E1.
  - intros a Hs Hd. cbn [ms]. apply F6; [done|]. unfold dirty_at, hit. fold s5. rewrite V1, V2, V3. by apply F.
Qed.

(** ** [gemm_flush_operands] *)

Lemma flush_tiles_run (ts : list gemm_tile) (s : memsys) :
  (forall t, t ∈ ts -> 0 <= k_len t <= 255 /\ (truthy (a_src t) = true -> buffer_ok (a_src t) (dim * k_len t)) /\
     (truthy (b_src t) = true -> buffer_ok (b_src t) (dim * k_len t))) ->
  exists s', (forall x g k, flush_tiles dim ts (mk_gsys s x g k) = Some ((), mk_gsys s' x g k)) /\
    frame maint_scratch s s' /\
    (forall t a, t ∈ ts -> covers (dim * k_len t) true t a -> dirty_at s' a = false).
Proof.
  revert s. induction ts as [|t ts IH]; intros s Hok.
  { exists s. split; [done|]. split; [apply frame_refl|]. by intros ?? ?%elem_of_nil. }
  destruct (Hok t ltac:(left)) as (Hk & Ha & Hb).
  destruct (flush_both_run (dim * k_len t) true t s Ha Hb) as (s1 & s2 & R1 & R2 & F & D).
  destruct (IH s2) as (s3 & R3 & F3 & D3); [intros u Hu; apply Hok; by right|].
  exists s3. split; [|split; [by eapply frame_trans|]].
  - intros x g k. cbn [flush_tiles]. rewrite operand_size by done.
    by rewrite (M_bind_Some _ _ _ _ _ (R1 x g k)), (M_bind_Some _ _ _ _ _ (R2 x g k)).
  - intros u a [->|Hin]%elem_of_cons Hc; [|by apply (D3 u)].
    by apply (covers_kept (dim * k_len t) true t s2); auto.
Qed.

Lemma flush_operands_run (ts : list gemm_tile) (w : gsys) :
  ts <> [] -> info_dim (info (gd w)) = dim ->
  (forall t, t ∈ ts -> 0 <= k_len t <= 255 /\ (truthy (a_src t) = true -> buffer_ok (a_src t) (dim * k_len t)) /\
     (truthy (b_src t) = true -> buffer_ok (b_src t) (dim * k_len t))) ->
  exists s', gemm_flush_operands (Some ts) w = Some (RC_OK, mk_gsys s' (acc w) (gd w) (ticks w)) /\
    frame maint_scratch (ms w) s' /\ (forall t a, t ∈ ts -> covers (dim * k_len t) true t a -> dirty_at s' a = false).
Proof.
  intros Hne Hd Hok. destruct w as [s x g k]. destruct (flush_tiles_run ts s Hok) as (s' & R & F & D).
  exists s'. split; [|done]. unfold gemm_flush_operands. destruct ts as [|t ts]; [done|].
  erewrite M_bind_Some by reflexivity. cbn [gd] in *. by rewrite Hd, (M_bind_Some _ _ _ _ _ (R x g k)).
Qed.

(** ** Properties *)

(** C6: a batch end to end. For operand panels the CPU sees coherently (dirty
    in the cache or not), [gemm_run_batch] returns 0, leaves driver and
    accelerator ready for the next batch, and every CPU load of a destination
    then returns the corresponding byte of the product of the tile's panels,
    as 32-bit sums or shifted, rounded and saturated to INT8; a B-only tile
    uses the resident row panel. Memory outside the destinations reads as
    before. This holds in both wait modes and whenever the completion comes. *)
Theorem gemm_run_batch_result (kl sh : Z) (i8 : bool) (ts : list gemm_tile) (w : gsys) :
  ts <> [] -> Z.of_nat (length ts) <= descDepth -> (forall n, timing <> Never n) ->
  ready w -> batch_ok kl i8 ts (ms w) ->
  exists w', gemm_run_batch cfg clock_at timing (Some ts) 0 i8 sh w = Some (RC_OK, w') /\ ready w' /\
    (forall d P Q o, (d, P, Q) ∈ tile_products kl (view (ms w)) (a_mem (acc w)) ts -> 0 <= o < tile_size i8 ->
       (cpu_load (d + o) (ms w')).1 = tile_byte i8 (sh .& 0x1f) (matprod kl P Q) o) /\
    (forall a, (forall t, t ∈ ts -> ~ in_range a (dest t) (tile_size i8)) -> a <> maint_scratch ->
       coherent (ms w) a -> view (ms w') a = view (ms w) a /\ coherent (ms w') a).
Proof.
  intros Hne Hlen Htm Hr Hb. destruct (batch_run kl sh i8 ts w Hne Hlen Htm Hr Hb) as (w' & R & Hr' & Hres & Hout & _).
  exists w'. split; [done|]. split; [done|]. split; [|done]. intros d P Q o Hin Ho.
  destruct (Hres d P Q o Hin Ho) as [Hc <-]. by apply cpu_load_value.
Qed.

(** C34: a batch that never signals completion: the sleeping caller gets
    [-ETIMEDOUT], the queue is empty, the accelerator idle and the lock free, so
    that the next batch starts from the same state as ever; no completion is
    left in the semaphore. *)
Theorem gemm_run_batch_timeout (kl st sh : Z) (i8 : bool) (ts : list gemm_tile) (n : nat) (w : gsys) :
  timing = Never n -> poll_mode (gd w) = false -> 0 <= kl <= 255 ->
  ts <> [] -> Z.of_nat (length ts) <= descDepth -> i8 && truthy st = false ->
  Forall (tile_buffers kl) ts -> ready w ->
  exists w', gemm_run_batch cfg clock_at timing (Some ts) st i8 sh w = Some (RC_ERR ETIMEDOUT, w') /\
    ready w' /\ qDone (acc w') = false /\ sem_count (done (gd w')) = 0.
Proof.
  intros Htm Hp Hk Hne Hlen Hst Hts Hr.
  destruct (mutex_lock_run w Hr) as (m & Rm & Hfree). set (w1 := locked m w) in *.
  destruct (submission_run kl st sh i8 ts w1) as (w2 & g2 & k2 & K & R & EK & _ & G & (sh' & _ & P) & _);
    [done|done|done|apply Hr|apply Hr|].
  assert (qBusy (acc w2) = false) as Hbusy by (destruct P as (? & ? & ? & ->); apply (r_idle w Hr)).
  assert (sem_limit (done g2) = 1) as Hl2 by (destruct G as (_ & _ & _ & ->); apply (r_sem w Hr)).
  destruct (kick_run (ms w2) (acc w2) g2 k2 Hbusy Hl2) as (tk & tm & g3 & k3 & G3 & D3 & R3). rewrite Htm in D3.
  assert (same_setup (gd w1) g3) as (Hm3 & Hi3 & Hp3 & Hs3) by by eapply same_setup_trans.
  destruct (wait_timeout_run n tm (ms w2) (acc w2) g3 k3) as (s4 & x4 & g4 & k4 & G4 & D4 & Q4 & B4 & E4 & R4);
    [done|by rewrite Hp3|done|].
  exists (mk_gsys s4 x4 (set_lock (mutex_unlock (lock g4)) g4) k4). split; [|split; [|split; [exact E4|exact D4]]].
  - apply (run_batch_locked ts st sh i8 m w (RC_ERR ETIMEDOUT) (mk_gsys s4 x4 g4 k4)); [done..|].
    fold w1. rewrite R, (M_bind_Some _ _ _ _ _ R3), EK, (M_bind_Some _ _ _ _ _ R4). reflexivity.
  - destruct G4 as (Hm & Hi & _ & Hs).
    split; cbn; [by rewrite Hm, Hm3|by rewrite Hs, Hs3; apply Hr|by rewrite Hi, Hi3; apply Hr|exact B4|exact Q4].
Qed.

(** C35: a batch is refused without touching cache, accelerator, lock or
    statistics exactly as documented: [-EINVAL] for no tiles, [-EBUSY] when the
    descriptor queue has no room for all of them, [-EINVAL] for a strided INT8
    destination. *)
Theorem gemm_run_batch_refuses (tiles : option (list gemm_tile)) (st sh : Z) (i8 : bool) (w : gsys) :
  let run := gemm_run_batch cfg clock_at timing tiles st i8 sh w in
  let ts := default [] tiles in
  Z.of_nat (length (descQ (acc w))) <= descDepth ->
  (ts = [] -> run = Some (RC_ERR EINVAL, w)) /\
  (ts <> [] -> descDepth < Z.of_nat (length (descQ (acc w)) + length ts) -> run = Some (RC_ERR EBUSY, w)) /\
  (ts <> [] -> Z.of_nat (length (descQ (acc w)) + length ts) <= descDepth -> i8 = true -> st <> 0 ->
     run = Some (RC_ERR EINVAL, w)).
Proof.
  cbn zeta. intros Hq. pose proof descDepth_range. unfold gemm_run_batch.
  destruct tiles as [[|t ts]|]; cbn [default id]; [done| |done]. split; [done|].
  erewrite M_bind_Some by (apply reg_rd_run; unfold REG_QUEUE_FREE; lia). change (REG_QUEUE_FREE / 4) with 21.
  cbn [accel_read]. unfold u8. rewrite uwrap_id by (unfold is_uint; lia). split; intros _ Hl.
  - destruct (Z.ltb_spec (descDepth - Z.of_nat (length (descQ (acc w)))) (Z.of_nat (length (t :: ts)))); [done|lia].
  - intros -> Hst. destruct (Z.ltb_spec (descDepth - Z.of_nat (length (descQ (acc w)))) (Z.of_nat (length (t :: ts)))); [lia|].
    by rewrite truthy_nonzero.
Qed.

(** [gemm_flush_operands] returns 0 with every operand byte in DRAM as the
    CPU sees it and in no dirty line (what [src_coherent] asks for), and
    changes nothing the CPU can see. *)
Theorem gemm_flush_operands_coherent (ts : list gemm_tile) (w : gsys) :
  ts <> [] -> info_dim (info (gd w)) = dim ->
  (forall t, t ∈ ts -> 0 <= k_len t <= 255 /\ (truthy (a_src t) = true -> buffer_ok (a_src t) (dim * k_len t)) /\
     (truthy (b_src t) = true -> buffer_ok (b_src t) (dim * k_len t))) ->
  exists w', gemm_flush_operands (Some ts) w = Some (RC_OK, w') /\
    (forall t a, t ∈ ts -> covers (dim * k_len t) true t a -> coherent (ms w) a ->
       dirty_at (ms w') a = false /\ dma_read a (ms w') = view (ms w) a) /\
    (forall a, a <> maint_scratch -> coherent (ms w) a -> view (ms w') a = view (ms w) a /\ coherent (ms w') a).
Proof.
  intros Hne Hd Hok. destruct (flush_operands_run ts w Hne Hd Hok) as (s' & R & F & D).
  eexists. split; [exact R|]. cbn [ms]. split; [|apply F].
  intros t a Ht Hc Hco. destruct (Hok t Ht) as (Hk & Ha & Hb).
  pose proof (D t a Ht Hc) as Hcl. split; [done|]. unfold dma_read. rewrite clean_dram by done.
  destruct F as [-> _]; [by rewrite Hco|].
  destruct Hc as [[E Hin]|[E Hin]]; [by apply (buffer_ok_scratch _ _ _ (Ha E))|by apply (buffer_ok_scratch _ _ _ (Hb E))].
Qed.

(** The descriptor word the driver packs decodes, in the accelerator, to
    the tile's fields, with the panel numbers taken modulo the number of
    panels the hardware has. *)
Theorem desc_push_roundtrip (t : gemm_tile) :
  tile_fields t ->
  ctl_kLen (desc_word t) = k_len t /\ ctl_panelUse (desc_word t) = panel_use t mod bPanels /\
  ctl_panelLoad (desc_word t) = panel_load t mod bPanels /\ ctl_bOnly (desc_word t) = b_only t.
Proof. apply desc_word_fields. Qed.

(** After [gemm_init] on an idle accelerator the driver is ready for a
    batch: lock free, no stale completion, and the geometry it reads back from
    the INFO register is the one the hardware was built with. *)
Theorem gemm_init_ready (irq_setup : M gsys ()) (w : gsys) :
  (forall v, irq_setup v = Some ((), v)) -> qBusy (acc w) = false -> descQ (acc w) = [] ->
  exists w', gemm_init cfg irq_setup w = Some (RC_OK, w') /\ ready w' /\ sem_count (done (gd w')) = 0 /\
    info (gd w') = mk_info dim maxK bPanels /\ ms w' = ms w /\ acc w' = acc w.
Proof.
  intros Hirq Hb Hq. pose proof dim_range. pose proof maxK_range. pose proof bPanels_range.
  assert (accel_read 9 (acc w) = (bPanels * 256 + maxK) * 256 + dim) as Hinfo.
  { cbn [accel_read]. replace (bPanels .<< 16) with (bPanels .<< 8 .<< 8) by by rewrite Z.shiftl_shiftl.
    rewrite <-Z.shiftl_lor, !shiftl_lor_add by (unfold is_uint; lia). reflexivity. }
  eexists. unfold gemm_init. split.
  - do 2 (erewrite M_bind_Some by reflexivity).
    erewrite M_bind_Some by (apply reg_rd_run; unfold REG_INFO; lia). change (REG_INFO / 4) with 9. cbn [acc]. rewrite Hinfo.
    change 0xFF with (Z.ones 8). rewrite !land_ones_mod, !Z.shiftr_div_pow2 by lia.
    change (2 ^ 8) with 256. change (2 ^ 16) with 65536.
    replace (((bPanels * 256 + maxK) * 256 + dim) mod 256) with dim by divlia.
    replace (((bPanels * 256 + maxK) * 256 + dim) / 256 mod 256) with maxK by divlia.
    replace (((bPanels * 256 + maxK) * 256 + dim) / 65536 mod 256) with bPanels by divlia.
    erewrite M_bind_Some by reflexivity. by erewrite M_bind_Some by apply Hirq.
  - destruct (sem_init_spec 0 1) as [Hc Hl]; [lia|].
    split; [split; [apply mutex_init_free|exact Hl|done..]|]. by split.
Qed.
End Proofs.

(** ** The properties at work: the FPGA build with the displacement driver *)

Module GemmWitness.
#[local] Existing Instance geom_fpga.
#[local] Existing Instance cfg_16k.
#[local] Existing Instance accel_fpga.

Definition slot : Z := 0x180000.
#[local] Instance maint : CacheMaint := displacing_maint slot true.
#[local] Instance maint_ok : CacheMaintOk (cm := maint).
Proof. apply displacing_maint_ok. Qed.

Definition dev : gemm_config := mk_config 0x5000.
Definition clk (n : nat) : Z := 100 * Z.of_nat n.
Definition data0 : gemm_data := mk_data (sem_init 0 1) mutex_init (mk_info 8 64 4) no_stats false 0 false.
Definition accel0 : accel := mk_accel (fun _ _ => 0) (fun _ _ _ => 0) 0 0 0 [] 0 0 false false false false false.

(** The CPU has just written a byte of the first tile's rows. *)
Definition s0 : memsys := cpu_store 0x120003 5 (dc_reset (fun a => a mod 7)).
Definition w0 : gsys := mk_gsys s0 accel0 data0 0.

(** Two tiles of depth 16, the second reusing the rows of the first. *)
Definition tile1 : gemm_tile := mk_tile 0x120000 0x120400 0x121000 16 0 0 false false.
Definition tile2 : gemm_tile := mk_tile 0 0x120500 0x121100 16 1 1 true false.

Lemma buffer_at (p size : Z) :
  0x120000 <= p -> 0 <= size -> p + size <= 0x122000 -> buffer_ok p size.
Proof.
  intros Hp Hs Hps. change LINE_BYTES with 16. unfold buffer_ok. change LINE_BYTES with 16.
  split; [lia|split; [done|split; [lia|]]]. intros b [H1 H2]. change LINE_BYTES with 16 in *.
  cbn. unfold in_displace_buf, same_line, slot. change DC_BYTES with 16384. change displace_buf with 0x104000.
  change LINE_BYTES with 16. intros [Hl|Hl]; divlia.
Qed.

Lemma coherent0 (a : Z) : coherent s0 a.
Proof. apply cpu_store_view. left. by apply coherent_nonresident. Qed.

Lemma clean0 (a : Z) : 0x121000 <= a -> dirty_at s0 a = false.
Proof.
  intros Ha. apply cpu_store_clean; [|done]. unfold same_line. change LINE_BYTES with 16. divlia.
Qed.

Lemma tile1_ok (i8 : bool) : tile_ok 16 i8 tile1.
Proof.
  split; cbn; try done; intros; apply buffer_at; unfold tile_size; destruct i8; cbn; lia.
Qed.
Lemma tile2_ok (i8 : bool) : tile_ok 16 i8 tile2.
Proof.
  split; cbn; try done; intros; apply buffer_at; unfold tile_size; destruct i8; cbn; lia.
Qed.

Lemma batch0 (i8 : bool) : batch_ok 16 i8 [tile1; tile2] s0.
Proof.
  assert (0 < tile_size i8 <= 256) as Hsz by (destruct i8; cbn; lia).
  split.
  - by exists 1.
  - cbn. lia.
  - apply Forall_cons. split; [apply tile1_ok|]. apply Forall_cons. split; [apply tile2_ok|constructor].
  - constructor; [|constructor; constructor]. constructor; [|constructor]. unfold in_range. destruct i8; cbn; lia.
  - unfold operand_byte, in_range. intros t u a Ht Hu.
    repeat (apply elem_of_cons in Ht as [->|Ht] || by apply elem_of_nil in Ht);
    repeat (apply elem_of_cons in Hu as [->|Hu] || by apply elem_of_nil in Hu); cbn; lia.
  - intros. apply coherent0.
  - intros t a Ht. repeat (apply elem_of_cons in Ht as [->|Ht] || by apply elem_of_nil in Ht); done.
  - unfold in_range. intros t a Ht Ha. apply clean0. revert Ha.
    repeat (apply elem_of_cons in Ht as [->|Ht] || by apply elem_of_nil in Ht); cbn; lia.
Qed.

Lemma gemm_ready0 : ready w0.
Proof. by split. Qed.

Lemma aligned0 : (256 | base dev).
Proof. by exists 0x50. Qed.

Lemma gemm_run_batch_result_witness :
  exists w', gemm_run_batch dev clk (Waiting 3) (Some [tile1; tile2]) 0 true 4 w0 = Some (RC_OK, w') /\ ready w' /\
    (forall d P Q o, (d, P, Q) ∈ tile_products 16 (view (ms w0)) (a_mem (acc w0)) [tile1; tile2] ->
       0 <= o < tile_size true ->
       (cpu_load (d + o) (ms w')).1 = tile_byte true (4 .& 0x1f) (matprod 16 P Q) o) /\
    (forall a, (forall t, t ∈ [tile1; tile2] -> ~ in_range a (dest t) (tile_size true)) -> a <> maint_scratch ->
       coherent (ms w0) a -> view (ms w') a = view (ms w0) a /\ coherent (ms w') a).
Proof.
  apply (gemm_run_batch_result dev clk (Waiting 3) aligned0 16 4 true);
    [discriminate|reflexivity || (cbn; lia)|discriminate|exact gemm_ready0|exact (batch0 true)].
Defined.

Lemma gemm_run_batch_timeout_witness :
  exists w', gemm_run_batch dev clk (Never 1) (Some [tile1; tile2]) 0 true 4 w0 = Some (RC_ERR ETIMEDOUT, w') /\
    ready w' /\ qDone (acc w') = false /\ sem_count (done (gd w')) = 0.
Proof.
  apply (gemm_run_batch_timeout dev clk (Never 1) aligned0 16 0 4 true [tile1; tile2] 1 w0);
    [reflexivity|reflexivity|lia|discriminate|cbn; lia|reflexivity| |exact gemm_ready0].
  apply Forall_cons. split; [apply (tile_ok_buffers 16 true), tile1_ok|].
  apply Forall_cons. split; [apply (tile_ok_buffers 16 true), tile2_ok|constructor].
Defined.

Lemma gemm_run_batch_refuses_witness :
  let run tiles st i8 := gemm_run_batch dev clk (Waiting 3) tiles st i8 4 w0 in
  run None 0 true = Some (RC_ERR EINVAL, w0) /\
  run (Some (repeat tile1 9)) 0 true = Some (RC_ERR EBUSY, w0) /\
  run (Some [tile1]) 32 true = Some (RC_ERR EINVAL, w0).
Proof.
  cbn zeta. split; [|split].
  - pose proof (gemm_run_batch_refuses dev clk (Waiting 3) aligned0 None 0 4 true w0) as H.
    apply (proj1 (H ltac:(cbn; lia))). reflexivity.
  - pose proof (gemm_run_batch_refuses dev clk (Waiting 3) aligned0 (Some (repeat tile1 9)) 0 4 true w0) as H.
    apply (proj1 (proj2 (H ltac:(cbn; lia)))); [discriminate|cbn; lia].
  - pose proof (gemm_run_batch_refuses dev clk (Waiting 3) aligned0 (Some [tile1]) 32 4 true w0) as H.
    apply (proj2 (proj2 (H ltac:(cbn; lia)))); [discriminate|cbn; lia|reflexivity|lia].
Defined.

Lemma gemm_flush_operands_coherent_witness :
  exists w', gemm_flush_operands (Some [tile1; tile2]) w0 = Some (RC_OK, w') /\
    (forall t a, t ∈ [tile1; tile2] -> covers (dim * k_len t) true t a -> coherent (ms w0) a ->
       dirty_at (ms w') a = false /\ dma_read a (ms w') = view (ms w0) a) /\
    (forall a, a <> maint_scratch -> coherent (ms w0) a -> view (ms w') a = view (ms w0) a /\ coherent (ms w') a).
Proof.
  apply (gemm_flush_operands_coherent [tile1; tile2] w0); [discriminate|reflexivity|].
  intros t Ht. repeat (apply elem_of_cons in Ht as [->|Ht] || by apply elem_of_nil in Ht);
    (split; [cbn; lia|]); split; intros E; try discriminate E; apply buffer_at; cbn; lia.
Defined.

Lemma desc_push_roundtrip_witness :
  desc_word tile2 = 0x11110 /\
  ctl_kLen (desc_word tile2) = k_len tile2 /\ ctl_panelUse (desc_word tile2) = panel_use tile2 mod bPanels /\
  ctl_panelLoad (desc_word tile2) = panel_load tile2 mod bPanels /\ ctl_bOnly (desc_word tile2) = b_only tile2.
Proof.
  split; [reflexivity|]. apply (desc_push_roundtrip tile2). split; [|split]; split; reflexivity || discriminate.
Defined.

Lemma gemm_init_ready_witness :
  exists w', gemm_init dev (mret ()) w0 = Some (RC_OK, w') /\ ready w' /\ sem_count (done (gd w')) = 0 /\
    info (gd w') = mk_info dim maxK bPanels /\ ms w' = ms w0 /\ acc w' = acc w0.
Proof. apply (gemm_init_ready dev aligned0 (mret ()) w0); reflexivity. Defined.
End GemmWitness.
