(* ===== verification/GemmDemo.v ===== *)
(** * A client of the accelerator driver,
    [src/zephyr/samples/gemm_threads/src/main.c]

    The data path of the two-thread demonstration: staging the operands with
    CPU stores, sixteen batches on them, and the check of every result byte
    with CPU loads, all through the cache, driver and accelerator of [Gemm];
    the worker's loop and its baseline run; and everything [main] reports, from
    the geometry line to the verdict, on the kernel's readings of clock and
    thread usage, which are parameters.  The scheduling of the two threads and
    the thread table are the kernel's. *)

From S2P Require Import Prelude Zephyr Dcache CacheDriver MmAccel Gemm.

(** ** Data *)

Definition BATCHES : Z := 16.
Definition MAX_TILES : Z := 8.
Definition tile_sweep : list Z := [1; 2; 4; 8].
Definition KLEN : Z := 64.
Definition OUT_SHIFT : Z := 6.

(** Link-time addresses of the three static arrays. *)
Class DemoArrays : Type := { a_panel : Z; b_panel_at : Z; dest_at : Z }.

(** [b_panel[p]] and [dest[p]]. *)
Definition b_panel `{DemoArrays} (p : Z) : Z := b_panel_at + p * (16 * KLEN).
Definition dest_tile `{DemoArrays} (p : Z) : Z := dest_at + p * (16 * 16).

(** The file's [dim], [k_len] and [panels]. *)
Record geometry : Type := mk_geometry { g_dim : Z; g_k_len : Z; g_panels : Z }.

Definition read_geometry (info : gemm_info) : geometry :=
  mk_geometry (info_dim info)
    (if info_max_k info <? KLEN then info_max_k info else KLEN)
    (if truthy (info_panels info) then info_panels info else 1).

(** ** The measurement *)

(** The worker's kernel: four rounds of a 32-bit generator. *)
Definition churn (seed : Z) : Z :=
  for_upto 4 (fun _ seed => let seed := u32 (seed * 1664525 + 1013904223) in seed .^ (seed .>> 13)) seed.

(** The worker thread: its volatile counters and its accumulator. *)
Record worker_state : Type := mk_worker { work_polls : Z; work_done : Z; work_sink : Z; w_acc : Z }.

Definition worker_start : worker_state := mk_worker 0 0 0 1.

(** One pass of its loop, with the value of [work_run] it reads. *)
Definition worker_pass (work_run : bool) (s : worker_state) : worker_state :=
  if work_run
  then let acc := churn (w_acc s) in mk_worker (u32 (work_polls s + 1)) (u32 (work_done s + 1)) acc acc
  else mk_worker (u32 (work_polls s + 1)) (work_done s) (work_sink s) (w_acc s).

(** The kernel's readings around the baseline run, in which the worker has the
    CPU to itself: the cycle counter before and after the sleep, the passes the
    worker made before it was told to work and those it finished while it was. *)
Record baseline_use : Type := mk_baseline { b_t0 : Z; b_t1 : Z; b_idle : nat; b_work : nat }.

Definition reset_counters (s : worker_state) : worker_state := mk_worker 0 0 (work_sink s) (w_acc s).

(** The baseline line: iterations, cycles, cycles per iteration. *)
Definition baseline_run (u : baseline_use) : Z * Z * Z :=
  let s := reset_counters (Nat.iter (b_idle u) (worker_pass false) worker_start) in
  let baseline := work_done (Nat.iter (b_work u) (worker_pass true) s) in
  let baseline_cycles := u32 (b_t1 u - b_t0 u) in
  (baseline, baseline_cycles, if truthy baseline then baseline_cycles / baseline else 0).

Record run_result : Type := mk_run { wall : Z; gemm_ran : Z; worker_ran : Z; st : gemm_stats }.

(** What the kernel accounts for a run: the cycle counter before and after, the
    submitting thread's cycles, the worker's before and after. *)
Record usage : Type := mk_usage { u_t0 : Z; u_t1 : Z; u_gemm : Z; u_work0 : Z; u_work1 : Z }.

(** The low word of a thread's 64-bit [execution_cycles]. *)
Definition thread_cycles (execution_cycles : Z) : Z := u32 execution_cycles.

Definition run_of (u : usage) (s : gemm_stats) : run_result :=
  mk_run (u32 (u_t1 u - u_t0 u)) (thread_cycles (u_gemm u))
    (u32 (thread_cycles (u_work1 u) - thread_cycles (u_work0 u))) s.

(** A batch size with its polling run and its two interrupt runs. *)
Definition point : Type := Z * (run_result * run_result * run_result).

(** The columns of a report row. *)
Definition report_row (r : run_result) : list Z :=
  let seen := if truthy (isr_seen (st r)) then isr_seen (st r) else 1 in
  [wall r / BATCHES; gemm_ran r / BATCHES; worker_ran r / BATCHES; flush_cycles (st r) / BATCHES;
   isr_cycles (st r) / seen; resume_cycles (st r) / seen; already_done (st r)].

(** The better of the two interrupt runs, by wall time. *)
Definition best_irq (irq_run fvr_run : run_result) : run_result :=
  if wall fvr_run <? wall irq_run then fvr_run else irq_run.

(** The line on the submitting thread: cycles freed or cost, the two wall times
    and their difference. *)
Inductive submitter : Type := Frees (cycles : Z) | Costs (cycles : Z).

Definition point_submitter (poll_run irq_run fvr_run : run_result) : submitter * (Z * Z * Z) :=
  let best := best_irq irq_run fvr_run in
  let p_sub := gemm_ran poll_run / BATCHES in
  let i_sub := gemm_ran best / BATCHES in
  let p_wall := wall poll_run / BATCHES in
  let i_wall := wall best / BATCHES in
  (if i_sub <? p_sub then Frees (u32 (p_sub - i_sub)) else Costs (u32 (i_sub - p_sub)),
   (p_wall, i_wall, if p_wall <? i_wall then u32 (i_wall - p_wall) else u32 (p_wall - i_wall))).

(** The verdict of a point, from its polling and its two interrupt runs. *)
Inductive net : Type :=
  | FasterAndFrees
  | Ahead (worker extra ahead : Z)
  | NotCovered (worker extra : Z).

Definition point_net (poll_run irq_run fvr_run : run_result) : net :=
  let p_wall := wall poll_run / BATCHES in
  let best := best_irq irq_run fvr_run in
  let i_wall := wall best / BATCHES in
  let i_work := worker_ran best / BATCHES in
  if i_wall <=? p_wall then FasterAndFrees
  else if u32 (i_wall - p_wall) <? i_work
  then Ahead i_work (u32 (i_wall - p_wall)) (u32 (i_work - u32 (i_wall - p_wall)))
  else NotCovered i_work (u32 (i_wall - p_wall)).

(** [crossover], point by point: set where the interrupt wins, unless set. *)
Definition next_crossover (crossover n : Z) (v : net) : Z :=
  match v with NotCovered _ _ => crossover | _ => if truthy crossover then crossover else n end.

Definition crossover_of (points : list point) : Z :=
  fold_left (fun c '(n, (p, i, f)) => next_crossover c n (point_net p i f)) points 0.

(** ** The data path *)

Section Demo.
Context `{DcGeom} `{AccelGeom} `{CacheMaint} `{SysUtil} `{KernelSync} `{DemoArrays}.

Definition stage_operands (g : geometry) : M memsys () :=
  for_M (Z.to_nat (g_dim g)) 0 (fun lane =>
    for_M (Z.to_nat (g_k_len g)) 0 (fun k =>
      _ ← store (a_panel + (lane * g_k_len g + k)) (u8 (lane + 1));
      for_M (Z.to_nat MAX_TILES) 0 (fun p =>
        store (b_panel p + (lane * g_k_len g + k)) (u8 (lane + 1 + p))))).

Definition demo_tile (g : geometry) (p : Z) : gemm_tile :=
  mk_tile a_panel (b_panel p) (dest_tile p) (u16 (g_k_len g)) (u8 (p mod g_panels g)) (u8 (p mod g_panels g))
    (negb (p =? 0)) true.

Definition demo_tiles (g : geometry) (n_tiles : Z) : list gemm_tile := demo_tile g <$> seqZ 0 n_tiles.

(** [gemm_bad] and [words_checked]. *)
Definition check_results (g : geometry) (n_tiles : Z) (st : Z * Z) : M memsys (Z * Z) :=
  bad ← for_MS (Z.to_nat n_tiles) 0 (fun p bad =>
          for_MS (Z.to_nat (g_dim g)) 0 (fun i bad =>
            for_MS (Z.to_nat (g_dim g)) 0 (fun j bad =>
              let want := s8 ((i + 1) * (j + 1 + p)) in
              v ← load (dest_tile p + (i * g_dim g + j));
              mret (if s8 v =? want then bad else s32 (bad + 1))) bad) bad) st.1;
  mret (bad, s32 (st.2 + n_tiles * g_dim g * g_dim g)).

Variable cfg : gemm_config.
Variable clock_at : nat -> Z.

(** The batch loop, left at the first failure; [timing] says when each batch
    completes. *)
Fixpoint run_batches (timing : nat -> completion) (n : nat) (tiles : list gemm_tile) : M gsys () :=
  match n with
  | O => mret ()
  | S n' =>
      r ← gemm_run_batch cfg clock_at (timing n') (Some tiles) 0 true OUT_SHIFT;
      if bool_decide (r = RC_OK) then run_batches timing n' tiles else mret ()
  end.

Definition gemm_runner (timing : nat -> completion) (g : geometry) (n_tiles : Z) (st : Z * Z) : M gsys (Z * Z) :=
  let tiles := demo_tiles g n_tiles in
  _ ← gemm_flush_operands (Some tiles);
  _ ← run_batches timing (Z.to_nat BATCHES) tiles;
  on_ms (check_results g n_tiles st).

(** A run: the kernel's readings around it and the driver's statistics after. *)
Definition run_mode (timing : nat -> completion) (u : usage) (g : geometry) (poll : bool) (n_tiles : Z) (c : Z * Z)
  : M gsys (Z * Z * run_result) :=
  _ ← gemm_set_poll_mode poll;
  _ ← gemm_reset_stats;
  c ← gemm_runner timing g n_tiles c;
  s ← gemm_get_stats;
  mret (c, run_of u s).

(** One point of the sweep: polling, and the interrupt with either timeout.
    [timing n r] and [acct n r] are about run [r] of the point with [n] tiles. *)
Definition run_point (timing : nat -> nat -> completion) (acct : nat -> usage) (g : geometry) (n : Z) (c : Z * Z)
  : M gsys (Z * Z * point) :=
  x ← run_mode (timing 0%nat) (acct 0%nat) g true n c;
  y ← run_mode (timing 1%nat) (acct 1%nat) g false n x.1;
  z ← run_mode (timing 2%nat) (acct 2%nat) g false n y.1;
  mret (z.1, (n, (x.2, y.2, z.2))).

Fixpoint run_sweep (timing : Z -> nat -> nat -> completion) (acct : Z -> nat -> usage) (g : geometry)
    (l : list Z) (c : Z * Z) : M gsys (Z * Z * list point) :=
  match l with
  | [] => mret (c, [])
  | n :: l' =>
      x ← run_point (timing n) (acct n) g n c;
      y ← run_sweep timing acct g l' x.1;
      mret (y.1, x.2 :: y.2)
  end.

(** [main]'s report: the geometry line (dim, maxK, panels and the running K),
    the baseline line, the points it prints rows for, the crossover of the
    verdict, and the result check: PASS when [gemm_bad] is 0. *)
Record demo_report : Type := mk_report
  { geometry_line : Z * Z * Z * Z; baseline_line : Z * Z * Z; points : list point; crossover : Z;
    gemm_bad : Z; words_checked : Z }.

Inductive demo_outcome : Type := NotReady | Report (r : demo_report).

Definition demo_main (device_ready : bool) (alone : baseline_use) (timing : Z -> nat -> nat -> completion)
    (acct : Z -> nat -> usage) : M gsys demo_outcome :=
  if negb device_ready then mret NotReady
  else
    i ← gemm_get_info;
    let g := read_geometry i in
    _ ← on_ms (stage_operands g);
    x ← run_sweep timing acct g tile_sweep (0, 0);
    mret (Report (mk_report (info_dim i, info_max_k i, info_panels i, g_k_len g) (baseline_run alone)
      x.2 (crossover_of x.2) x.1.1 x.1.2)).
End Demo.

(** ** The verdict *)

(** The worker's counters: every pass, and the passes it was told to work. *)
Lemma worker_counts (l : list bool) (s : worker_state) :
  is_uint 32 (work_polls s) -> is_uint 32 (work_done s) ->
  let s' := fold_left (fun s b => worker_pass b s) l s in
  work_polls s' = u32 (work_polls s + Z.of_nat (length l)) /\
  work_done s' = u32 (work_done s + Z.of_nat (length (filter (fun b => b = true) l))).
Proof.
  cbn zeta. revert s. induction l as [|b l IH]; intros s Hp Hd.
  - cbn. unfold u32. by rewrite !Z.add_0_r, !uwrap_id.
  - assert (forall z n, u32 (u32 (z + 1) + Z.of_nat n) = u32 (z + Z.of_nat (S n))) as Hstep.
    { intros z n. unfold u32, uwrap. rewrite Zplus_mod_idemp_l. f_equal. lia. }
    cbn [fold_left]. destruct (IH (worker_pass b s)) as [-> ->].
    1, 2: destruct b; cbn; (done || by apply (uwrap_range 32)).
    destruct b; cbn [worker_pass work_polls work_done length]; rewrite !Hstep.
    + by rewrite filter_cons_True.
    + by rewrite filter_cons_False.
Qed.

(** The baseline's iteration count is the number of passes the worker finished
    while it was told to work, modulo 2^32. *)
Lemma worker_works (n : nat) (s : worker_state) :
  work_done s = u32 (work_done s) -> work_done (Nat.iter n (worker_pass true) s) = u32 (work_done s + Z.of_nat n).
Proof.
  intros Hs. induction n as [|n IH]; [by rewrite Z.add_0_r|]. rewrite Nat.iter_succ.
  cbn [worker_pass work_done]. rewrite IH. unfold u32, uwrap. rewrite Zplus_mod_idemp_l. f_equal. lia.
Qed.

Lemma baseline_count (u : baseline_use) : (baseline_run u).1.1 = u32 (Z.of_nat (b_work u)).
Proof. unfold baseline_run. cbn [fst]. by rewrite worker_works. Qed.

(** The crossover the verdict prints is the first batch size of the sweep at
    which the interrupt run wins. *)
Definition wins (v : net) : bool := match v with NotCovered _ _ => false | _ => true end.

Lemma crossover_from (points : list point) (c : Z) :
  Forall (fun x => x.1 <> 0) points ->
  fold_left (fun c '(n, (p, i, f)) => next_crossover c n (point_net p i f)) points c =
    if truthy c then c
    else from_option fst 0 (find (fun '(_, (p, i, f)) => wins (point_net p i f)) points).
Proof.
  intros Hp. revert c. induction Hp as [|[n [[p i] f]] points Hn _ IH]; intros c; cbn [fold_left find].
  - unfold truthy. by destruct (Z.eqb_spec c 0).
  - rewrite IH. cbn in Hn. unfold next_crossover. destruct (point_net p i f); cbn [wins]; try done.
    all: destruct (truthy c) eqn:Ec; [by rewrite Ec|]; unfold truthy; by destruct (Z.eqb_spec n 0).
Qed.

(** ** Staging *)

Section Proofs.
Context {geom : DcGeom} {geom_ok : DcGeomOk} {ag : AccelGeom} {ag_ok : AccelGeomOk}.
Context {cm : CacheMaint} {cm_ok : CacheMaintOk} {util : SysUtil} {util_ok : SysUtilSpec}.
Context {sync : KernelSync} {sync_ok : KernelSyncSpec}.
Context {arr : DemoArrays}.

(** The operand arrays. *)
Definition in_panels (b : Z) : Prop := in_range b a_panel 1024 \/ in_range b b_panel_at 8192.

Definition staged (b : Z) : Z :=
  if (a_panel <=? b) && (b <? a_panel + 1024) then (b - a_panel) / 64 + 1
  else (b - b_panel_at) mod 1024 / 64 + 1 + (b - b_panel_at) / 1024.

(** Where the three arrays may be: covered by cache maintenance, and the
    results on cache lines of their own. *)
Record arrays_ok : Prop := {
  a_ok : buffer_ok a_panel 1024;
  b_ok : buffer_ok b_panel_at 8192;
  dest_ok : buffer_ok dest_at 2048;
  panels_apart : forall b, in_range b a_panel 1024 -> ~ in_range b b_panel_at 8192;
  dest_lines : forall a b, in_panels a -> in_range b dest_at 2048 -> ~ same_line a b;
}.

Hypothesis arrays : arrays_ok.
Hypothesis dim8 : dim <= 8.

Definition demo_geometry : geometry := mk_geometry dim 64 bPanels.

Lemma staged_a (lane k : Z) : 0 <= lane < 16 -> 0 <= k < 64 -> staged (a_panel + (lane * 64 + k)) = lane + 1.
Proof. intros Hl Hk. unfold staged. zbool; cbn; divlia. Qed.

Lemma staged_b (p lane k : Z) :
  0 <= p < 8 -> 0 <= lane < 16 -> 0 <= k < 64 -> staged (b_panel p + (lane * 64 + k)) = lane + 1 + p.
Proof.
  intros Hp Hl Hk. unfold staged, b_panel, KLEN.
  pose proof (panels_apart arrays (b_panel_at + p * (16 * 64) + (lane * 64 + k))) as Hap. unfold in_range in Hap.
  zbool; cbn; try lia; divlia.
Qed.

Lemma stage_run (s : memsys) :
  exists s', stage_operands demo_geometry s = Some ((), s') /\
    wrote staged in_panels (fun b => exists lane k, 0 <= lane < dim /\ 0 <= k < 64 /\
      (b = a_panel + (lane * 64 + k) \/ exists p, 0 <= p < 8 /\ b = b_panel p + (lane * 64 + k))) s s'.
Proof.
  pose proof dim_range. unfold stage_operands. cbn [demo_geometry g_dim g_k_len].
  edestruct (wrote_loop staged in_panels (fun lane b => exists k, 0 <= k < 64 /\
      (b = a_panel + (lane * 64 + k) \/ exists p, 0 <= p < 8 /\ b = b_panel p + (lane * 64 + k)))
      (Z.to_nat dim)) as (s' & R & Hw); [|exists s'; split; [exact R|]].
  2:{ eapply wrote_trans; [apply wrote_none|exact Hw|]. intros b (lane & k & Hl & Hk & Hb). right.
      exists lane. split; [lia|]. by exists k. }
  intros lane s1 Hl. rewrite Z2Nat.id in Hl by lia.
  edestruct (wrote_loop staged in_panels (fun k b =>
      b = a_panel + (lane * 64 + k) \/ exists p, 0 <= p < 8 /\ b = b_panel p + (lane * 64 + k))
      (Z.to_nat 64)) as (s2 & R & Hw); [|exists s2; split; [exact R|]].
  2:{ eapply wrote_trans; [apply wrote_none|exact Hw|]. intros b (k & Hk & Hb). right. exists k. split; [lia|done]. }
  intros k s3 Hk. rewrite Z2Nat.id in Hk by lia.
  assert (u8 (lane + 1) = lane + 1) as Ea by (apply uwrap_id; unfold is_uint; lia).
  pose proof (wrote_store staged in_panels (a_panel + (lane * 64 + k)) (u8 (lane + 1)) s3) as W1.
  set (s4 := cpu_store _ _ s3) in W1.
  edestruct (wrote_loop staged in_panels (fun p b => b = b_panel p + (lane * 64 + k)) (Z.to_nat MAX_TILES)
    (fun p => store (b_panel p + (lane * 64 + k)) (u8 (lane + 1 + p))) s4) as (s5 & R & Hw).
  - intros p s5 Hp. change (Z.of_nat (Z.to_nat MAX_TILES)) with 8 in Hp. eexists. split; [reflexivity|].
    eapply wrote_trans; [apply wrote_none|apply wrote_store|intros b ->; by right].
    + right. unfold in_range, b_panel, KLEN. lia.
    + rewrite staged_b by lia. apply uwrap_id. unfold is_uint. lia.
  - exists s5. split; [erewrite M_bind_Some by reflexivity; exact R|].
    eapply wrote_trans; [apply W1|exact Hw|].
    + left. unfold in_range. lia.
    + by rewrite staged_a, Ea by lia.
    + intros b [->|(p & Hp & ->)]; [by left|right]. exists p. split; [|done].
      change (Z.of_nat (Z.to_nat MAX_TILES)) with 8. lia.
Qed.
(** ** The demonstration's batches *)

(** A staged operand byte. *)
Definition staged_byte (b : Z) : Prop :=
  exists lane k, 0 <= lane < dim /\ 0 <= k < 64 /\
    (b = a_panel + (lane * 64 + k) \/ exists p, 0 <= p < 8 /\ b = b_panel p + (lane * 64 + k)).

Record staged_ok (s : memsys) : Prop := {
  so_bytes : forall b, staged_byte b -> view s b = staged b /\ coherent s b;
  so_dest : forall b, in_range b dest_at 2048 -> dirty_at s b = false;
}.

Definition flushed (s : memsys) : Prop := forall b, in_range b a_panel (dim * 64) -> dirty_at s b = false.

Lemma buffer_ok_sub (p size q n : Z) : buffer_ok p size -> p <= q -> 0 <= n -> q + n <= p + size -> buffer_ok q n.
Proof.
  intros (Hp & Hs & Hov & Hpriv) Hq Hn Hqn. split; [lia|]. split; [lia|]. split; [lia|]. intros b [H1 H2].
  apply Hpriv. split; [|lia]. etransitivity; [|exact H1]. apply Z.div_le_mono; [apply LINE_BYTES_pos|lia].
Qed.

Lemma a_buffer : buffer_ok a_panel (dim * 64).
Proof. pose proof dim_range. apply (buffer_ok_sub a_panel 1024); [apply arrays|lia..]. Qed.
Lemma b_buffer (p : Z) : 0 <= p < 8 -> buffer_ok (b_panel p) (dim * 64).
Proof. intros Hp. pose proof dim_range. unfold b_panel, KLEN. apply (buffer_ok_sub b_panel_at 8192); [apply arrays|lia..]. Qed.
Lemma dest_buffer (p : Z) : 0 <= p < 8 -> buffer_ok (dest_tile p) (tile_size true).
Proof.
  intros Hp. pose proof dim_range. unfold dest_tile, tile_size. apply (buffer_ok_sub dest_at 2048); [apply arrays|nia..].
Qed.

Lemma staged_byte_panel (b : Z) : staged_byte b -> in_panels b.
Proof.
  pose proof dim_range. intros (lane & k & Hl & Hk & [->|(p & Hp & ->)]); [left|right]; unfold in_range, b_panel, KLEN; lia.
Qed.

Lemma panel_scratch (b : Z) : in_panels b -> ~ same_line maint_scratch b /\ b <> maint_scratch.
Proof. intros [Hb|Hb]; [apply (buffer_ok_scratch _ _ b (a_ok arrays) Hb)|apply (buffer_ok_scratch _ _ b (b_ok arrays) Hb)]. Qed.

Lemma dest_scratch (b : Z) : in_range b dest_at 2048 -> ~ same_line maint_scratch b /\ b <> maint_scratch.
Proof. intros Hb. apply (buffer_ok_scratch _ _ b (dest_ok arrays) Hb). Qed.

Lemma staged_ok_frame (s s' : memsys) :
  frame maint_scratch s s' -> staged_ok s -> staged_ok s' /\ (flushed s -> flushed s').
Proof.
  intros (Hw & Hv & Hd) [Hb Hdest]. split; [split|].
  - intros b Hs. destruct (panel_scratch b (staged_byte_panel b Hs)) as [_ Hne].
    destruct (Hb b Hs) as [<- Hc]. by apply Hv.
  - intros b Hin. destruct (dest_scratch b Hin). auto.
  - intros Hf b Hin. destruct (buffer_ok_scratch _ _ _ a_buffer Hin). auto.
Qed.

Lemma stage_ok (s : memsys) :
  (forall b, in_range b dest_at 2048 -> dirty_at s b = false) ->
  exists s', stage_operands demo_geometry s = Some ((), s') /\ staged_ok s'.
Proof.
  intros Hd. destruct (stage_run s) as (s' & R & Hb & _ & Hcl). exists s'. split; [done|]. split; [exact Hb|].
  intros b Hin. apply Hcl; [|by apply Hd]. intros a Ha. by apply (dest_lines arrays).
Qed.

Lemma seqZ_induct (P : Z -> Z -> Prop) :
  (forall m n, n <= 0 -> P m n) -> (forall m n, 0 < n -> P (m + 1) (n - 1) -> P m n) -> forall m n, P m n.
Proof.
  intros H0 HS m n. remember (Z.to_nat n) as k eqn:Ek. revert m n Ek.
  induction k as [|k IH]; intros m n Ek; [apply H0; lia|]. apply HS; [lia|]. apply IH. lia.
Qed.

Lemma demo_tiles_elem (n : Z) (t : gemm_tile) :
  t ∈ demo_tiles demo_geometry n -> exists p, 0 <= p < n /\ t = demo_tile demo_geometry p.
Proof. unfold demo_tiles. intros (p & -> & Hp%elem_of_seqZ)%list_elem_of_fmap. exists p. split; [lia|done]. Qed.

Lemma u8_panel (p : Z) : 0 <= p -> 0 <= u8 (p mod bPanels) < 256.
Proof. intros. apply (uwrap_range 8). lia. Qed.

Lemma demo_tile_ok (p : Z) : 0 <= p < 8 -> 64 <= maxK -> tile_ok 64 true (demo_tile demo_geometry p).
Proof.
  intros Hp Hm. pose proof (u8_panel p). split; cbn; try done.
  - unfold tile_fields, is_uint. cbn. change (u16 64) with 64. lia.
  - intros _. apply a_buffer.
  - by apply b_buffer.
  - by apply dest_buffer.
Qed.

Lemma demo_pairs (m n : Z) :
  0 <= m -> ForallOrdPairs (fun t u => forall a, in_range a (dest t) (tile_size true) ->
    ~ in_range a (dest u) (tile_size true)) (demo_tile demo_geometry <$> seqZ m n).
Proof.
  pose proof dim_range. assert (tile_size true <= 64) as Hts by (unfold tile_size; nia).
  revert m n. apply (seqZ_induct (fun m n => 0 <= m -> ForallOrdPairs _ (demo_tile demo_geometry <$> seqZ m n))).
  - intros m n Hn _. rewrite seqZ_nil by done. constructor.
  - intros m n Hn IH Hm. rewrite seqZ_cons by done. cbn [fmap list_fmap]. constructor.
    + apply Forall_fmap, Forall_forall. intros q Hq%elem_of_seqZ a. unfold in_range.
      cbn [demo_tile dest]. unfold dest_tile. lia.
    + replace (Z.succ m) with (m + 1) by lia. replace (Z.pred n) with (n - 1) by lia. apply IH. lia.
Qed.

Lemma demo_operand (p a : Z) : 0 <= p < 8 -> operand_byte 64 (demo_tile demo_geometry p) a -> staged_byte a.
Proof.
  intros Hp [[_ Ha]|Ha]; unfold in_range in Ha; cbn in Ha.
  - exists ((a - a_panel) / 64), ((a - a_panel) mod 64). split; [divlia|]. split; [divlia|]. left. divlia.
  - exists ((a - b_panel p) / 64), ((a - b_panel p) mod 64). split; [divlia|]. split; [divlia|].
    right. exists p. split; [done|divlia].
Qed.

Lemma demo_batch_ok (n : Z) (s : memsys) :
  1 <= n <= 8 -> 64 <= maxK -> staged_ok s -> flushed s -> batch_ok 64 true (demo_tiles demo_geometry n) s.
Proof.
  intros Hn Hm [Hb Hd] Hf. pose proof dim_range. assert (tile_size true <= 64) as Hts by (unfold tile_size; nia). split.
  - by exists 4.
  - lia.
  - apply Forall_forall. intros t (p & Hp & ->)%demo_tiles_elem. apply demo_tile_ok; lia.
  - apply demo_pairs. lia.
  - intros t u a (p & Hp & ->)%demo_tiles_elem (q & Hq & ->)%demo_tiles_elem Ha Ho.
    apply demo_operand, staged_byte_panel in Ho; [|lia]. apply (dest_lines arrays a a); [done| |done].
    unfold in_range in *. cbn [demo_tile dest] in Ha. unfold dest_tile in Ha. lia.
  - intros t a (p & Hp & ->)%demo_tiles_elem Ho. apply Hb. apply (demo_operand p); [lia|done].
  - intros t a (p & Hp & ->)%demo_tiles_elem _ _ Ha. apply Hf. exact Ha.
  - intros t a (p & Hp & ->)%demo_tiles_elem Ha. apply Hd. unfold in_range in *. cbn [demo_tile dest] in Ha. unfold dest_tile in Ha. lia.
Qed.

(** Rows, columns and destination of tile [p]. *)
Lemma demo_products_from (m n p : Z) (mm : mem) (A : Z -> Z -> Z) :
  1 <= m -> m <= p < m + n ->
  (dest_tile p, A, src_panel mm (b_panel p) 64) ∈ tile_products 64 mm A (demo_tile demo_geometry <$> seqZ m n).
Proof.
  revert m n. apply (seqZ_induct (fun m n => 1 <= m -> m <= p < m + n ->
    (dest_tile p, A, src_panel mm (b_panel p) 64) ∈ tile_products 64 mm A (demo_tile demo_geometry <$> seqZ m n))).
  - intros m n Hn _ Hp. lia.
  - intros m n Hn IH Hm Hp. rewrite seqZ_cons by done. cbn [fmap list_fmap tile_products demo_tile b_only dest b_src].
    destruct (Z.eqb_spec m 0); [lia|]. cbn [negb]. destruct (Z.eq_dec p m) as [->|Hne]; [left|right].
    replace (Z.succ m) with (m + 1) by lia. replace (Z.pred n) with (n - 1) by lia. apply IH; lia.
Qed.

Lemma demo_products (n p : Z) (mm : mem) (A : Z -> Z -> Z) :
  0 <= p < n ->
  (dest_tile p, src_panel mm a_panel 64, src_panel mm (b_panel p) 64) ∈ tile_products 64 mm A (demo_tiles demo_geometry n).
Proof.
  intros Hp. unfold demo_tiles. rewrite seqZ_cons by lia. cbn [fmap list_fmap tile_products demo_tile b_only dest b_src a_src].
  cbn [Z.eqb negb]. destruct (Z.eq_dec p 0) as [->|]; [left|right]. apply demo_products_from; lia.
Qed.

(** ** The results *)

Definition expected (p i j : Z) : Z := (i + 1) * (j + 1 + p).

Definition results (n : Z) (s : memsys) : Prop :=
  forall p i j, 0 <= p < n -> 0 <= i < dim -> 0 <= j < dim ->
    coherent s (dest_tile p + (i * dim + j)) /\ view s (dest_tile p + (i * dim + j)) = u8 (expected p i j).

Lemma expected_range (p i j : Z) : 0 <= p < 8 -> 0 <= i < dim -> 0 <= j < dim -> 1 <= expected p i j <= 120.
Proof. unfold expected. nia. Qed.

Lemma zsum_const (n c : Z) : 0 <= n -> zsum n (fun _ => c) = n * c.
Proof.
  intros Hn. apply (for_upto_inv (fun i s => s = i * c) n (fun k s => s + c) 0); [done|lia|]. intros; lia.
Qed.

(** The 64 products add up to 64 times the entry, and the shift by 6 divides
    that out. *)
Lemma demo_entry (p i j : Z) (P Q : Z -> Z -> Z) :
  0 <= p < 8 -> 0 <= i < dim -> 0 <= j < dim ->
  (forall k, 0 <= k < 64 -> P i k = i + 1) -> (forall k, 0 <= k < 64 -> Q j k = j + 1 + p) ->
  tile_byte true (OUT_SHIFT .& 0x1f) (matprod 64 P Q) (i * dim + j) = u8 (expected p i j).
Proof.
  intros Hp Hi Hj HP HQ. pose proof dim_range. pose proof (expected_range p i j Hp Hi Hj) as He.
  unfold tile_byte. rewrite Z.div_add_l, Z.div_small, Z.add_0_r by lia.
  replace ((i * dim + j) mod dim) with j by (rewrite Z.add_comm, Z.mod_add, Z.mod_small; lia).
  assert (matprod 64 P Q i j = 64 * expected p i j) as ->.
  { unfold matprod. rewrite (zsum_ext 64 _ (fun _ => expected p i j)).
    - rewrite zsum_const by lia. apply swrap_id; [lia|]. unfold is_sint. cbn. lia.
    - intros k Hk. rewrite HP, HQ by done. unfold expected, s8. rewrite !swrap_id; unfold is_sint; cbn; lia. }
  change (OUT_SHIFT .& 0x1f) with 6. unfold requant. change (6 =? 0) with false. change (u32 (1 .<< (6 - 1))) with 32.
  cbn [negb]. rewrite Z.shiftr_div_pow2 by lia. change (2 ^ 6) with 64.
  replace ((64 * expected p i j + 32) / 64) with (expected p i j) by divlia.
  destruct (Z.ltb_spec 127 (expected p i j)); [lia|]. destruct (Z.ltb_spec (expected p i j) (-128)); [lia|]. done.
Qed.

Lemma dest_in (n p i j : Z) :
  0 <= p < n -> n <= 8 -> 0 <= i < dim -> 0 <= j < dim -> in_range (dest_tile p + (i * dim + j)) dest_at 2048.
Proof. intros. unfold in_range, dest_tile. nia. Qed.

(** The check's loads find every entry right. *)
Lemma check_run (n : Z) (st : Z * Z) (s : memsys) :
  1 <= n <= 8 -> results n s ->
  exists s', check_results demo_geometry n st s = Some ((st.1, s32 (st.2 + n * dim * dim)), s') /\ frame maint_scratch s s'.
Proof.
  intros Hn Hres. pose proof dim_range. unfold check_results. cbn [demo_geometry g_dim].
  set (I := fun (bad : Z) (s' : memsys) => bad = st.1 /\ frame maint_scratch s s').
  edestruct (for_MS_inv (fun _ => I) (Z.to_nat n) 0) as (b' & s' & R & HI).
  3:{ rewrite (M_bind_Some _ _ _ _ _ R). destruct HI as [-> HF]. exists s'. split; [reflexivity|exact HF]. }
  { split; [done|apply frame_refl]. }
  intros p b1 s1 Hp H1. edestruct (for_MS_inv (fun _ => I) (Z.to_nat dim) 0) as (b2 & s2 & R2 & H2);
    [exact H1| |exists b2, s2; split; [exact R2|exact H2]].
  intros i b3 s3 Hi H3. edestruct (for_MS_inv (fun _ => I) (Z.to_nat dim) 0) as (b4 & s4 & R4 & H4);
    [exact H3| |exists b4, s4; split; [exact R4|exact H4]].
  intros j b5 s5 Hj [-> HF]. rewrite Z2Nat.id in Hp, Hi, Hj by lia.
  destruct (Hres p i j) as [Hc Hv]; [lia..|].
  destruct (dest_scratch _ (dest_in n p i j ltac:(lia) ltac:(lia) ltac:(lia) ltac:(lia))) as [_ Hne].
  destruct (proj1 (proj2 HF) _ Hne Hc) as [Hv5 Hc5].
  exists st.1, (cpu_load (dest_tile p + (i * dim + j)) s5).2. split.
  - assert ((cpu_load (dest_tile p + (i * dim + j)) s5).1 = u8 (expected p i j)) as El
      by (rewrite cpu_load_value by done; congruence).
    unfold load. unfold mbind, M_bind, mret, M_ret. destruct (cpu_load _ s5) as [v s6]. cbn [fst snd] in *. subst v.
    unfold u8, s8. rewrite swrap_uwrap. fold (expected p i j). by rewrite Z.eqb_refl.
  - split; [done|]. eapply frame_trans; [exact HF|apply frame_load].
Qed.

(** One batch: its results, and everything the next one needs. *)
Lemma demo_batch (cfg : gemm_config) (clock_at : nat -> Z) (timing : completion) (n : Z) (w : gsys) :
  (256 | base cfg) -> (forall k, timing <> Never k) -> 1 <= n <= 8 -> 8 <= descDepth -> 64 <= maxK ->
  ready w -> staged_ok (ms w) -> flushed (ms w) ->
  exists w', gemm_run_batch cfg clock_at timing (Some (demo_tiles demo_geometry n)) 0 true OUT_SHIFT w = Some (RC_OK, w') /\
    ready w' /\ staged_ok (ms w') /\ flushed (ms w') /\ results n (ms w').
Proof.
  intros Hbase Htm Hn Hdepth Hm Hr Hs Hf. pose proof dim_range.
  assert (Z.of_nat (length (demo_tiles demo_geometry n)) = n) as Hlen.
  { unfold demo_tiles. rewrite length_fmap, length_seqZ. lia. }
  destruct (batch_run cfg clock_at timing Hbase 64 OUT_SHIFT true (demo_tiles demo_geometry n) w)
    as (w' & R & Hr' & Hres & Hout & Hcl); [|lia|done|done|by apply demo_batch_ok|].
  { intros E. rewrite E in Hlen. cbn in Hlen. lia. }
  exists w'. split; [done|]. split; [done|].
  assert (forall b, in_panels b -> forall t, t ∈ demo_tiles demo_geometry n -> ~ in_range b (dest t) (tile_size true)) as Hap.
  { intros b Hb t (p & Hp & ->)%demo_tiles_elem Hin. apply (dest_lines arrays b b Hb); [|done].
    unfold in_range in *. cbn [demo_tile dest] in Hin. unfold dest_tile, tile_size in Hin. nia. }
  split; [split|split].
  - intros b Hb. pose proof (staged_byte_panel b Hb) as Hp. destruct (so_bytes _ Hs b Hb) as [<- Hc].
    apply Hout; [by apply Hap|by apply panel_scratch|done].
  - intros b Hb. apply Hcl; [by apply dest_scratch|by apply (so_dest _ Hs)].
  - intros b Hb. apply Hcl; [apply (buffer_ok_scratch _ _ _ a_buffer Hb)|by apply Hf].
  - intros p i j Hp Hi Hj.
    destruct (Hres (dest_tile p) (src_panel (view (ms w)) a_panel 64) (src_panel (view (ms w)) (b_panel p) 64) (i * dim + j))
      as [Hc Hv]; [by apply demo_products|unfold tile_size; nia|].
    split; [exact Hc|]. rewrite Hv. apply demo_entry; [lia|done|done| |]; intros k Hk; unfold src_panel; rewrite <-Z.add_assoc.
    + rewrite (proj1 (so_bytes _ Hs _ ltac:(exists i, k; by eauto))). apply staged_a; lia.
    + rewrite (proj1 (so_bytes _ Hs _ ltac:(exists j, k; split; [done|split; [done|right; exists p; split; [lia|done]]]))).
      rewrite staged_b by lia. lia.
Qed.

Lemma demo_batches (cfg : gemm_config) (clock_at : nat -> Z) (timing : nat -> completion) (n : Z) (k : nat) (w : gsys) :
  (256 | base cfg) -> (forall i j, timing i <> Never j) -> 1 <= n <= 8 -> 8 <= descDepth -> 64 <= maxK ->
  ready w -> staged_ok (ms w) -> flushed (ms w) ->
  exists w', run_batches cfg clock_at timing k (demo_tiles demo_geometry n) w = Some ((), w') /\
    ready w' /\ staged_ok (ms w') /\ (k <> 0%nat -> results n (ms w')).
Proof.
  intros Hbase Htm Hn Hdepth Hm. revert w. induction k as [|k IH]; intros w Hr Hs Hf; [by exists w|].
  destruct (demo_batch cfg clock_at (timing k) n w) as (w1 & R1 & Hr1 & Hs1 & Hf1 & Hres1); [done..|].
  cbn [run_batches]. rewrite (M_bind_Some _ _ _ _ _ R1). cbn [bool_decide decide decide_rel].
  destruct (IH w1 Hr1 Hs1 Hf1) as (w2 & R2 & Hr2 & Hs2 & Hres2). exists w2.
  rewrite bool_decide_eq_true_2 by done. split; [exact R2|]. split; [done|]. split; [done|]. intros _.
  destruct k as [|k]; [cbn in R2; injection R2 as <-; done|by apply Hres2].
Qed.

(** ** The sweep *)

Lemma flush_demo (n : Z) (w : gsys) :
  1 <= n <= 8 -> 64 <= maxK -> ready w -> staged_ok (ms w) ->
  exists w', gemm_flush_operands (Some (demo_tiles demo_geometry n)) w = Some (RC_OK, w') /\
    ready w' /\ staged_ok (ms w') /\ flushed (ms w').
Proof.
  intros Hn Hm Hr Hs. pose proof dim_range.
  assert (demo_tile demo_geometry 0 ∈ demo_tiles demo_geometry n) as H0.
  { unfold demo_tiles. apply list_elem_of_fmap. exists 0. split; [done|]. apply elem_of_seqZ. lia. }
  destruct (flush_operands_run (demo_tiles demo_geometry n) w) as (s' & R & F & D).
  - intros E. rewrite E in H0. by apply elem_of_nil in H0.
  - apply Hr.
  - intros t (p & Hp & ->)%demo_tiles_elem. cbn [demo_tile k_len a_src b_src g_k_len demo_geometry].
    change (u16 64) with 64. split; [lia|]. split; intros _; [apply a_buffer|apply b_buffer; lia].
  - eexists. split; [exact R|]. destruct (staged_ok_frame _ _ F Hs) as [Hs' _]. split; [by destruct Hr|]. split; [done|].
    intros b Hb. apply (D (demo_tile demo_geometry 0) b H0). left. split; [|exact Hb].
    cbn [demo_tile a_src andb]. apply truthy_nonzero. destruct (a_ok arrays). lia.
Qed.

Lemma set_poll_run (poll : bool) (w : gsys) :
  ready w ->
  exists g', gemm_set_poll_mode poll w = Some ((), mk_gsys (ms w) (acc w) g' (ticks w)) /\
    ready (mk_gsys (ms w) (acc w) g' (ticks w)).
Proof.
  intros Hr. destruct (mutex_lock_run w Hr) as (m & Rm & Hf).
  exists (set_lock (mutex_unlock m) (set_poll poll (set_lock m (gd w)))). split.
  - unfold gemm_set_poll_mode. rewrite (M_bind_Some _ _ _ _ _ Rm). by erewrite M_bind_Some by reflexivity.
  - destruct Hr. by split.
Qed.

Lemma run_mode_run (cfg : gemm_config) (clock_at : nat -> Z) (timing : nat -> completion) (u : usage) (poll : bool)
    (n : Z) (c : Z * Z) (w : gsys) :
  (256 | base cfg) -> (forall i j, timing i <> Never j) -> 1 <= n <= 8 -> 8 <= descDepth -> 64 <= maxK ->
  ready w -> staged_ok (ms w) ->
  exists s w', run_mode cfg clock_at timing u demo_geometry poll n c w =
      Some ((c.1, s32 (c.2 + n * dim * dim), run_of u s), w') /\
    ready w' /\ staged_ok (ms w').
Proof.
  intros Hbase Htm Hn Hdepth Hm Hr Hs. unfold run_mode.
  destruct (set_poll_run poll w Hr) as (g0 & R0 & Hr0). rewrite (M_bind_Some _ _ _ _ _ R0). erewrite M_bind_Some by reflexivity. cbn [ms acc gd ticks].
  match goal with |- exists _ _, (_ ← gemm_runner _ _ _ _ _ _; _) ?u = _ /\ _ => set (w1 := u) end.
  assert (ready w1) as Hr1 by by destruct Hr0.
  destruct (flush_demo n w1 Hn Hm Hr1 Hs) as (w2 & R2 & Hr2 & Hs2 & Hf2). unfold gemm_runner.
  rewrite M_bind_assoc, (M_bind_Some _ _ _ _ _ R2).
  destruct (demo_batches cfg clock_at timing n (Z.to_nat BATCHES) w2) as (w3 & R3 & Hr3 & Hs3 & Hres); [done..|].
  rewrite M_bind_assoc, (M_bind_Some _ _ _ _ _ R3).
  destruct (check_run n c (ms w3) Hn) as (s4 & R4 & F4); [by apply Hres|].
  exists (stats (gd w3)), (mk_gsys s4 (acc w3) (gd w3) (ticks w3)).
  split; [|split; [by destruct Hr3|apply (staged_ok_frame _ _ F4 Hs3)]].
  erewrite M_bind_Some by (unfold on_ms, mbind; cbn; rewrite R4; reflexivity). reflexivity.
Qed.

(** The runs of a point are the kernel's readings, with some statistics. *)
Definition measured (acct : Z -> nat -> usage) (n : Z) (x : point) : Prop :=
  exists s0 s1 s2, x = (n, (run_of (acct n 0%nat) s0, run_of (acct n 1%nat) s1, run_of (acct n 2%nat) s2)).

Lemma run_sweep_run (cfg : gemm_config) (clock_at : nat -> Z) (timing : Z -> nat -> nat -> completion)
    (acct : Z -> nat -> usage) (l : list Z) (bad words : Z) (w : gsys) :
  (256 | base cfg) -> (forall n r i j, timing n r i <> Never j) -> 8 <= descDepth -> 64 <= maxK ->
  Forall (fun n => 1 <= n <= 8) l -> 0 <= words -> words + Z.of_nat (length l) * 1536 < 2 ^ 31 ->
  ready w -> staged_ok (ms w) ->
  exists pts w', run_sweep cfg clock_at timing acct demo_geometry l (bad, words) w =
      Some ((bad, fold_left (fun a n => a + 3 * n * dim * dim) l words, pts), w') /\
    Forall2 (measured acct) l pts.
Proof.
  intros Hbase Htm Hdepth Hm Hl. pose proof dim_range. revert words w.
  induction Hl as [|n l Hn _ IH]; intros words w Hw0 Hw Hr Hs; [by exists [], w|].
  cbn [run_sweep length fold_left] in *. assert (0 <= n * dim * dim <= 512) by nia. unfold run_point.
  assert (forall k, 0 <= k <= 1024 -> s32 (words + k + n * dim * dim) = words + k + n * dim * dim) as Hs32.
  { intros k Hk. apply swrap_id; unfold is_sint; [lia|]. change (2 ^ (32 - 1)) with (2 ^ 31). lia. }
  destruct (run_mode_run cfg clock_at (timing n 0%nat) (acct n 0%nat) true n (bad, words) w)
    as (s0 & w1 & R1 & Hr1 & Hs1); [done..|].
  destruct (run_mode_run cfg clock_at (timing n 1%nat) (acct n 1%nat) false n (bad, words + n * dim * dim) w1)
    as (s1 & w2 & R2 & Hr2 & Hs2); [done..|].
  destruct (run_mode_run cfg clock_at (timing n 2%nat) (acct n 2%nat) false n
    (bad, words + 2 * (n * dim * dim)) w2) as (s2 & w3 & R3 & Hr3 & Hs3); [done..|].
  cbn [fst snd] in R1, R2, R3.
  replace (s32 (words + n * dim * dim)) with (words + n * dim * dim) in R1 by (specialize (Hs32 0); rewrite Z.add_0_r in Hs32; by rewrite Hs32).
  rewrite Hs32 in R2, R3 by lia.
  rewrite M_bind_assoc, (M_bind_Some _ _ _ _ _ R1), M_bind_assoc. cbn [fst snd].
  rewrite (M_bind_Some _ _ _ _ _ R2), M_bind_assoc. cbn [fst snd].
  replace (words + n * dim * dim + n * dim * dim) with (words + 2 * (n * dim * dim)) by lia.
  rewrite (M_bind_Some _ _ _ _ _ R3), M_ret_bind. cbn [fst snd].
  replace (words + 2 * (n * dim * dim) + n * dim * dim) with (words + 3 * n * dim * dim) by lia.
  destruct (IH (words + 3 * n * dim * dim) w3) as (pts & w4 & R4 & HF); [lia|lia|done|done|].
  rewrite (M_bind_Some _ _ _ _ _ R4). eexists _, w4. split; [reflexivity|].
  constructor; [|done]. by exists s0, s1, s2.
Qed.

Lemma measured_sizes (acct : Z -> nat -> usage) (l : list Z) (pts : list point) :
  Forall2 (measured acct) l pts -> Forall (fun n => n <> 0) l -> Forall (fun x => x.1 <> 0) pts.
Proof.
  induction 1 as [|n x l pts (s0 & s1 & s2 & ->) _ IH]; intros Hl; [constructor|].
  apply Forall_cons in Hl as [Hn Hl]. constructor; [exact Hn|by apply IH].
Qed.

(** ** Properties *)

(** C9: the demonstration reports PASS on any geometry it fits: with operands
    staged by CPU stores, one operand flush per run and sixteen batches of
    [src_coherent] tiles, in polling and in interrupt mode and whenever the
    completions come, every result byte that [check_results] loads is right, for
    all twelve runs; the crossover it reports is the first batch size of the
    sweep at which the interrupt wins on the kernel's readings; and the lines
    before state the geometry and the worker's iterations with the CPU alone. *)
Theorem demo_main_passes (cfg : gemm_config) (clock_at : nat -> Z) (alone : baseline_use)
    (timing : Z -> nat -> nat -> completion) (acct : Z -> nat -> usage) (w : gsys) :
  (256 | base cfg) -> (forall n r i j, timing n r i <> Never j) -> 8 <= descDepth -> 64 <= maxK ->
  ready w -> info (gd w) = mk_info dim maxK bPanels ->
  (forall b, in_range b dest_at 2048 -> dirty_at (ms w) b = false) ->
  exists rep w',
    demo_main cfg clock_at true alone timing acct w = Some (Report rep, w') /\
    gemm_bad rep = 0 /\ words_checked rep = 45 * (dim * dim) /\
    Forall2 (measured acct) tile_sweep (points rep) /\
    crossover rep = from_option fst 0 (find (fun '(_, (p, i, f)) => wins (point_net p i f)) (points rep)) /\
    geometry_line rep = (dim, maxK, bPanels, 64) /\ (baseline_line rep).1.1 = u32 (Z.of_nat (b_work alone)).
Proof.
  intros Hbase Htm Hdepth Hm Hr Hi Hd. pose proof bPanels_range. pose proof dim_range. unfold demo_main. cbn [negb].
  erewrite M_bind_Some by reflexivity. rewrite Hi.
  assert (read_geometry (mk_info dim maxK bPanels) = demo_geometry) as ->.
  { unfold read_geometry, demo_geometry, KLEN. cbn. rewrite truthy_nonzero by lia.
    by destruct (Z.ltb_spec maxK 64); [lia|]. }
  destruct (stage_ok (ms w) Hd) as (s1 & R1 & Hs1).
  erewrite M_bind_Some by (unfold on_ms; unfold mbind; cbn; rewrite R1; reflexivity).
  destruct (run_sweep_run cfg clock_at timing acct tile_sweep 0 0 (mk_gsys s1 (acc w) (gd w) (ticks w)))
    as (pts & w' & R & HF); try done.
  - repeat constructor; cbn; lia.
  - by destruct Hr.
  - rewrite (M_bind_Some _ _ _ _ _ R). eexists _, w'. split; [reflexivity|].
    cbn [fst snd gemm_bad words_checked points crossover geometry_line baseline_line info_dim info_max_k info_panels].
    split_and!; [done| |done| |done|apply baseline_count].
    + cbn -[Z.mul]. lia.
    + unfold crossover_of. rewrite crossover_from; [done|].
      apply (measured_sizes acct _ _ HF). repeat constructor; discriminate.
Qed.

End Proofs.

(** The sweep's verdict: [crossover] ends as the first batch size at which
    the better interrupt run is no slower than polling, or gains more worker
    cycles than the wall time it costs; as 0 when there is none. *)
Theorem crossover_is_first_win (points : list point) :
  Forall (fun x => x.1 <> 0) points ->
  crossover_of points = from_option fst 0 (find (fun '(_, (p, i, f)) => wins (point_net p i f)) points).
Proof. intros Hp. unfold crossover_of. by rewrite crossover_from. Qed.

(** ** The properties at work *)

Module GemmDemoWitness.
Import GemmWitness.
#[local] Existing Instance geom_fpga.
#[local] Existing Instance cfg_16k.
#[local] Existing Instance accel_fpga.
#[local] Existing Instance maint.
#[local] Existing Instance maint_ok.
#[local] Instance demo_arrays : DemoArrays :=
  {| a_panel := 0x120000; b_panel_at := 0x120400; dest_at := 0x122400 |}.

Lemma buffer_in (p size : Z) :
  0x120000 <= p -> 0 <= size -> p + size <= 0x123000 -> buffer_ok p size.
Proof.
  intros Hp Hs Hps. unfold buffer_ok. change LINE_BYTES with 16.
  split; [lia|split; [done|split; [lia|]]]. intros b [H1 H2]. change LINE_BYTES with 16 in *.
  cbn. unfold in_displace_buf, same_line, slot. change DC_BYTES with 16384. change displace_buf with 0x104000.
  change LINE_BYTES with 16. intros [Hl|Hl]; divlia.
Qed.

Lemma demo_arrays_ok : arrays_ok.
Proof.
  split; try (apply buffer_in; cbn; lia); unfold in_panels, in_range, same_line; cbn.
  - lia.
  - change LINE_BYTES with 16. intros a b Ha Hb. divlia.
Qed.

Definition acct0 (n : Z) (r : nat) : usage :=
  match r with
  | O => mk_usage 0 (1600 * n) (1600 * n) 0 0
  | _ => mk_usage 500 (500 + 3200) 800 0 (if n =? 4 then 6400 else 0)
  end.

Definition alone0 : baseline_use := mk_baseline 1000 12001000 3 (Z.to_nat 240).

Lemma demo_main_passes_witness :
  exists rep w',
    demo_main dev clk true alone0 (fun n r i => if Nat.even i then Early else Waiting i) acct0 w0 = Some (Report rep, w') /\
    gemm_bad rep = 0 /\ words_checked rep = 45 * (8 * 8) /\
    Forall2 (measured acct0) tile_sweep (points rep) /\
    crossover rep = from_option fst 0 (find (fun '(_, (p, i, f)) => wins (point_net p i f)) (points rep)) /\
    geometry_line rep = (8, 64, 4, 64) /\ (baseline_line rep).1.1 = u32 (Z.of_nat (b_work alone0)).
Proof.
  apply (demo_main_passes (ag := accel_fpga) demo_arrays_ok (Z.le_refl 8) dev clk alone0 _ acct0 w0 aligned0).
  - intros n r i j. by destruct (Nat.even i).
  - discriminate.
  - discriminate.
  - exact gemm_ready0.
  - reflexivity.
  - intros b Hb. apply clean0. unfold in_range in Hb. cbn in Hb. lia.
Defined.

Lemma crossover_is_first_win_witness :
  let run w k := mk_run w 0 k no_stats in
  let points := [(1, (run 1600 0, run 3200 800, run 3200 800)); (4, (run 1600 0, run 3200 3200, run 1760 16));
                 (8, (run 3200 0, run 3200 0, run 1600 0))] in
  crossover_of points = 8 /\
  crossover_of points = from_option fst 0 (find (fun '(_, (p, i, f)) => wins (point_net p i f)) points).
Proof.
  cbn zeta. split; [reflexivity|]. apply crossover_is_first_win. repeat constructor; discriminate.
Defined.
End GemmDemoWitness.
