(* ===== verification/Intc.v ===== *)
(** * The interrupt controller and its Zephyr driver

    [Module IntcHw] is [src/src/intc.v], one clock cycle at a time.  The driver
    definitions after it are
    [src/zephyr/drivers/interrupt_controller/intc_rv32_5stage.c], run against
    that hardware: every register access is one request cycle on the bus
    followed by any number of idle cycles, while the interrupt lines follow an
    arbitrary schedule. *)

From S2P Require Import Prelude Zephyr.

Definition NUM_SOURCES : Z := 8.

(** ** The hardware, [intc.v] *)
Module IntcHw.

Record intc : Type := mk_intc {
  enable : Z;
  pending : Z;
  irq_in_prev : Z;
  d_rdata : Z;
  d_ready : bool;
}.

(** The bus inputs of a cycle: no request, or [(d_we, d_addr, d_wdata)]. *)
Definition bus_req : Type := option (bool * Z * Z).

Definition reset : intc := mk_intc 0 0 0 0 false.

Definition irq_out (st : intc) : bool := negb (pending st .& enable st =? 0).

Definition irq_edge (st : intc) (irq_in : Z) : Z :=
  uwrap NUM_SOURCES irq_in .& Z.lnot (irq_in_prev st).

Definition is_intc_addr (a : Z) : bool := a .>> 12 =? 4.
Definition is_enable_reg (a : Z) : bool := a .& 0xfff =? 0x0.
Definition is_pending_reg (a : Z) : bool := a .& 0xfff =? 0x4.

(** One rising clock edge out of reset. *)
Definition cycle (req : bus_req) (irq_in : Z) (st : intc) : intc :=
  let latched := pending st .| irq_edge st irq_in in
  let prev := uwrap NUM_SOURCES irq_in in
  match req with
  | Some (d_we, d_addr, d_wdata) =>
      if is_intc_addr d_addr then
        if d_we && is_enable_reg d_addr then
          mk_intc (uwrap NUM_SOURCES d_wdata) latched prev 0 true
        else if d_we && is_pending_reg d_addr then
          mk_intc (enable st) (latched .& Z.lnot (uwrap NUM_SOURCES d_wdata)) prev 0 true
        else if negb d_we && is_enable_reg d_addr then
          mk_intc (enable st) latched prev (enable st) true
        else if negb d_we && is_pending_reg d_addr then
          mk_intc (enable st) latched prev (pending st) true
        else mk_intc (enable st) latched prev 0 true
      else mk_intc (enable st) latched prev 0 false
  | None => mk_intc (enable st) latched prev 0 false
  end.
End IntcHw.
Import IntcHw.

(** ** The world of the driver

    [lines t] are the interrupt lines in cycle [t]; [gap t] is the number of
    cycles the CPU takes between a request in cycle [t] and its next one;
    [rest] is the state the child interrupt handlers act on. *)
Record world (T : Type) : Type := mk_world {
  hw : intc;
  lines : nat -> Z;
  gap : nat -> nat;
  now : nat;
  rest : T;
}.
Arguments mk_world {T}.
Arguments hw {T}.
Arguments lines {T}.
Arguments gap {T}.
Arguments now {T}.
Arguments rest {T}.

Section World.
Context {T : Type}.

Definition tick (req : bus_req) (w : world T) : world T :=
  mk_world (cycle req (lines w (now w)) (hw w)) (lines w) (gap w) (S (now w)) (rest w).

Fixpoint idle (n : nat) (w : world T) : world T :=
  match n with O => w | S n' => idle n' (tick None w) end.

(** A bus transaction: [cpu.v] raises the request for one cycle, takes the
    registered read data, and moves on. *)
Definition transact (req : bus_req) : M (world T) Z := fun w =>
  let w1 := tick req w in
  Some (d_rdata (hw w1), idle (gap w (now w)) w1).

#[export] Instance intc_mmio : Mmio (world T) := {
  sys_read32 := fun a => transact (Some (false, a, 0));
  sys_write32 := fun v a => _ ← transact (Some (true, a, v)); mret ();
}.
End World.

(** ** The driver *)

Definition INTC_ENABLE_REG : Z := 0x0.
Definition INTC_PENDING_REG : Z := 0x4.

Record intc_config : Type := { base : Z; isr_table_offset : Z }.

(** The devicetree's [reg = <0x00004000 0x8>]. *)
Definition cfg_4000 (off : Z) : intc_config := {| base := 0x4000; isr_table_offset := off |}.

Section Driver.
Context {W : Type} `{Mmio W} `{SysUtil}.
(** [_sw_isr_table], the kernel's table of child handlers. *)
Variable sw_isr_table : Z -> M W ().
Variable cfg : intc_config.
(** C does not order the two reads of the [&] in the handler. *)
Variable pending_first : bool.

Definition read_active : M W Z :=
  if pending_first
  then (p ← sys_read32 (base cfg + INTC_PENDING_REG);
        e ← sys_read32 (base cfg + INTC_ENABLE_REG); mret (p .& e))
  else (e ← sys_read32 (base cfg + INTC_ENABLE_REG);
        p ← sys_read32 (base cfg + INTC_PENDING_REG); mret (p .& e)).

Definition intc_isr (fuel : nat) : M W () :=
  pending ← read_active;
  _ ← sys_write32 pending (base cfg + INTC_PENDING_REG);
  _ ← while_M fuel (fun pending => mret (truthy pending))
        (fun pending =>
           let bit := find_lsb_set pending - 1 in
           let pending := u32 (pending .& Z.lnot (BIT bit)) in
           _ ← sw_isr_table (isr_table_offset cfg + bit);
           mret pending)
        pending;
  mret ().

Definition intr_enable (irq : Z) : M W () :=
  enable ← sys_read32 (base cfg + INTC_ENABLE_REG);
  _ ← sys_write32 (BIT irq) (base cfg + INTC_PENDING_REG);
  sys_write32 (enable .| BIT irq) (base cfg + INTC_ENABLE_REG).

Definition intr_disable (irq : Z) : M W () :=
  enable ← sys_read32 (base cfg + INTC_ENABLE_REG);
  sys_write32 (u32 (enable .& Z.lnot (BIT irq))) (base cfg + INTC_ENABLE_REG).

Definition intr_get_state : M W Z :=
  enable ← sys_read32 (base cfg + INTC_ENABLE_REG);
  mret (Z.b2z (negb (enable =? 0))).

Definition intr_get_line_state (irq : Z) : M W Z :=
  enable ← sys_read32 (base cfg + INTC_ENABLE_REG);
  mret (Z.b2z (negb (enable .& BIT irq =? 0))).

(** [config_func] connects and enables the level-1 line in the kernel. *)
Definition intc_initialize (config_func : M W ()) : M W rc :=
  _ ← sys_write32 0 (base cfg + INTC_ENABLE_REG);
  _ ← sys_write32 (BIT_MASK NUM_SOURCES) (base cfg + INTC_PENDING_REG);
  _ ← config_func;
  mret RC_OK.
End Driver.

(** ** Edges on the interrupt lines *)

Definition line_at (ls : nat -> Z) (t : nat) (k : Z) : bool :=
  Z.testbit (uwrap NUM_SOURCES (ls t)) k.

Definition line_before (ls : nat -> Z) (t : nat) (k : Z) : bool :=
  match t with O => false | S t' => line_at ls t' k end.

(** Line [k] rises in cycle [t] / in some cycle of [[t, t + n)]. *)
Definition edge (ls : nat -> Z) (t : nat) (k : Z) : bool :=
  line_at ls t k && negb (line_before ls t k).

Fixpoint edges (ls : nat -> Z) (t n : nat) (k : Z) : bool :=
  match n with O => false | S n' => edge ls t k || edges ls (S t) n' k end.

Lemma edges_app (ls : nat -> Z) (t n m : nat) (k : Z) :
  edges ls t (n + m) k = edges ls t n k || edges ls (t + n) m k.
Proof.
  revert t. induction n as [|n IH]; intros t; cbn; [by rewrite Nat.add_0_r|].
  rewrite IH, orb_assoc. do 2 f_equal. lia.
Qed.

(** A line that is high before [t] and stays high has no further edge. *)
Lemma edges_stuck_high (ls : nat -> Z) (t n : nat) (k : Z) :
  (forall u, (t <= u)%nat -> line_at ls u k = true) -> edges ls (S t) n k = false.
Proof.
  revert t. induction n as [|n IH]; intros t Hh; [done|]. cbn [edges].
  rewrite IH by (intros u ?; apply Hh; lia). unfold edge. cbn [line_before].
  by rewrite (Hh t), andb_false_r by lia.
Qed.

(** There are only [NUM_SOURCES] lines. *)
Lemma edges_not_a_source (ls : nat -> Z) (t n : nat) (k : Z) :
  k < 0 \/ NUM_SOURCES <= k -> edges ls t n k = false.
Proof.
  intros Hk. revert t. induction n as [|n IH]; intros t; [done|]. cbn [edges]. rewrite IH.
  unfold edge, line_at. destruct Hk; [by rewrite Z.testbit_neg_r|].
  by rewrite (uint_testbit_high NUM_SOURCES _ k) by (done || by apply uwrap_range).
Qed.

Section HwLemmas.
Context {T : Type}.

(** The device registers are eight bits wide and the edge detector holds the
    previous cycle's lines. *)
Definition wf (w : world T) : Prop :=
  is_uint NUM_SOURCES (enable (hw w)) /\ is_uint NUM_SOURCES (pending (hw w)) /\
  irq_in_prev (hw w) =
    match now w with O => 0 | S t => uwrap NUM_SOURCES (lines w t) end.

(** Source [k] is cleared by this bus request. *)
Definition clears (req : bus_req) (k : Z) : bool :=
  match req with
  | Some (true, a, v) =>
      is_intc_addr a && negb (is_enable_reg a) && is_pending_reg a &&
      Z.testbit (uwrap NUM_SOURCES v) k
  | _ => false
  end.

Definition sets_enable (req : bus_req) (en : Z) : Z :=
  match req with
  | Some (true, a, v) =>
      if is_intc_addr a && is_enable_reg a then uwrap NUM_SOURCES v else en
  | _ => en
  end.

Lemma irq_edge_edge (w : world T) (k : Z) :
  wf w -> Z.testbit (irq_edge (hw w) (lines w (now w))) k = edge (lines w) (now w) k.
Proof.
  intros (_ & _ & Hp). unfold irq_edge, edge, line_at. destruct (Z.lt_ge_cases k 0).
  { by rewrite !Z.testbit_neg_r. }
  rewrite Z.land_spec, Z.lnot_spec, Hp by done. do 2 f_equal.
  destruct (now w); [apply Z.bits_0|done].
Qed.

Lemma irq_edge_uint (st : intc) (l : Z) : is_uint NUM_SOURCES (irq_edge st l).
Proof.
  unfold irq_edge. rewrite Z.land_comm. apply land_uint_r; [done|by apply uwrap_range].
Qed.

(** One clock cycle, whatever the bus does. *)
Lemma tick_enable (req : bus_req) (w : world T) :
  enable (hw (tick req w)) = sets_enable req (enable (hw w)).
Proof.
  unfold tick, cycle, sets_enable; cbn. destruct req as [[[[] a] v]|]; [| |done].
  - destruct (is_intc_addr a), (is_enable_reg a); try done. by destruct (is_pending_reg a).
  - destruct (is_intc_addr a), (is_enable_reg a); try done. by destruct (is_pending_reg a).
Qed.

Lemma tick_pending (req : bus_req) (w : world T) (k : Z) :
  wf w -> Z.testbit (pending (hw (tick req w))) k =
    (Z.testbit (pending (hw w)) k || edge (lines w) (now w) k) && negb (clears req k).
Proof.
  intros Hw. rewrite <-(irq_edge_edge w k Hw).
  destruct (Z.lt_ge_cases k 0); [by rewrite !Z.testbit_neg_r|].
  unfold tick, cycle, clears; cbn. destruct req as [[[[] a] v]|]; cbn.
  - destruct (is_intc_addr a), (is_enable_reg a), (is_pending_reg a); cbn;
      by rewrite ?Z.land_spec, ?Z.lor_spec, ?Z.lnot_spec, ?andb_true_r.
  - destruct (is_intc_addr a), (is_enable_reg a), (is_pending_reg a); cbn;
      by rewrite Z.lor_spec, andb_true_r.
  - by rewrite Z.lor_spec, andb_true_r.
Qed.

Lemma wf_tick (req : bus_req) (w : world T) : wf w -> wf (tick req w).
Proof.
  intros Hw. pose proof Hw as (He & Hp & _). split_and!.
  - rewrite tick_enable. destruct req as [[[[] a] v]|]; cbn; [|done..].
    destruct (_ && _); [by apply uwrap_range|done].
  - apply uint_of_testbit; [done|]. intros i Hi. rewrite tick_pending by done.
    rewrite (uint_testbit_high NUM_SOURCES (pending (hw w)) i) by done.
    rewrite <-irq_edge_edge by done.
    rewrite (uint_testbit_high NUM_SOURCES _ i (irq_edge_uint _ _)) by done. done.
  - cbn. destruct req as [[[[] a] v]|]; cbn; [| |done];
      by destruct (is_intc_addr a), (is_enable_reg a), (is_pending_reg a).
Qed.

(** Idle cycles only latch edges. *)
Lemma idle_spec (n : nat) (w : world T) :
  wf w ->
  wf (idle n w) /\ enable (hw (idle n w)) = enable (hw w) /\
  lines (idle n w) = lines w /\ gap (idle n w) = gap w /\
  rest (idle n w) = rest w /\ now (idle n w) = (now w + n)%nat /\
  forall k, Z.testbit (pending (hw (idle n w))) k =
            Z.testbit (pending (hw w)) k || edges (lines w) (now w) n k.
Proof.
  revert w. induction n as [|n IH]; intros w Hw.
  { cbn. split_and!; [done..|lia|]. intros k. by rewrite orb_false_r. }
  cbn [idle]. destruct (IH (tick None w)) as (? & E & ? & ? & ? & Hn & Hp); [by apply wf_tick|].
  split_and!; [done|by rewrite E, tick_enable|done..| |].
  - rewrite Hn. cbn. lia.
  - intros k. rewrite Hp, tick_pending, andb_true_r by done. cbn [edges].
    by rewrite <-orb_assoc.
Qed.

(** What a bus transaction does: the request cycle, then the gap. *)
Definition after (req : bus_req) (w w' : world T) : Prop :=
  wf w' /\ lines w' = lines w /\ gap w' = gap w /\ rest w' = rest w /\
  now w' = (S (now w) + gap w (now w))%nat /\
  enable (hw w') = sets_enable req (enable (hw w)) /\
  forall k, Z.testbit (pending (hw w')) k =
    ((Z.testbit (pending (hw w)) k || edge (lines w) (now w) k) && negb (clears req k))
    || edges (lines w) (S (now w)) (gap w (now w)) k.

Lemma transact_after (req : bus_req) (w : world T) :
  wf w -> exists w', transact req w = Some (d_rdata (hw (tick req w)), w') /\ after req w w'.
Proof.
  intros Hw. eexists. split; [done|].
  destruct (idle_spec (gap w (now w)) (tick req w)) as (? & E & ? & ? & ? & Hn & Hp);
    [by apply wf_tick|].
  unfold after. split_and!; try done.
  - by rewrite E, tick_enable.
  - intros k. rewrite Hp, tick_pending by done. done.
Qed.
End HwLemmas.

(** ** The set bits of a word, lowest first *)

Definition active_sources (x : Z) : list Z := List.filter (Z.testbit x) (seqZ 0 32).

Fixpoint bits_from (f : nat) (i x : Z) : list Z :=
  match f with
  | O => []
  | S f' => if Z.testbit x i then i :: bits_from f' (i + 1) x else bits_from f' (i + 1) x
  end.

Lemma bits_from_filter (f : nat) (i x : Z) :
  List.filter (Z.testbit x) (seqZ i (Z.of_nat f)) = bits_from f i x.
Proof.
  revert i. induction f as [|f IH]; intros i; [done|].
  rewrite seqZ_cons by lia. cbn. replace (Z.succ i) with (i + 1) by lia.
  replace (Z.pred (Z.of_nat (S f))) with (Z.of_nat f) by lia. by rewrite IH.
Qed.

Lemma bits_from_ext (f : nat) (i x y : Z) :
  (forall k, i <= k -> Z.testbit x k = Z.testbit y k) -> bits_from f i x = bits_from f i y.
Proof.
  revert i. induction f as [|f IH]; intros i E; [done|]. cbn.
  rewrite E by lia. rewrite (IH (i + 1)) by (intros; apply E; lia). done.
Qed.

(** Clearing the lowest set bit removes the head of the list. *)
Lemma bits_from_clear (f : nat) (i n x : Z) :
  0 <= i <= n -> n < i + Z.of_nat f -> Z.testbit x n = true ->
  (forall k, i <= k < n -> Z.testbit x k = false) ->
  bits_from f i x = n :: bits_from f i (x .& Z.lnot (2 ^ n)).
Proof.
  assert (forall m k, 0 <= k -> Z.testbit (m .& Z.lnot (2 ^ n)) k
            = Z.testbit m k && negb (n =? k)) as Hb.
  { intros. rewrite Z.land_spec, Z.lnot_spec by done.
    destruct (Z.lt_ge_cases n 0); [|by rewrite Z.pow2_bits_eqb].
    rewrite Z.pow_neg_r, Z.bits_0 by lia. by destruct (Z.eqb_spec n k); [lia|]. }
  revert i. induction f as [|f IH]; intros i Hi Hf Hx Hlow; [lia|]. cbn.
  rewrite Hb by lia. destruct (Z.eqb_spec n i) as [->|Hne].
  - rewrite Hx. cbn. f_equal. apply bits_from_ext. intros k Hk. rewrite Hb by lia.
    destruct (Z.eqb_spec i k); [lia|]. by rewrite andb_true_r.
  - rewrite Hlow by lia. cbn. apply IH; [lia|lia|done|]. intros; apply Hlow; lia.
Qed.

Lemma active_sources_zero : active_sources 0 = [].
Proof. reflexivity. Qed.

Lemma active_sources_length (x : Z) : (length (active_sources x) <= 32)%nat.
Proof.
  unfold active_sources. etransitivity; [apply List.filter_length_le|].
  by rewrite length_seqZ.
Qed.

Lemma active_sources_clear (n x : Z) :
  0 <= n < 32 -> Z.testbit x n = true -> (forall k, 0 <= k < n -> Z.testbit x k = false) ->
  active_sources x = n :: active_sources (x .& Z.lnot (2 ^ n)).
Proof.
  intros. unfold active_sources. change 32 with (Z.of_nat 32).
  rewrite !bits_from_filter. apply bits_from_clear; [lia..|done|done].
Qed.

Lemma active_sources_elem (x k : Z) :
  k ∈ active_sources x <-> 0 <= k < 32 /\ Z.testbit x k = true.
Proof.
  unfold active_sources. rewrite list_elem_of_In, filter_In, <-list_elem_of_In.
  rewrite elem_of_seqZ. done.
Qed.

Lemma bits_from_sorted (f : nat) (i x : Z) :
  StronglySorted Z.lt (bits_from f i x) /\ Forall (fun k => i <= k) (bits_from f i x).
Proof.
  revert i. induction f as [|f IH]; intros i; cbn; [split; constructor|].
  destruct (IH (i + 1)) as [Hs Hf].
  destruct (Z.testbit x i); split; try constructor; try done; try lia;
    (eapply Forall_impl; [exact Hf|]; cbn; lia).
Qed.

Lemma active_sources_sorted (x : Z) : StronglySorted Z.lt (active_sources x).
Proof.
  #[local] Transparent active_sources. unfold active_sources.
  change 32 with (Z.of_nat 32). rewrite bits_from_filter. apply bits_from_sorted.
Qed.
#[global] Opaque active_sources.

(** ** The handler's dispatch loop *)

Fixpoint run_handlers {W : Type} (h : Z -> M W ()) (off : Z) (l : list Z) : M W () :=
  match l with
  | [] => mret ()
  | k :: l' => h (off + k) ≫= fun _ => run_handlers h off l'
  end.

Lemma run_handlers_cons {W : Type} (h : Z -> M W ()) (off k : Z) (l : list Z) (w : W) :
  run_handlers h off (k :: l) w = (h (off + k) ≫= fun _ => run_handlers h off l) w.
Proof. reflexivity. Qed.

#[global] Opaque active_sources.

Section Dispatch.
Context {W : Type} `{SysUtil} `{!SysUtilSpec}.
Variables (h : Z -> M W ()) (off : Z).

Definition dispatch (fuel : nat) : Z -> M W Z :=
  while_M fuel (fun pending => mret (truthy pending))
    (fun pending =>
       let bit := find_lsb_set pending - 1 in
       let pending := u32 (pending .& Z.lnot (BIT bit)) in
       _ ← h (off + bit);
       mret pending).

Lemma active_sources_step (x : Z) :
  is_uint 32 x -> x <> 0 ->
  active_sources x = (find_lsb_set x - 1)
    :: active_sources (u32 (x .& Z.lnot (BIT (find_lsb_set x - 1)))) /\
  is_uint 32 (u32 (x .& Z.lnot (BIT (find_lsb_set x - 1)))).
Proof.
  intros Hx Hnz. destruct (find_lsb_set_spec x Hx Hnz) as (n & -> & Hn & Hb & Hlow).
  replace (n + 1 - 1) with n by lia. rewrite BIT_pow2 by done. unfold u32.
  assert (is_uint 32 (x .& Z.lnot (2 ^ n))) as Hu.
  { rewrite Z.land_comm. by apply land_uint_r. }
  rewrite uwrap_id by done. split; [by apply active_sources_clear|done].
Qed.

Lemma dispatch_step (fuel : nat) (x : Z) (w : W) (k : Z -> M W ()) :
  x <> 0 ->
  (dispatch (S fuel) x ≫= k) w =
  (h (off + (find_lsb_set x - 1)) ≫= fun _ =>
     dispatch fuel (u32 (x .& Z.lnot (BIT (find_lsb_set x - 1)))) ≫= k) w.
Proof.
  intros Hx. unfold dispatch at 1. cbn [while_M]. rewrite M_bind_assoc, M_ret_bind.
  unfold truthy. destruct (Z.eqb_spec x 0); [done|]. cbn [negb].
  rewrite M_bind_assoc, M_bind_assoc. reflexivity.
Qed.

Lemma dispatch_zero (fuel : nat) (w : W) (k : Z -> M W ()) :
  (dispatch (S fuel) 0 ≫= k) w = k 0 w.
Proof. reflexivity. Qed.

(** The loop is the iteration over the set bits, lowest first. *)
Lemma dispatch_run (fuel : nat) (x : Z) (w : W) :
  is_uint 32 x -> (length (active_sources x) < fuel)%nat ->
  (dispatch fuel x ≫= fun _ => mret ()) w = run_handlers h off (active_sources x) w.
Proof.
  revert x w. induction fuel as [|f IH]; intros x w Hx Hf; [lia|].
  destruct (Z.eq_dec x 0) as [->|Hnz].
  { by rewrite dispatch_zero, active_sources_zero. }
  destruct (active_sources_step x Hx Hnz) as [E Hx'].
  assert (Hl := f_equal length E). cbn [length] in Hl.
  rewrite E, (dispatch_step _ _ _ _ Hnz), run_handlers_cons.
  apply M_bind_ext. intros [] w'. apply IH; [exact Hx'|lia].
Qed.

End Dispatch.

(** ** Register accesses of the driver *)

Section DriverLemmas.
Context {T : Type} `{SysUtil} `{!SysUtilSpec}.
Variable off : Z.
Implicit Types w : world T.

(** [evolves clr en w w']: from [w] to [w'] nothing but the device and the
    clock has moved, ENABLE ends as [en], and each PENDING bit is the edges of
    its line since cycle [t] when [clr] says it was cleared in cycle [t], or
    its old value plus all the edges otherwise. *)
Definition evolves (clr : Z -> option nat) (en : Z) w w' : Prop :=
  wf w' /\ lines w' = lines w /\ gap w' = gap w /\ rest w' = rest w /\
  (now w <= now w')%nat /\ enable (hw w') = en /\
  forall k, match clr k with
  | Some t => (now w <= t < now w')%nat /\
      Z.testbit (pending (hw w')) k = edges (lines w) (S t) (now w' - S t) k
  | None => Z.testbit (pending (hw w')) k =
      Z.testbit (pending (hw w)) k || edges (lines w) (now w) (now w' - now w) k
  end.

Definition no_clear : Z -> option nat := fun _ => None.

Lemma evolves_enable clr en w w' : evolves clr en w w' -> enable (hw w') = en.
Proof. by intros (_ & _ & _ & _ & _ & ? & _). Qed.

Lemma evolves_trans clr1 clr2 en1 en2 w1 w2 w3 :
  evolves clr1 en1 w1 w2 -> evolves clr2 en2 w2 w3 ->
  evolves (fun k => match clr2 k with Some t => Some t | None => clr1 k end) en2 w1 w3.
Proof.
  intros (? & L2 & ? & ? & N2 & ? & P2) (? & L3 & ? & ? & N3 & ? & P3).
  split_and!; [done|congruence..|lia|done|]. intros k. specialize (P2 k). specialize (P3 k).
  destruct (clr2 k) as [t|]; [rewrite L2 in P3; split; [lia|apply P3]|].
  destruct (clr1 k) as [t|]; rewrite P3, L2.
  - destruct P2 as [? ->]. split; [lia|].
    replace (now w3 - S t)%nat with ((now w2 - S t) + (now w3 - now w2))%nat by lia.
    rewrite edges_app. do 2 f_equal. lia.
  - rewrite P2.
    replace (now w3 - now w1)%nat with ((now w2 - now w1) + (now w3 - now w2))%nat by lia.
    rewrite edges_app, orb_assoc. do 2 f_equal. lia.
Qed.

Lemma evolves_ext clr clr' en w w' :
  (forall k, clr k = clr' k) -> evolves clr en w w' -> evolves clr' en w w'.
Proof.
  intros E (? & ? & ? & ? & ? & ? & Hp). split_and!; try done.
  intros k. rewrite <-E. apply Hp.
Qed.

(** A transaction takes [S (gap w t)] cycles. *)
Lemma after_evolves (req : bus_req) w w' :
  after req w w' ->
  evolves (fun k => if clears req k then Some (now w) else None)
    (sets_enable req (enable (hw w))) w w' /\ now w' = (S (now w) + gap w (now w))%nat.
Proof.
  intros (? & ? & ? & ? & Hn & He & Hp). split; [|done]. split_and!; [done..|lia|done|].
  intros k. rewrite Hp. destruct (clears req k).
  - split; [lia|]. rewrite andb_false_r. cbn. f_equal. lia.
  - rewrite andb_true_r, Hn.
    replace (S (now w) + gap w (now w) - now w)%nat with (S (gap w (now w))) by lia.
    cbn [edges]. by rewrite orb_assoc.
Qed.

#[local] Abbreviation cfg := (cfg_4000 off).

Lemma read_enable_spec w :
  wf w -> exists w', sys_read32 (base cfg + INTC_ENABLE_REG) w = Some (enable (hw w), w') /\
    evolves no_clear (enable (hw w)) w w' /\ now w' = (S (now w) + gap w (now w))%nat.
Proof.
  intros Hw. destruct (transact_after (Some (false, 0x4000, 0)) w Hw) as (w' & ? & A).
  exists w'. split; [done|]. by apply after_evolves in A.
Qed.

Lemma read_pending_spec w :
  wf w -> exists w', sys_read32 (base cfg + INTC_PENDING_REG) w = Some (pending (hw w), w') /\
    evolves no_clear (enable (hw w)) w w' /\ now w' = (S (now w) + gap w (now w))%nat.
Proof.
  intros Hw. destruct (transact_after (Some (false, 0x4004, 0)) w Hw) as (w' & ? & A).
  exists w'. split; [done|]. by apply after_evolves in A.
Qed.

Lemma write_enable_spec (v : Z) w :
  wf w -> exists w', sys_write32 v (base cfg + INTC_ENABLE_REG) w = Some ((), w') /\
    evolves no_clear (uwrap NUM_SOURCES v) w w' /\ now w' = (S (now w) + gap w (now w))%nat.
Proof.
  intros Hw. destruct (transact_after (Some (true, 0x4000, v)) w Hw) as (w' & Hr & A).
  exists w'. split; [|by apply after_evolves in A].
  unfold sys_write32, intc_mmio. by erewrite M_bind_Some by exact Hr.
Qed.

Lemma write_pending_spec (v : Z) w :
  wf w -> exists w', sys_write32 v (base cfg + INTC_PENDING_REG) w = Some ((), w') /\
    evolves (fun k => if Z.testbit (uwrap NUM_SOURCES v) k then Some (now w) else None)
      (enable (hw w)) w w' /\ now w' = (S (now w) + gap w (now w))%nat.
Proof.
  intros Hw. destruct (transact_after (Some (true, 0x4004, v)) w Hw) as (w' & Hr & A).
  exists w'. split; [|by apply after_evolves in A].
  unfold sys_write32, intc_mmio. by erewrite M_bind_Some by exact Hr.
Qed.

Lemma irq_bit (irq k : Z) :
  0 <= irq < NUM_SOURCES -> Z.testbit (uwrap NUM_SOURCES (BIT irq)) k = (irq =? k).
Proof.
  unfold NUM_SOURCES. intros Hi. rewrite BIT_pow2 by lia.
  destruct (Z.lt_ge_cases k 0).
  { rewrite Z.testbit_neg_r by done. by destruct (Z.eqb_spec irq k); [lia|]. }
  rewrite uwrap_testbit, Z.pow2_bits_eqb by lia.
  destruct (Z.eqb_spec irq k); [|by rewrite andb_false_r].
  destruct (Z.ltb_spec k 8); [done|lia].
Qed.

Lemma set_irq_bit (irq en : Z) :
  0 <= irq < NUM_SOURCES -> is_uint NUM_SOURCES en ->
  uwrap NUM_SOURCES (en .| BIT irq) = en .| 2 ^ irq.
Proof.
  unfold NUM_SOURCES. intros Hi He. rewrite BIT_pow2 by lia. apply uwrap_id, lor_uint; [done..|].
  unfold is_uint. split; [lia|apply Z.pow_lt_mono_r; lia].
Qed.

Lemma clear_irq_bit (irq en : Z) :
  0 <= irq < NUM_SOURCES -> is_uint NUM_SOURCES en ->
  uwrap NUM_SOURCES (u32 (en .& Z.lnot (BIT irq))) = en .& Z.lnot (2 ^ irq).
Proof.
  unfold NUM_SOURCES. intros Hi He. rewrite BIT_pow2 by lia.
  assert (is_uint 8 (en .& Z.lnot (2 ^ irq))) as Hu.
  { rewrite Z.land_comm. by apply land_uint_r. }
  unfold u32. rewrite (uwrap_id 32) by (unfold is_uint in *; lia). by apply uwrap_id.
Qed.

(** The cycle of the [n]-th transaction after one in cycle [t]. *)
Fixpoint nth_req (g : nat -> nat) (t n : nat) : nat :=
  match n with O => t | S n' => nth_req g (S t + g t) n' end.

(** ** [intr_enable]: read ENABLE, clear the stale event, unmask *)
Lemma intr_enable_evolves (irq : Z) w :
  0 <= irq < NUM_SOURCES -> wf w ->
  exists w', intr_enable cfg irq w = Some ((), w') /\
    evolves (fun k => if irq =? k then Some (nth_req (gap w) (now w) 1) else None)
      (enable (hw w) .| 2 ^ irq) w w' /\ now w' = nth_req (gap w) (now w) 3.
Proof.
  intros Hirq Hw.
  destruct (read_enable_spec w Hw) as (w1 & R1 & A1 & N1).
  destruct (write_pending_spec (BIT irq) w1) as (w2 & R2 & A2 & N2); [apply A1|].
  destruct (write_enable_spec (enable (hw w) .| BIT irq) w2) as (w3 & R3 & A3 & N3); [apply A2|].
  exists w3. split_and!.
  - unfold intr_enable. rewrite (M_bind_Some _ _ _ _ _ R1).
    by rewrite (M_bind_Some _ _ _ _ _ R2).
  - pose proof (evolves_trans _ _ _ _ _ _ _ (evolves_trans _ _ _ _ _ _ _ A1 A2) A3) as A.
    rewrite set_irq_bit in A by (done || apply Hw).
    eapply evolves_ext; [|exact A]. intros k. cbn. rewrite irq_bit by done.
    by rewrite N1; destruct (irq =? k).
  - cbn. assert (gap w2 = gap w /\ gap w1 = gap w) as [E2 E1].
    { destruct A1 as (_ & _ & ? & _), A2 as (_ & _ & ? & _). split; congruence. }
    by rewrite N3, E2, N2, E1, N1.
Qed.

(** ** The handler: snapshot, clear, dispatch *)

(** The sources the handler sees: enabled, and pending when PENDING is read. *)
Definition snapshot (pending_first : bool) w (k : Z) : bool :=
  Z.testbit (enable (hw w)) k &&
  (Z.testbit (pending (hw w)) k ||
   (negb pending_first && edges (lines w) (now w) (S (gap w (now w))) k)).

Lemma read_active_spec (pending_first : bool) w :
  wf w -> exists act w', read_active cfg pending_first w = Some (act, w') /\
    evolves no_clear (enable (hw w)) w w' /\ now w' = nth_req (gap w) (now w) 2 /\
    is_uint NUM_SOURCES act /\ forall k, Z.testbit act k = snapshot pending_first w k.
Proof.
  intros Hw. unfold read_active, snapshot. destruct pending_first.
  - destruct (read_pending_spec w Hw) as (w1 & R1 & A1 & N1).
    destruct (read_enable_spec w1) as (w2 & R2 & A2 & N2); [apply A1|].
    exists (pending (hw w) .& enable (hw w1)), w2. split_and!.
    + rewrite (M_bind_Some _ _ _ _ _ R1). by rewrite (M_bind_Some _ _ _ _ _ R2).
    + pose proof (evolves_trans _ _ _ _ _ _ _ A1 A2) as A.
      by rewrite (evolves_enable _ _ _ _ A1) in A.
    + cbn. destruct A1 as (_ & _ & G1 & _). by rewrite N2, G1, N1.
    + apply land_uint_r; [done|]. apply A1.
    + intros k. destruct A1 as (_ & _ & _ & _ & _ & -> & _).
      by rewrite Z.land_spec, orb_false_r, andb_comm.
  - destruct (read_enable_spec w Hw) as (w1 & R1 & A1 & N1).
    destruct (read_pending_spec w1) as (w2 & R2 & A2 & N2); [apply A1|].
    exists (pending (hw w1) .& enable (hw w)), w2. split_and!.
    + rewrite (M_bind_Some _ _ _ _ _ R1). by rewrite (M_bind_Some _ _ _ _ _ R2).
    + pose proof (evolves_trans _ _ _ _ _ _ _ A1 A2) as A.
      by rewrite (evolves_enable _ _ _ _ A1) in A.
    + cbn. destruct A1 as (_ & _ & G1 & _). by rewrite N2, G1, N1.
    + apply land_uint_r; [done|]. apply Hw.
    + intros k. destruct A1 as (_ & _ & _ & _ & _ & _ & P1). specialize (P1 k). cbn in P1.
      rewrite Z.land_spec, P1, andb_comm, N1.
      by replace (S (now w) + gap w (now w) - now w)%nat with (S (gap w (now w))) by lia.
Qed.

Lemma intc_isr_evolves (tbl : Z -> M (world T) ()) (pending_first : bool) (fuel : nat) w :
  wf w -> (32 < fuel)%nat ->
  exists act w1,
    intc_isr tbl cfg pending_first fuel w = run_handlers tbl off (active_sources act) w1 /\
    (forall k, Z.testbit act k = snapshot pending_first w k) /\
    now w1 = nth_req (gap w) (now w) 3 /\
    evolves (fun k => if Z.testbit act k then Some (nth_req (gap w) (now w) 2) else None)
      (enable (hw w)) w w1.
Proof.
  intros Hw Hf.
  destruct (read_active_spec pending_first w Hw) as (act & w2 & R2 & A2 & N2 & Hu & Ha).
  destruct (write_pending_spec act w2) as (w1 & R1 & A1 & N1); [apply A2|].
  exists act, w1. split_and!; [|done| |].
  - unfold intc_isr. rewrite (M_bind_Some _ _ _ _ _ R2), (M_bind_Some _ _ _ _ _ R1).
    apply (dispatch_run tbl off fuel act w1); [unfold is_uint, NUM_SOURCES in *; lia|].
    pose proof (active_sources_length act). lia.
  - destruct A2 as (_ & _ & G2 & _). rewrite N1, G2, N2. reflexivity.
  - pose proof (evolves_trans _ _ _ _ _ _ _ A2 A1) as A.
    rewrite (evolves_enable _ _ _ _ A2), N2 in A.
    eapply evolves_ext; [|exact A]. intros k. cbn. rewrite uwrap_id by done.
    by destruct (Z.testbit act k).
Qed.

(** ** The remaining operations *)

Lemma intr_disable_evolves (irq : Z) w :
  0 <= irq < NUM_SOURCES -> wf w ->
  exists w', intr_disable cfg irq w = Some ((), w') /\
    evolves no_clear (enable (hw w) .& Z.lnot (2 ^ irq)) w w'.
Proof.
  intros Hirq Hw. destruct (read_enable_spec w Hw) as (w1 & R1 & A1 & N1).
  destruct (write_enable_spec (u32 (enable (hw w) .& Z.lnot (BIT irq))) w1)
    as (w2 & R2 & A2 & N2); [apply A1|].
  exists w2. unfold intr_disable. rewrite (M_bind_Some _ _ _ _ _ R1). split; [done|].
  rewrite clear_irq_bit in A2 by (done || apply Hw).
  exact (evolves_trans _ _ _ _ _ _ _ A1 A2).
Qed.

Lemma get_line_state_evolves (irq : Z) w :
  0 <= irq < NUM_SOURCES -> wf w ->
  exists w', intr_get_line_state cfg irq w
      = Some (Z.b2z (Z.testbit (enable (hw w)) irq), w') /\
    evolves no_clear (enable (hw w)) w w'.
Proof.
  unfold NUM_SOURCES. intros Hirq Hw. destruct (read_enable_spec w Hw) as (w1 & R1 & A1 & _).
  exists w1. split; [|done]. unfold intr_get_line_state. rewrite (M_bind_Some _ _ _ _ _ R1).
  rewrite BIT_pow2 by lia. unfold mret, M_ret. do 3 f_equal.
  rewrite Z.land_comm. destruct (Z.testbit (enable (hw w)) irq) eqn:E.
  - apply negb_true_iff, Z.eqb_neq. intros E0.
    assert (Z.testbit (2 ^ irq .& enable (hw w)) irq = false) as Hb by (by rewrite E0, Z.bits_0).
    by rewrite Z.land_spec, E, Z.pow2_bits_true in Hb by lia.
  - apply negb_false_iff, Z.eqb_eq. bitwise k Hk. rewrite Z.pow2_bits_eqb by lia.
    by destruct (Z.eqb_spec irq k) as [->|].
Qed.

Lemma intc_initialize_evolves (config_func : M (world T) ()) w :
  wf w -> exists w1, intc_initialize cfg config_func w = (config_func ≫= fun _ => mret RC_OK) w1 /\
    evolves (fun k => if (0 <=? k) && (k <? NUM_SOURCES)
                      then Some (nth_req (gap w) (now w) 1) else None) 0 w w1.
Proof.
  intros Hw. destruct (write_enable_spec 0 w Hw) as (w1 & R1 & A1 & N1).
  destruct (write_pending_spec (BIT_MASK NUM_SOURCES) w1) as (w2 & R2 & A2 & N2); [apply A1|].
  exists w2. split.
  { unfold intc_initialize. rewrite (M_bind_Some _ _ _ _ _ R1).
    by rewrite (M_bind_Some _ _ _ _ _ R2). }
  pose proof (evolves_trans _ _ _ _ _ _ _ A1 A2) as A.
  rewrite (evolves_enable _ _ _ _ A1), BIT_MASK_ones in A
    by (unfold NUM_SOURCES; lia).
  eapply evolves_ext; [|exact A]. intros k. cbn -[Z.ones]. rewrite N1.
  destruct (Z.leb_spec 0 k); [|by rewrite Z.testbit_neg_r].
  rewrite uwrap_testbit by done. destruct (Z.ltb_spec k NUM_SOURCES); cbn -[Z.ones].
  - by rewrite Z.ones_spec_low.
  - done.
Qed.
End DriverLemmas.

(** ** Running the bus *)

Fixpoint run_bus {T : Type} (reqs : list bus_req) (w : world T) : world T :=
  match reqs with [] => w | r :: rs => run_bus rs (tick r w) end.

Lemma run_bus_app {T : Type} (l1 l2 : list bus_req) (w : world T) :
  run_bus (l1 ++ l2) w = run_bus l2 (run_bus l1 w).
Proof. revert w. induction l1 as [|r l1 IH]; intros w; [done|]. apply IH. Qed.

Lemma run_bus_wf {T : Type} (l : list bus_req) (w : world T) :
  wf w -> wf (run_bus l w) /\ lines (run_bus l w) = lines w /\
  now (run_bus l w) = (now w + length l)%nat.
Proof.
  revert w. induction l as [|r l IH]; intros w Hw; cbn; [by rewrite Nat.add_0_r|].
  destruct (IH (tick r w)) as (? & -> & ->); [by apply wf_tick|]. cbn.
  split_and!; [done..|lia].
Qed.

Lemma pending_kept {T : Type} (l : list bus_req) (k : Z) (w : world T) :
  wf w -> Z.testbit (pending (hw w)) k = true ->
  Forall (fun r => clears r k = false) l ->
  Z.testbit (pending (hw (run_bus l w))) k = true.
Proof.
  revert w. induction l as [|r l IH]; intros w Hw Hp Hl; [done|].
  inversion Hl as [|? ? Hr Hl']; subst. cbn. apply IH; [by apply wf_tick| |done].
  by rewrite tick_pending, Hp, Hr by done.
Qed.

Lemma nonzero_bit (x : Z) : x <> 0 -> exists k, 0 <= k /\ Z.testbit x k = true.
Proof.
  intros Hx. destruct (Z.lt_ge_cases x 0) as [Hn|Hn].
  - exists (Z.succ (Z.log2 (Z.pred (- x)))). pose proof (Z.log2_nonneg (Z.pred (- x))).
    split; [lia|]. apply Z.bits_above_log2_neg; lia.
  - exists (Z.log2 x). split; [apply Z.log2_nonneg|]. apply Z.bit_log2. lia.
Qed.

Lemma irq_out_spec (st : intc) :
  irq_out st = true <->
  exists k, 0 <= k /\ Z.testbit (pending st) k = true /\ Z.testbit (enable st) k = true.
Proof.
  unfold irq_out. rewrite negb_true_iff, Z.eqb_neq. split.
  - intros (k & Hk & Hb)%nonzero_bit. rewrite Z.land_spec, andb_true_iff in Hb. eauto.
  - intros (k & Hk & Hp & He) E.
    assert (Z.testbit (pending st .& enable st) k = false) as Hb by (by rewrite E, Z.bits_0).
    by rewrite Z.land_spec, Hp, He in Hb.
Qed.

(** ** Properties *)

Section Properties.
Context {T : Type} `{SysUtil} `{!SysUtilSpec}.
Implicit Types w : world T.

(** C24: when PENDING bit [k] is set. After any bus traffic on any schedule of
    the lines, the bit is set exactly when an event (a rising edge of line [k],
    or the bit being set at the start) has not been cleared since, and "since"
    includes the cycle of the edge itself: an edge is latched whether or not the
    bus is used and the source enabled, and it is lost when the bus request of
    its own cycle or of a later one writes 1 to the bit. The comment at
    [intc.v:78] says that an edge in the cycle of the clearing write is kept;
    the code drops it, and so does this theorem. *)
Theorem pending_exactly (l : list bus_req) (k : Z) w :
  wf w ->
  Z.testbit (pending (hw (run_bus l w))) k = true <->
  (Z.testbit (pending (hw w)) k = true /\ Forall (fun r => clears r k = false) l) \/
  (exists l1 req l2, l = l1 ++ req :: l2 /\ edge (lines w) (now w + length l1) k = true /\
     Forall (fun r => clears r k = false) (req :: l2)).
Proof.
  revert w. induction l as [|r l IH]; intros w Hw; cbn [run_bus].
  { split; [by left|]. intros [[? _]|(l1 & req & l2 & E & _)]; [done|by destruct l1]. }
  rewrite IH by (by apply wf_tick). rewrite tick_pending by done. cbn [tick lines now]. split.
  - intros [[[Hp Hr%negb_true_iff]%andb_true_iff Hl]|(l1 & req & l2 & -> & He & Hl)].
    + apply orb_true_iff in Hp as [Hp|He]; [left; by auto|].
      right. exists [], r, l. rewrite Nat.add_0_r. auto.
    + right. exists (r :: l1), req, l2. cbn. by rewrite Nat.add_succ_r.
  - intros [[Hp [Hr Hl]%Forall_cons]|(l1 & req & l2 & E & He & Hl)]; [left; by rewrite Hp, Hr|].
    destruct l1 as [|r1 l1]; injection E as -> ->.
    + apply Forall_cons in Hl as [Hr Hl]. cbn in He. rewrite Nat.add_0_r in He. left. by rewrite He, Hr, orb_true_r.
    + right. exists l1, req, l2. cbn in He. by rewrite Nat.add_succ_r in He.
Qed.

(** In particular an edge in the very cycle of a clearing write is dropped, and
    a level that stays high afterwards never sets PENDING again. [intc.v] and the
    driver both state the opposite. *)
Theorem w1c_drops_same_cycle_edge (req : bus_req) (n : nat) (k : Z) w :
  wf w -> clears req k = true ->
  (forall u, (now w <= u)%nat -> line_at (lines w) u k = true) ->
  Z.testbit (pending (hw (idle n (tick req w)))) k = false.
Proof.
  intros Hw Hc Hh. destruct (idle_spec n (tick req w)) as (_ & _ & _ & _ & _ & _ & ->);
    [by apply wf_tick|].
  rewrite tick_pending, Hc, andb_false_r by done. cbn. by apply edges_stuck_high.
Qed.

(** C16: what [intr_enable] does to every source. It returns, source [irq] is
    enabled and the other enable bits are as before. Every event of source [irq]
    up to and including the cycle of the clearing write is discarded: afterwards
    its PENDING bit is set exactly when its line rose in a later cycle. So a
    level source that rises in the cycle of the clearing write and stays high is
    enabled but never delivered, however long one waits; the comments at
    [intc.v:78] and [intc_rv32_5stage.c:97] say that this event is not dropped.
    The pending and the new events of all other sources are kept. *)
Theorem intr_enable_effect (off irq : Z) w :
  0 <= irq < NUM_SOURCES -> wf w ->
  let clear_cycle := nth_req (gap w) (now w) 1 in
  exists w', intr_enable (cfg_4000 off) irq w = Some ((), w') /\ rest w' = rest w /\
    enable (hw w') = enable (hw w) .| 2 ^ irq /\
    Z.testbit (pending (hw w')) irq =
      edges (lines w) (S clear_cycle) (now w' - S clear_cycle) irq /\
    ((forall u, (clear_cycle <= u)%nat -> line_at (lines w) u irq = true) ->
     forall n, Z.testbit (pending (hw (idle n w'))) irq = false) /\
    (forall k, k <> irq -> Z.testbit (pending (hw w')) k =
      Z.testbit (pending (hw w)) k || edges (lines w) (now w) (now w' - now w) k).
Proof.
  intros Hirq Hw tc.
  destruct (intr_enable_evolves off irq w Hirq Hw) as (w' & Hr & (Hw' & L & _ & ? & _ & ? & Hp) & _).
  pose proof (Hp irq) as Hi. rewrite Z.eqb_refl in Hi. destruct Hi as [Ht Hi].
  exists w'. split_and!; [done..| |].
  - intros Hh n. destruct (idle_spec n w' Hw') as (_ & _ & _ & _ & _ & _ & ->).
    rewrite Hi, L, edges_stuck_high by done. cbn.
    replace (now w') with (S (now w' - 1)) by lia. apply edges_stuck_high. intros u Hu. apply Hh. unfold tc. lia.
  - intros k Hk. specialize (Hp k). by destruct (Z.eqb_spec irq k).
Qed.

(** C17: the handler clears and dispatches one snapshot. The child handlers of
    exactly the sources that are enabled and pending when the registers are
    read are called, lowest source first, each once; each of these sources is
    pending again afterwards iff its line rises after the clearing write, and
    no other pending event is lost. *)
Theorem isr_dispatches_snapshot (tbl : Z -> M (world T) ()) (off : Z)
    (pending_first : bool) (fuel : nat) w :
  wf w -> (32 < fuel)%nat ->
  let clear_cycle := nth_req (gap w) (now w) 2 in
  exists act w1,
    intc_isr tbl (cfg_4000 off) pending_first fuel w
      = run_handlers tbl off (active_sources act) w1 /\
    (forall k, k ∈ active_sources act <-> 0 <= k < 32 /\ snapshot pending_first w k = true) /\
    StronglySorted Z.lt (active_sources act) /\
    rest w1 = rest w /\ enable (hw w1) = enable (hw w) /\
    (forall k, Z.testbit (pending (hw w1)) k =
       if snapshot pending_first w k
       then edges (lines w) (S clear_cycle) (now w1 - S clear_cycle) k
       else Z.testbit (pending (hw w)) k || edges (lines w) (now w) (now w1 - now w) k).
Proof.
  intros Hw Hf tc.
  destruct (intc_isr_evolves off tbl pending_first fuel w Hw Hf)
    as (act & w1 & Hr & Ha & _ & (_ & _ & _ & ? & _ & ? & Hp)).
  exists act, w1. split_and!; try done.
  - intros k. by rewrite active_sources_elem, Ha.
  - apply active_sources_sorted.
  - intros k. specialize (Hp k). rewrite Ha in Hp.
    destruct (snapshot pending_first w k); [apply Hp|done].
Qed.

Lemma run_handlers_total (tbl : Z -> M (world T) ()) (off : Z) (l : list Z) w :
  (forall k v, exists v', tbl k v = Some ((), v')) ->
  exists w', run_handlers tbl off l w = Some ((), w').
Proof.
  intros Ht. revert w. induction l as [|k l IH]; intros w; [by exists w|].
  destruct (Ht (off + k) w) as [v Hv]. rewrite run_handlers_cons.
  rewrite (M_bind_Some _ _ _ _ _ Hv). apply IH.
Qed.

(** The handler terminates whenever the child handlers do: 33 iterations
    of its loop suffice for any register contents. *)
Theorem isr_terminates (tbl : Z -> M (world T) ()) (off : Z) (pending_first : bool) w :
  wf w -> (forall k v, exists v', tbl k v = Some ((), v')) ->
  exists w', intc_isr tbl (cfg_4000 off) pending_first 33 w = Some ((), w').
Proof.
  intros Hw Ht.
  destruct (intc_isr_evolves off tbl pending_first 33 w Hw ltac:(lia)) as (act & w1 & -> & _).
  by apply run_handlers_total.
Qed.

(** Initialisation leaves every source masked and every event latched
    before the clearing write discarded, so the aggregate line is low until a
    source is enabled, whatever the lines do meanwhile. *)
Theorem initialize_quiesces (off : Z) (config_func : M (world T) ()) (n : nat) w :
  wf w ->
  let clear_cycle := nth_req (gap w) (now w) 1 in
  exists w1,
    intc_initialize (cfg_4000 off) config_func w = (_ ← config_func; mret RC_OK) w1 /\
    rest w1 = rest w /\ irq_out (hw (idle n w1)) = false /\
    (forall k, Z.testbit (pending (hw w1)) k =
       edges (lines w) (S clear_cycle) (now w1 - S clear_cycle) k).
Proof.
  intros Hw tc.
  destruct (intc_initialize_evolves off config_func w Hw) as (w1 & Hr & Hw1 & _ & _ & ? & _ & E & Hp).
  exists w1. split_and!; [done|done| |].
  - destruct (idle_spec n w1 Hw1) as (_ & E' & _). rewrite E in E'.
    unfold irq_out. by rewrite E', Z.land_0_r.
  - intros k. specialize (Hp k). destruct (Z.leb_spec 0 k), (Z.ltb_spec k NUM_SOURCES);
      cbn [andb] in Hp; [apply Hp| | |]; (rewrite edges_not_a_source by (unfold NUM_SOURCES in *; lia));
      [by rewrite (uint_testbit_high NUM_SOURCES) by (done || apply Hw1)|by rewrite Z.testbit_neg_r..].
Qed.

(** Masking and unmasking are what [intr_get_line_state] reports, and
    they do not touch the other sources. *)
Theorem line_state_reports_mask (off irq j : Z) w :
  0 <= irq < NUM_SOURCES -> 0 <= j < NUM_SOURCES -> wf w ->
  exists w1 w2 w3 w4,
    intr_enable (cfg_4000 off) irq w = Some ((), w1) /\
    intr_get_line_state (cfg_4000 off) j w1
      = Some (Z.b2z (Z.testbit (enable (hw w)) j || (irq =? j)), w2) /\
    intr_disable (cfg_4000 off) irq w2 = Some ((), w3) /\
    intr_get_line_state (cfg_4000 off) j w3
      = Some (Z.b2z (Z.testbit (enable (hw w)) j && negb (irq =? j)), w4).
Proof.
  intros Hirq Hj Hw.
  destruct (intr_enable_evolves off irq w Hirq Hw) as (w1 & R1 & A1 & _).
  destruct (get_line_state_evolves off j w1) as (w2 & R2 & A2); [done|apply A1|].
  destruct (intr_disable_evolves off irq w2 Hirq) as (w3 & R3 & A3); [apply A2|].
  destruct (get_line_state_evolves off j w3) as (w4 & R4 & A4); [done|apply A3|].
  exists w1, w2, w3, w4. split_and!; [done| |done|].
  - rewrite R2, (evolves_enable _ _ _ _ A1), Z.lor_spec.
    by rewrite Z.pow2_bits_eqb by lia.
  - rewrite R4, (evolves_enable _ _ _ _ A3), (evolves_enable _ _ _ _ A2),
      (evolves_enable _ _ _ _ A1), Z.land_spec, Z.lnot_spec, Z.lor_spec by lia.
    rewrite Z.pow2_bits_eqb by lia. do 3 f_equal.
    by destruct (Z.testbit (enable (hw w)) j), (irq =? j).
Qed.
End Properties.

(** ** The properties at work *)

Module IntcWitness.
(** Out of reset; line 1 rises in cycle 3 and stays high; three cycles per bus
    access. *)
Definition w0 : world (list Z) :=
  mk_world reset (fun t => if (t <? 3)%nat then 0 else 2) (fun _ => 2%nat) 0%nat [].

(** A child handler that logs its table index. *)
Definition log_handler (k : Z) : M (world (list Z)) () := fun w =>
  Some ((), mk_world (hw w) (lines w) (gap w) (now w) (rest w ++ [k])).

(** Source 1 pending and enabled, the lines quiet. *)
Definition w1 : world (list Z) :=
  mk_world (mk_intc 6 3 0 0 false) (fun _ => 0) (fun _ => 2%nat) 0%nat [].

Lemma w0_wf : wf w0.
Proof. unfold wf, is_uint, NUM_SOURCES; cbn. lia. Qed.

Lemma w1_wf : wf w1.
Proof. unfold wf, is_uint, NUM_SOURCES; cbn. lia. Qed.

Lemma w0_high (u : nat) : (3 <= u)%nat -> line_at (lines w0) u 1 = true.
Proof. intros Hu. unfold line_at, w0. cbn [lines]. destruct (Nat.ltb_spec u 3); [lia|reflexivity]. Qed.

(** Line 1 rises in cycle 3; the bus then clears source 0 only. *)
Lemma pending_exactly_witness :
  let l := [None; None; None; None; Some (true, 0x4004, 1); Some (false, 0x4000, 0)] in
  Z.testbit (pending (hw (run_bus l w0))) 1 = true /\
  (Z.testbit (pending (hw (run_bus l w0))) 1 = true <->
   (Z.testbit (pending (hw w0)) 1 = true /\ Forall (fun r => clears r 1 = false) l) \/
   (exists l1 req l2, l = l1 ++ req :: l2 /\ edge (lines w0) (now w0 + length l1) 1 = true /\
      Forall (fun r => clears r 1 = false) (req :: l2))).
Proof. split; [reflexivity|]. apply (pending_exactly _ 1 w0 w0_wf). Defined.

(** The clearing write hits cycle 3. *)
Lemma w1c_drops_same_cycle_edge_witness :
  edge (lines w0) 3 1 = true /\
  Z.testbit (pending (hw (idle 100 (tick (Some (true, 0x4004, 2)) (idle 3 w0))))) 1 = false.
Proof.
  split; [reflexivity|].
  apply (w1c_drops_same_cycle_edge (Some (true, 0x4004, 2)) 100 1 (idle 3 w0)).
  - apply (idle_spec 3 w0 w0_wf).
  - reflexivity.
  - exact w0_high.
Defined.

(** Source 1 is enabled while its line rises and stays high. *)
Lemma intr_enable_effect_witness :
  edge (lines w0) (nth_req (gap w0) (now w0) 1) 1 = true /\
  exists w', intr_enable (cfg_4000 0) 1 w0 = Some ((), w') /\ rest w' = rest w0 /\
    enable (hw w') = enable (hw w0) .| 2 ^ 1 /\
    Z.testbit (pending (hw w')) 1 = edges (lines w0) 4 (now w' - 4) 1 /\
    ((forall u, (3 <= u)%nat -> line_at (lines w0) u 1 = true) ->
     forall n, Z.testbit (pending (hw (idle n w'))) 1 = false) /\
    (forall k, k <> 1 -> Z.testbit (pending (hw w')) k =
      Z.testbit (pending (hw w0)) k || edges (lines w0) (now w0) (now w' - now w0) k).
Proof. split; [reflexivity|]. apply (intr_enable_effect 0 1 w0); [split; done|exact w0_wf]. Defined.

Lemma isr_dispatches_snapshot_witness :
  exists act w2,
    intc_isr log_handler (cfg_4000 8) true 33 w1
      = run_handlers log_handler 8 (active_sources act) w2 /\
    (forall k, k ∈ active_sources act <-> 0 <= k < 32 /\ snapshot true w1 k = true) /\
    StronglySorted Z.lt (active_sources act) /\
    rest w2 = rest w1 /\ enable (hw w2) = enable (hw w1) /\
    (forall k, Z.testbit (pending (hw w2)) k =
       if snapshot true w1 k then edges (lines w1) 7 (now w2 - 7) k
       else Z.testbit (pending (hw w1)) k || edges (lines w1) (now w1) (now w2 - now w1) k).
Proof. apply (isr_dispatches_snapshot log_handler 8 true 33 w1 w1_wf). lia. Defined.

Lemma isr_terminates_witness :
  exists w', intc_isr log_handler (cfg_4000 8) false 33 w1 = Some ((), w').
Proof. apply (isr_terminates log_handler 8 false w1 w1_wf). intros k v. eexists. reflexivity. Defined.

(** Only source 1 is both pending and enabled: table entry 9 runs. *)
Example isr_runs : (rest ∘ snd) <$> intc_isr log_handler (cfg_4000 8) true 33 w1 = Some [9].
Proof. vm_compute. reflexivity. Qed.

Lemma initialize_quiesces_witness :
  exists w2,
    intc_initialize (cfg_4000 0) (mret ()) w1 = (_ ← (mret () : M _ ()); mret RC_OK) w2 /\
    rest w2 = rest w1 /\ irq_out (hw (idle 50 w2)) = false /\
    (forall k, Z.testbit (pending (hw w2)) k = edges (lines w1) 4 (now w2 - 4) k).
Proof. apply (initialize_quiesces 0 (mret ()) 50 w1 w1_wf). Defined.

Lemma line_state_reports_mask_witness :
  exists w2 w3 w4 w5,
    intr_enable (cfg_4000 0) 3 w1 = Some ((), w2) /\
    intr_get_line_state (cfg_4000 0) 2 w2
      = Some (Z.b2z (Z.testbit (enable (hw w1)) 2 || (3 =? 2)), w3) /\
    intr_disable (cfg_4000 0) 3 w3 = Some ((), w4) /\
    intr_get_line_state (cfg_4000 0) 2 w4
      = Some (Z.b2z (Z.testbit (enable (hw w1)) 2 && negb (3 =? 2)), w5).
Proof. apply (line_state_reports_mask 0 3 2 w1); [split; done..|exact w1_wf]. Defined.
End IntcWitness.
