(* ===== verification/Uart.v ===== *)
(** * The UART and its drivers

    [Module UartTx] is [src/src/uart_tx.v] and [Module UartMmio] is
    [src/src/uart_mmio.v], one clock cycle at a time.  The driver definitions are
    [src/zephyr/drivers/serial/uart_rv32_5stage.c]; the bare-metal senders of
    [src/fpga/tests/uart.c] and [src/fpga/coremark/ee_printf.c] follow. *)

From S2P Require Import Prelude Zephyr.

(** ** The transmitter, [uart_tx.v] *)
Module UartTx.

Inductive phase : Type := IDLE | START | DATA | STOP.

Record uart_tx : Type := mk_tx {
  state : phase;
  clock_count : Z;
  bit_index : Z;
  saved_data : Z;
  tx : bool;
  tx_ready : bool;
}.

Definition reset : uart_tx := mk_tx IDLE 0 0 0 true true.

(** One clock edge with [tx_start] and [tx_data] on the inputs; [clock_count]
    has 16 bits. *)
Definition step (clocks_per_bit : Z) (tx_start : bool) (tx_data : Z) (s : uart_tx) : uart_tx :=
  let more := clock_count s <? clocks_per_bit - 1 in
  match state s with
  | IDLE =>
      if tx_start then mk_tx START 0 0 tx_data true false
      else mk_tx IDLE 0 0 (saved_data s) true true
  | START =>
      if more then mk_tx START (u16 (clock_count s + 1)) (bit_index s) (saved_data s) false (tx_ready s)
      else mk_tx DATA 0 (bit_index s) (saved_data s) false (tx_ready s)
  | DATA =>
      let b := Z.testbit (saved_data s) (bit_index s) in
      if more then mk_tx DATA (u16 (clock_count s + 1)) (bit_index s) (saved_data s) b (tx_ready s)
      else if bit_index s <? 7
      then mk_tx DATA 0 (bit_index s + 1) (saved_data s) b (tx_ready s)
      else mk_tx STOP 0 (bit_index s) (saved_data s) b (tx_ready s)
  | STOP =>
      if more then mk_tx STOP (u16 (clock_count s + 1)) (bit_index s) (saved_data s) true (tx_ready s)
      else mk_tx IDLE 0 (bit_index s) (saved_data s) true (tx_ready s)
  end.
End UartTx.
Import UartTx.

(** ** The register window, [uart_mmio.v] *)
Module UartMmio.

Record uart : Type := mk_uart {
  txm : uart_tx;
  tx_start : bool;
  tx_data : Z;
  d_rdata : Z;
  rx_holding : Z;
  rx_has_data : bool;
  tx_ready_prev : bool;
  tx_irq : bool;
}.

Definition reset : uart := mk_uart UartTx.reset false 0 0 0 false true false.

Definition bus_req : Type := option (bool * Z * Z).

Definition is_uart_addr (a : Z) : bool := a .>> 12 =? 0x40001.
Definition reg_is (a off : Z) : bool := is_uart_addr a && (a .& 0xfff =? off).

(** One clock edge: the bus request, and the byte [uart_rx] delivers in this
    cycle ([rx_valid], [rx_byte]) if any. *)
Definition cycle (clocks_per_bit : Z) (req : bus_req) (rx : option Z) (u : uart) : uart :=
  let ready := tx_ready (txm u) in
  let write_tx := match req with Some (true, a, _) => reg_is a 0x0 | _ => false end in
  let read r := match req with Some (false, a, _) => reg_is a r | _ => false end in
  mk_uart
    (UartTx.step clocks_per_bit (tx_start u) (tx_data u) (txm u))
    write_tx
    (match req with
     | Some (true, a, v) => if reg_is a 0x0 then u8 v else tx_data u
     | _ => tx_data u
     end)
    (if read 0x4 then Z.b2z ready
     else if read 0x8 then rx_holding u
     else if read 0xC then Z.b2z (rx_has_data u)
     else 0)
    (match rx with Some b => u8 b | None => rx_holding u end)
    (match rx with
     | Some _ => true
     | None => if read 0x8 then false else rx_has_data u
     end)
    ready
    (ready && negb (tx_ready_prev u)).
End UartMmio.
Import UartMmio.

(** ** The transmitted frame *)

Section Frame.
Variable cpb : Z.
Hypothesis cpb_pos : 0 < cpb <= 2 ^ 16.

(** Start bit, eight data bits least significant first, stop bit. *)
Definition frame_bit (c i : Z) : bool :=
  if i =? 0 then false else if i <=? 8 then Z.testbit c (i - 1) else true.

(** [n] clock edges with the inputs of [ins]. *)
Fixpoint tx_run (n : nat) (ins : nat -> bool * Z) (s : uart_tx) : uart_tx :=
  match n with
  | O => s
  | S n' => let s' := tx_run n' ins s in UartTx.step cpb (ins n').1 (ins n').2 s'
  end.

(** The transmitter [n] edges after it accepted [c]. *)
Definition tx_at (c : Z) (n : Z) (last : bool) : uart_tx :=
  let i := n / cpb in
  let cc := n mod cpb in
  if i =? 0 then mk_tx START cc 0 c last false
  else if i <=? 8 then mk_tx DATA cc (i - 1) c last false
  else mk_tx STOP cc 7 c last false.

Lemma tx_at_step (start : bool) (data c n : Z) (last : bool) :
  0 <= n < 10 * cpb - 1 ->
  UartTx.step cpb start data (tx_at c n last) = tx_at c (n + 1) (frame_bit c (n / cpb)).
Proof.
  intros Hn. set (i := n / cpb). set (cc := n mod cpb).
  assert (n = cpb * i + cc) as E by (apply Z.div_mod; lia).
  pose proof (Z.mod_pos_bound n cpb ltac:(lia)) as Hcc. fold cc in Hcc.
  assert (0 <= i <= 9) as Hi by nia.
  assert ((cc < cpb - 1 /\ (n + 1) / cpb = i /\ (n + 1) mod cpb = cc + 1) \/
          (cc = cpb - 1 /\ (n + 1) / cpb = i + 1 /\ (n + 1) mod cpb = 0)) as Hnext.
  { destruct (Z.lt_ge_cases cc (cpb - 1)); [left|right]; split_and!; try lia.
    - symmetry. apply Z.div_unique with (cc + 1); lia.
    - symmetry. apply Z.mod_unique with i; lia.
    - symmetry. apply Z.div_unique with 0; lia.
    - symmetry. apply Z.mod_unique with (i + 1); lia. }
  assert (cc < cpb - 1 -> u16 (cc + 1) = cc + 1) as Hu by (intros; apply uwrap_id; unfold is_uint; lia).
  unfold tx_at. fold i cc. unfold frame_bit.
  destruct Hnext as [(Hlt & -> & ->)|(Heq & -> & ->)].
  - destruct (Z.eqb_spec i 0); [|destruct (Z.leb_spec i 8)]; unfold UartTx.step; cbn;
      rewrite (Hu Hlt); by destruct (Z.ltb_spec cc (cpb - 1)); [|lia].
  - destruct (Z.eqb_spec i 0) as [->|]; [|destruct (Z.leb_spec i 8)]; unfold UartTx.step; cbn;
      (destruct (Z.ltb_spec cc (cpb - 1)); [lia|]); [done| |nia].
    destruct (Z.eqb_spec (i + 1) 0); [lia|].
    destruct (Z.ltb_spec (i - 1) 7), (Z.leb_spec (i + 1) 8); try lia.
    + f_equal; lia.
    + f_equal; lia.
Qed.

Lemma tx_at_last (start : bool) (data c : Z) (last : bool) :
  UartTx.step cpb start data (tx_at c (10 * cpb - 1) last) = mk_tx IDLE 0 7 c true false.
Proof.
  assert ((10 * cpb - 1) / cpb = 9) as E.
  { symmetry. apply Z.div_unique with (cpb - 1); lia. }
  assert ((10 * cpb - 1) mod cpb = cpb - 1) as E'.
  { symmetry. apply Z.mod_unique with 9; lia. }
  unfold tx_at. rewrite E, E'. unfold UartTx.step. cbn.
  by destruct (Z.ltb_spec (cpb - 1) (cpb - 1)); [lia|].
Qed.

Lemma tx_run_frame (ins : nat -> bool * Z) (c : Z) (n : nat) (last : bool) :
  Z.of_nat n < 10 * cpb ->
  exists last', tx_run n ins (tx_at c 0 last) = tx_at c (Z.of_nat n) last'.
Proof.
  induction n as [|n IH]; intros Hn; [by exists last|].
  destruct IH as [l Hl]; [lia|]. cbn. rewrite Hl, tx_at_step by lia.
  eexists. f_equal. lia.
Qed.

(** The 16 bits of the counter bound the bit time: from 2^16 + 1 clocks per bit
    on, the start bit never ends. *)
Lemma start_bit_stuck (big : Z) (ins : nat -> bool * Z) (n : nat) (s : uart_tx) :
  2 ^ 16 < big -> state s = START -> is_uint 16 (clock_count s) ->
  let run := fix run n := match n with O => s | S n => UartTx.step big (ins n).1 (ins n).2 (run n) end in
  state (run n) = START /\ is_uint 16 (clock_count (run n)).
Proof.
  intros Hbig Hs Hc run. induction n as [|n [IHs IHc]]; [done|]. cbn [run]. unfold UartTx.step. rewrite IHs.
  unfold is_uint in IHc. destruct (Z.ltb_spec (clock_count (run n)) (big - 1)); [|lia]. cbn.
  split; [done|by apply uwrap_range].
Qed.

(** Once the transmitter has accepted a byte, the wire carries its 8N1
    frame: in the [n]-th clock cycle after the acceptance ([n < 10 * cpb]) it has
    the start bit, the data bits least significant first, or the stop bit,
    [cpb] cycles each ([cpb] at most 2^16), whatever the bus side does meanwhile. *)
Theorem accepted_byte_is_framed (ins : nat -> bool * Z) (c : Z) (n : nat) (last ready : bool) (cc bi sd : Z) :
  Z.of_nat n < 10 * cpb ->
  tx (tx_run (S n) ins (UartTx.step cpb true c (mk_tx IDLE cc bi sd last ready))) =
    frame_bit c (Z.of_nat n / cpb).
Proof.
  intros Hn.
  assert (UartTx.step cpb true c (mk_tx IDLE cc bi sd last ready) = tx_at c 0 true) as ->.
  { unfold tx_at. by rewrite Z.div_0_l, Z.mod_0_l by lia. }
  destruct (tx_run_frame ins c n true Hn) as [l Hl]. cbn [tx_run]. rewrite Hl.
  destruct (Z.eq_dec (Z.of_nat n) (10 * cpb - 1)) as [->|].
  - rewrite tx_at_last. replace ((10 * cpb - 1) / cpb) with 9; [done|].
    apply Z.div_unique with (cpb - 1); lia.
  - rewrite tx_at_step by lia. unfold tx_at. by repeat case_match.
Qed.
End Frame.

(** ** The world of the driver

    [rx_at t] is the byte [uart_rx] delivers in cycle [t]; [gap t] the number
    of idle cycles after a request in cycle [t]; [sent] the bytes the
    transmitter has accepted; [rest] the state of everything else. *)
Record world (T : Type) : Type := mk_world {
  hw : uart;
  rx_at : nat -> option Z;
  gap : nat -> nat;
  now : nat;
  sent : list Z;
  rest : T;
}.
Arguments mk_world {T}.
Arguments hw {T}.
Arguments rx_at {T}.
Arguments gap {T}.
Arguments now {T}.
Arguments sent {T}.
Arguments rest {T}.

Section World.
Context {T : Type}.
Variable cpb : Z.

Definition accepts (u : uart) : bool :=
  tx_start u && match state (txm u) with IDLE => true | _ => false end.

Definition tick (req : bus_req) (w : world T) : world T :=
  mk_world (cycle cpb req (rx_at w (now w)) (hw w)) (rx_at w) (gap w) (S (now w))
    (if accepts (hw w) then sent w ++ [tx_data (hw w)] else sent w) (rest w).

Fixpoint idle (n : nat) (w : world T) : world T :=
  match n with O => w | S n' => idle n' (tick None w) end.

Definition transact (req : bus_req) : M (world T) Z := fun w =>
  let w1 := tick req w in
  Some (d_rdata (hw w1), idle (gap w (now w)) w1).

Definition uart_mmio : Mmio (world T) := {|
  sys_read32 := fun a => transact (Some (false, a, 0));
  sys_write32 := fun v a => _ ← transact (Some (true, a, v)); mret ();
|}.
End World.

(** ** The Zephyr driver *)

Definition TX_DATA : Z := 0x0.
Definition TX_STATUS : Z := 0x4.
Definition RX_DATA : Z := 0x8.
Definition RX_STATUS : Z := 0xC.

Record uart_config : Type := {
  base : Z;
  tx_irq_line : Z;
  rx_irq_line : Z;
}.

Definition cfg_uart : uart_config :=
  {| base := 0x40001000; tx_irq_line := 0; rx_irq_line := 1 |}.

(** [struct uart_rv32_5stage_data]: function and data pointers, [0] for [NULL]. *)
Record uart_data : Type := { cb : Z; cb_data : Z }.

(** The driver's mutable instance data in the world, the next-level interrupt
    calls, and the user callbacks, none of which are code of the driver. *)
Class UartEnv (W : Type) : Type := {
  get_data : M W uart_data;
  set_data : uart_data -> M W ();
  irq_enable_next_level : Z -> M W ();
  irq_disable_next_level : Z -> M W ();
  irq_config_func : M W ();
  call_cb : Z -> Z -> M W ();
}.

Section Driver.
Context {W : Type} `{Mmio W} `{SysUtil}.
Variable cfg : uart_config.

Definition TX_READY_BIT : Z := BIT 0.
Definition RX_HAS_DATA_BIT : Z := BIT 0.

Definition uart_poll_out (fuel : nat) (c : Z) : M W () :=
  _ ← while_M fuel (fun _ => st ← sys_read32 (base cfg + TX_STATUS);
                            mret (negb (truthy (st .& TX_READY_BIT))))
        (fun _ => mret ()) ();
  sys_write32 c (base cfg + TX_DATA).

(** The return code and the new value of [*c]. *)
Definition uart_poll_in (c : Z) : M W (Z * Z) :=
  st ← sys_read32 (base cfg + RX_STATUS);
  if negb (truthy (st .& RX_HAS_DATA_BIT)) then mret (-1, c)
  else (d ← sys_read32 (base cfg + RX_DATA); mret (0, u8 d)).

(** [||] of the source does not read the status register when [len < 1]. *)
Definition uart_fifo_fill (tx_data : list Z) (len : Z) : M W Z :=
  if len <? 1 then mret 0
  else
    st ← sys_read32 (base cfg + TX_STATUS);
    if negb (truthy (st .& TX_READY_BIT)) then mret 0
    else
      _ ← sys_write32 (nth 0 tx_data 0) (base cfg + TX_DATA);
      mret 1.

(** The return code and the new contents of [rx_data]. *)
Definition uart_fifo_read (rx_data : list Z) (size : Z) : M W (Z * list Z) :=
  if size <? 1 then mret (0, rx_data)
  else
    st ← sys_read32 (base cfg + RX_STATUS);
    if negb (truthy (st .& RX_HAS_DATA_BIT)) then mret (0, rx_data)
    else
      d ← sys_read32 (base cfg + RX_DATA);
      mret (1, <[0%nat := u8 d]> rx_data).

Definition uart_irq_tx_ready : M W bool :=
  st ← sys_read32 (base cfg + TX_STATUS); mret (truthy (st .& TX_READY_BIT)).

Definition uart_irq_tx_complete : M W bool := uart_irq_tx_ready.

Definition uart_irq_rx_ready : M W bool :=
  st ← sys_read32 (base cfg + RX_STATUS); mret (truthy (st .& RX_HAS_DATA_BIT)).

Definition uart_irq_is_pending : M W bool :=
  t ← uart_irq_tx_ready; if t : bool then mret true else uart_irq_rx_ready.

Definition uart_irq_update : M W () := mret ().

Context `{UartEnv W}.

Definition uart_irq_tx_enable : M W () :=
  _ ← irq_enable_next_level (tx_irq_line cfg);
  ready ← uart_irq_tx_ready;
  data ← get_data;
  if (ready : bool) && truthy (cb data) then call_cb (cb data) (cb_data data) else mret ().

Definition uart_irq_tx_disable : M W () := irq_disable_next_level (tx_irq_line cfg).
Definition uart_irq_rx_enable : M W () := irq_enable_next_level (rx_irq_line cfg).
Definition uart_irq_rx_disable : M W () := irq_disable_next_level (rx_irq_line cfg).

Definition uart_irq_callback_set (f d : Z) : M W () := set_data {| cb := f; cb_data := d |}.

Definition uart_isr : M W () :=
  data ← get_data;
  if truthy (cb data) then call_cb (cb data) (cb_data data) else mret ().

Definition uart_init : M W rc := _ ← irq_config_func; mret RC_OK.
End Driver.

(** ** The bare-metal senders *)
Section BareMetal.
Context {W : Type} `{Mmio W}.

(** [fpga/tests/uart.c]: [char] is unsigned on RISC-V. *)
Definition uart_putchar (fuel : nat) (c : Z) : M W () :=
  _ ← while_M fuel (fun _ => st ← sys_read32 0x40001004; mret (st =? 0)) (fun _ => mret ()) ();
  sys_write32 (u8 c) 0x40001000.

(** A C string: the characters up to the first zero. *)
Fixpoint uart_print (fuel : nat) (str : list Z) : M W () :=
  match str with
  | [] => mret ()
  | c :: str' => if c =? 0 then mret () else _ ← uart_putchar fuel c; uart_print fuel str'
  end.

(** [ee_printf.c] *)
Definition uart_send_char (fuel : nat) (c : Z) : M W () :=
  _ ← while_M fuel (fun _ => st ← sys_read32 0x40001004; mret (negb (truthy (st .& 1))))
        (fun _ => mret ()) ();
  sys_write32 (u8 c) 0x40001000.

(** The output loop of [ee_printf] over the formatted buffer; returns [n]. *)
Fixpoint print_buffer (fuel : nat) (buf : list Z) (n : Z) : M W Z :=
  match buf with
  | [] => mret n
  | c :: buf' =>
      if c =? 0 then mret n
      else _ ← uart_send_char fuel c; print_buffer fuel buf' (s32 (n + 1))
  end.
End BareMetal.

(** ** What the hardware does between two accesses *)

Section HwLemmas.
Context {T : Type}.
Variable cpb : Z.
Hypothesis cpb_pos : 0 < cpb <= 2 ^ 16.

(** [phase_left u r]: left alone, the transmitter is ready for a byte again
    after [r] more clock cycles. *)
Inductive phase_left (u : uart) : Z -> Prop :=
  | Ready : state (txm u) = IDLE -> tx_ready (txm u) = true -> tx_start u = false ->
      phase_left u 0
  | Finishing : state (txm u) = IDLE -> tx_ready (txm u) = false -> tx_start u = false ->
      phase_left u 1
  | Sending c last n : 0 <= n < 10 * cpb -> txm u = tx_at cpb c n last ->
      tx_start u = false -> phase_left u (10 * cpb - n + 1)
  | Loaded : state (txm u) = IDLE -> tx_ready (txm u) = true -> tx_start u = true ->
      phase_left u (10 * cpb + 2).

Definition writes_tx (req : bus_req) : bool :=
  match req with Some (true, a, _) => reg_is a 0x0 | _ => false end.

Lemma tx_at_fields (c n : Z) (last : bool) :
  tx_ready (tx_at cpb c n last) = false /\ state (tx_at cpb c n last) <> IDLE.
Proof. unfold tx_at. by repeat case_match. Qed.

Lemma tx_at_ready (c n : Z) (last : bool) : tx_ready (tx_at cpb c n last) = false.
Proof. apply tx_at_fields. Qed.

Lemma phase_left_range (u : uart) (r : Z) : phase_left u r -> 0 <= r <= 10 * cpb + 2.
Proof. intros []; lia. Qed.

(** The status bit in terms of the cycles left. *)
Lemma phase_left_ready (u : uart) (r : Z) :
  phase_left u r -> r <= 10 * cpb + 1 -> tx_ready (txm u) = (r =? 0).
Proof.
  intros [] Hr; try done.
  - rewrite H0, tx_at_ready. by destruct (Z.eqb_spec (10 * cpb - n + 1) 0); [lia|].
  - lia.
Qed.

Lemma phase_left_tick (req : bus_req) (w : world T) (r : Z) :
  phase_left (hw w) r -> writes_tx req = false ->
  phase_left (hw (tick cpb req w)) (Z.max 0 (r - 1)) /\
  sent (tick cpb req w) =
    (if r =? 10 * cpb + 2 then sent w ++ [tx_data (hw w)] else sent w).
Proof.
  intros Hp Hreq. unfold tick, accepts; cbn [hw sent].
  assert (tx_start (cycle cpb req (rx_at w (now w)) (hw w)) = false) as Hs by done.
  destruct Hp as [Hst Hr Hts|Hst Hr Hts|c last n Hn Htx Hts|Hst Hr Hts]; rewrite Hts; cbn [andb].
  - rewrite Z.max_l by lia. destruct (Z.eqb_spec 0 (10 * cpb + 2)); [lia|]. split; [|done].
    apply Ready; [..|done]; cbn; unfold UartTx.step; by rewrite Hst, Hts.
  - rewrite Z.max_l by lia. destruct (Z.eqb_spec 1 (10 * cpb + 2)); [lia|]. split; [|done].
    apply Ready; [..|done]; cbn; unfold UartTx.step; by rewrite Hst, Hts.
  - destruct (Z.eqb_spec (10 * cpb - n + 1) (10 * cpb + 2)); [lia|]. split; [|done].
    destruct (Z.eq_dec n (10 * cpb - 1)) as [->|].
    + replace (Z.max 0 _) with 1 by lia.
      apply Finishing; [..|done]; cbn; by rewrite Htx, (tx_at_last cpb cpb_pos).
    + replace (Z.max 0 _) with (10 * cpb - (n + 1) + 1) by lia.
      apply (Sending _ c (frame_bit c (n / cpb))); [lia| |done].
      cbn. by rewrite Htx, (tx_at_step cpb cpb_pos) by lia.
  - rewrite Hst, Z.eqb_refl. split; [|done].
    replace (Z.max 0 _) with (10 * cpb - 0 + 1) by lia.
    apply (Sending _ (tx_data (hw w)) true); [lia| |done].
    cbn. unfold UartTx.step, tx_at. rewrite Hst, Hts, Z.div_0_l, Z.mod_0_l by lia. done.
Qed.

(** Writing a byte while the transmitter is ready loads it. *)
Lemma phase_left_write (a v : Z) (w : world T) :
  phase_left (hw w) 0 -> reg_is a 0x0 = true ->
  phase_left (hw (tick cpb (Some (true, a, v)) w)) (10 * cpb + 2) /\
  tx_data (hw (tick cpb (Some (true, a, v)) w)) = u8 v /\
  sent (tick cpb (Some (true, a, v)) w) = sent w.
Proof.
  intros Hp Ha. inversion Hp as [Hst Hr Hts| | |]; [|lia..].
  unfold tick, accepts; cbn. rewrite Ha, Hts. split_and!; [|done..].
  apply Loaded; cbn; [..|by rewrite Ha]; unfold UartTx.step; by rewrite Hst, Hts.
Qed.

Lemma idle_frame (n : nat) (w : world T) :
  rx_at (idle cpb n w) = rx_at w /\ gap (idle cpb n w) = gap w /\
  rest (idle cpb n w) = rest w /\ now (idle cpb n w) = (now w + n)%nat.
Proof.
  revert w. induction n as [|n IH]; intros w; [cbn; split_and!; [done..|lia]|].
  cbn. destruct (IH (tick cpb None w)) as (-> & -> & -> & ->). cbn.
  split_and!; [done..|lia].
Qed.

Lemma idle_S (n : nat) (w : world T) : idle cpb (S n) w = tick cpb None (idle cpb n w).
Proof. revert w. induction n as [|n IH]; intros w; [done|]. by cbn [idle] in *; rewrite <-IH. Qed.

(** The wait takes the transmitter that much closer to being ready; a loaded
    byte is accepted in the first cycle. *)
Lemma phase_left_idle (n : nat) (w : world T) (r : Z) :
  phase_left (hw w) r ->
  phase_left (hw (idle cpb n w)) (Z.max 0 (r - Z.of_nat n)) /\
  sent (idle cpb n w) =
    (if (r =? 10 * cpb + 2) && (0 <? Z.of_nat n) then sent w ++ [tx_data (hw w)] else sent w).
Proof.
  intros Hp. revert w r Hp. induction n as [|n IH]; intros w r Hp.
  { pose proof (phase_left_range _ _ Hp). rewrite andb_false_r. cbn.
    by rewrite Z.max_r, Z.sub_0_r by lia. }
  destruct (phase_left_tick None w r Hp eq_refl) as [Hp1 Hs1].
  destruct (IH _ _ Hp1) as [Hp2 Hs2]. pose proof (phase_left_range _ _ Hp). split.
  - cbn [idle]. replace (Z.max 0 (r - Z.of_nat (S n)))
      with (Z.max 0 (Z.max 0 (r - 1) - Z.of_nat n)) by lia. done.
  - cbn [idle]. rewrite Hs2, Hs1.
    destruct (Z.eqb_spec (Z.max 0 (r - 1)) (10 * cpb + 2)); [lia|].
    destruct (Z.ltb_spec 0 (Z.of_nat (S n))); [|lia]. by rewrite andb_true_r.
Qed.

(** The world between two accesses of the CPU. *)
Definition quiet (w : world T) (r : Z) : Prop :=
  phase_left (hw w) r /\ r <= 10 * cpb + 1 /\ forall t, (1 <= gap w t)%nat.

Definition same_env (w w' : world T) : Prop :=
  rx_at w' = rx_at w /\ gap w' = gap w /\ rest w' = rest w.

#[global] Instance same_env_preorder : PreOrder same_env.
Proof. split; unfold same_env; [by intros|intros ??? (? & ? & ?) (? & ? & ?)]; split_and!; congruence. Qed.

(** A read access of any device register. *)
Lemma read_quiet (a : Z) (w : world T) (r : Z) :
  quiet w r -> exists w' r', transact cpb (Some (false, a, 0)) w =
      Some (d_rdata (hw (tick cpb (Some (false, a, 0)) w)), w') /\
    quiet w' r' /\ r' <= Z.max 0 (r - 2) /\ sent w' = sent w /\ same_env w w'.
Proof.
  intros (Hp & Hr & Hg). eexists _, _. split; [done|].
  destruct (phase_left_tick (Some (false, a, 0)) w r Hp eq_refl) as [Hp1 Hs1].
  destruct (phase_left_idle (gap w (now w)) _ _ Hp1) as [Hp2 Hs2].
  destruct (idle_frame (gap w (now w)) (tick cpb (Some (false, a, 0)) w)) as (? & E & ? & _).
  pose proof (Hg (now w)). split_and!.
  - split; [exact Hp2|]. rewrite E. split; [lia|done].
  - lia.
  - rewrite Hs2, Hs1. pose proof (phase_left_range _ _ Hp).
    destruct (Z.eqb_spec (Z.max 0 (r - 1)) (10 * cpb + 2)); [lia|].
    by destruct (Z.eqb_spec r (10 * cpb + 2)); [lia|].
  - done.
Qed.

(** The write access that starts a transmission. *)
Lemma write_quiet (a v : Z) (w : world T) :
  quiet w 0 -> reg_is a 0x0 = true -> exists w' r x,
    transact cpb (Some (true, a, v)) w = Some (x, w') /\
    quiet w' r /\ sent w' = sent w ++ [u8 v] /\ same_env w w'.
Proof.
  intros (Hp & Hr & Hg) Ha. eexists _, _, _. split; [done|].
  destruct (phase_left_write a v w Hp Ha) as (Hp1 & Hd & Hs1).
  destruct (phase_left_idle (gap w (now w)) _ _ Hp1) as [Hp2 Hs2].
  destruct (idle_frame (gap w (now w)) (tick cpb (Some (true, a, v)) w)) as (? & E & ? & _).
  pose proof (Hg (now w)). split_and!.
  - split; [exact Hp2|]. rewrite E. split; [lia|done].
  - rewrite Hs2, Hd, Hs1, Z.eqb_refl. by destruct (Z.ltb_spec 0 (Z.of_nat (gap w (now w)))); [|lia].
  - done.
Qed.

Lemma status_read (w : world T) (r : Z) (a : Z) :
  quiet w r -> reg_is a 0x4 = true ->
  d_rdata (hw (tick cpb (Some (false, a, 0)) w)) = Z.b2z (r =? 0).
Proof.
  intros (Hp & Hr & _) Ha. cbn. rewrite Ha. by rewrite (phase_left_ready _ _ Hp).
Qed.

(** The polling loop of every sender: it returns with the transmitter ready,
    after at most one iteration per remaining clock cycle. *)
Lemma wait_ready (fuel : nat) (a : Z) (busy : Z -> bool) (w : world T) (r : Z) :
  quiet w r -> reg_is a 0x4 = true -> busy 0 = true -> busy 1 = false ->
  (Z.to_nat r < fuel)%nat ->
  exists w', while_M fuel (fun _ => st ← transact cpb (Some (false, a, 0)); mret (busy st))
      (fun _ => mret ()) () w = Some ((), w') /\
    quiet w' 0 /\ sent w' = sent w /\ same_env w w'.
Proof.
  intros Hq Ha H0 H1. revert w r Hq. induction fuel as [|f IH]; intros w r Hq Hf; [lia|].
  destruct (read_quiet a w r Hq) as (w1 & r1 & Hrun & Hq1 & Hr1 & Hs1 & He1).
  rewrite (status_read w r a Hq Ha) in Hrun. cbn [while_M].
  rewrite M_bind_assoc, (M_bind_Some _ _ _ _ _ Hrun), M_ret_bind.
  pose proof (phase_left_range _ _ (proj1 Hq)). pose proof (phase_left_range _ _ (proj1 Hq1)).
  destruct (Z.eqb_spec r 0) as [->|Hr]; cbn [Z.b2z].
  - rewrite H1. exists w1. replace 0 with r1 by lia. done.
  - rewrite H0, M_ret_bind.
    destruct (IH w1 r1 Hq1) as (w2 & ? & ? & Hs2 & He2); [lia|].
    exists w2. split_and!; [done..|congruence|by etransitivity].
Qed.

(** Wait for the transmitter and send one byte. *)
Definition send_byte (status data : Z) (busy : Z -> bool) (fuel : nat) (v : Z) : M (world T) () :=
  _ ← while_M fuel (fun _ => st ← transact cpb (Some (false, status, 0)); mret (busy st))
        (fun _ => mret ()) ();
  _ ← transact cpb (Some (true, data, v)); mret ().

Lemma send_byte_sends (status data : Z) (busy : Z -> bool) (fuel : nat) (v : Z) (w : world T) (r : Z) :
  quiet w r -> reg_is status 0x4 = true -> reg_is data 0x0 = true ->
  busy 0 = true -> busy 1 = false -> (Z.to_nat (10 * cpb + 1) < fuel)%nat ->
  exists w' r', send_byte status data busy fuel v w = Some ((), w') /\
    quiet w' r' /\ sent w' = sent w ++ [u8 v] /\ same_env w w'.
Proof.
  intros Hq Hst Hd H0 H1 Hf.
  destruct (wait_ready fuel status busy w r) as (w1 & Hrun & Hq1 & Hs1 & He1); try done.
  { destruct Hq as (? & ? & ?). lia. }
  destruct (write_quiet data v w1 Hq1 Hd) as (w2 & r2 & x & Hrun2 & Hq2 & Hs2 & He2).
  exists w2, r2. unfold send_byte. rewrite (M_bind_Some _ _ _ _ _ Hrun), (M_bind_Some _ _ _ _ _ Hrun2).
  split_and!; [done..|congruence|by etransitivity].
Qed.
End HwLemmas.

#[export] Hint Resolve phase_left_range : soc.

(** [CLOCKS_PER_BIT] of the synthesised design: 60 MHz over 115200 baud. *)
Definition CLOCKS_PER_BIT : Z := 60000000 / 115200.

(** Polls enough for a whole frame. *)
Definition poll_fuel : nat := Z.to_nat (10 * CLOCKS_PER_BIT + 2).

#[export] Instance uart_at {T : Type} : Mmio (world T) := uart_mmio CLOCKS_PER_BIT.

Section Senders.
Context {T : Type}.
Abbreviation quiet := (@quiet T CLOCKS_PER_BIT).

Lemma cpb_ok : 0 < CLOCKS_PER_BIT <= 2 ^ 16.
Proof. split; [reflexivity|discriminate]. Qed.

Lemma poll_fuel_lt (fuel : nat) :
  (poll_fuel <= fuel)%nat -> (Z.to_nat (10 * CLOCKS_PER_BIT + 1) < fuel)%nat.
Proof. unfold poll_fuel. intros. pose proof cpb_ok. lia. Qed.

(** C18: [uart_rv32_5stage_poll_out] terminates, whatever the transmitter is
    doing when it is called, and appends exactly the given byte to the stream
    the transmitter has accepted: nothing is dropped, duplicated or reordered. *)
Theorem poll_out_sends (fuel : nat) (c : Z) (w : world T) (r : Z) :
  quiet w r -> is_uint 8 c -> (poll_fuel <= fuel)%nat ->
  exists w' r', uart_poll_out cfg_uart fuel c w = Some ((), w') /\
    quiet w' r' /\ sent w' = sent w ++ [c] /\ same_env w w'.
Proof.
  intros Hq Hc Hf. pose proof (uwrap_id 8 c Hc) as E. apply poll_fuel_lt in Hf.
  assert (sent w ++ [c] = sent w ++ [u8 c]) as -> by (unfold u8; congruence).
  apply (send_byte_sends CLOCKS_PER_BIT cpb_ok 0x40001004 0x40001000
           (fun st => negb (truthy (st .& BIT 0))) fuel c w r);
    done.
Qed.

Lemma send_char_sends (fuel : nat) (c : Z) (w : world T) (r : Z) :
  quiet w r -> is_uint 8 c -> (poll_fuel <= fuel)%nat ->
  exists w' r', uart_send_char fuel c w = Some ((), w') /\
    quiet w' r' /\ sent w' = sent w ++ [c] /\ same_env w w'.
Proof.
  intros Hq Hc Hf. pose proof (uwrap_id 8 c Hc) as E. apply poll_fuel_lt in Hf.
  assert (sent w ++ [c] = sent w ++ [u8 (u8 c)]) as -> by (unfold u8; congruence).
  apply (send_byte_sends CLOCKS_PER_BIT cpb_ok 0x40001004 0x40001000
           (fun st => negb (truthy (st .& 1))) fuel (u8 c) w r);
    done.
Qed.

Lemma putchar_sends (fuel : nat) (c : Z) (w : world T) (r : Z) :
  quiet w r -> is_uint 8 c -> (poll_fuel <= fuel)%nat ->
  exists w' r', uart_putchar fuel c w = Some ((), w') /\
    quiet w' r' /\ sent w' = sent w ++ [c] /\ same_env w w'.
Proof.
  intros Hq Hc Hf. pose proof (uwrap_id 8 c Hc) as E. apply poll_fuel_lt in Hf.
  assert (sent w ++ [c] = sent w ++ [u8 (u8 c)]) as -> by (unfold u8; congruence).
  apply (send_byte_sends CLOCKS_PER_BIT cpb_ok 0x40001004 0x40001000
           (fun st => st =? 0) fuel (u8 c) w r);
    done.
Qed.

(** The characters of a C string. *)
Fixpoint c_str (l : list Z) : list Z :=
  match l with [] => [] | c :: l' => if c =? 0 then [] else c :: c_str l' end.

Lemma print_buffer_sends (fuel : nat) (str : list Z) (n : Z) (w : world T) (r : Z) :
  quiet w r -> Forall (is_uint 8) str -> (poll_fuel <= fuel)%nat ->
  0 <= n -> n + Z.of_nat (length str) < 2 ^ 31 ->
  exists w' r', print_buffer fuel str n w = Some (n + Z.of_nat (length (c_str str)), w') /\
    quiet w' r' /\ sent w' = sent w ++ c_str str.
Proof.
  intros Hq Hall Hf Hn0 Hn.
  revert n w r Hn0 Hn Hq. induction Hall as [|c str Hc Hall IH]; intros n w r Hn0 Hn Hq; cbn.
  { exists w, r. by rewrite app_nil_r, Z.add_0_r. }
  destruct (c =? 0); [exists w, r; by rewrite app_nil_r, Z.add_0_r|]. cbn in Hn.
  destruct (send_char_sends fuel c w r Hq Hc Hf) as (w1 & r1 & Hrun & Hq1 & Hs1 & _).
  rewrite (M_bind_Some _ _ _ _ _ Hrun). unfold s32. rewrite swrap_id by (unfold is_sint; cbn; lia).
  destruct (IH (n + 1) w1 r1) as (w2 & r2 & Hrun2 & ? & Hs2); [lia..|done|].
  exists w2, r2. split_and!; [|done|by rewrite Hs2, Hs1, <-app_assoc].
  rewrite Hrun2. do 2 f_equal. cbn. lia.
Qed.

(** [uart_print] and the output loop of [ee_printf] terminate and send
    the characters of the string, in order, up to its first zero byte;
    [ee_printf] returns their number. *)
Theorem print_sends_string (fuel : nat) (str : list Z) (n : Z) (w : world T) (r : Z) :
  quiet w r -> Forall (is_uint 8) str -> (poll_fuel <= fuel)%nat ->
  0 <= n -> n + Z.of_nat (length str) < 2 ^ 31 ->
  (exists w' r', uart_print fuel str w = Some ((), w') /\ quiet w' r' /\
     sent w' = sent w ++ c_str str) /\
  (exists w' r', print_buffer fuel str n w = Some (n + Z.of_nat (length (c_str str)), w') /\
     quiet w' r' /\ sent w' = sent w ++ c_str str).
Proof.
  intros Hq Hall Hf Hn0 Hn. split.
  - clear Hn Hn0. revert w r Hq. induction Hall as [|c str Hc Hall IH]; intros w r Hq; cbn.
    { exists w, r. by rewrite app_nil_r. }
    destruct (c =? 0); [exists w, r; by rewrite app_nil_r|].
    destruct (putchar_sends fuel c w r Hq Hc Hf) as (w1 & r1 & Hrun & Hq1 & Hs1 & _).
    rewrite (M_bind_Some _ _ _ _ _ Hrun).
    destruct (IH w1 r1 Hq1) as (w2 & r2 & ? & ? & Hs2).
    exists w2, r2. split_and!; [done..|]. by rewrite Hs2, Hs1, <-app_assoc.
  - by apply (print_buffer_sends fuel str n w r).
Qed.
End Senders.

(** ** Receiving *)

(** The holding register after the cycles [[t, t + n)], and whether a byte
    arrived in them. *)
Fixpoint latest (rx : nat -> option Z) (t n : nat) (hold : Z) : Z :=
  match n with
  | O => hold
  | S n' => latest rx (S t) n' (match rx t with Some b => u8 b | None => hold end)
  end.

Fixpoint arrived (rx : nat -> option Z) (t n : nat) : bool :=
  match n with
  | O => false
  | S n' => (match rx t with Some _ => true | None => false end) || arrived rx (S t) n'
  end.

Section Receive.
Context {T : Type}.

Lemma idle_rx (n : nat) (w : world T) :
  rx_holding (hw (idle CLOCKS_PER_BIT n w)) = latest (rx_at w) (now w) n (rx_holding (hw w)) /\
  rx_has_data (hw (idle CLOCKS_PER_BIT n w)) = rx_has_data (hw w) || arrived (rx_at w) (now w) n.
Proof.
  revert w. induction n as [|n IH]; intros w; [by rewrite orb_false_r|].
  cbn [idle]. destruct (IH (tick CLOCKS_PER_BIT None w)) as [-> ->].
  cbn. split; [done|]. destruct (rx_at w (now w)); [by rewrite orb_true_r|done].
Qed.

(** A read of a register other than [RX_DATA], and of [RX_DATA]. *)
Lemma read_rx (a : Z) (w : world T) :
  exists w', transact CLOCKS_PER_BIT (Some (false, a, 0)) w =
      Some (d_rdata (hw (tick CLOCKS_PER_BIT (Some (false, a, 0)) w)), w') /\
    rx_at w' = rx_at w /\ gap w' = gap w /\ now w' = (now w + S (gap w (now w)))%nat /\
    rx_holding (hw w') = latest (rx_at w) (now w) (S (gap w (now w))) (rx_holding (hw w)) /\
    rx_has_data (hw w') =
      (rx_has_data (hw w) && negb (reg_is a 0x8)) || arrived (rx_at w) (now w) (S (gap w (now w))).
Proof.
  eexists. split; [done|]. set (w1 := tick _ _ w).
  destruct (idle_frame CLOCKS_PER_BIT (gap w (now w)) w1) as (-> & -> & _ & ->).
  destruct (idle_rx (gap w (now w)) w1) as [-> ->].
  subst w1. cbn. split_and!; [done|done|lia|done|].
  destruct (rx_at w (now w)); cbn; [by rewrite orb_true_r|]. destruct (reg_is a 8), (rx_has_data _); done.
Qed.

(** [uart_rv32_5stage_poll_in], whatever bytes arrive while it runs.  It
    returns -1 and leaves [*c] alone when no byte was waiting; otherwise it
    returns 0 and the newest byte that arrived before the data read.  A byte
    that arrives during the call, even in the cycle of the consuming read, is
    still waiting afterwards. *)
Theorem poll_in_spec (c : Z) (w : world T) :
  is_uint 8 (rx_holding (hw w)) ->
  let t1 := (now w + S (gap w (now w)))%nat in
  let byte := latest (rx_at w) (now w) (S (gap w (now w))) (rx_holding (hw w)) in
  (rx_has_data (hw w) = false -> exists w',
     uart_poll_in cfg_uart c w = Some ((-1, c), w') /\
     rx_has_data (hw w') = arrived (rx_at w) (now w) (S (gap w (now w)))) /\
  (rx_has_data (hw w) = true -> exists w',
     uart_poll_in cfg_uart c w = Some ((0, byte), w') /\
     rx_has_data (hw w') = arrived (rx_at w) t1 (S (gap w t1)) /\
     rx_holding (hw w') = latest (rx_at w) t1 (S (gap w t1)) byte).
Proof.
  intros Hhold t1 byte.
  destruct (read_rx 0x4000100C w) as (w1 & Hr & Erx & Egap & Enow & Ehold & Ehas).
  change (reg_is 0x4000100C 0x8) with false in Ehas. rewrite andb_true_r in Ehas.
  assert (d_rdata (hw (tick CLOCKS_PER_BIT (Some (false, 0x4000100C, 0)) w))
            = Z.b2z (rx_has_data (hw w))) as Ed by done.
  rewrite Ed in Hr. split; intros Hhas; rewrite Hhas in *; unfold uart_poll_in.
  - exists w1. by rewrite (M_bind_Some _ _ _ _ _ Hr).
  - destruct (read_rx 0x40001008 w1) as (w2 & Hr2 & _ & _ & _ & Ehold2 & Ehas2).
    assert (d_rdata (hw (tick CLOCKS_PER_BIT (Some (false, 0x40001008, 0)) w1))
              = rx_holding (hw w1)) as Ed2 by done.
    exists w2. rewrite (M_bind_Some _ _ _ _ _ Hr).
    change (negb (truthy (Z.b2z true .& RX_HAS_DATA_BIT))) with false. cbv iota.
    change (sys_read32 (base cfg_uart + RX_DATA))
      with (transact (T := T) CLOCKS_PER_BIT (Some (false, 0x40001008, 0))).
    rewrite (M_bind_Some _ _ _ _ _ Hr2), Ed2.
    change (reg_is 0x40001008 0x8) with true in Ehas2. rewrite andb_false_r in Ehas2.
    rewrite Ehold2, Ehas2, Erx, Egap, Enow, Ehold. split_and!; [|done..].
    unfold mret, M_ret. do 3 f_equal. apply uwrap_id.
    assert (forall n t h, is_uint 8 h -> is_uint 8 (latest (rx_at w) t n h)) as Hl.
    { induction n as [|n IH]; intros t h Hh; [done|]. cbn. apply IH.
      destruct (rx_at w t); [by apply uwrap_range|done]. }
    by apply Hl.
Qed.
End Receive.

(** ** The transmit interrupt *)

Section TxIrq.
Context {T : Type} {env : UartEnv (world T)}.

Lemma busy_raises_irq (w : world T) (r : Z) :
  phase_left CLOCKS_PER_BIT (hw w) r -> 1 <= r <= 10 * CLOCKS_PER_BIT + 1 ->
  tx_irq (hw (tick CLOCKS_PER_BIT None (idle CLOCKS_PER_BIT (Z.to_nat r) w))) = true.
Proof.
  intros Hp Hr. set (n := Z.to_nat (r - 1)).
  replace (Z.to_nat r) with (S n) by lia. rewrite idle_S.
  destruct (phase_left_idle CLOCKS_PER_BIT cpb_ok n w r Hp) as [Hn _].
  set (v := idle CLOCKS_PER_BIT n w) in *.
  replace (Z.max 0 (r - Z.of_nat n)) with 1 in Hn by lia.
  destruct (phase_left_tick CLOCKS_PER_BIT cpb_ok None v 1 Hn eq_refl) as [H0 _].
  apply phase_left_ready in H0; [|lia..].
  apply phase_left_ready in Hn; [|lia].
  change (tx_ready (txm (hw (tick CLOCKS_PER_BIT None v))) &&
          negb (tx_ready_prev (hw (tick CLOCKS_PER_BIT None v))) = true).
  rewrite H0. change (tx_ready_prev (hw (tick CLOCKS_PER_BIT None v))) with (tx_ready (txm (hw v))).
  by rewrite Hn.
Qed.

(** C25: enabling the transmit interrupt never loses the wake-up.  If the
    transmitter is ready the callback is called at once; otherwise the
    hardware raises [tx_irq] after the enable, within a frame time. *)
Theorem tx_enable_no_lost_wakeup (w w1 : world T) (r : Z) (d : uart_data) :
  irq_enable_next_level (tx_irq_line cfg_uart) w = Some ((), w1) ->
  quiet CLOCKS_PER_BIT w1 r ->
  (forall v, rest v = rest w1 -> get_data v = Some (d, v)) -> cb d <> 0 ->
  exists w2, same_env w1 w2 /\
  ((r = 0 /\ uart_irq_tx_enable cfg_uart w = call_cb (cb d) (cb_data d) w2) \/
   (uart_irq_tx_enable cfg_uart w = Some ((), w2) /\
    exists n, Z.of_nat n <= 10 * CLOCKS_PER_BIT + 2 /\
      tx_irq (hw (idle CLOCKS_PER_BIT n
        (tick CLOCKS_PER_BIT (Some (false, 0x40001004, 0)) w1))) = true)).
Proof.
  intros Hen Hq Hget Hcb.
  destruct (read_quiet CLOCKS_PER_BIT cpb_ok 0x40001004 w1 r Hq) as (w2 & r2 & Hrun & _ & _ & _ & He).
  rewrite (status_read CLOCKS_PER_BIT w1 r _ Hq) in Hrun by done.
  exists w2. split; [done|].
  assert (uart_irq_tx_enable cfg_uart w =
    (if (r =? 0) && truthy (cb d) then call_cb (cb d) (cb_data d) else mret ()) w2) as ->.
  { unfold uart_irq_tx_enable. rewrite (M_bind_Some _ _ _ _ _ Hen).
    unfold uart_irq_tx_ready. rewrite M_bind_assoc.
    change (sys_read32 (base cfg_uart + TX_STATUS))
      with (transact (T := T) CLOCKS_PER_BIT (Some (false, 0x40001004, 0))).
    rewrite (M_bind_Some _ _ _ _ _ Hrun), M_ret_bind, (M_bind_Some _ _ _ _ _ (Hget w2 ltac:(apply He))).
    by destruct (Z.eqb_spec r 0). }
  destruct Hq as (Hp & Hr & _). pose proof (phase_left_range _ cpb_ok _ _ Hp).
  unfold truthy. destruct (Z.eqb_spec r 0); [left|right].
  - split; [done|]. by destruct (Z.eqb_spec (cb d) 0).
  - split; [done|].
    destruct (phase_left_tick CLOCKS_PER_BIT cpb_ok (Some (false, 0x40001004, 0)) w1 r Hp eq_refl)
      as [Hp1 _]. set (v := tick _ _ w1) in *.
    destruct (Z.eq_dec r 1) as [->|].
    + exists 1%nat. split; [pose proof cpb_ok; lia|].
      cbn -[CLOCKS_PER_BIT Z.max]. apply phase_left_ready in Hp1; [|pose proof cpb_ok; lia].
      apply phase_left_ready in Hp; [|pose proof cpb_ok; lia].
      change (tx_ready (txm (hw v)) && negb (tx_ready (txm (hw w1))) = true).
      by rewrite Hp1, Hp.
    + exists (S (Z.to_nat (r - 1))). split; [lia|].
      rewrite idle_S.
      apply busy_raises_irq; [|lia]. by replace (r - 1) with (Z.max 0 (r - 1)) by lia.
Qed.
End TxIrq.

(** ** Concrete instances *)
Module UartWitness.
Definition w0 : world uart_data := mk_world UartMmio.reset
  (fun t => if bool_decide (t = 5%nat) then Some 0x41 else None) (fun _ => 2%nat) 0 []
  {| cb := 7; cb_data := 9 |}.

(** The callback of this instance changes the driver data. *)
#[export] Instance env0 : UartEnv (world uart_data) := {|
  get_data := fun w => Some (rest w, w);
  set_data := fun d w => Some ((), mk_world (hw w) (rx_at w) (gap w) (now w) (sent w) d);
  irq_enable_next_level := fun _ => mret ();
  irq_disable_next_level := fun _ => mret ();
  irq_config_func := mret ();
  call_cb := fun f d w =>
    Some ((), mk_world (hw w) (rx_at w) (gap w) (now w) (sent w) {| cb := f; cb_data := d + 1 |});
|}.

(** A byte is on the wire, 100 cycles into its frame. *)
Definition w_busy : world uart_data := mk_world
  (mk_uart (tx_at CLOCKS_PER_BIT 0x48 100 false) false 0x48 0 0 false false false)
  (fun _ => None) (fun _ => 2%nat) 0 [0x48] {| cb := 7; cb_data := 9 |}.

Lemma w_busy_quiet : quiet CLOCKS_PER_BIT w_busy (10 * CLOCKS_PER_BIT - 100 + 1).
Proof.
  split; [by apply (Sending _ _ 0x48 false 100)|]. split; [done|]. cbn. lia.
Qed.

Lemma w0_quiet : quiet CLOCKS_PER_BIT w0 0.
Proof. split; [by apply Ready|]. split; [done|]. cbn. lia. Qed.

Lemma accepted_byte_is_framed_witness :
  tx (tx_run 4 10 (fun _ => (true, 0xff)) (UartTx.step 4 true 0x55 (mk_tx IDLE 0 0 0 true true)))
  = frame_bit 0x55 2.
Proof. apply (accepted_byte_is_framed 4 ltac:(lia) (fun _ => (true, 0xff)) 0x55 9). lia. Defined.

Lemma poll_out_sends_witness : exists w' r',
  uart_poll_out cfg_uart poll_fuel 0x48 w0 = Some ((), w') /\
  quiet CLOCKS_PER_BIT w' r' /\ sent w' = sent w0 ++ [0x48] /\ same_env w0 w'.
Proof. apply (poll_out_sends poll_fuel 0x48 w0 0 w0_quiet); [unfold is_uint; lia|done]. Defined.

Lemma print_sends_string_witness :
  (exists w' r', uart_print poll_fuel [72; 105; 0; 33] w0 = Some ((), w') /\
     quiet CLOCKS_PER_BIT w' r' /\ sent w' = [72; 105]) /\
  (exists w' r', print_buffer poll_fuel [72; 105; 0; 33] 0 w0 = Some (2, w') /\
     quiet CLOCKS_PER_BIT w' r' /\ sent w' = [72; 105]).
Proof.
  apply (print_sends_string poll_fuel [72; 105; 0; 33] 0 w0 0 w0_quiet);
    [by repeat constructor|done|done|done].
Defined.

Lemma poll_in_spec_witness :
  is_uint 8 (rx_holding (hw w0)) /\ exists w',
  uart_poll_in cfg_uart 3 w0 = Some ((-1, 3), w') /\ rx_has_data (hw w') = false.
Proof.
  assert (is_uint 8 (rx_holding (hw w0))) as H by done. split; [done|].
  apply (proj1 (poll_in_spec 3 w0 H)). done.
Defined.

Lemma tx_enable_no_lost_wakeup_witness : exists w2, same_env w_busy w2 /\
  ((10 * CLOCKS_PER_BIT - 100 + 1 = 0 /\
    uart_irq_tx_enable cfg_uart w_busy = call_cb 7 9 w2) \/
   (uart_irq_tx_enable cfg_uart w_busy = Some ((), w2) /\
    exists n, Z.of_nat n <= 10 * CLOCKS_PER_BIT + 2 /\
      tx_irq (hw (idle CLOCKS_PER_BIT n
        (tick CLOCKS_PER_BIT (Some (false, 0x40001004, 0)) w_busy))) = true)).
Proof.
  apply (tx_enable_no_lost_wakeup w_busy w_busy _ {| cb := 7; cb_data := 9 |});
    [done|apply w_busy_quiet| |done].
  intros v E. change (Some (rest v, v) = Some (rest w_busy, v)). by rewrite E.
Defined.
End UartWitness.
