(* ===== verification/UartRx.v ===== *)
(** * The UART receiver, [src/src/uart_rx.v]

    One clock cycle at a time, with its two-flop synchroniser, and the round
    trip through the transmitter of [Uart]: a byte that [uart_tx] has accepted
    is delivered by a receiver on the same wire. *)

From S2P Require Import Prelude Uart.

Module UartRx.

Inductive phase : Type := IDLE | START | DATA | STOP.

Record uart_rx : Type := mk_rx {
  state : phase;
  clk_count : Z;
  bit_index : Z;
  rx_meta : bool;
  rx_sync : bool;
  rx_data : Z;
  rx_valid : bool;
}.

Definition reset : uart_rx := mk_rx IDLE 0 0 true true 0 false.

(** [rx_data[i] <= b] *)
Definition put_bit (d i : Z) (b : bool) : Z := if b then Z.setbit d i else Z.clearbit d i.

(** One clock edge with [rx] on the pad; [clk_count] has 32 bits. *)
Definition step (clks_per_bit : Z) (rx : bool) (s : uart_rx) : uart_rx :=
  let next st clk bi d v := mk_rx st clk bi rx (rx_meta s) d v in
  let wait := next (state s) (u32 (clk_count s - 1)) (bit_index s) (rx_data s) false in
  match state s with
  | IDLE =>
      if rx_sync s then next IDLE (clk_count s) (bit_index s) (rx_data s) false
      else next START (u32 (clks_per_bit / 2)) (bit_index s) (rx_data s) false
  | START =>
      if clk_count s =? 0 then
        if rx_sync s then next IDLE (clk_count s) (bit_index s) (rx_data s) false
        else next DATA (u32 clks_per_bit) 0 (rx_data s) false
      else wait
  | DATA =>
      if clk_count s =? 0 then
        let d := put_bit (rx_data s) (bit_index s) (rx_sync s) in
        if bit_index s =? 7 then next STOP (u32 clks_per_bit) (bit_index s) d false
        else next DATA (u32 clks_per_bit) (bit_index s + 1) d false
      else wait
  | STOP =>
      if clk_count s =? 0 then next IDLE (clk_count s) (bit_index s) (rx_data s) true
      else wait
  end.
End UartRx.
Import UartRx.

(** [n] clock edges with the pad following [line]. *)
Fixpoint rx_run (cpb : Z) (n : nat) (line : nat -> bool) (s : uart_rx) : uart_rx :=
  match n with
  | O => s
  | S n => UartRx.step cpb (line n) (rx_run cpb n line s)
  end.

Lemma put_bit_spec (d i j : Z) (b : bool) :
  0 <= i -> Z.testbit (put_bit d i b) j = if j =? i then b else Z.testbit d j.
Proof.
  intros Hi. unfold put_bit. destruct b.
  - rewrite Z.setbit_eqb by done. rewrite (Z.eqb_sym i j). by destruct (j =? i).
  - rewrite Z.clearbit_eqb. rewrite (Z.eqb_sym i j). destruct (j =? i); cbn; [apply andb_false_r|apply andb_true_r].
Qed.

Lemma put_bit_uint (d i : Z) (b : bool) : is_uint 8 d -> 0 <= i < 8 -> is_uint 8 (put_bit d i b).
Proof.
  intros Hd Hi. apply uint_of_testbit; [lia|]. intros j Hj. rewrite put_bit_spec by lia.
  destruct (Z.eqb_spec j i); [lia|]. by apply (uint_testbit_high 8).
Qed.

Lemma u32_small (x : Z) : 0 <= x <= 2 ^ 16 -> u32 x = x.
Proof. intros Hx. apply uwrap_id. unfold is_uint. lia. Qed.

(** ** A frame on the wire *)

Section Receive.
Variable cpb : Z.
(** The samples drift by one clock per bit; from 19 clocks on, the last is
    still inside its bit. *)
Hypothesis oversampled : 19 <= cpb <= 2 ^ 16.

Variables (c : Z) (line : nat -> bool).
Hypothesis byte : is_uint 8 c.
Hypothesis framed : forall n, Z.of_nat n < 10 * cpb -> line n = frame_bit c (Z.of_nat n / cpb).

Let h : Z := cpb / 2.

(** The receiver [n] edges after the one that saw the start bit. *)
Record receiving (n : nat) (s : uart_rx) : Prop := {
  r_sync : rx_sync s = line (n + 1)%nat;
  r_meta : rx_meta s = line (n + 2)%nat;
  r_valid : rx_valid s = false;
  r_byte : is_uint 8 (rx_data s);
  r_phase :
    if Z.of_nat n <=? h then state s = START /\ clk_count s = h - Z.of_nat n
    else
      let k := (Z.of_nat n - h - 1) / (cpb + 1) in
      clk_count s = cpb - (Z.of_nat n - h - 1) mod (cpb + 1) /\
      (forall i, 0 <= i < k -> i < 8 -> Z.testbit (rx_data s) i = Z.testbit c i) /\
      (if k <=? 7 then state s = DATA /\ bit_index s = k else state s = STOP);
}.

(** The frame bits at the sampling points. *)
Lemma sample (k : Z) : 0 <= k <= 8 -> line (Z.to_nat (h + 1 + k * (cpb + 1))) = frame_bit c k.
Proof.
  intros Hk. assert (0 <= h /\ h <= cpb - 10) as [Hh0 Hh] by (unfold h; divlia).
  rewrite framed by nia. rewrite Z2Nat.id by nia. f_equal.
  symmetry. apply Z.div_unique with (h + 1 + k); lia.
Qed.

Lemma receiving_step (n : nat) (s : uart_rx) :
  Z.of_nat n < h + 9 * (cpb + 1) -> receiving n s -> receiving (S n) (UartRx.step cpb (line (n + 3)%nat) s).
Proof.
  intros Hn [Hs Hm Hv Hb Hp]. assert (0 <= h /\ h <= cpb - 10) as [Hh0 Hh] by (unfold h; divlia).
  destruct (Z.leb_spec (Z.of_nat n) h) as [Hle|Hgt].
  - destruct Hp as [Est Ecc]. destruct (Z.eq_dec (Z.of_nat n) h) as [E|E].
    + assert (rx_sync s = false) as Hlow.
      { rewrite Hs. pose proof (sample 0 ltac:(lia)) as Hsam. replace (Z.to_nat _) with (n + 1)%nat in Hsam by lia. exact Hsam. }
      unfold UartRx.step. rewrite Est, Ecc, E, Z.sub_diag, Z.eqb_refl, Hlow, (u32_small cpb) by lia.
      split; cbn; [by rewrite Hm; f_equal; lia|f_equal; lia|done|done|].
      destruct (Z.leb_spec (Z.of_nat (S n)) h); [lia|]. replace (Z.of_nat (S n) - h - 1) with 0 by lia.
      rewrite Z.div_0_l, Z.mod_0_l by lia. split; [lia|]. split; [intros; lia|done].
    + assert (u32 (h - Z.of_nat n - 1) = h - Z.of_nat n - 1) as Eu by (apply u32_small; lia).
      unfold UartRx.step. rewrite Est, Ecc, Eu. destruct (Z.eqb_spec (h - Z.of_nat n) 0); [lia|].
      split; cbn; [by rewrite Hm; f_equal; lia|f_equal; lia|done|done|].
      destruct (Z.leb_spec (Z.of_nat (S n)) h); [|lia]. split; [done|lia].
  - cbn zeta in Hp. set (u := Z.of_nat n - h - 1) in *. destruct Hp as (Ecc & Hbits & Hph).
    pose proof (Z.div_mod u (cpb + 1) ltac:(lia)) as Eu. pose proof (Z.mod_pos_bound u (cpb + 1) ltac:(lia)) as Hmod.
    set (k := u / (cpb + 1)) in *. set (m := u mod (cpb + 1)) in *.
    assert (0 <= k <= 8) as Hk by nia.
    destruct (Z.lt_ge_cases m cpb) as [Hlt|Hge].
    + assert ((u + 1) / (cpb + 1) = k) as Ek by (symmetry; apply Z.div_unique with (m + 1); lia).
      assert ((u + 1) mod (cpb + 1) = m + 1) as Em by (symmetry; apply Z.mod_unique with k; lia).
      assert (UartRx.step cpb (line (n + 3)%nat) s =
        mk_rx (state s) (clk_count s - 1) (bit_index s) (line (n + 3)%nat) (rx_meta s) (rx_data s) false) as ->.
      { unfold UartRx.step. rewrite (u32_small (clk_count s - 1)) by lia. destruct (Z.eqb_spec (clk_count s) 0); [lia|].
        destruct (k <=? 7); [destruct Hph as [-> _]|rewrite Hph]; done. }
      split; cbn; [by rewrite Hm; f_equal; lia|f_equal; lia|done|done|].
      destruct (Z.leb_spec (Z.of_nat (S n)) h); [lia|].
      replace (Z.of_nat (S n) - h - 1) with (u + 1) by lia. rewrite Ek, Em. split; [lia|]. by split.
    + assert (m = cpb) as Em' by lia. assert (k <= 7) as Hk7 by nia.
      assert ((u + 1) / (cpb + 1) = k + 1) as Ek by (symmetry; apply Z.div_unique with 0; lia).
      assert ((u + 1) mod (cpb + 1) = 0) as Em by (symmetry; apply Z.mod_unique with (k + 1); lia).
      assert (rx_sync s = Z.testbit c k) as Hbit.
      { rewrite Hs. pose proof (sample (k + 1) ltac:(lia)) as Hsam.
        replace (Z.to_nat _) with (n + 1)%nat in Hsam by lia. rewrite Hsam. unfold frame_bit.
        destruct (Z.eqb_spec (k + 1) 0); [lia|]. destruct (Z.leb_spec (k + 1) 8); [|lia]. f_equal. lia. }
      destruct (Z.leb_spec k 7); [|lia]. destruct Hph as [Est Ebi].
      unfold UartRx.step. rewrite Est, Ebi, Hbit, (u32_small cpb) by lia. destruct (Z.eqb_spec (clk_count s) 0); [|lia].
      destruct (Z.eqb_spec k 7); (split; cbn; [by rewrite Hm; f_equal; lia|f_equal; lia|done|by apply put_bit_uint; [|lia]|]);
        (destruct (Z.leb_spec (Z.of_nat (S n)) h); [lia|]);
        replace (Z.of_nat (S n) - h - 1) with (u + 1) by lia; rewrite Ek, Em; (split; [lia|]);
        (split; [intros i Hi Hi8; rewrite put_bit_spec by lia; destruct (Z.eqb_spec i k) as [->|]; [done|apply Hbits; lia]|]).
      * destruct (Z.leb_spec (k + 1) 7); [lia|done].
      * destruct (Z.leb_spec (k + 1) 7); [done|lia].
Qed.

(** Start of the frame: the line was idle. *)
Lemma receiving_start (s : uart_rx) :
  state s = IDLE -> rx_meta s = true -> rx_sync s = true -> is_uint 8 (rx_data s) ->
  receiving 0 (rx_run cpb 3 line s) /\ (forall n, (n < 3)%nat -> n <> 0%nat -> rx_valid (rx_run cpb n line s) = false).
Proof.
  intros Hs Hm Hy Hb. assert (line 0%nat = false) as H0 by (rewrite framed by (cbn; lia); by rewrite Z.div_0_l by lia).
  assert (rx_run cpb 1 line s = mk_rx IDLE (clk_count s) (bit_index s) false true (rx_data s) false) as E1.
  { cbn [rx_run]. unfold UartRx.step. by rewrite Hs, Hy, Hm, H0. }
  assert (rx_run cpb 2 line s = mk_rx IDLE (clk_count s) (bit_index s) (line 1%nat) false (rx_data s) false) as E2.
  { change (UartRx.step cpb (line 1%nat) (rx_run cpb 1 line s) = mk_rx IDLE (clk_count s) (bit_index s) (line 1%nat) false (rx_data s) false).
    by rewrite E1. }
  split.
  - change (receiving 0 (UartRx.step cpb (line 2%nat) (rx_run cpb 2 line s))). rewrite E2. cbn.
    split; cbn [rx_sync rx_meta rx_valid rx_data state clk_count]; [done..|].
    assert (0 <= h) by (unfold h; divlia). destruct (Z.leb_spec (Z.of_nat 0) h); [|lia].
    split; [done|]. rewrite u32_small by divlia. unfold h. lia.
  - intros n Hn Hn0. destruct n as [|[|[|n]]]; [done|by rewrite E1|by rewrite E2|lia].
Qed.

(** When the byte is out. *)
Definition rx_time : Z := h + 9 * (cpb + 1) + 4.

Lemma receive_run (s : uart_rx) :
  state s = IDLE -> rx_meta s = true -> rx_sync s = true -> is_uint 8 (rx_data s) -> rx_valid s = false ->
  let s' := rx_run cpb (Z.to_nat rx_time) line s in
  rx_valid s' = true /\ rx_data s' = c /\ state s' = IDLE /\
  (forall n, Z.of_nat n < rx_time -> rx_valid (rx_run cpb n line s) = false).
Proof.
  intros Hs Hm Hy Hb Hv. assert (0 <= h) as Hh by (unfold h; divlia).
  destruct (receiving_start s Hs Hm Hy Hb) as [H0 Hearly].
  assert (forall n, Z.of_nat n <= h + 9 * (cpb + 1) -> receiving n (rx_run cpb (n + 3) line s)) as Hrun.
  { induction n as [|n IH]; intros Hn; [exact H0|]. cbn [Nat.add rx_run]. apply receiving_step; [lia|apply IH; lia]. }
  cbn zeta. replace (Z.to_nat rx_time) with (S (Z.to_nat (h + 9 * (cpb + 1)) + 3)) by (unfold rx_time; lia).
  cbn [rx_run]. set (n := Z.to_nat (h + 9 * (cpb + 1))).
  destruct (Hrun n) as [_ _ _ Hd Hp]; [unfold n; lia|]. set (s1 := rx_run cpb (n + 3) line s) in *.
  destruct (Z.leb_spec (Z.of_nat n) h) as [|_]; [unfold n in *; lia|]. cbn zeta in Hp.
  replace (Z.of_nat n - h - 1) with (8 * (cpb + 1) + cpb) in Hp by (unfold n; lia).
  assert ((8 * (cpb + 1) + cpb) / (cpb + 1) = 8) as E8 by (symmetry; apply Z.div_unique with cpb; lia).
  assert ((8 * (cpb + 1) + cpb) mod (cpb + 1) = cpb) as Ec by (symmetry; apply Z.mod_unique with 8; lia).
  rewrite E8, Ec in Hp. destruct Hp as (Ecc & Hbits & Hst). cbn in Hst.
  unfold UartRx.step. rewrite Hst. replace (clk_count s1) with 0 by lia. cbn. split; [done|]. split; [|split; [done|]].
  - apply Z.bits_inj'. intros i Hi. destruct (Z.lt_ge_cases i 8); [by apply Hbits|].
    by rewrite !(uint_testbit_high 8).
  - intros k Hk. destruct (Nat.lt_ge_cases k 3).
    + destruct k as [|k]; [done|]. by apply Hearly.
    + replace k with (k - 3 + 3)%nat by lia. destruct (Hrun (k - 3)%nat) as [_ _ Hvk _ _]; [unfold rx_time in Hk; lia|done].
Qed.
End Receive.

(** ** Properties *)

(** C15: transmitter and receiver on one wire. A byte that the idle transmitter
    accepts is delivered by an idle receiver, in one [rx_valid] pulse
    [cpb / 2 + 9 * (cpb + 1) + 4] cycles after the start bit reaches its pad and
    no pulse before, whatever the transmitter's inputs do meanwhile, for every
    clock of 19 to 2^16 cycles per bit: the receiver's bit period is one clock
    longer than the transmitter's, and the drift over a frame stays inside the
    last bit; the transmitter counts the clocks of a bit in 16 bits
    ([start_bit_stuck]). *)
Theorem uart_loopback (cpb c cc bi sd : Z) (ins : nat -> bool * Z) (last ready : bool) (s : uart_rx) :
  19 <= cpb <= 2 ^ 16 -> is_uint 8 c ->
  state s = IDLE -> rx_meta s = true -> rx_sync s = true -> is_uint 8 (rx_data s) -> rx_valid s = false ->
  let sender := UartTx.step cpb true c (UartTx.mk_tx UartTx.IDLE cc bi sd last ready) in
  let line n := UartTx.tx (tx_run cpb (S n) ins sender) in
  let s' := rx_run cpb (Z.to_nat (rx_time cpb)) line s in
  rx_valid s' = true /\ rx_data s' = c /\ state s' = IDLE /\
  (forall n, Z.of_nat n < rx_time cpb -> rx_valid (rx_run cpb n line s) = false).
Proof.
  intros Hcpb Hc Hs Hm Hy Hb Hv sender line. apply receive_run; try done.
  intros n Hn. apply accepted_byte_is_framed; [lia|done].
Qed.

Module UartRxWitness.
Lemma uart_loopback_witness :
  let sender := UartTx.step 434 true 0xA7 (UartTx.mk_tx UartTx.IDLE 0 0 0 true true) in
  let line n := UartTx.tx (tx_run 434 (S n) (fun _ => (true, 0xff)) sender) in
  let s' := rx_run 434 (Z.to_nat (rx_time 434)) line UartRx.reset in
  rx_valid s' = true /\ rx_data s' = 0xA7 /\ state s' = IDLE /\
  (forall n, Z.of_nat n < rx_time 434 -> rx_valid (rx_run 434 n line UartRx.reset) = false).
Proof. apply (uart_loopback 434 0xA7 0 0 0 (fun _ => (true, 0xff)) true true UartRx.reset); done. Defined.

(** At 18 cycles per bit the last data bit is sampled in the stop bit. *)
Example too_slow_clock :
  let sender := UartTx.step 18 true 0x27 (UartTx.mk_tx UartTx.IDLE 0 0 0 true true) in
  let line n := UartTx.tx (tx_run 18 (S n) (fun _ => (false, 0)) sender) in
  rx_data (rx_run 18 (Z.to_nat (rx_time 18)) line UartRx.reset) = 0xA7.
Proof. vm_compute. reflexivity. Qed.
End UartRxWitness.
