(* ===== verification/CoreUtil.v ===== *)
(** * CoreMark's service functions, [src/fpga/coremark/src/core_util.c]

    The CRC routines that every benchmark kernel's result goes through, the
    seed sources and the command-line number parser.  The bit-serial loop of
    [crcu8] is proved equal to the table-free CRC-16/ARC recurrence (reflected
    polynomial 0xA001), from which linearity and error detection follow. *)

From S2P Require Import Prelude.

(** ** CRC *)

(** [ee_u16 crcu8(ee_u8 data, ee_u16 crc)]; the loop state is [(data, crc)]. *)
Definition crcu8_bit (_ : Z) (st : Z * Z) : Z * Z :=
  let '(data, crc) := st in
  let x16 := u8 ((data .& 1) .^ (u8 crc .& 1)) in
  let data := data .>> 1 in
  let '(crc, carry) := if x16 =? 1 then (crc .^ 0x4002, 1) else (crc, 0) in
  let crc := crc .>> 1 in
  let crc := if truthy carry then crc .| 0x8000 else crc .& 0x7fff in
  (data, crc).

Definition crcu8 (data crc : Z) : Z := (for_upto 8 crcu8_bit (data, crc)).2.

Definition crcu16 (newval crc : Z) : Z :=
  let crc := crcu8 (u8 newval) crc in
  crcu8 (u8 (newval .>> 8)) crc.

(** The argument is an [ee_s16]. *)
Definition crc16 (newval crc : Z) : Z := crcu16 (u16 newval) crc.

Definition crcu32 (newval crc : Z) : Z :=
  let crc := crc16 (s16 newval) crc in
  crc16 (s16 (newval .>> 16)) crc.

(** ** Seeds *)

(** The five volatile seeds of [core_portme.c], in order. *)
Definition get_seed_32 (seeds : list Z) (i : Z) : Z :=
  match i with
  | 1 => nth 0 seeds 0
  | 2 => nth 1 seeds 0
  | 3 => nth 2 seeds 0
  | 4 => nth 3 seeds 0
  | 5 => nth 4 seeds 0
  | _ => 0
  end.

(** [parseval]: a C string is a list of characters, read as zero beyond its
    end; [ee_s32] arithmetic wraps. *)
Definition chr (s : list Z) : Z := nth 0 s 0.
Definition is_digit (c : Z) : bool := (48 <=? c) && (c <=? 57).
Definition is_hex (c : Z) : bool := is_digit c || ((97 <=? c) && (c <=? 102)).

Definition hex_digit (c : Z) : Z :=
  let digit := s32 (c - 48) in if 9 <? digit then 10 + c - 97 else digit.

Definition parse_digits (hexmode : bool) (s : list Z) (retval : Z) : option (list Z * Z) :=
  while_fuel (S (length s))
    (fun '(s, _) => if hexmode then is_hex (chr s) else is_digit (chr s))
    (fun '(s, retval) =>
       if hexmode then (tail s, s32 (s32 (retval * 16) + hex_digit (chr s)))
       else (tail s, s32 (s32 (retval * 10) + s32 (chr s - 48))))
    (s, retval).

Definition parseval (valstring : list Z) : option Z :=
  let '(neg, s) := if chr valstring =? 45 then (-1, tail valstring) else (1, valstring) in
  let '(hexmode, s) :=
    if (chr s =? 48) && (nth 1 s 0 =? 120) then (true, tail (tail s)) else (false, s) in
  '(s, retval) ← parse_digits hexmode s 0;
  let retval := if chr s =? 75 then s32 (retval * 1024) else retval in
  let retval := if chr s =? 77 then s32 (retval * s32 (1024 * 1024)) else retval in
  Some (s32 (retval * neg)).

Definition get_seed_args (i argc : Z) (argv : list (list Z)) : option Z :=
  if i <? argc then parseval (nth (Z.to_nat i) argv []) else Some 0.

(** [check_data_types], over the sizes the compiler gives the types. *)
Record type_sizes : Type := {
  sizeof_u8 : Z; sizeof_u16 : Z; sizeof_s16 : Z; sizeof_s32 : Z; sizeof_u32 : Z;
  sizeof_ptr_int : Z; sizeof_int_ptr : Z;
}.

Definition check_data_types (sz : type_sizes) : Z :=
  let bump (b : bool) (retval : Z) := if b then u8 (retval + 1) else retval in
  let retval := bump (negb (sizeof_u8 sz =? 1)) 0 in
  let retval := bump (negb (sizeof_u16 sz =? 2)) retval in
  let retval := bump (negb (sizeof_s16 sz =? 2)) retval in
  let retval := bump (negb (sizeof_s32 sz =? 4)) retval in
  let retval := bump (negb (sizeof_u32 sz =? 4)) retval in
  bump (negb (sizeof_ptr_int sz =? sizeof_int_ptr sz)) retval.

Example crc_check_123456789 :
  fold_left (fun c d => crcu8 d c) [49;50;51;52;53;54;55;56;57] 0 = 0xBB3D.
Proof. reflexivity. Qed.

(** ** The CRC-16/ARC recurrence *)

Definition arc_step (s : Z) : Z :=
  if Z.testbit s 0 then (s .>> 1) .^ 0xA001 else s .>> 1.

Definition arc_byte (data crc : Z) : Z := Nat.iter 8 arc_step (crc .^ data).

(** The inverse of the recurrence on 16-bit states. *)
Definition arc_unstep (s : Z) : Z :=
  if Z.testbit s 15 then ((s .^ 0xA001) .<< 1) .| 1 else s .<< 1.

Lemma arc_step_uint (s : Z) : is_uint 16 s -> is_uint 16 (arc_step s).
Proof. intros. unfold arc_step. destruct (Z.testbit s 0); auto with soc. Qed.

Lemma land_1_testbit (x : Z) : x .& 1 = Z.b2z (Z.testbit x 0).
Proof. rewrite Z.bit0_mod. by apply (Z.land_ones x 1). Qed.

(** One iteration of [crcu8] on the remaining data bits is one step of the
    recurrence on the state with those bits mixed in. *)
Lemma crcu8_bit_arc (j data crc : Z) :
  is_uint 16 crc -> 0 <= data ->
  let st := crcu8_bit j (data, crc) in
  st.1 = data .>> 1 /\ is_uint 16 st.2 /\ st.2 .^ st.1 = arc_step (crc .^ data).
Proof.
  intros Hc Hd. unfold crcu8_bit, arc_step.
  assert (u8 ((data .& 1) .^ (u8 crc .& 1)) = Z.b2z (Z.testbit (crc .^ data) 0)) as ->.
  { rewrite Z.lxor_spec, !land_1_testbit. unfold u8 at 2. rewrite uwrap_testbit by lia.
    by destruct (Z.testbit data 0), (Z.testbit crc 0). }
  pose proof (uint_testbit_high 16 crc) as Hhi.
  destruct (Z.testbit (crc .^ data) 0); cbn -[Z.lxor Z.shiftr Z.lor Z.land]; split_and!; try done.
  - apply lor_uint; auto with soc.
  - bitwise i Hi.
    assert (Z.testbit 0x8000 i = (i =? 15)) as -> by (change 0x8000 with (2^15); by rewrite Z.pow2_bits_eqb, Z.eqb_sym by lia).
    destruct (Z.lt_ge_cases i 15).
    + destruct (Z.eqb_spec i 15); [lia|].
      assert (Z.testbit 0x4002 (i + 1) = Z.testbit 0xA001 i) as ->.
      { change 0x4002 with (0x2001 .<< 1). rewrite Z.shiftl_spec by lia.
        replace (i + 1 - 1) with i by lia. change 0x2001 with (uwrap 15 0xA001).
        rewrite uwrap_testbit by lia. by destruct (Z.ltb_spec i 15); [|lia]. }
      by destruct (Z.testbit crc (i+1)), (Z.testbit data (i+1)), (Z.testbit 0xA001 i).
    + rewrite (Hhi (i + 1) Hc) by lia.
      rewrite (uint_testbit_high 16 0x4002 (i + 1)) by (unfold is_uint; lia).
      destruct (Z.eqb_spec i 15) as [->|]; [by destruct (Z.testbit data _)|].
      rewrite (uint_testbit_high 16 0xA001 i) by (unfold is_uint; lia).
      by destruct (Z.testbit data _).
  - apply land_uint_r; [done|unfold is_uint; lia].
  - bitwise i Hi. change 0x7fff with (Z.ones 15). rewrite Z.testbit_ones_nonneg by lia.
    destruct (Z.ltb_spec i 15); [by rewrite andb_true_r|].
    by rewrite (Hhi (i + 1) Hc) by lia.
Qed.

Lemma crcu8_loop (n : nat) (data crc : Z) :
  is_uint 16 crc -> 0 <= data ->
  let st := for_from n 0 crcu8_bit (data, crc) in
  st.1 = data .>> Z.of_nat n /\ is_uint 16 st.2 /\
  st.2 .^ st.1 = Nat.iter n arc_step (crc .^ data).
Proof.
  intros Hc Hd. induction n as [|n IH]; [by rewrite Z.shiftr_0_r|].
  rewrite for_from_S. cbn zeta in *. destruct (for_from n 0 crcu8_bit (data, crc)) as [d c].
  destruct IH as (Ed & Hc' & Ex). cbn [fst snd] in *.
  destruct (crcu8_bit_arc (0 + Z.of_nat n) d c Hc') as (E1 & E2 & E3).
  { rewrite Ed. by apply Z.shiftr_nonneg. }
  split_and!; [|done|by rewrite E3, Ex].
  rewrite E1, Ed, Z.shiftr_shiftr by lia. f_equal; lia.
Qed.

(** The byte CRC in closed form. *)
Lemma crcu8_arc (data crc : Z) :
  is_uint 8 data -> is_uint 16 crc -> crcu8 data crc = arc_byte data crc.
Proof.
  intros Hd Hc. unfold crcu8, arc_byte, for_upto. change (Z.to_nat 8) with 8%nat.
  destruct (crcu8_loop 8 data crc Hc) as (E1 & _ & E3); [apply Hd|].
  cbn zeta in *. destruct (for_from 8 0 crcu8_bit (data, crc)) as [d c]. cbn [fst snd] in *.
  rewrite <-E3, E1, Z.shiftr_div_pow2, Z.div_small by (lia || apply Hd). by rewrite Z.lxor_0_r.
Qed.

(** C26: the bit loop of [crcu8] (its carry flag, the 0x4002 feedback and the
    two masks) computes the CRC-16/ARC recurrence: eight steps of the reflected
    polynomial 0xA001 on the state with the data byte mixed in. *)
Theorem crcu8_is_crc16_arc (data crc : Z) :
  is_uint 8 data -> is_uint 16 crc -> crcu8 data crc = arc_byte data crc.
Proof. apply crcu8_arc. Qed.

Lemma crcu8_range (data crc : Z) : 0 <= data -> is_uint 16 crc -> is_uint 16 (crcu8 data crc).
Proof. intros Hd Hc. by apply (crcu8_loop 8 data crc Hc Hd). Qed.

Lemma crcu16_range (v crc : Z) : is_uint 16 crc -> is_uint 16 (crcu16 v crc).
Proof.
  intros. unfold crcu16, u8. apply crcu8_range; [apply uwrap_range; lia|].
  apply crcu8_range; [apply uwrap_range; lia|done].
Qed.

Lemma crc16_range (v crc : Z) : is_uint 16 crc -> is_uint 16 (crc16 v crc).
Proof. apply crcu16_range. Qed.
#[export] Hint Resolve crcu8_range crcu16_range crc16_range arc_step_uint : soc.

(** The recurrence is linear and, on 16-bit states, invertible. *)
Lemma arc_step_lxor (x y : Z) : arc_step (x .^ y) = arc_step x .^ arc_step y.
Proof.
  unfold arc_step. rewrite Z.lxor_spec, Z.shiftr_lxor.
  destruct (Z.testbit x 0), (Z.testbit y 0); cbn -[Z.lxor Z.shiftr];
    bitwise i Hi; destruct (Z.testbit x (i + 1)), (Z.testbit y (i + 1)), (Z.testbit 0xA001 i); done.
Qed.

Lemma arc_iter_lxor (n : nat) (x y : Z) :
  Nat.iter n arc_step (x .^ y) = Nat.iter n arc_step x .^ Nat.iter n arc_step y.
Proof. induction n as [|n IH]; [done|]. by rewrite !Nat.iter_succ, IH, arc_step_lxor. Qed.

Lemma arc_iter_uint (n : nat) (x : Z) : is_uint 16 x -> is_uint 16 (Nat.iter n arc_step x).
Proof. induction n; rewrite ?Nat.iter_succ; auto with soc. Qed.

Lemma arc_unstep_step (s : Z) : is_uint 16 s -> arc_unstep (arc_step s) = s.
Proof.
  intros Hs. pose proof (uint_testbit_high 16 s) as Hhi. unfold arc_step, arc_unstep.
  assert (forall b, Z.b2z b = if b then 1 else 0) as Hb by by intros [].
  destruct (Z.testbit s 0) eqn:H0.
  - assert (Z.testbit ((s .>> 1) .^ 0xA001) 15 = true) as ->.
    { rewrite Z.lxor_spec, Z.shiftr_spec by lia. by rewrite (Hhi (15 + 1) Hs). }
    bitwise i Hi. destruct (Z.eq_dec i 0) as [->|]; [rewrite H0; apply orb_true_r|].
    replace (Z.testbit 1 i) with false by (symmetry; apply (Z.pow2_bits_false 0); lia).
    destruct (Z.testbit 0xA001 (i - 1)); rewrite Z.shiftr_spec by lia;
      replace (i - 1 + 1) with i by lia; by destruct (Z.testbit s i).
  - assert (Z.testbit (s .>> 1) 15 = false) as ->.
    { rewrite Z.shiftr_spec by lia. by apply Hhi. }
    bitwise i Hi. destruct (Z.eq_dec i 0) as [->|]; [rewrite H0; by apply Z.testbit_neg_r|].
    rewrite Z.shiftr_spec by lia. f_equal. lia.
Qed.

Lemma arc_iter_inj (n : nat) (x y : Z) :
  is_uint 16 x -> is_uint 16 y -> Nat.iter n arc_step x = Nat.iter n arc_step y -> x = y.
Proof.
  intros Hx Hy. induction n as [|n IH]; [done|]. rewrite !Nat.iter_succ. intros E. apply IH.
  rewrite <-(arc_unstep_step (Nat.iter n arc_step x)), E, arc_unstep_step; [done|..];
    by apply arc_iter_uint.
Qed.

Lemma lxor_inj_r (a x y : Z) : x .^ a = y .^ a -> x = y.
Proof. intros E. by rewrite <-(Z.lxor_0_r x), <-(Z.lxor_nilpotent a), <-Z.lxor_assoc, E,
  Z.lxor_assoc, Z.lxor_nilpotent, Z.lxor_0_r. Qed.

Lemma uint_weaken (v w x : Z) : 0 <= v <= w -> is_uint v x -> is_uint w x.
Proof. unfold is_uint. intros. pose proof (Z.pow_le_mono_r 2 v w). lia. Qed.

Lemma crcu8_inj_crc (d x y : Z) :
  is_uint 8 d -> is_uint 16 x -> is_uint 16 y -> crcu8 d x = crcu8 d y -> x = y.
Proof.
  intros Hd Hx Hy E. rewrite !crcu8_arc in E by done.
  assert (is_uint 16 d) by (apply (uint_weaken 8); [lia|done]).
  apply (lxor_inj_r d), (arc_iter_inj 8); auto with soc.
Qed.

Lemma arc_step_even (h n : Z) : 0 <= n -> arc_step (h .<< (n + 1)) = h .<< n.
Proof.
  intros Hn. unfold arc_step. rewrite Z.shiftl_spec, Z.testbit_neg_r by lia.
  bitwise i Hi. f_equal. lia.
Qed.

Lemma arc_iter_shift (n : nat) (h : Z) : Nat.iter n arc_step (h .<< Z.of_nat n) = h.
Proof.
  induction n as [|n IH]; [apply Z.shiftl_0_r|]. rewrite Nat.iter_succ_r.
  replace (Z.of_nat (S n)) with (Z.of_nat n + 1) by lia. by rewrite arc_step_even by lia.
Qed.

Lemma u16_split (v : Z) : is_uint 16 v -> v = u8 v .^ (u8 (v .>> 8) .<< 8).
Proof.
  intros Hv. bitwise i Hi. unfold u8. rewrite uwrap_testbit by lia.
  destruct (Z.ltb_spec i 8); cbn [andb].
  - rewrite (Z.testbit_neg_r _ (i - 8)) by lia. by destruct (Z.testbit v i).
  - rewrite uwrap_testbit, Z.shiftr_spec by lia. replace (i - 8 + 8) with i by lia.
    destruct (Z.ltb_spec (i - 8) 8); [by destruct (Z.testbit v i)|].
    by rewrite (uint_testbit_high 16 v i) by (done || lia).
Qed.

(** Sixteen steps on the state with the halfword mixed in. *)
Lemma crcu16_arc (v crc : Z) :
  is_uint 16 v -> is_uint 16 crc -> crcu16 v crc = Nat.iter 16 arc_step (crc .^ v).
Proof.
  intros Hv Hc. unfold crcu16.
  assert (forall x, is_uint 8 (u8 x)) as H8 by (intros; by apply uwrap_range).
  assert (is_uint 16 (crcu8 (u8 v) crc)) by (apply crcu8_range; [apply H8|done]).
  rewrite (crcu8_arc (u8 (v .>> 8))), (crcu8_arc (u8 v)) by done.
  unfold arc_byte. rewrite (u16_split v Hv) at 3.
  rewrite <-Z.lxor_assoc, (Nat.iter_add 8 8 arc_step).
  rewrite !(arc_iter_lxor 8), !(arc_iter_shift 8). done.
Qed.

Lemma crcu16_inj (v1 v2 c1 c2 : Z) :
  is_uint 16 v1 -> is_uint 16 v2 -> is_uint 16 c1 -> is_uint 16 c2 ->
  crcu16 v1 c1 = crcu16 v2 c2 -> c1 .^ v1 = c2 .^ v2.
Proof. intros ????. rewrite !crcu16_arc by done. apply arc_iter_inj; auto with soc. Qed.

(** The CRC of a stream of halfwords, as the benchmark kernels accumulate it. *)
Definition crc_stream (l : list Z) (crc : Z) : Z := fold_left (fun c v => crc16 v c) l crc.

Lemma crc_stream_app (l1 l2 : list Z) (crc : Z) :
  crc_stream (l1 ++ l2) crc = crc_stream l2 (crc_stream l1 crc).
Proof. apply fold_left_app. Qed.

Lemma crc_stream_range (l : list Z) (crc : Z) :
  is_uint 16 crc -> is_uint 16 (crc_stream l crc).
Proof. revert crc. induction l; cbn; auto with soc. Qed.

Lemma crc_stream_inj (l : list Z) (x y : Z) :
  is_uint 16 x -> is_uint 16 y -> crc_stream l x = crc_stream l y -> x = y.
Proof.
  revert x y. induction l as [|v l IH]; intros x y Hx Hy; [done|]. cbn. intros E.
  apply IH in E; [|auto with soc..]. unfold crc16 in E.
  apply crcu16_inj in E; [|apply uwrap_range; lia..|done|done]. by apply lxor_inj_r in E.
Qed.

(** The CRC detects every change of a single 16-bit value of a stream,
    wherever it is and whatever surrounds it. *)
Theorem crc16_detects_change (pre post : list Z) (x y crc : Z) :
  is_uint 16 crc -> is_sint 16 x -> is_sint 16 y -> x <> y ->
  crc_stream (pre ++ x :: post) crc <> crc_stream (pre ++ y :: post) crc.
Proof.
  intros Hc Hx Hy Hne E. rewrite !crc_stream_app in E. cbn [crc_stream fold_left] in E.
  pose proof (crc_stream_range pre crc Hc) as Hp.
  apply crc_stream_inj in E; [|by apply crc16_range..]. unfold crc16 in E.
  apply crcu16_inj in E; [|apply uwrap_range; lia..|done|done].
  rewrite !(Z.lxor_comm (crc_stream pre crc)) in E. apply lxor_inj_r in E.
  apply Hne. rewrite <-(swrap_id 16 x), <-(swrap_id 16 y) by done.
  apply swrap_cong. exact E.
Qed.

Lemma crc16_detects_change_witness :
  crc_stream ([1; 2] ++ 3 :: [4]) 0 <> crc_stream ([1; 2] ++ 7 :: [4]) 0.
Proof. apply (crc16_detects_change [1; 2] [4] 3 7 0); unfold is_uint, is_sint; cbn; lia. Defined.

Lemma crcu8_is_crc16_arc_witness : crcu8 0x31 0xffff = arc_byte 0x31 0xffff.
Proof. apply crcu8_is_crc16_arc; unfold is_uint; lia. Defined.

(** ** Number parsing *)

(** The value of a string of digits in the given base. *)
Definition digits_value (base : Z) (digit : Z -> Z) (ds : list Z) (acc : Z) : Z :=
  fold_left (fun a c => a * base + digit c) ds acc.

Definition dec_digit (c : Z) : Z := c - 48.

Lemma digits_value_mono (base : Z) (digit : Z -> Z) (ds : list Z) (acc : Z) :
  1 <= base -> 0 <= acc -> Forall (fun c => 0 <= digit c) ds ->
  acc <= digits_value base digit ds acc.
Proof.
  intros Hb Ha Hd. revert acc Ha. induction Hd as [|c ds Hc Hd IH]; intros acc Ha; [done|].
  cbn. etransitivity; [|apply IH; nia]. nia.
Qed.

Lemma is_digit_iff (c : Z) : is_digit c = true <-> 48 <= c <= 57.
Proof. unfold is_digit. zbool; cbn; split; (done || lia). Qed.

Lemma is_hex_iff (c : Z) : is_hex c = true <-> 48 <= c <= 57 \/ 97 <= c <= 102.
Proof. unfold is_hex, is_digit. zbool; cbn; split; (done || lia). Qed.

(** Characters as they are on the target: [char] is unsigned. *)
Lemma hex_digit_value (c : Z) :
  is_hex c = true -> hex_digit c = (if 97 <=? c then c - 87 else c - 48) /\ 0 <= hex_digit c < 16.
Proof.
  rewrite is_hex_iff. intros Hc. unfold hex_digit, s32.
  rewrite swrap_id by (unfold is_sint; cbn; lia).
  destruct (Z.ltb_spec 9 (c - 48)), (Z.leb_spec 97 c); lia.
Qed.

Definition base_of (hexmode : bool) : Z := if hexmode then 16 else 10.
Definition digit_ok (hexmode : bool) (c : Z) : bool := if hexmode then is_hex c else is_digit c.
Definition digit_of (hexmode : bool) (c : Z) : Z := if hexmode then hex_digit c else dec_digit c.

Lemma digit_of_range (hexmode : bool) (c : Z) :
  digit_ok hexmode c = true -> 0 <= digit_of hexmode c < base_of hexmode.
Proof.
  destruct hexmode; cbn; intros Hc.
  - by apply hex_digit_value.
  - apply is_digit_iff in Hc. unfold dec_digit. lia.
Qed.

Lemma digits_value_first (hexmode : bool) (c : Z) (ds : list Z) (acc : Z) :
  0 <= acc -> Forall (fun c => digit_ok hexmode c = true) (c :: ds) ->
  0 <= acc * base_of hexmode <= acc * base_of hexmode + digit_of hexmode c /\
  acc * base_of hexmode + digit_of hexmode c
    <= digits_value (base_of hexmode) (digit_of hexmode) (c :: ds) acc.
Proof.
  intros Ha [Hc Hds]%Forall_cons. pose proof (digit_of_range hexmode c Hc) as Hd.
  assert (1 <= base_of hexmode) by (destruct hexmode; cbn; lia).
  split; [nia|]. cbn. apply digits_value_mono; [done|nia|].
  eapply Forall_impl; [exact Hds|]. intros x Hx. cbn. apply digit_of_range in Hx. lia.
Qed.

Lemma s32_id (z : Z) : is_sint 32 z -> s32 z = z.
Proof. by apply swrap_id. Qed.

(** The digit loops: Horner's rule in wrapping 32-bit arithmetic. *)
Lemma s32_cong_add (a b c : Z) : s32 (s32 (s32 a * b) + c) = s32 (a * b + c).
Proof.
  unfold s32. apply swrap_cong. rewrite <-Zplus_mod_idemp_l, swrap_mod, Zplus_mod_idemp_l by lia.
  by rewrite <-Zplus_mod_idemp_l, <-Zmult_mod_idemp_l, swrap_mod, Zmult_mod_idemp_l, Zplus_mod_idemp_l by lia.
Qed.

Lemma parse_digits_spec (hexmode : bool) (ds rest : list Z) (acc : Z) :
  Forall (fun c => digit_ok hexmode c = true) ds -> digit_ok hexmode (chr rest) = false ->
  parse_digits hexmode (ds ++ rest) (s32 acc) =
    Some (rest, s32 (digits_value (base_of hexmode) (digit_of hexmode) ds acc)).
Proof.
  intros Hds Hrest. unfold parse_digits. rewrite length_app.
  generalize (length rest) as extra. intros extra. revert acc.
  induction ds as [|c ds IH]; intros acc.
  - cbn [length Nat.add while_fuel app].
    by destruct hexmode; cbn [digit_ok] in Hrest; rewrite Hrest.
  - apply Forall_cons in Hds as [Hc Hds].
    specialize (IH Hds (acc * base_of hexmode + digit_of hexmode c)).
    change (digits_value (base_of hexmode) (digit_of hexmode) (c :: ds) acc)
      with (digits_value (base_of hexmode) (digit_of hexmode) ds
              (acc * base_of hexmode + digit_of hexmode c)).
    rewrite <-IH.
    change (length (c :: ds) + extra)%nat with (S (length ds + extra)).
    set (f := S (length ds + extra)). cbn [while_fuel].
    destruct hexmode; cbn [digit_ok digit_of base_of] in *; cbn [app chr nth tail]; rewrite Hc; do 2 f_equal.
    + apply s32_cong_add.
    + rewrite (s32_id (c - 48)) by (unfold is_sint; cbn; apply is_digit_iff in Hc; lia). apply s32_cong_add.
Qed.

(** The qualifiers after the digits. *)
Inductive qualifier : Type := NoQual | Kilo | Mega.
Definition qual_chars (q : qualifier) : list Z :=
  match q with NoQual => [] | Kilo => [75] | Mega => [77] end.
Definition qual_factor (q : qualifier) : Z :=
  match q with NoQual => 1 | Kilo => 1024 | Mega => 1024 * 1024 end.

(** The text of a number: sign, base prefix, digits, qualifier, terminator. *)
Definition number_text (neg hexmode : bool) (ds : list Z) (q : qualifier) : list Z :=
  (if neg then [45] else []) ++ (if hexmode then [48; 120] else []) ++
  ds ++ qual_chars q ++ [0].

Lemma parse_prefix (hexmode : bool) (ds : list Z) (q : qualifier) :
  Forall (fun c => digit_ok hexmode c = true) ds ->
  let s := (if hexmode then [48; 120] else []) ++ ds ++ qual_chars q ++ [0] in
  (chr s =? 45) = false /\
  (if (chr s =? 48) && (nth 1 s 0 =? 120) then (true, tail (tail s)) else (false, s)) =
    (hexmode, ds ++ qual_chars q ++ [0]).
Proof.
  intros Hds. destruct hexmode; [done|]. cbn [digit_ok] in Hds. cbn zeta.
  assert (forall c, is_digit c = true -> (c =? 45) = false /\ (c =? 120) = false) as Hd.
  { intros c ?%is_digit_iff. split; apply Z.eqb_neq; lia. }
  destruct Hds as [|c ds Hc Hds]; [by destruct q|].
  destruct (Hd c Hc) as [H45 _]. split; [done|]. cbn [app].
  assert ((nth 1 (c :: ds ++ qual_chars q ++ [0]) 0 =? 120) = false) as ->.
  { destruct Hds as [|d ds Hd' _]; [by destruct q|]. by apply Hd. }
  by rewrite andb_false_r.
Qed.

Lemma digit_ok_qual (hexmode : bool) (q : qualifier) :
  digit_ok hexmode (chr (qual_chars q ++ [0])) = false.
Proof. by destruct hexmode, q. Qed.

Lemma s32_scale (v n : Z) : s32 (s32 v * n) = s32 (v * n).
Proof. unfold s32. apply swrap_cong. by rewrite <-Zmult_mod_idemp_l, swrap_mod, Zmult_mod_idemp_l by lia. Qed.

(** Every number text parses to its value modulo 2^32, as an [ee_s32]. *)
Lemma parseval_text (neg hexmode : bool) (ds : list Z) (q : qualifier) :
  Forall (fun c => digit_ok hexmode c = true) ds ->
  let v := digits_value (base_of hexmode) (digit_of hexmode) ds 0 * qual_factor q in
  parseval (number_text neg hexmode ds q) = Some (s32 (if neg then - v else v)).
Proof.
  intros Hds v. destruct (parse_prefix hexmode ds q Hds) as [H45 Hpre]. cbn zeta in H45, Hpre.
  pose proof (parse_digits_spec hexmode ds (qual_chars q ++ [0]) 0 Hds (digit_ok_qual _ _)) as Hp.
  change (s32 0) with 0 in Hp. set (v0 := digits_value _ _ ds 0) in *.
  assert (forall sgn, Z.abs sgn = 1 ->
    ('(hm, s) ← Some (hexmode, ds ++ qual_chars q ++ [0]);
     '(s, retval) ← parse_digits hm s 0;
     let retval := if chr s =? 75 then s32 (retval * 1024) else retval in
     let retval := if chr s =? 77 then s32 (retval * s32 (1024 * 1024)) else retval in
     Some (s32 (retval * sgn))) = Some (s32 (sgn * v))) as Hmain.
  { intros sgn _. cbn [mbind option_bind]. rewrite Hp. cbn [mbind option_bind]. f_equal.
    unfold v. destruct q; cbn -[Z.mul s32]; rewrite ?(s32_id (1024 * 1024)) by (unfold is_sint; cbn; lia);
      rewrite !s32_scale, <-?Z.mul_assoc, ?s32_scale; unfold qual_factor; apply (f_equal s32); ring. }
  unfold parseval, number_text. destruct neg; cbn [app].
  - cbn [chr nth]. cbn [Z.eqb Pos.eqb tail]. rewrite Hpre.
    replace (- v) with (-1 * v) by lia. by rewrite <-(Hmain (-1) eq_refl).
  - rewrite H45, Hpre. specialize (Hmain 1 eq_refl). by rewrite Z.mul_1_l in Hmain.
Qed.

(** [parseval] parses every number text (optional minus sign, optional
    0x prefix, digits, optional K or M) to its value, as long as the scaled
    value fits an [ee_s32]; in particular the loops terminate. *)
Theorem parseval_number (neg hexmode : bool) (ds : list Z) (q : qualifier) :
  Forall (fun c => digit_ok hexmode c = true) ds ->
  let v := digits_value (base_of hexmode) (digit_of hexmode) ds 0 * qual_factor q in
  v < 2 ^ 31 ->
  parseval (number_text neg hexmode ds q) = Some (if neg then - v else v).
Proof.
  intros Hds v Hv. rewrite parseval_text by done. fold v. f_equal.
  assert (0 <= digits_value (base_of hexmode) (digit_of hexmode) ds 0) as H0.
  { apply digits_value_mono; [destruct hexmode; cbn; lia|lia|].
    eapply Forall_impl; [exact Hds|]. intros x Hx. cbn. apply digit_of_range in Hx. lia. }
  assert (0 <= v) by (unfold v; destruct q; cbn; lia).
  apply s32_id. unfold is_sint. change (2 ^ (32 - 1)) with (2 ^ 31). destruct neg; lia.
Qed.

(** ["-0x1fK"] *)
Lemma parseval_number_witness :
  parseval (number_text true true [49; 102] Kilo) = Some (- (31 * 1024)).
Proof. apply (parseval_number true true [49; 102] Kilo); [by repeat constructor|done]. Defined.
