(* ===== verification/Matrix.v ===== *)
(** * CoreMark's matrix kernel, [src/fpga/coremark/src/core_matrix.c]

    Matrices are row-major arrays: [MATDAT] elements are [ee_s16], [MATRES]
    elements [ee_s32].  Every routine is the source's nested loops; the
    specifications are the usual element formulas. *)

From S2P Require Import Prelude CoreUtil.

Definition matrix_clip (x y : Z) : Z := if truthy y then x .& 0x0ff else x .& 0x0ffff.
Definition matrix_big (x : Z) : Z := 0xf000 .| x.

(** [(x >> from) & ~(0xffffffff << to)], an [unsigned int]. *)
Definition bit_extract (x from to : Z) : Z :=
  u32 (x .>> from) .& u32 (Z.lnot (u32 (0xffffffff .<< to))).

(** [i * N + j] in [ee_u32]. *)
Definition cell (N i j : Z) : Z := u32 (u32 (i * N) + j).

(** [for (i = 0; i < N; i++) for (j = 0; j < N; j++) body(i, j)] *)
Definition for_grid {S : Type} (N : Z) (body : Z -> Z -> S -> S) (s : S) : S :=
  for_upto N (fun i => for_upto N (body i)) s.

Definition matrix_sum (N : Z) (C : list Z) (clipval : Z) : Z :=
  let '(_, _, ret) := for_grid N (fun i j '(tmp, prev, ret) =>
    let cur := aget C (cell N i j) in
    let tmp := s32 (tmp + cur) in
    let '(tmp, ret) :=
      if clipval <? tmp then (0, s16 (ret + 10))
      else (tmp, s16 (ret + (if prev <? cur then 1 else 0))) in
    (tmp, cur, ret)) (0, 0, 0) in ret.

Definition matrix_mul_const (N : Z) (C A : list Z) (val : Z) : list Z :=
  for_grid N (fun i j C => aset C (cell N i j) (s32 (aget A (cell N i j) * val))) C.

Definition matrix_add_const (N : Z) (A : list Z) (val : Z) : list Z :=
  for_grid N (fun i j A => aset A (cell N i j) (s16 (aget A (cell N i j) + val))) A.

Definition matrix_mul_vect (N : Z) (C A B : list Z) : list Z :=
  for_upto N (fun i C =>
    for_upto N (fun j C =>
      aset C i (s32 (aget C i + s32 (aget A (cell N i j) * aget B j)))) (aset C i 0)) C.

Definition matrix_mul_matrix (N : Z) (C A B : list Z) : list Z :=
  for_grid N (fun i j C =>
    for_upto N (fun k C =>
      aset C (cell N i j) (s32 (aget C (cell N i j) +
        s32 (aget A (cell N i k) * aget B (cell N k j))))) (aset C (cell N i j) 0)) C.

Definition matrix_mul_matrix_bitextract (N : Z) (C A B : list Z) : list Z :=
  for_grid N (fun i j C =>
    for_upto N (fun k C =>
      let tmp := s32 (aget A (cell N i k) * aget B (cell N k j)) in
      aset C (cell N i j) (s32 (u32 (aget C (cell N i j)) +
        u32 (bit_extract tmp 2 4 * bit_extract tmp 5 7)))) (aset C (cell N i j) 0)) C.

(** [mat_params] with the contents of the three matrices. *)
Record mat_params : Type := mk_mat { N : Z; A : list Z; B : list Z; C : list Z }.

(** The result is the [ee_s16] conversion of the CRC, with the new contents. *)
Definition matrix_test (p : mat_params) (val : Z) : Z * mat_params :=
  let n := N p in
  let clipval := s16 (matrix_big val) in
  let a := matrix_add_const n (A p) val in
  let c := matrix_mul_const n (C p) a val in
  let crc := crc16 (matrix_sum n c clipval) 0 in
  let c := matrix_mul_vect n c a (B p) in
  let crc := crc16 (matrix_sum n c clipval) crc in
  let c := matrix_mul_matrix n c a (B p) in
  let crc := crc16 (matrix_sum n c clipval) crc in
  let c := matrix_mul_matrix_bitextract n c a (B p) in
  let crc := crc16 (matrix_sum n c clipval) crc in
  let a := matrix_add_const n a (s16 (- val)) in
  (s16 crc, mk_mat n a (B p) c).

Definition core_bench_matrix (p : mat_params) (seed crc : Z) : Z * mat_params :=
  let '(r, p') := matrix_test p seed in (crc16 r crc, p').

(** [align_mem] *)
Definition align_mem (x : Z) : Z := u32 (4 + (u32 (x - 1) .& u32 (Z.lnot 3))).

(** The dimension loop: [(i, j)] when it ends. *)
Definition dim_loop (fuel : nat) (blksize : Z) : option (Z * Z) :=
  while_fuel fuel (fun '(_, j) => j <? blksize)
    (fun '(i, _) => let i := u32 (i + 1) in (i, u32 (i * i * 2 * 4))) (0, 0).

(** One element of the initialisation: [(seed, order, A, B)]. *)
Definition init_cell (n i j : Z) (st : Z * Z * list Z * list Z) : Z * Z * list Z * list Z :=
  let '(seed, order, a, b) := st in
  let seed := Z.rem (s32 (order * seed)) 65536 in
  let val := s16 (s32 (seed + order)) in
  let val := s16 (matrix_clip val 0) in
  let b := aset b (cell n i j) val in
  let val := s16 (val + order) in
  let val := s16 (matrix_clip val 1) in
  let a := aset a (cell n i j) val in
  (seed, s32 (order + 1), a, b).

(** The addresses the three matrices are placed at in the block at [memblk]. *)
Record mat_layout : Type := { addr_A : Z; addr_B : Z; addr_C : Z }.

Definition matrix_layout (n memblk : Z) : mat_layout :=
  let a := align_mem memblk in
  let b := u32 (a + 2 * u32 (n * n)) in
  {| addr_A := a; addr_B := b; addr_C := align_mem (u32 (b + 2 * u32 (n * n))) |}.

Definition core_init_matrix (fuel : nat) (blksize memblk seed : Z) : option (mat_layout * mat_params) :=
  let seed := if seed =? 0 then 1 else seed in
  '(i, _) ← dim_loop fuel blksize;
  let n := u32 (i - 1) in
  let zeros := tabulate (n * n) (fun _ => 0) in
  let '(_, _, a, b) := for_grid n (init_cell n) (seed, 1, zeros, zeros) in
  Some (matrix_layout n memblk, mk_mat n a b zeros).

(** ** The nested loops write every cell once *)

Lemma cell_small (n i j : Z) :
  n * n < 2 ^ 32 -> 0 <= i < n -> 0 <= j < n -> cell n i j = i * n + j.
Proof.
  intros Hn Hi Hj. unfold cell, u32. rewrite !uwrap_id; unfold is_uint; [done|nia|].
  rewrite uwrap_id by (unfold is_uint; nia). nia.
Qed.

Lemma cell_range (n i j : Z) :
  n * n < 2 ^ 32 -> 0 <= i < n -> 0 <= j < n -> 0 <= cell n i j < n * n.
Proof. intros. rewrite cell_small by done. nia. Qed.

Lemma cell_div_mod (n i j : Z) :
  0 <= i < n -> 0 <= j < n -> (i * n + j) / n = i /\ (i * n + j) mod n = j.
Proof.
  intros. split.
  - symmetry. apply Z.div_unique with j; lia.
  - symmetry. apply Z.mod_unique with i; lia.
Qed.

Section Grid.
Variables (n : Z) (body : Z -> Z -> list Z -> list Z) (f : Z -> Z -> Z -> Z).
Hypothesis (Hn : 0 <= n) (Hsmall : n * n < 2 ^ 32).
Hypothesis Hbody : forall i j c, 0 <= i < n -> 0 <= j < n -> alen c = n * n ->
  body i j c = aset c (cell n i j) (f i j (aget c (cell n i j))).

(** The cells below [m] are done, the others untouched. *)
Definition filled (c0 : list Z) (m : Z) (c : list Z) : Prop :=
  alen c = n * n /\ forall k, 0 <= k < n * n ->
    aget c k = if k <? m then f (k / n) (k mod n) (aget c0 k) else aget c0 k.

Lemma filled_step (c0 c : list Z) (i j : Z) :
  0 <= i < n -> 0 <= j < n -> filled c0 (i * n + j) c -> filled c0 (i * n + (j + 1)) (body i j c).
Proof.
  intros Hi Hj [Hl Hc]. pose proof (cell_range n i j Hsmall Hi Hj) as Hr.
  rewrite Hbody by done. split; [by rewrite alen_aset|]. intros k Hk.
  rewrite aget_aset by lia. rewrite cell_small in * by done.
  destruct (Z.eqb_spec k (i * n + j)) as [->|Hne].
  - destruct (cell_div_mod n i j Hi Hj) as [-> ->]. rewrite Hc by lia.
    destruct (Z.ltb_spec (i * n + j) (i * n + j)), (Z.ltb_spec (i * n + j) (i * n + (j + 1))); lia || done.
  - rewrite Hc by lia. destruct (Z.ltb_spec k (i * n + j)), (Z.ltb_spec k (i * n + (j + 1))); lia || done.
Qed.

Lemma for_grid_cells (c0 : list Z) :
  alen c0 = n * n ->
  for_grid n body c0 = tabulate (n * n) (fun k => f (k / n) (k mod n) (aget c0 k)).
Proof.
  intros Hl.
  assert (filled c0 (n * n) (for_grid n body c0)) as [Hl' Hc].
  { unfold for_grid. apply (for_upto_inv (fun i => filled c0 (i * n))); [done| |].
    - split; [done|]. intros k Hk. by destruct (Z.ltb_spec k (0 * n)); [lia|].
    - intros i c Hi Hf.
      replace ((i + 1) * n) with (i * n + n) by lia.
      apply (for_upto_inv (fun j => filled c0 (i * n + j))); [done| |].
      + by rewrite Z.add_0_r.
      + intros j d Hj Hd. by apply filled_step. }
  apply aget_ext; [rewrite Hl', alen_tabulate; nia|]. intros k Hk.
  rewrite Hc, aget_tabulate by lia. by destruct (Z.ltb_spec k (n * n)); [|lia].
Qed.
End Grid.

(** The accumulation loop into one cell. *)
Lemma accumulate (n m : Z) (g : Z -> Z -> Z) (c : list Z) :
  0 <= m < alen c ->
  for_upto n (fun k c => aset c m (g k (aget c m))) (aset c m 0) =
    aset c m (for_upto n g 0).
Proof.
  intros Hm. unfold for_upto.
  assert (forall d i x, for_from d i (fun k c => aset c m (g k (aget c m))) (aset c m x)
            = aset c m (for_from d i g x)) as H; [|apply H].
  induction d as [|d IH]; intros i x; [done|]. cbn [for_from].
  by rewrite aset_aset, aget_aset_eq, IH.
Qed.

(** ** What the routines compute *)

Definition row_col (n : Z) (a b : list Z) (i j : Z) : Z :=
  zsum n (fun k => aget a (i * n + k) * aget b (k * n + j)).

(** The two bit fields of a product that the extraction kernel multiplies. *)
Definition bits_product (x : Z) : Z := ((x / 4) mod 16) * ((x / 32) mod 128).

Definition row_col_bits (n : Z) (a b : list Z) (i j : Z) : Z :=
  zsum n (fun k => bits_product (aget a (i * n + k) * aget b (k * n + j))).

Definition s16_matrix (n : Z) (l : list Z) : Prop := alen l = n * n /\ Forall (is_sint 16) l.

Lemma s16_get (n i : Z) (l : list Z) : s16_matrix n l -> 0 <= i < n * n -> is_sint 16 (aget l i).
Proof. intros [Hl Hf] Hi. rewrite Forall_forall in Hf. apply Hf, aget_elem. lia. Qed.

Lemma s16_mul (x y : Z) : is_sint 16 x -> is_sint 16 y -> is_sint 32 (x * y).
Proof. unfold is_sint. cbn. nia. Qed.

Lemma s16_mul_id (x y : Z) : is_sint 16 x -> is_sint 16 y -> s32 (x * y) = x * y.
Proof. intros. by apply swrap_id, s16_mul. Qed.

Lemma bit_extract_spec (x from to : Z) :
  0 <= from -> 0 <= to < 32 -> from + to <= 32 -> bit_extract x from to = (x / 2 ^ from) mod 2 ^ to.
Proof.
  intros Hf Ht Hft. unfold bit_extract, u32. rewrite <-Z.shiftr_div_pow2, <-Z.land_ones by lia.
  bitwise i Hi. rewrite Z.testbit_ones_nonneg by lia.
  destruct (Z.ltb_spec i 32); cbn [andb].
  - destruct (Z.ltb_spec (i - to) 0).
    + rewrite (Z.testbit_neg_r 0xffffffff) by lia.
      destruct (Z.ltb_spec i to); [by rewrite !andb_true_r|lia].
    + change 0xffffffff with (Z.ones 32). rewrite Z.testbit_ones_nonneg by lia.
      destruct (Z.ltb_spec (i - to) 32), (Z.ltb_spec i to); lia.
  - destruct (Z.ltb_spec i to); [lia|]. by rewrite andb_false_r.
Qed.

Section Routines.
Variables (n : Z) (a b c : list Z).
Hypothesis (Hn : 0 <= n) (Hsmall : n * n < 2 ^ 32).
Hypothesis (Ha : s16_matrix n a) (Hb : s16_matrix n b) (Hc : alen c = n * n).

Lemma matrix_mul_const_spec (val : Z) :
  is_sint 16 val -> matrix_mul_const n c a val = tabulate (n * n) (fun k => aget a k * val).
Proof.
  intros Hv. unfold matrix_mul_const.
  rewrite (for_grid_cells n _ (fun i j _ => aget a (i * n + j) * val) Hn Hsmall); [|..|done].
  - apply aget_ext; rewrite !alen_tabulate by nia; [done|]. intros k Hk.
    rewrite !aget_tabulate by done. f_equal. f_equal.
    rewrite (Z.mul_comm (k / n)). symmetry. apply Z.div_mod. nia.
  - intros i j d Hi Hj _. rewrite (cell_small n i j) by done.
    rewrite s16_mul_id; [done| |done]. apply (s16_get n); [done|nia].
Qed.

Lemma matrix_mul_matrix_spec :
  matrix_mul_matrix n c a b = tabulate (n * n) (fun k => s32 (row_col n a b (k / n) (k mod n))).
Proof.
  unfold matrix_mul_matrix.
  apply (for_grid_cells n _ (fun i j _ => s32 (row_col n a b i j)) Hn Hsmall); [|done].
  intros i j d Hi Hj Hd. pose proof (cell_range n i j Hsmall Hi Hj).
  rewrite (accumulate n (cell n i j) (fun k s => s32 (s + s32 (aget a (cell n i k) * aget b (cell n k j)))))
    by lia.
  f_equal. apply zsum_s32; [done|]. intros k Hk. rewrite !cell_small by done.
  apply (swrap_mod 32). lia.
Qed.

Lemma matrix_mul_matrix_bitextract_spec :
  matrix_mul_matrix_bitextract n c a b =
    tabulate (n * n) (fun k => s32 (row_col_bits n a b (k / n) (k mod n))).
Proof.
  unfold matrix_mul_matrix_bitextract.
  apply (for_grid_cells n _ (fun i j _ => s32 (row_col_bits n a b i j)) Hn Hsmall); [|done].
  intros i j d Hi Hj Hd. pose proof (cell_range n i j Hsmall Hi Hj).
  rewrite (accumulate n (cell n i j) (fun k s => s32 (u32 s +
    u32 (bit_extract (s32 (aget a (cell n i k) * aget b (cell n k j))) 2 4 *
         bit_extract (s32 (aget a (cell n i k) * aget b (cell n k j))) 5 7)))) by lia.
  f_equal. unfold row_col_bits.
  transitivity (for_upto n (fun k s => s32 (s + bits_product (aget a (i * n + k) * aget b (k * n + j)))) 0);
    [|by apply zsum_s32].
  apply for_upto_ext. intros k s Hk. rewrite !cell_small by done.
  rewrite s16_mul_id by (eapply s16_get; [done|nia]).
  rewrite !bit_extract_spec by lia. apply swrap_cong. unfold u32, uwrap, bits_product.
  by rewrite <-Zplus_mod.
Qed.

Lemma matrix_mul_vect_spec :
  matrix_mul_vect n c a b = tabulate (n * n) (fun k =>
    if k <? n then s32 (zsum n (fun j => aget a (k * n + j) * aget b j)) else aget c k).
Proof.
  unfold matrix_mul_vect. set (v := fun k => s32 (zsum n (fun j => aget a (k * n + j) * aget b j))).
  assert (forall i d, 0 <= i < n -> alen d = n * n ->
    for_upto n (fun j d => aset d i (s32 (aget d i + s32 (aget a (cell n i j) * aget b j))))
      (aset d i 0) = aset d i (v i)) as Hrow.
  { intros i d Hi Hd.
    rewrite (accumulate n i (fun j s => s32 (s + s32 (aget a (cell n i j) * aget b j)))) by nia.
    f_equal. apply zsum_s32; [done|]. intros j Hj. rewrite cell_small by done.
    apply (swrap_mod 32). lia. }
  destruct (for_upto_inv (fun i d => alen d = n * n /\
      forall k, 0 <= k < n * n -> aget d k = if k <? i then v k else aget c k)
    n (fun i d => for_upto n (fun j d =>
      aset d i (s32 (aget d i + s32 (aget a (cell n i j) * aget b j)))) (aset d i 0)) c)
    as [Hl Hk]; [done| | |].
  - split; [done|]. intros k Hk. by destruct (Z.ltb_spec k 0); [lia|].
  - intros i d Hi [Hl Hk]. rewrite Hrow by done. split; [by rewrite alen_aset|].
    intros k Hr. rewrite aget_aset by nia. rewrite Hk by done.
    destruct (Z.eqb_spec k i);
      destruct (Z.ltb_spec k i), (Z.ltb_spec k (i + 1)); congruence || lia.
  - apply aget_ext; [rewrite Hl, alen_tabulate; nia|]. intros k Hr.
    by rewrite Hk, aget_tabulate by lia.
Qed.

Lemma matrix_add_const_spec (val : Z) :
  matrix_add_const n a val = tabulate (n * n) (fun k => s16 (aget a k + val)).
Proof.
  unfold matrix_add_const.
  apply (for_grid_cells n _ (fun _ _ x => s16 (x + val)) Hn Hsmall); [done|apply Ha].
Qed.
End Routines.

Lemma s16_matrix_tabulate (n : Z) (f : Z -> Z) :
  0 <= n -> s16_matrix n (tabulate (n * n) (fun k => s16 (f k))).
Proof.
  intros Hn. split; [apply alen_tabulate; nia|].
  apply Forall_fmap, Forall_forall. intros k _. by apply (swrap_range 16).
Qed.

(** Adding a constant and then its negation restores the matrix, even when the
    sum or the negated constant (of -32768) wraps. *)
Lemma matrix_add_const_undo (n val : Z) (a : list Z) :
  0 <= n -> n * n < 2 ^ 32 -> s16_matrix n a ->
  matrix_add_const n (matrix_add_const n a val) (s16 (- val)) = a.
Proof.
  intros Hn Hs Ha. rewrite (matrix_add_const_spec n a) by done.
  rewrite matrix_add_const_spec; [|done|done|by apply s16_matrix_tabulate].
  destruct Ha as [Hl Hf]. apply aget_ext; [rewrite alen_tabulate; nia|].
  rewrite alen_tabulate by nia. intros k Hk. rewrite !aget_tabulate by done.
  rewrite <-(swrap_id 16 (aget a k)) at 2; [|done|by eapply s16_get].
  apply swrap_cong. unfold s16. rewrite Zplus_mod, !(swrap_mod 16), <-Zplus_mod by lia.
  f_equal. lia.
Qed.

(** [matrix_sum] walks the cells in row-major order. *)
Definition sum_step (clipval : Z) (st : Z * Z * Z) (cur : Z) : Z * Z * Z :=
  let '(tmp, prev, ret) := st in
  if clipval <? s32 (tmp + cur) then (0, cur, s16 (ret + 10))
  else (s32 (tmp + cur), cur, s16 (ret + (if prev <? cur then 1 else 0))).

Definition sum_list (clipval : Z) (l : list Z) : Z := (fold_left (sum_step clipval) l (0, 0, 0)).2.

Lemma fold_row (n i clipval : Z) (c : list Z) (d : nat) (j : Z) (st : Z * Z * Z) :
  n * n < 2 ^ 32 -> 0 <= i < n -> 0 <= j -> j + Z.of_nat d <= n ->
  for_from d j (fun j st => sum_step clipval st (aget c (cell n i j))) st =
    fold_left (sum_step clipval) (aget c <$> seqZ (i * n + j) (Z.of_nat d)) st.
Proof.
  intros Hs Hi. revert j st. induction d as [|d IH]; intros j st Hj Hd; [done|].
  rewrite seqZ_cons by lia. cbn [for_from fmap list_fmap fold_left].
  rewrite IH by lia. rewrite cell_small by lia. do 3 f_equal; lia.
Qed.

Lemma for_upto_fold_rows (n clipval : Z) (c : list Z) (d : nat) (i : Z) (st : Z * Z * Z) :
  n * n < 2 ^ 32 -> 0 <= n -> 0 <= i -> i + Z.of_nat d <= n ->
  for_from d i (fun i => for_upto n (fun j st => sum_step clipval st (aget c (cell n i j)))) st =
    fold_left (sum_step clipval) (aget c <$> seqZ (i * n) (Z.of_nat d * n)) st.
Proof.
  intros Hs Hn. revert i st. induction d as [|d IH]; intros i st Hi Hd; [done|].
  cbn [for_from]. rewrite IH by lia. unfold for_upto.
  rewrite (fold_row n i) by lia. rewrite Z.add_0_r, Z2Nat.id, <-fold_left_app, <-fmap_app by lia.
  do 2 f_equal. replace (Z.of_nat (S d) * n) with (n + Z.of_nat d * n) by lia.
  rewrite seqZ_app by nia. do 2 f_equal. lia.
Qed.

Lemma matrix_sum_spec (n clipval : Z) (c : list Z) :
  0 <= n -> n * n < 2 ^ 32 -> alen c = n * n -> matrix_sum n c clipval = sum_list clipval c.
Proof.
  intros Hn Hs Hc. unfold matrix_sum, sum_list, for_grid.
  match goal with |- context [for_upto n ?b (0, 0, 0)] =>
    assert (for_upto n b (0, 0, 0) = fold_left (sum_step clipval) c (0, 0, 0)) as -> end.
  { transitivity (for_upto n (fun i => for_upto n (fun j st =>
      sum_step clipval st (aget c (cell n i j)))) (0, 0, 0)).
    - apply for_upto_ext. intros i st Hi. apply for_upto_ext. intros j [[tmp prev] ret] Hj.
      unfold sum_step. by destruct (clipval <? _).
    - unfold for_upto at 1. rewrite for_upto_fold_rows by lia. f_equal.
      rewrite Z2Nat.id by lia. change (aget c <$> seqZ (0 * n) (n * n)) with (tabulate (n * n) (aget c)).
      apply aget_ext; rewrite alen_tabulate by nia; [done|]. intros k Hk. by rewrite aget_tabulate. }
  by destruct (fold_left _ _ _) as [[? ?] ?].
Qed.

(** ** The benchmark step *)

Definition wf_mat (p : mat_params) : Prop :=
  0 <= N p /\ N p * N p < 2 ^ 32 /\ s16_matrix (N p) (A p) /\ s16_matrix (N p) (B p) /\
  alen (C p) = N p * N p.

(** The four results that [matrix_test] sums, from the matrix [a = A + val]. *)
Definition scaled (n : Z) (a : list Z) (val : Z) : list Z :=
  tabulate (n * n) (fun k => aget a k * val).
Definition with_vector (n : Z) (c a b : list Z) : list Z :=
  tabulate (n * n) (fun k =>
    if k <? n then s32 (zsum n (fun j => aget a (k * n + j) * aget b j)) else aget c k).
Definition product (n : Z) (a b : list Z) : list Z :=
  tabulate (n * n) (fun k => s32 (row_col n a b (k / n) (k mod n))).
Definition product_bits (n : Z) (a b : list Z) : list Z :=
  tabulate (n * n) (fun k => s32 (row_col_bits n a b (k / n) (k mod n))).

(** The run of [matrix_test]. *)
Lemma matrix_test_run (p : mat_params) (val : Z) :
  wf_mat p -> is_sint 16 val ->
  let n := N p in
  let a := tabulate (n * n) (fun k => s16 (aget (A p) k + val)) in
  let c1 := scaled n a val in
  let sum := sum_list (s16 (matrix_big val)) in
  matrix_test p val =
    (s16 (crc_stream [sum c1; sum (with_vector n c1 a (B p)); sum (product n a (B p));
                      sum (product_bits n a (B p))] 0),
     mk_mat n (A p) (B p) (product_bits n a (B p))).
Proof.
  intros (Hn & Hs & Ha & Hb & Hc) Hv n a c1 sum. unfold matrix_test. fold n in Hn, Hs, Ha, Hb, Hc |- *.
  rewrite (matrix_add_const_undo n val (A p)) by done.
  rewrite (matrix_add_const_spec n (A p)) by done. fold a.
  assert (s16_matrix n a) as Ha1 by by apply s16_matrix_tabulate.
  assert (forall f, alen (tabulate (n * n) f) = n * n) as Hl by (intros; apply alen_tabulate; nia).
  rewrite (matrix_mul_const_spec n a (C p)) by done. fold (scaled n a val). fold c1.
  rewrite (matrix_mul_vect_spec n a (B p) c1) by (done || apply Hl). fold (with_vector n c1 a (B p)).
  rewrite (matrix_mul_matrix_spec n a (B p) (with_vector n c1 a (B p))) by (done || apply Hl).
  fold (product n a (B p)).
  rewrite (matrix_mul_matrix_bitextract_spec n a (B p) (product n a (B p))) by (done || apply Hl).
  fold (product_bits n a (B p)).
  by rewrite !matrix_sum_spec by (done || apply Hl).
Qed.

(** C27: [matrix_test] leaves [N], [A] and [B] as they were, for every constant
    (even one whose negation wraps), and returns the CRC of the clipped sums of
    the scaled matrix, the matrix-vector product, the matrix product and the
    bit-field product of [A + val] and [B], all modulo 2^32. *)
Theorem matrix_test_spec (p : mat_params) (val : Z) :
  wf_mat p -> is_sint 16 val ->
  let n := N p in
  let a := tabulate (n * n) (fun k => s16 (aget (A p) k + val)) in
  let c1 := scaled n a val in
  let sum := sum_list (s16 (matrix_big val)) in
  matrix_test p val =
    (s16 (crc_stream [sum c1; sum (with_vector n c1 a (B p)); sum (product n a (B p));
                      sum (product_bits n a (B p))] 0),
     mk_mat n (A p) (B p) (product_bits n a (B p))).
Proof. apply matrix_test_run. Qed.

(** ** Initialisation *)

Lemma dim_loop_total (fuel : nat) (blksize : Z) :
  0 < blksize < 2 ^ 31 -> (Z.to_nat blksize < fuel)%nat ->
  exists i, dim_loop fuel blksize = Some (i, 8 * i * i) /\
    1 <= i < 2 ^ 14 + 1 /\ 8 * (i - 1) * (i - 1) < blksize <= 8 * i * i.
Proof.
  intros Hb Hf.
  destruct (while_fuel_total
    (fun '(i, j) => j = 8 * i * i /\ 0 <= i <= 2 ^ 14 /\ (i = 0 \/ 8 * (i - 1) * (i - 1) < blksize))
    (fun '(i, j) => Z.to_nat (blksize - i))
    (fun '(_, j) => j <? blksize) (fun '(i, _) => let i := u32 (i + 1) in (i, u32 (i * i * 2 * 4)))
    fuel (0, 0)) as ([i j] & Hrun & (-> & Hi & Hlt) & Hex).
  - split_and!; [done|lia..|by left].
  - intros [i j] (-> & Hi & Hlt) Hc%Z.ltb_lt. cbn zeta.
    assert (i < 2 ^ 14) by nia. unfold u32.
    rewrite (uwrap_id 32 (i + 1)), uwrap_id by (unfold is_uint; nia).
    split; [split_and!; [lia..|right]|]; [|nia]. by replace (i + 1 - 1) with i by lia.
  - lia.
  - exists i. apply Z.ltb_ge in Hex. split; [exact Hrun|].
    assert (i <> 0) by nia. lia.
Qed.

Lemma land_mask_range (x : Z) : 0 <= x .& 0xff < 256.
Proof. change 0xff with (Z.ones 8). rewrite Z.land_ones by lia. by apply Z.mod_pos_bound. Qed.

(** The elements: [A] is clipped to eight bits, [B] only to its sixteen. *)
Lemma init_cell_keeps (n i j : Z) (st : Z * Z * list Z * list Z) :
  n * n < 2 ^ 32 -> 0 <= i < n -> 0 <= j < n ->
  let ok := fun st : Z * Z * list Z * list Z =>
    alen st.1.2 = n * n /\ Forall (fun x => 0 <= x < 256) st.1.2 /\ s16_matrix n st.2 in
  ok st -> ok (init_cell n i j st).
Proof.
  intros Hs Hi Hj ok. destruct st as [[[seed order] a] b]. intros (Hl & Ha & Hb & Hf). cbn in *.
  assert (forall (P : Z -> Prop) l k v, Forall P l -> P v -> Forall P (aset l k v)) as Hset.
  { intros P l k v Hfa Hv. unfold aset. destruct (k <? 0); [done|]. by apply Forall_insert. }
  unfold ok, s16_matrix. cbn. rewrite !alen_aset. split_and!; [done| |done|].
  - apply Hset; [done|]. unfold matrix_clip. cbn -[Z.land s16 Z.rem].
    match goal with |- 0 <= s16 (?x .& 255) < 256 =>
      pose proof (land_mask_range x) as Hr; generalize dependent (x .& 255) end.
    intros y Hy. unfold s16. rewrite swrap_id; [done|lia|unfold is_sint; lia].
  - apply Hset; [done|]. by apply (swrap_range 16).
Qed.

Lemma matrix_layout_spec (n memblk : Z) :
  0 < memblk -> 0 <= n -> memblk + 3 + 8 * (n * n) < 2 ^ 32 ->
  let l := matrix_layout n memblk in
  memblk <= addr_A l < memblk + 4 /\ addr_A l mod 4 = 0 /\
  addr_B l = addr_A l + 2 * (n * n) /\ addr_C l = addr_B l + 2 * (n * n).
Proof.
  intros Hm Hn Hb.
  assert (forall x, 0 < x < 2 ^ 32 - 3 -> align_mem x = 4 * ((x - 1) / 4) + 4) as Hal.
  { intros x Hx. unfold align_mem, u32. rewrite (uwrap_id 32 (x - 1)) by (unfold is_uint; lia).
    assert ((x - 1) .& uwrap 32 (Z.lnot 3) = 4 * ((x - 1) / 4)) as ->.
    { replace (4 * ((x - 1) / 4)) with (((x - 1) .>> 2) .<< 2)
        by (rewrite Z.shiftr_div_pow2, Z.shiftl_mul_pow2 by lia; apply Z.mul_comm).
      bitwise i Hi. destruct (Z.ltb_spec i 32).
      - destruct (Z.lt_ge_cases i 2).
        + rewrite (Z.testbit_neg_r _ (i - 2)) by lia.
          assert (i = 0 \/ i = 1) as [->| ->] by lia; by rewrite andb_false_r.
        + rewrite Z.shiftr_spec by lia. replace (i - 2 + 2) with i by lia.
          rewrite (uint_testbit_high 2 3 i) by (unfold is_uint; lia). apply andb_true_r.
      - rewrite andb_false_r. destruct (Z.lt_ge_cases i 2); [lia|].
        rewrite Z.shiftr_spec by lia. symmetry.
        apply (uint_testbit_high 32); [unfold is_uint; lia|lia]. }
    rewrite uwrap_id; [lia|]. unfold is_uint. divlia. }
  cbn zeta. unfold matrix_layout. cbn [addr_A addr_B addr_C]. rewrite (Hal memblk) by nia.
  unfold u32. rewrite (uwrap_id 32 (n * n)) by (unfold is_uint; nia).
  set (a := 4 * ((memblk - 1) / 4) + 4).
  assert (memblk <= a < memblk + 4 /\ a mod 4 = 0) as [Ha Ha4].
  { unfold a. split; [divlia|]. rewrite Z.add_mod, Z.mul_comm, Z.mod_mul by lia. done. }
  rewrite !(uwrap_id 32 (a + 2 * (n * n))), (uwrap_id 32) by (unfold is_uint; nia).
  rewrite Hal by nia. split_and!; [lia..|done|done|].
  set (q := n * n) in *. clearbody q a. divlia.
Qed.

Lemma aligned_unique (m a : Z) : m <= a < m + 4 -> a mod 4 = 0 -> m mod 4 = 0 -> a = m.
Proof. intros. divlia. Qed.

(** C28: [core_init_matrix] terminates for every block of up to 2 GiB, with the
    largest dimension whose three matrices ([8 * N * N] bytes) are smaller than
    the block; [A] and [B] are filled with elements in their types' ranges,
    those of [A] in [0, 255]; the matrices are laid out one after the other
    from the first word boundary of the block, so they fit whenever the block
    starts on one. *)
Theorem core_init_matrix_spec (fuel : nat) (blksize memblk seed : Z) :
  0 < blksize < 2 ^ 31 -> 0 < memblk -> memblk + blksize < 2 ^ 32 - 3 ->
  (Z.to_nat blksize < fuel)%nat ->
  exists l p, core_init_matrix fuel blksize memblk seed = Some (l, p) /\
    wf_mat p /\ 8 * (N p * N p) < blksize <= 8 * ((N p + 1) * (N p + 1)) /\
    Forall (fun x => 0 <= x < 256) (A p) /\
    memblk <= addr_A l < memblk + 4 /\ addr_A l mod 4 = 0 /\
    addr_B l = addr_A l + 2 * (N p * N p) /\ addr_C l = addr_B l + 2 * (N p * N p) /\
    (memblk mod 4 = 0 -> addr_C l + 4 * (N p * N p) <= memblk + blksize).
Proof.
  intros Hb Hm Hmb Hf.
  destruct (dim_loop_total fuel blksize Hb Hf) as (i & Hrun & Hi & Hlo & Hhi).
  unfold core_init_matrix. rewrite Hrun. cbn [mbind option_bind].
  unfold u32. rewrite (uwrap_id 32 (i - 1)) by (unfold is_uint; lia).
  set (n := i - 1) in *. set (s0 := if seed =? 0 then 1 else seed).
  assert (0 <= n <= 2 ^ 14) as Hn by lia. replace i with (n + 1) in Hhi by lia.
  assert (n * n < 2 ^ 32) as Hs by nia.
  set (zeros := tabulate (n * n) (fun _ => 0)).
  assert (alen zeros = n * n) as Hz by (apply alen_tabulate; nia).
  assert (forall P : Z -> Prop, P 0 -> Forall P zeros) as Hzf.
  { intros P H0. unfold zeros, tabulate. by apply Forall_fmap, Forall_forall. }
  pose (ok := fun st : Z * Z * list Z * list Z =>
    alen st.1.2 = n * n /\ Forall (fun x => 0 <= x < 256) st.1.2 /\ s16_matrix n st.2).
  assert (ok (for_grid n (init_cell n) (s0, 1, zeros, zeros))) as Hok.
  { unfold for_grid. apply (for_upto_inv (fun _ => ok)); [lia| |].
    - split; [done|]. split; [by apply Hzf|]. split; [done|]. apply Hzf. done.
    - intros j t Hj Ht. apply (for_upto_inv (fun _ => ok)); [lia|done|].
      intros k u Hk Hu. by apply (init_cell_keeps n j k). }
  destruct (for_grid n (init_cell n) (s0, 1, zeros, zeros)) as [[[s1 o1] a] b].
  destruct Hok as (Hla & Ha & Hbm). cbn in Hla, Ha, Hbm.
  destruct (matrix_layout_spec n memblk Hm) as (HA & HA4 & HB & HC); [lia|nia|].
  cbn zeta in *. eexists _, _. split; [done|]. unfold wf_mat. cbn [N A B C].
  split; [split_and!; [lia|done| |done|done]|split_and!; try done; try lia].
  - split; [done|]. eapply Forall_impl; [exact Ha|]. unfold is_sint. cbn. intros. lia.
  - intros Hm4. rewrite HC, HB, (aligned_unique memblk _ HA HA4 Hm4). fold n in Hlo |- *. lia.
Qed.

(** A block that does not start on a word boundary can be overrun: with
    649 bytes at an address that is one past a word boundary, the result matrix
    ends two bytes beyond the block. *)
Theorem matrix_block_overrun :
  exists l p, core_init_matrix 1000 649 0x1001 1 = Some (l, p) /\
    addr_C l + 4 * (N p * N p) = 0x1001 + 649 + 2.
Proof. eexists _, _. split; [vm_compute; reflexivity|]. reflexivity. Qed.

Module MatrixWitness.
Definition p0 : mat_params := mk_mat 2 [1; -2; 3; 4] [5; 6; 7; -8] [0; 0; 0; 0].

Lemma matrix_test_spec_witness : exists r,
  matrix_test p0 (-32768) = (r, mk_mat 2 [1; -2; 3; 4] [5; 6; 7; -8]
    (product_bits 2 (tabulate 4 (fun k => s16 (aget [1; -2; 3; 4] k + -32768))) [5; 6; 7; -8])).
Proof.
  eexists. apply (matrix_test_spec p0 (-32768)); [|unfold is_sint; cbn; lia].
  split_and!; cbn; try lia; try done; split; try done; repeat constructor; unfold is_sint; cbn; lia.
Defined.

Lemma core_init_matrix_spec_witness : exists l p,
  core_init_matrix 1000 666 0x2000 0x34153415 = Some (l, p) /\
  addr_C l + 4 * (N p * N p) <= 0x2000 + 666.
Proof.
  destruct (core_init_matrix_spec 1000 666 0x2000 0x34153415)
    as (l & p & H & _ & _ & _ & _ & _ & _ & _ & Hfit); [lia|lia|lia|lia|].
  exists l, p. split; [exact H|]. by apply Hfit.
Defined.
End MatrixWitness.
