(* ===== verification/StateMachine.v ===== *)
(** * CoreMark's state machine kernel, [src/fpga/coremark/src/core_state.c]

    The scanner [core_state_transition] walks a byte buffer; the kernel runs it
    over the whole buffer, corrupts the buffer, runs it again and undoes the
    corruption.  Pointers are indices into the buffer. *)

From S2P Require Import Prelude CoreUtil.

Inductive core_state_e : Type :=
  | CORE_START | CORE_INVALID | CORE_S1 | CORE_S2 | CORE_INT | CORE_FLOAT
  | CORE_EXPONENT | CORE_SCIENTIFIC.
#[export] Instance core_state_eq_dec : EqDecision core_state_e.
Proof. solve_decision. Defined.

Definition NUM_CORE_STATES : Z := 8.

Definition state_index (s : core_state_e) : Z :=
  match s with
  | CORE_START => 0 | CORE_INVALID => 1 | CORE_S1 => 2 | CORE_S2 => 3 | CORE_INT => 4
  | CORE_FLOAT => 5 | CORE_EXPONENT => 6 | CORE_SCIENTIFIC => 7
  end.

(** [counts[s]++] *)
Definition count (s : core_state_e) (counts : list Z) : list Z :=
  aset counts (state_index s) (u32 (aget counts (state_index s) + 1)).

Definition ee_isdigit (c : Z) : Z := if (48 <=? c) && (c <=? 57) then 1 else 0.

(** The body of the [switch]. *)
Definition next_state (state : core_state_e) (sym : Z) (tc : list Z) : core_state_e * list Z :=
  match state with
  | CORE_START =>
      let '(state, tc) :=
        if truthy (ee_isdigit sym) then (CORE_INT, tc)
        else if (sym =? 43) || (sym =? 45) then (CORE_S1, tc)
        else if sym =? 46 then (CORE_FLOAT, tc)
        else (CORE_INVALID, count CORE_INVALID tc) in
      (state, count CORE_START tc)
  | CORE_S1 =>
      if truthy (ee_isdigit sym) then (CORE_INT, count CORE_S1 tc)
      else if sym =? 46 then (CORE_FLOAT, count CORE_S1 tc)
      else (CORE_INVALID, count CORE_S1 tc)
  | CORE_INT =>
      if sym =? 46 then (CORE_FLOAT, count CORE_INT tc)
      else if negb (truthy (ee_isdigit sym)) then (CORE_INVALID, count CORE_INT tc)
      else (state, tc)
  | CORE_FLOAT =>
      if (sym =? 69) || (sym =? 101) then (CORE_S2, count CORE_FLOAT tc)
      else if negb (truthy (ee_isdigit sym)) then (CORE_INVALID, count CORE_FLOAT tc)
      else (state, tc)
  | CORE_S2 =>
      if (sym =? 43) || (sym =? 45) then (CORE_EXPONENT, count CORE_S2 tc)
      else (CORE_INVALID, count CORE_S2 tc)
  | CORE_EXPONENT =>
      if truthy (ee_isdigit sym) then (CORE_SCIENTIFIC, count CORE_EXPONENT tc)
      else (CORE_INVALID, count CORE_EXPONENT tc)
  | CORE_SCIENTIFIC =>
      if negb (truthy (ee_isdigit sym)) then (CORE_INVALID, count CORE_INVALID tc)
      else (state, tc)
  | CORE_INVALID => (state, tc)
  end.

(** The [for] loop from the state it is in: the index the pointer ends at, the
    final state and the counts; [None] if it reads outside the buffer. *)
Fixpoint scan (fuel : nat) (buf : list Z) (str : Z) (state : core_state_e) (tc : list Z)
  : option (Z * core_state_e * list Z) :=
  match fuel with
  | O => None
  | S f =>
      sym ← aread buf str;
      if truthy sym && negb (bool_decide (state = CORE_INVALID)) then
        if sym =? 44 then Some (str + 1, state, tc)
        else
          let '(state, tc) := next_state state sym tc in
          scan f buf (str + 1) state tc
      else Some (str, state, tc)
  end.

Definition core_state_transition (fuel : nat) (buf : list Z) (instr : Z) (tc : list Z)
  : option (Z * core_state_e * list Z) :=
  scan fuel buf instr CORE_START tc.

(** The scan of the whole input: the final and the transition counts. *)
Fixpoint run_input (fuel : nat) (buf : list Z) (p : Z) (fc tc : list Z)
  : option (list Z * list Z) :=
  match fuel with
  | O => None
  | S f =>
      c ← aread buf p;
      if truthy c then
        '(p, fstate, tc) ← core_state_transition fuel buf p tc;
        run_input f buf p (count fstate fc) tc
      else Some (fc, tc)
  end.

(** One corruption pass: every [step]-th byte that is not a comma is xored
    with the low byte of the seed. *)
Fixpoint corrupt (fuel : nat) (blksize p seed step : Z) (buf : list Z) : option (list Z) :=
  match fuel with
  | O => None
  | S f =>
      if p <? blksize then
        c ← aread buf p;
        buf ← (if negb (c =? 44) then awrite buf p (u8 (c .^ u8 seed)) else Some buf);
        corrupt f blksize (p + step) seed step buf
      else Some buf
  end.

(** The result is the new CRC and the buffer's new contents. *)
Definition core_bench_state (fuel : nat) (blksize : Z) (memblock : list Z)
    (seed1 seed2 step crc : Z) : option (Z * list Z) :=
  let zeros := tabulate NUM_CORE_STATES (fun _ => 0) in
  '(fc, tc) ← run_input fuel memblock 0 zeros zeros;
  memblock ← corrupt fuel blksize 0 seed1 step memblock;
  '(fc, tc) ← run_input fuel memblock 0 fc tc;
  memblock ← corrupt fuel blksize 0 seed2 step memblock;
  let crc := for_upto NUM_CORE_STATES (fun i crc =>
    crcu32 (aget tc i) (crcu32 (aget fc i) crc)) crc in
  Some (crc, memblock).

(** ** The input *)

Definition intpat : list (list Z) :=
  [ [53;48;49;50]; [49;50;51;52]; [45;56;55;52]; [43;49;50;50] ].
Definition floatpat : list (list Z) :=
  [ [51;53;46;53;52;52;48;48]; [46;49;50;51;52;53;48;48];
    [45;49;49;48;46;55;48;48]; [43;48;46;54;52;52;48;48] ].
Definition scipat : list (list Z) :=
  [ [53;46;53;48;48;101;43;51]; [45;46;49;50;51;101;45;50];
    [45;56;55;101;43;56;51;50]; [43;48;46;54;101;45;49;50] ].
Definition errpat : list (list Z) :=
  [ [84;48;46;51;101;45;49;70]; [45;84;46;84;43;43;84;113];
    [49;84;51;46;52;101;52;122]; [51;52;46;48;101;45;84;94] ].

(** The [switch] on the incremented seed: [(buf, next)]. *)
Definition choose_pattern (seed : Z) : list Z * Z :=
  let k := Z.to_nat ((seed .>> 3) .& 0x3) in
  match seed .& 0x7 with
  | 0 | 1 | 2 => (nth k intpat [], 4)
  | 3 | 4 => (nth k floatpat [], 8)
  | 5 | 6 => (nth k scipat [], 8)
  | _ => (nth k errpat [], 8)
  end.

(** One iteration of the filling loop: [(total, next, buf, seed, p)]. *)
Definition fill_step (st : Z * Z * list Z * Z * list Z) : option (Z * Z * list Z * Z * list Z) :=
  let '(total, next, buf, seed, p) := st in
  '(total, p) ←
    (if 0 <? next then
       p ← for_upto next (fun i p =>
             p ← p; b ← aread buf i; awrite p (u32 (total + i)) b) (Some p);
       p ← awrite p (u32 (total + next)) 44;
       Some (u32 (total + next + 1), p)
     else Some (total, p));
  let seed := s16 (seed + 1) in
  let '(buf, next) := choose_pattern seed in
  Some (total, next, buf, seed, p).

Fixpoint fill_loop (fuel : nat) (size : Z) (st : Z * Z * list Z * Z * list Z)
  : option (Z * list Z) :=
  match fuel with
  | O => None
  | S f =>
      let '(total, next, _, _, p) := st in
      if u32 (total + next + 1) <? size then st ← fill_step st; fill_loop f size st
      else Some (total, p)
  end.

(** Fill the rest with zeros. *)
Fixpoint zero_fill (fuel : nat) (total size : Z) (p : list Z) : option (list Z) :=
  match fuel with
  | O => None
  | S f =>
      if total <? size then p ← awrite p total 0; zero_fill f (u32 (total + 1)) size p
      else Some p
  end.

Definition core_init_state (fuel : nat) (size seed : Z) (p : list Z) : option (list Z) :=
  let size := u32 (size - 1) in
  '(total, p) ← fill_loop fuel size (0, 0, [], seed, p);
  let size := u32 (size + 1) in
  zero_fill fuel total size p.

(** ** The scanner stays inside the buffer and makes progress *)

Lemma length_count (s : core_state_e) (tc : list Z) : alen (count s tc) = alen tc.
Proof. apply alen_aset. Qed.

Lemma next_state_counts (st : core_state_e) (sym : Z) (tc : list Z) :
  alen (next_state st sym tc).2 = alen tc.
Proof.
  destruct st; cbn -[count]; repeat case_match; simplify_eq; cbn -[count];
    by rewrite ?length_count.
Qed.

(** [z] is a zero byte of the buffer: the scanner never goes beyond it. *)
Definition zero_at (buf : list Z) (z : Z) : Prop := 0 <= z < alen buf /\ aget buf z = 0.

Lemma scan_total (fuel : nat) (buf : list Z) (z p : Z) (st : core_state_e) (tc : list Z) :
  zero_at buf z -> 0 <= p <= z -> (Z.to_nat (z - p) < fuel)%nat ->
  exists p' st' tc', scan fuel buf p st tc = Some (p', st', tc') /\
    p <= p' <= z /\ alen tc' = alen tc /\
    (aget buf p <> 0 -> st <> CORE_INVALID -> p < p').
Proof.
  intros [Hz Hz0]. revert p st tc. induction fuel as [|f IH]; intros p st tc Hp Hf; [lia|].
  cbn [scan]. rewrite aread_Some by lia. cbn [mbind option_bind].
  unfold truthy. destruct (Z.eqb_spec (aget buf p) 0) as [E|Hne]; cbn [negb andb].
  { exists p, st, tc. split_and!; [done|lia|lia|done|done]. }
  assert (p <> z) by congruence.
  case_bool_decide as Hinv; cbn [negb].
  { exists p, st, tc. split_and!; [done|lia|lia|done|done]. }
  destruct (aget buf p =? 44).
  { exists (p + 1), st, tc. split_and!; [done|lia|lia|done|lia]. }
  pose proof (next_state_counts st (aget buf p) tc) as Hl.
  destruct (next_state st (aget buf p) tc) as [st1 tc1]. cbn in Hl.
  destruct (IH (p + 1) st1 tc1) as (p' & st' & tc' & Hrun & Hp' & Ht & _); [lia|lia|].
  exists p', st', tc'. split_and!; [done|lia|lia|congruence|lia].
Qed.

Lemma run_input_total (fuel : nat) (buf : list Z) (z p : Z) (fc tc : list Z) :
  zero_at buf z -> 0 <= p <= z -> (Z.to_nat (z - p) < fuel)%nat ->
  exists fc' tc', run_input fuel buf p fc tc = Some (fc', tc') /\
    alen fc' = alen fc /\ alen tc' = alen tc.
Proof.
  intros [Hz Hz0]. revert p fc tc. induction fuel as [|f IH]; intros p fc tc Hp Hf; [lia|].
  cbn [run_input]. rewrite aread_Some by lia. cbn [mbind option_bind]. unfold truthy.
  destruct (Z.eqb_spec (aget buf p) 0) as [E|Hne]; cbn [negb]; [by exists fc, tc|].
  destruct (scan_total (S f) buf z p CORE_START tc) as (p' & st & tc1 & Hrun & Hp' & Ht & Hlt);
    [done|done|done|]. specialize (Hlt Hne ltac:(done)).
  unfold core_state_transition. rewrite Hrun. cbn [mbind option_bind].
  destruct (IH p' (count st fc) tc1) as (fc' & tc' & ? & E1 & E2); [lia|lia|].
  exists fc', tc'. split_and!; [done|by rewrite E1, length_count|by rewrite E2].
Qed.

(** ** The corruption pass *)

Definition corrupt_byte (seed c : Z) : Z := if c =? 44 then c else u8 (c .^ u8 seed).

(** Positions from [p] on that the pass visits. *)
Definition visited (p step i : Z) : bool := (p <=? i) && ((i - p) mod step =? 0).

Lemma corrupt_spec (fuel : nat) (blksize p seed step : Z) (buf : list Z) :
  0 < step -> 0 <= p -> blksize <= alen buf -> (Z.to_nat (blksize - p) < fuel)%nat ->
  exists buf', corrupt fuel blksize p seed step buf = Some buf' /\ alen buf' = alen buf /\
    forall i, aget buf' i = if (i <? blksize) && visited p step i
                            then corrupt_byte seed (aget buf i) else aget buf i.
Proof.
  intros Hs. revert p buf. induction fuel as [|f IH]; intros p buf Hp Hb Hf; [lia|].
  cbn [corrupt]. destruct (Z.ltb_spec p blksize) as [Hlt|Hge].
  2: { exists buf. split_and!; [done|done|]. intros i. unfold visited.
       destruct (Z.ltb_spec i blksize), (Z.leb_spec p i); cbn; (done || lia). }
  rewrite aread_Some by lia. cbn [mbind option_bind].
  set (buf1 := aset buf p (corrupt_byte seed (aget buf p))).
  assert ((if negb (aget buf p =? 44) then awrite buf p (u8 (aget buf p .^ u8 seed)) else Some buf)
    = Some buf1) as ->.
  { unfold buf1, corrupt_byte. destruct (aget buf p =? 44); cbn [negb].
    - by rewrite aset_aget by lia.
    - apply awrite_Some. lia. }
  cbn [mbind option_bind].
  destruct (IH (p + step) buf1) as (buf' & Hrun & Hl & Hg); [lia|unfold buf1; rewrite alen_aset; lia|lia|].
  exists buf'. split_and!; [done|by rewrite Hl; apply alen_aset|]. intros i. rewrite Hg.
  assert (visited p step i = (i =? p) || visited (p + step) step i) as ->.
  { unfold visited. replace (i - (p + step)) with (i - p + (-1) * step) by lia.
    rewrite Z.mod_add by lia.
    destruct (Z.eqb_spec i p) as [->|]; cbn.
    - rewrite Z.sub_diag, Z.mod_0_l by lia. by destruct (Z.leb_spec p p); [|lia].
    - destruct (Z.leb_spec p i), (Z.leb_spec (p + step) i); try done; try lia.
      destruct (Z.eqb_spec ((i - p) mod step) 0) as [E|]; [|done]. exfalso.
      rewrite Z.mod_small in E by lia. lia. }
  unfold buf1. destruct (Z.eqb_spec i p) as [->|Hne]; cbn.
  - rewrite aget_aset_eq by lia. unfold visited.
    destruct (Z.ltb_spec p blksize); [|lia]. destruct (Z.leb_spec (p + step) p); [lia|]. done.
  - by rewrite aget_aset_ne by lia.
Qed.

(** Corrupting twice with the same seed is the identity on a byte that does
    not turn into a comma. *)
Lemma corrupt_byte_twice (seed c : Z) :
  is_uint 8 c -> (c = 44 \/ c <> 44 .^ u8 seed) -> corrupt_byte seed (corrupt_byte seed c) = c.
Proof.
  intros Hc Hor. unfold corrupt_byte. destruct (Z.eqb_spec c 44) as [->|Hne]; [done|].
  destruct Hor as [|Hx]; [done|].
  assert (u8 (c .^ u8 seed) = c .^ u8 seed) as ->.
  { apply (uwrap_id 8), lxor_uint; [done|done|by apply uwrap_range]. }
  destruct (Z.eqb_spec (c .^ u8 seed) 44) as [E|].
  - exfalso. apply Hx. by rewrite <-E, Z.lxor_assoc, Z.lxor_nilpotent, Z.lxor_0_r.
  - rewrite Z.lxor_assoc, Z.lxor_nilpotent, Z.lxor_0_r. by apply (uwrap_id 8).
Qed.

Lemma crcu32_range (v crc : Z) : is_uint 16 crc -> is_uint 16 (crcu32 v crc).
Proof. intros. unfold crcu32. auto with soc. Qed.

(** An input block as the kernel needs it: bytes that fill the block, with two
    adjacent zero bytes. *)
Definition input_block (blksize : Z) (buf : list Z) : Prop :=
  alen buf = blksize /\ exists z, zero_at buf z /\ zero_at buf (z + 1).

(** A corruption pass cannot hit both zero bytes. *)
Lemma corrupt_keeps_zero (buf buf' : list Z) (blksize seed step : Z) :
  2 <= step -> input_block blksize buf -> alen buf' = alen buf ->
  (forall i, aget buf' i = if (i <? blksize) && visited 0 step i
                           then corrupt_byte seed (aget buf i) else aget buf i) ->
  exists z, zero_at buf' z.
Proof.
  intros Hs (Hl & z & [Hz Ez] & [Hz1 Ez1]) Hl' Hg.
  assert (forall i, 0 <= i < alen buf -> aget buf i = 0 -> visited 0 step i = false ->
    zero_at buf' i) as Hkeep.
  { intros i Hi E V. split; [lia|]. by rewrite Hg, V, andb_false_r. }
  destruct (visited 0 step z) eqn:V; [|by exists z; apply Hkeep].
  exists (z + 1). apply Hkeep; [done|done|]. unfold visited in *.
  apply andb_prop in V as [_ V%Z.eqb_eq]. rewrite Z.sub_0_r in *.
  destruct (Z.leb_spec 0 (z + 1)); cbn; [|done]. apply Z.eqb_neq.
  rewrite Z.add_mod, V, Z.add_0_l, Z.mod_mod, Z.mod_small by lia. lia.
Qed.

Lemma corrupt_block (fuel : nat) (blksize seed step : Z) (buf : list Z) :
  2 <= step -> alen buf = blksize -> (Z.to_nat blksize < fuel)%nat ->
  exists buf', corrupt fuel blksize 0 seed step buf = Some buf' /\ alen buf' = blksize /\
    forall i, aget buf' i = if (i <? blksize) && visited 0 step i
                            then corrupt_byte seed (aget buf i) else aget buf i.
Proof.
  intros Hs Hl Hf.
  destruct (corrupt_spec fuel blksize 0 seed step buf) as (b & ? & ? & ?); [lia..|].
  exists b. split_and!; [done|lia|done].
Qed.

(** The two passes of the kernel; both scans and both corruptions are total. *)
Lemma core_bench_state_runs (fuel : nat) (blksize : Z) (buf : list Z) (seed1 seed2 step crc : Z) :
  2 <= step -> input_block blksize buf -> (Z.to_nat blksize < fuel)%nat -> is_uint 16 crc ->
  exists crc' buf1 buf2, core_bench_state fuel blksize buf seed1 seed2 step crc = Some (crc', buf2) /\
    is_uint 16 crc' /\
    corrupt fuel blksize 0 seed1 step buf = Some buf1 /\
    corrupt fuel blksize 0 seed2 step buf1 = Some buf2.
Proof.
  intros Hs Hin Hf Hc. pose proof Hin as (Hl & z & Hz & _). unfold core_bench_state.
  set (zs := tabulate NUM_CORE_STATES (fun _ => 0)).
  destruct (run_input_total fuel buf z 0 zs zs) as (fc & tc & Hr & _); [done|destruct Hz; lia..|].
  rewrite Hr. cbn [mbind option_bind].
  destruct (corrupt_block fuel blksize seed1 step buf) as (buf1 & Hc1 & Hl1 & Hg1); [done..|].
  rewrite Hc1. cbn [mbind option_bind].
  destruct (corrupt_keeps_zero buf buf1 blksize seed1 step) as (z1 & Hz1); [done|done|lia|done|].
  destruct (run_input_total fuel buf1 z1 0 fc tc) as (fc' & tc' & Hr' & _); [done|destruct Hz1; lia..|].
  rewrite Hr'. cbn [mbind option_bind].
  destruct (corrupt_block fuel blksize seed2 step buf1) as (buf2 & Hc2 & _); [done..|].
  rewrite Hc2. cbn [mbind option_bind]. eexists _, buf1, buf2. split_and!; [done| |done|done].
  apply (for_upto_inv (fun _ c => is_uint 16 c)); [done|done|].
  intros j c _ Hc'. by apply crcu32_range, crcu32_range.
Qed.

(** C30: on an input block the state-machine kernel terminates, never reads or
    writes outside the block (not even after the corruption, which may destroy
    one of the terminating zeros), and returns a 16-bit CRC. *)
Theorem core_bench_state_safe (fuel : nat) (blksize : Z) (buf : list Z) (seed1 seed2 step crc : Z) :
  2 <= step -> input_block blksize buf -> (Z.to_nat blksize < fuel)%nat -> is_uint 16 crc ->
  exists crc' buf', core_bench_state fuel blksize buf seed1 seed2 step crc = Some (crc', buf') /\
    is_uint 16 crc' /\ alen buf' = blksize.
Proof.
  intros Hs Hin Hf Hc.
  destruct (core_bench_state_runs fuel blksize buf seed1 seed2 step crc)
    as (crc' & buf1 & buf2 & Hrun & Hc' & H1 & H2); [done..|].
  exists crc', buf2. split_and!; [done|done|].
  destruct (corrupt_block fuel blksize seed1 step buf) as (b1 & E1 & L1 & _); [done|apply Hin|done|].
  destruct (corrupt_block fuel blksize seed2 step buf1) as (b2 & E2 & L2 & _); [done| |done|].
  { congruence. }
  congruence.
Qed.

(** The run of [core_bench_state] with equal seeds. *)
Lemma core_bench_state_same (fuel : nat) (blksize : Z) (buf : list Z) (seed step crc : Z) :
  2 <= step -> input_block blksize buf -> Forall (is_uint 8) buf ->
  (Z.to_nat blksize < fuel)%nat -> is_uint 16 crc ->
  (forall i, 0 <= i < blksize -> visited 0 step i = true -> aget buf i <> 44 ->
     aget buf i <> 44 .^ u8 seed) ->
  exists crc', core_bench_state fuel blksize buf seed seed step crc = Some (crc', buf).
Proof.
  intros Hs Hin Hby Hf Hc Hno.
  destruct (core_bench_state_runs fuel blksize buf seed seed step crc)
    as (crc' & buf1 & buf2 & Hrun & _ & H1 & H2); [done..|].
  exists crc'. rewrite Hrun. do 2 f_equal.
  destruct (corrupt_block fuel blksize seed step buf) as (b1 & E1 & L1 & G1); [done|apply Hin|done|].
  rewrite H1 in E1. injection E1 as <-.
  destruct (corrupt_block fuel blksize seed step buf1) as (b2 & E2 & L2 & G2); [done..|].
  rewrite H2 in E2. injection E2 as <-. pose proof Hin as [Hl _].
  apply aget_ext; [lia|]. intros i Hi. rewrite G2, G1.
  destruct (i <? blksize); [|done]. destruct (visited 0 step i) eqn:V; [|done]. cbn.
  apply corrupt_byte_twice.
  - rewrite Forall_forall in Hby. apply Hby, aget_elem. lia.
  - destruct (Z.eq_dec (aget buf i) 44); [by left|right]. apply Hno; [lia|done|done].
Qed.

(** With equal seeds the kernel leaves the block exactly as it was, unless
    the corruption turns some visited byte into a comma: the second pass skips
    commas, so such a byte is not restored. *)
Theorem core_bench_state_restores (fuel : nat) (blksize : Z) (buf : list Z) (seed step crc : Z) :
  2 <= step -> input_block blksize buf -> Forall (is_uint 8) buf ->
  (Z.to_nat blksize < fuel)%nat -> is_uint 16 crc ->
  (forall i, 0 <= i < blksize -> visited 0 step i = true -> aget buf i <> 44 ->
     aget buf i <> 44 .^ u8 seed) ->
  exists crc', core_bench_state fuel blksize buf seed seed step crc = Some (crc', buf).
Proof. apply core_bench_state_same. Qed.

(** The exception is real: with both seeds 0x18 the leading 4 of the input
    becomes a comma and stays one. *)
Theorem core_bench_state_not_restored :
  snd <$> core_bench_state 10 6 [52; 46; 53; 44; 0; 0] 0x18 0x18 34 0 = Some [44; 46; 53; 44; 0; 0].
Proof. reflexivity. Qed.

(** ** Initialisation builds an input block *)

(** The bytes the patterns are made of, the separator and the filler. *)
Definition alphabet : list Z := 0 :: 44 :: concat (intpat ++ floatpat ++ scipat ++ errpat).

Lemma alphabet_uint (c : Z) : c ∈ alphabet -> is_uint 8 c.
Proof.
  intros Hc. assert (Forall (is_uint 8) alphabet) as Hf.
  { apply (bool_decide_unpack _). by vm_compute. }
  rewrite Forall_forall in Hf. by apply Hf.
Qed.

Definition word_ok (next : Z) (buf : list Z) : Prop :=
  alen buf = next /\ forall i, 0 <= i < next -> aget buf i ∈ alphabet.

Lemma nth_pattern (l : list (list Z)) (len : Z) (k : nat) :
  (k < length l)%nat -> Forall (fun w => alen w = len /\ Forall (fun c => c ∈ alphabet) w) l ->
  word_ok len (nth k l []).
Proof.
  intros Hk Hl. rewrite List.Forall_forall in Hl.
  destruct (Hl (nth k l [])) as [Hlen Hw]; [by apply nth_In|].
  split; [done|]. intros i Hi. rewrite Forall_forall in Hw. apply Hw, aget_elem. lia.
Qed.

Lemma choose_pattern_ok (seed : Z) :
  let '(buf, next) := choose_pattern seed in (next = 4 \/ next = 8) /\ word_ok next buf.
Proof.
  unfold choose_pattern.
  assert ((Z.to_nat ((seed .>> 3) .& 0x3) < 4)%nat) as Hk.
  { generalize (seed .>> 3). intros x. change 0x3 with (Z.ones 2). rewrite Z.land_ones by lia.
    pose proof (Z.mod_pos_bound x (2 ^ 2) eq_refl). lia. }
  set (k := Z.to_nat _) in *. clearbody k.
  assert (forall l, length l = 4%nat ->
    forall len, bool_decide (Forall (fun w => alen w = len /\ Forall (fun c => c ∈ alphabet) w) l) = true ->
    word_ok len (nth k l [])) as H.
  { intros l Hl len Hd%bool_decide_eq_true. apply nth_pattern; [lia|done]. }
  repeat (case_match; simplify_eq); (split; [lia|]); apply H;
    first [done | by vm_compute].
Qed.

(** The filling loop: everything below [total] is input text, the pending
    word fits, and [total] stays two short of the block. *)
Definition fill_inv (size : Z) (st : Z * Z * list Z * Z * list Z) : Prop :=
  let '(total, next, buf, seed, p) := st in
  alen p = size /\ 0 <= total <= size - 2 /\ (next = 0 \/ next = 4 \/ next = 8) /\
  word_ok next buf /\ forall i, 0 <= i < total -> aget p i ∈ alphabet.

Lemma copy_word (next total : Z) (buf p : list Z) (size : Z) :
  word_ok next buf -> alen p = size -> 0 <= next -> 0 <= total -> total + next < size < 2 ^ 31 ->
  (forall i, 0 <= i < total -> aget p i ∈ alphabet) ->
  exists p', for_upto next (fun i p =>
      p ← p; b ← aread buf i; awrite p (u32 (total + i)) b) (Some p) = Some p' /\
    alen p' = size /\ forall i, 0 <= i < total + next -> aget p' i ∈ alphabet.
Proof.
  intros [Hl Hw] Hp Hn Ht Hs Hin.
  apply (for_upto_inv (fun i r => exists p', r = Some p' /\ alen p' = size /\
    forall k, 0 <= k < total + i -> aget p' k ∈ alphabet)); [done| |].
  - exists p. split_and!; [done|done|]. intros k Hk. apply Hin. lia.
  - intros j r Hj (q & -> & Hq & Hqi). cbn [mbind option_bind].
    rewrite aread_Some by lia. cbn [mbind option_bind].
    unfold u32. rewrite (uwrap_id 32) by (unfold is_uint; lia). rewrite awrite_Some by lia.
    eexists. split_and!; [done|by rewrite alen_aset|]. intros k Hk.
    rewrite aget_aset by lia. destruct (Z.eqb_spec k (total + j)); [by apply Hw|]. apply Hqi. lia.
Qed.

Lemma comma_in_alphabet : 44 ∈ alphabet.
Proof. by apply (bool_decide_unpack _); vm_compute. Qed.

Lemma fill_step_ok (size : Z) (st : Z * Z * list Z * Z * list Z) :
  2 <= size < 2 ^ 31 -> fill_inv size st ->
  let '(total, next, _, _, _) := st in total + next + 1 < size - 1 ->
  exists st', fill_step st = Some st' /\ fill_inv size st' /\
    let '(total', next', _, _, _) := st' in
    0 < next' /\ total <= total' /\ (next = 0 \/ total < total').
Proof.
  destruct st as [[[[total next] buf] seed] p]. intros Hs (Hp & Ht & Hn & Hw & Hin) Hlt.
  assert (exists p', (if 0 <? next then
       p ← for_upto next (fun i p =>
             p ← p; b ← aread buf i; awrite p (u32 (total + i)) b) (Some p);
       p ← awrite p (u32 (total + next)) 44;
       Some (u32 (total + next + 1), p)
     else Some (total, p)) = Some (if 0 <? next then total + next + 1 else total, p') /\
     alen p' = size /\
     forall i, 0 <= i < (if 0 <? next then total + next + 1 else total) -> aget p' i ∈ alphabet)
    as (p' & Hrun & Hp' & Hin').
  { destruct (Z.ltb_spec 0 next) as [Hn0|Hn0]; [|by exists p].
    destruct (copy_word next total buf p size) as (q & Hq & Hql & Hqi); [done|done|lia..|done|].
    rewrite Hq. cbn [mbind option_bind]. unfold u32.
    rewrite !(uwrap_id 32) by (unfold is_uint; lia). rewrite awrite_Some by lia.
    cbn [mbind option_bind]. eexists. split_and!; [done|by rewrite alen_aset|].
    intros i Hi. rewrite aget_aset by lia.
    destruct (Z.eqb_spec i (total + next)); [apply comma_in_alphabet|]. apply Hqi. lia. }
  unfold fill_step. rewrite Hrun. cbn [mbind option_bind].
  pose proof (choose_pattern_ok (s16 (seed + 1))) as Hc.
  destruct (choose_pattern (s16 (seed + 1))) as [buf' next'].
  destruct Hc as [Hn' Hw']. eexists. split; [done|].
  destruct (Z.ltb_spec 0 next) as [Hn0|Hn0]; (split; [split_and!; (done || lia)|lia]).
Qed.

Lemma fill_loop_ok (fuel : nat) (size : Z) (st : Z * Z * list Z * Z * list Z) :
  2 <= size < 2 ^ 31 -> fill_inv size st ->
  (let '(total, next, _, _, _) := st in
   Z.to_nat (2 * (size - total) + (if (next =? 0)%Z then 1 else 0)) < fuel)%nat ->
  exists total p, fill_loop fuel (size - 1) st = Some (total, p) /\
    alen p = size /\ 0 <= total <= size - 2 /\ forall i, 0 <= i < total -> aget p i ∈ alphabet.
Proof.
  intros Hs. revert st. induction fuel as [|f IH]; intros st Hi Hf; destruct st as [[[[total next] buf] seed] p]; [lia|].
  cbn [fill_loop]. pose proof Hi as (Hp & Ht & Hn & Hw & Hin).
  unfold u32. rewrite (uwrap_id 32 (total + next + 1)) by (unfold is_uint; lia).
  destruct (Z.ltb_spec (total + next + 1) (size - 1)) as [Hlt|Hge].
  - destruct (fill_step_ok size _ Hs Hi Hlt) as (st' & -> & Hi' & Hm). cbn [mbind option_bind].
    apply IH; [done|]. destruct st' as [[[[total' next'] buf'] seed'] p'].
    destruct Hi' as (_ & Ht' & _). destruct Hm as [Hn' Hm].
    destruct (Z.eqb_spec next 0), (Z.eqb_spec next' 0); lia.
  - exists total, p. split_and!; done || lia.
Qed.

Lemma zero_fill_ok (fuel : nat) (total size : Z) (p : list Z) :
  0 <= total <= size -> size < 2 ^ 31 -> alen p = size -> (Z.to_nat (size - total) < fuel)%nat ->
  exists p', zero_fill fuel total size p = Some p' /\ alen p' = size /\
    forall i, 0 <= i < size -> aget p' i = if i <? total then aget p i else 0.
Proof.
  intros Ht Hs. revert total p Ht. induction fuel as [|f IH]; intros total p Ht Hp Hf; [lia|].
  cbn [zero_fill]. destruct (Z.ltb_spec total size).
  - rewrite awrite_Some by lia. cbn [mbind option_bind].
    unfold u32. rewrite uwrap_id by (unfold is_uint; lia).
    destruct (IH (total + 1) (aset p total 0)) as (p' & Hrun & Hl & Hg);
      [lia|by rewrite alen_aset|lia|].
    exists p'. split_and!; [done|done|]. intros i Hi. rewrite Hg by done.
    rewrite aget_aset by lia.
    destruct (Z.ltb_spec i (total + 1)), (Z.ltb_spec i total), (Z.eqb_spec i total); done || lia.
  - exists p. split_and!; [done|done|]. intros i Hi. destruct (Z.ltb_spec i total); [done|lia].
Qed.

(** [core_init_state] terminates inside the block, for every seed and
    whatever the block held before, and what it builds is an input block: text
    of the pattern alphabet that ends in at least two zero bytes. *)
Theorem core_init_state_spec (fuel : nat) (size seed : Z) (p : list Z) :
  2 <= size < 2 ^ 31 -> alen p = size -> (Z.to_nat (2 * size + 1) < fuel)%nat ->
  exists p', core_init_state fuel size seed p = Some p' /\ input_block size p' /\
    Forall (fun c => c ∈ alphabet) p'.
Proof.
  intros Hs Hp Hf. unfold core_init_state, u32.
  rewrite (uwrap_id 32 (size - 1)) by (unfold is_uint; lia).
  destruct (fill_loop_ok fuel size (0, 0, [], seed, p)) as (total & q & Hrun & Hq & Ht & Hin); [done| | |].
  - split_and!; [done|lia|lia|by left|split; [done|]|]; intros; lia.
  - cbn -[Z.mul]. lia.
  - rewrite Hrun. cbn [mbind option_bind]. rewrite uwrap_id by (unfold is_uint; lia).
    replace (size - 1 + 1) with size by lia.
    destruct (zero_fill_ok fuel total size q) as (p' & Hz & Hl & Hg); [lia|lia|done|lia|].
    exists p'. split; [done|]. split; [split; [done|]|].
    + exists (size - 2). split; (split; [lia|]); rewrite Hg by lia.
      * by destruct (Z.ltb_spec (size - 2) total); [lia|].
      * by destruct (Z.ltb_spec (size - 2 + 1) total); [lia|].
    + apply Forall_forall. intros c Hc. apply list_elem_of_lookup in Hc as [n Hn].
      pose proof (lookup_lt_Some _ _ _ Hn) as Hlt. unfold alen in Hl.
      assert (aget p' (Z.of_nat n) = c) as <- by (rewrite aget_nth; by apply nth_lookup_Some).
      rewrite Hg by lia. destruct (Z.ltb_spec (Z.of_nat n) total).
      * apply Hin. lia.
      * left.
Qed.

(** ** The language of the scanner *)

Definition delta (st : core_state_e) (c : Z) : core_state_e := (next_state st c []).1.
Definition run_token (w : list Z) : core_state_e := fold_left delta w CORE_START.

Definition dig (c : Z) : Prop := 48 <= c <= 57.
Definition sign (s : list Z) : Prop := s = [] \/ s = [43] \/ s = [45].
Definition int_token (w : list Z) : Prop :=
  exists s d, w = s ++ d /\ sign s /\ Forall dig d /\ d <> [].
Definition float_token (w : list Z) : Prop :=
  exists s d1 d2, w = s ++ d1 ++ 46 :: d2 /\ sign s /\ Forall dig d1 /\ Forall dig d2.
Definition exp_token (w : list Z) : Prop :=
  exists f e, w = f ++ [e] /\ float_token f /\ (e = 69 \/ e = 101).
Definition exp_sign_token (w : list Z) : Prop :=
  exists f x, w = f ++ [x] /\ exp_token f /\ (x = 43 \/ x = 45).
Definition sci_token (w : list Z) : Prop :=
  exists f d, w = f ++ d /\ exp_sign_token f /\ Forall dig d /\ d <> [].

(** The token that each state stands for. *)
Definition token_of (st : core_state_e) (w : list Z) : Prop :=
  match st with
  | CORE_START => w = []
  | CORE_S1 => w = [43] \/ w = [45]
  | CORE_INT => int_token w
  | CORE_FLOAT => float_token w
  | CORE_S2 => exp_token w
  | CORE_EXPONENT => exp_sign_token w
  | CORE_SCIENTIFIC => sci_token w
  | CORE_INVALID => True
  end.

Lemma isdigit_dig (c : Z) : truthy (ee_isdigit c) = bool_decide (dig c).
Proof.
  unfold ee_isdigit, dig. case_bool_decide; destruct (Z.leb_spec 48 c), (Z.leb_spec c 57); cbn; done || lia.
Qed.

(** The state transitions without the counters. *)
Lemma delta_eq (st : core_state_e) (c : Z) : delta st c =
  match st with
  | CORE_START => if bool_decide (dig c) then CORE_INT
      else if (c =? 43) || (c =? 45) then CORE_S1 else if c =? 46 then CORE_FLOAT else CORE_INVALID
  | CORE_S1 => if bool_decide (dig c) then CORE_INT else if c =? 46 then CORE_FLOAT else CORE_INVALID
  | CORE_INT => if c =? 46 then CORE_FLOAT else if bool_decide (dig c) then CORE_INT else CORE_INVALID
  | CORE_FLOAT => if (c =? 69) || (c =? 101) then CORE_S2
      else if bool_decide (dig c) then CORE_FLOAT else CORE_INVALID
  | CORE_S2 => if (c =? 43) || (c =? 45) then CORE_EXPONENT else CORE_INVALID
  | CORE_EXPONENT => if bool_decide (dig c) then CORE_SCIENTIFIC else CORE_INVALID
  | CORE_SCIENTIFIC => if bool_decide (dig c) then CORE_SCIENTIFIC else CORE_INVALID
  | CORE_INVALID => CORE_INVALID
  end.
Proof.
  unfold delta. destruct st; cbn -[count]; rewrite ?isdigit_dig;
    repeat (case_match; simplify_eq); try done.
Qed.

Lemma run_token_snoc (w : list Z) (c : Z) : run_token (w ++ [c]) = delta (run_token w) c.
Proof. unfold run_token. by rewrite fold_left_app. Qed.

Lemma token_snoc_digit (st : core_state_e) (w : list Z) (c : Z) :
  dig c -> token_of st w -> token_of (delta st c) (w ++ [c]).
Proof.
  intros Hc Hw. rewrite delta_eq. rewrite (bool_decide_eq_true_2 _ Hc).
  assert (forall k, k < 48 \/ 57 < k -> (c =? k) = false) as Hk.
  { intros k Hk. apply Z.eqb_neq. unfold dig in Hc. lia. }
  assert (Forall dig [c]) as Hc1 by by apply Forall_singleton.
  destruct st; rewrite ?Hk by lia; cbn [orb token_of] in *; try done.
  - subst w. exists [], [c]. split_and!; [done|by left|done|done].
  - exists w, [c]. split_and!; [done|right; naive_solver|done|done].
  - destruct Hw as (s & d & -> & Hs & Hd & Hne). exists s, (d ++ [c]).
    split_and!; [by rewrite app_assoc|done|by apply Forall_app_2|by destruct d].
  - destruct Hw as (s & d1 & d2 & -> & Hs & H1 & H2). exists s, d1, (d2 ++ [c]).
    split_and!; [by rewrite <-!app_assoc|done|done|by apply Forall_app_2].
  - by exists w, [c].
  - destruct Hw as (f & d & -> & Hf & Hd & Hne). exists f, (d ++ [c]).
    split_and!; [by rewrite app_assoc|done|by apply Forall_app_2|by destruct d].
Qed.

Lemma token_snoc_other (st : core_state_e) (w : list Z) (c : Z) :
  ~ dig c -> token_of st w -> token_of (delta st c) (w ++ [c]).
Proof.
  intros Hc Hw. rewrite delta_eq. rewrite (bool_decide_eq_false_2 _ Hc).
  destruct st; cbv iota; cbn [token_of] in *; try done.
  - subst w. destruct (Z.eqb_spec c 43), (Z.eqb_spec c 45), (Z.eqb_spec c 46); cbn; subst;
      try exact I; try (by left); try (by right). exists [], [], [].
    split_and!; [done|by left|constructor|constructor].
  - destruct (Z.eqb_spec c 46) as [->|]; [|exact I]. exists w, [], [].
    split_and!; [done|right; naive_solver|constructor|constructor].
  - destruct ((c =? 43) || (c =? 45)) eqn:E; [|exact I]. exists w, c. split_and!; [done|done|lia].
  - destruct (Z.eqb_spec c 46) as [->|]; [|exact I]. destruct Hw as (s & d & -> & Hs & Hd & _).
    exists s, d, []. split_and!; [by rewrite <-app_assoc|done|done|constructor].
  - destruct ((c =? 69) || (c =? 101)) eqn:E; [|exact I]. exists w, c. split_and!; [done|done|lia].
Qed.

Lemma run_token_sound (w : list Z) : token_of (run_token w) w.
Proof.
  induction w as [|c w IH] using rev_ind; [done|]. rewrite run_token_snoc.
  destruct (decide (dig c)); [by apply token_snoc_digit|by apply token_snoc_other].
Qed.

Lemma fold_digits (st : core_state_e) (d : list Z) :
  st = CORE_INT \/ st = CORE_FLOAT \/ st = CORE_SCIENTIFIC -> Forall dig d ->
  fold_left delta d st = st.
Proof.
  intros Hst. induction 1 as [|c d Hc Hd IH]; [done|]. cbn.
  assert (delta st c = st) as ->; [|done]. rewrite delta_eq, (bool_decide_eq_true_2 _ Hc).
  assert (forall k, k < 48 \/ 57 < k -> (c =? k) = false) as Hk.
  { intros k Hk. apply Z.eqb_neq. unfold dig in Hc. lia. }
  destruct Hst as [->|[->| ->]]; by rewrite ?Hk by lia.
Qed.

Lemma run_digits (d : list Z) (st st' : core_state_e) :
  st' = CORE_INT \/ st' = CORE_SCIENTIFIC -> (forall c, dig c -> delta st c = st') ->
  Forall dig d -> d <> [] -> fold_left delta d st = st'.
Proof.
  intros Hst' Hst Hd Hne. destruct Hd as [|c d Hc Hd]; [done|]. cbn.
  rewrite Hst by done. apply fold_digits; [|done].
  destruct Hst' as [->| ->]; auto.
Qed.

Lemma run_sign (s : list Z) : sign s -> run_token s = CORE_START \/ run_token s = CORE_S1.
Proof. intros [->|[->| ->]]; [by left|by right|by right]. Qed.

Lemma run_int (w : list Z) : int_token w -> run_token w = CORE_INT.
Proof.
  intros (s & d & -> & Hs & Hd & Hne). unfold run_token. rewrite fold_left_app. fold (run_token s).
  apply run_digits; [by left| |done|done]. intros c Hc. rewrite delta_eq, (bool_decide_eq_true_2 _ Hc).
  by destruct (run_sign s Hs) as [-> | ->].
Qed.

Lemma run_float (w : list Z) : float_token w -> run_token w = CORE_FLOAT.
Proof.
  intros (s & d1 & d2 & -> & Hs & H1 & H2). rewrite app_assoc. unfold run_token.
  rewrite fold_left_app. fold (run_token (s ++ d1)). cbn [fold_left].
  assert (delta (run_token (s ++ d1)) 46 = CORE_FLOAT) as ->; [|apply fold_digits; naive_solver].
  destruct d1 as [|c d1]; [rewrite app_nil_r; by destruct (run_sign s Hs) as [-> | ->]|].
  by rewrite (run_int (s ++ c :: d1)) by by exists s, (c :: d1).
Qed.

Lemma run_token_complete (st : core_state_e) (w : list Z) :
  st <> CORE_INVALID -> token_of st w -> run_token w = st.
Proof.
  assert (forall w, exp_token w -> run_token w = CORE_S2) as He.
  { intros ? (f & e & -> & Hf & He). rewrite run_token_snoc, (run_float f Hf).
    by destruct He as [-> | ->]. }
  assert (forall w, exp_sign_token w -> run_token w = CORE_EXPONENT) as Hx.
  { intros ? (f & x & -> & Hf & Hx). rewrite run_token_snoc, (He f Hf).
    by destruct Hx as [-> | ->]. }
  intros Hst. destruct st; cbn [token_of]; try done.
  - by intros ->.
  - by intros [->| ->].
  - apply He.
  - apply run_int.
  - apply run_float.
  - apply Hx.
  - intros (f & d & -> & Hf & Hd & Hne). unfold run_token. rewrite fold_left_app.
    fold (run_token f). rewrite (Hx f Hf). apply run_digits; [by right| |done|done].
    intros c Hc. by rewrite delta_eq, (bool_decide_eq_true_2 _ Hc).
Qed.

(** The counters do not influence the state. *)
Lemma next_state_delta (st : core_state_e) (c : Z) (tc : list Z) :
  (next_state st c tc).1 = delta st c.
Proof. unfold delta. destruct st; cbn -[count]; by repeat (case_match; simplify_eq). Qed.

Lemma delta_invalid (w : list Z) : fold_left delta w CORE_INVALID = CORE_INVALID.
Proof. by induction w. Qed.

(** A buffer that has the word [w] at [p], then the byte [c]. *)
Definition word_at (buf : list Z) (p : Z) (w : list Z) (c : Z) : Prop :=
  0 <= p /\ p + alen w < alen buf /\
  (forall i, 0 <= i < alen w -> aget buf (p + i) = aget w i) /\ aget buf (p + alen w) = c.

Lemma aget_cons (x : Z) (l : list Z) (i : Z) : 0 <= i -> aget (x :: l) (i + 1) = aget l i.
Proof.
  intros Hi. unfold aget. destruct (Z.ltb_spec (i + 1) 0), (Z.ltb_spec i 0); try lia.
  by replace (Z.to_nat (i + 1)) with (S (Z.to_nat i)) by lia.
Qed.

Lemma word_at_cons (buf : list Z) (p x : Z) (w : list Z) (c : Z) :
  word_at buf p (x :: w) c -> aget buf p = x /\ word_at buf (p + 1) w c.
Proof.
  intros (Hp & Hl & Hw & Hc). rewrite alen_cons in *. pose proof (alen_nonneg w). split.
  - specialize (Hw 0 ltac:(lia)). by rewrite Z.add_0_r in Hw.
  - split_and!; [lia|lia| |by rewrite <-Hc; f_equal; lia].
    intros i Hi. rewrite <-(aget_cons x w i) by lia. rewrite <-Hw by lia. f_equal. lia.
Qed.

Lemma scan_word (fuel : nat) (buf : list Z) (w : list Z) (p c : Z) (st : core_state_e) (tc : list Z) :
  word_at buf p w c -> Forall (fun x => x <> 0 /\ x <> 44) w -> c = 0 \/ c = 44 ->
  (length w < fuel)%nat ->
  exists p' tc', scan fuel buf p st tc = Some (p', fold_left delta w st, tc') /\
    (fold_left delta w st <> CORE_INVALID -> p' = if c =? 44 then p + alen w + 1 else p + alen w).
Proof.
  intros Hw Hf Hc. revert p st tc fuel Hw.
  induction Hf as [|x w [Hx0 Hx44] Hf IH]; intros p st tc [|f] Hw Hfu; try (cbn in Hfu; lia);
    cbn [scan]; pose proof Hw as (Hp & Hl & _ & Hend);
    match type of Hl with p + alen ?l < _ => pose proof (alen_nonneg l) end;
    rewrite aread_Some by lia; cbn [mbind option_bind].
  - cbn [fold_left]. change (alen []) with 0 in *. rewrite Z.add_0_r in Hend. rewrite Hend.
    destruct Hc as [->| ->]; cbn.
    + exists p, tc. split; [done|lia].
    + case_bool_decide; cbn; [by exists p, tc|]. exists (p + 1), tc. split; [done|lia].
  - apply word_at_cons in Hw as [Ex Hw]. rewrite Ex. unfold truthy.
    destruct (Z.eqb_spec x 0); [done|]. cbn [negb andb].
    case_bool_decide as Hinv; cbn [negb].
    { subst st. cbn [fold_left]. rewrite delta_eq, delta_invalid. by exists p, tc. }
    destruct (Z.eqb_spec x 44); [done|]. pose proof (next_state_delta st x tc) as Hd.
    destruct (next_state st x tc) as [st1 tc1]. cbn [fst] in Hd. subst st1. cbn [fold_left].
    destruct (IH (p + 1) (delta st x) tc1 f Hw) as (p' & tc' & Hrun & Hp'); [cbn in Hfu; lia|].
    exists p', tc'. split; [done|]. intros Hne. rewrite (Hp' Hne), alen_cons.
    destruct (c =? 44); lia.
Qed.

(** C29: [core_state_transition] classifies a comma- or zero-terminated token
    exactly by its syntax: it returns CORE_INT iff the token is an optionally
    signed digit string, CORE_FLOAT iff it has one decimal point and no
    exponent, CORE_SCIENTIFIC iff it is a float with a signed exponent, and so
    on for the incomplete tokens; for every accepted token the pointer ends
    after the separator. *)
Theorem core_state_transition_classifies (fuel : nat) (buf w : list Z) (p c : Z)
    (st : core_state_e) (tc : list Z) :
  word_at buf p w c -> Forall (fun x => x <> 0 /\ x <> 44) w -> c = 0 \/ c = 44 ->
  (length w < fuel)%nat -> st <> CORE_INVALID ->
  ((exists p' tc', core_state_transition fuel buf p tc = Some (p', st, tc') /\
      p' = if c =? 44 then p + alen w + 1 else p + alen w) <-> token_of st w).
Proof.
  intros Hw Hf Hc Hfu Hst. unfold core_state_transition.
  destruct (scan_word fuel buf w p c CORE_START tc Hw Hf Hc Hfu) as (p' & tc' & -> & Hp').
  fold (run_token w) in *. split.
  - intros (? & ? & E & _). injection E as _ <- _. apply run_token_sound.
  - intros Ht. rewrite (run_token_complete st w Hst Ht) in *. exists p', tc'. auto.
Qed.

(** One of the patterns that the initialisation takes for scientific numbers
    is not one for the scanner, which wants a decimal point before an exponent. *)
Lemma scipat_not_scientific :
  nth 2 scipat [] = [45;56;55;101;43;56;51;50] /\ run_token (nth 2 scipat []) = CORE_INVALID.
Proof. done. Qed.

Module StateMachineWitness.
Definition block : list Z := [45; 49; 46; 53; 44; 55; 0; 0].

Lemma block_input : input_block 8 block.
Proof. split; [done|]. exists 6. by split. Qed.

Lemma core_bench_state_safe_witness : exists crc' buf',
  core_bench_state 100 8 block 0x3415 0x3415 2 7 = Some (crc', buf') /\
  is_uint 16 crc' /\ alen buf' = 8.
Proof.
  apply (core_bench_state_safe 100 8 block 0x3415 0x3415 2 7);
    [done|apply block_input|lia|unfold is_uint; lia].
Defined.

Lemma core_bench_state_restores_witness : exists crc',
  core_bench_state 100 8 block 0x3415 0x3415 2 7 = Some (crc', block).
Proof.
  apply (core_bench_state_restores 100 8 block 0x3415 2 7);
    [done|apply block_input|by apply (bool_decide_unpack _); vm_compute|lia|unfold is_uint; lia|].
  intros i Hi _ _. assert (i = 0 \/ i = 1 \/ i = 2 \/ i = 3 \/ i = 4 \/ i = 5 \/ i = 6 \/ i = 7)
    as Hc by lia. by repeat destruct Hc as [->|Hc]; subst.
Defined.

Lemma core_init_state_spec_witness : exists p',
  core_init_state 200 64 3 (tabulate 64 (fun i => i)) = Some p' /\ input_block 64 p' /\
  Forall (fun c => c ∈ alphabet) p'.
Proof. apply (core_init_state_spec 200 64 3); [lia|done|lia]. Defined.

Lemma core_state_transition_classifies_witness :
  (exists p' tc', core_state_transition 10 block 0 [0;0;0;0;0;0;0;0] = Some (p', CORE_FLOAT, tc') /\
     p' = 5) <-> token_of CORE_FLOAT [45; 49; 46; 53].
Proof.
  apply (core_state_transition_classifies 10 block [45; 49; 46; 53] 0 44 CORE_FLOAT
    [0;0;0;0;0;0;0;0]); [|by repeat constructor|by right|cbn; lia|done].
  split_and!; [done|done| |done]. change (alen [45; 49; 46; 53]) with 4. intros i Hi.
  assert (i = 0 \/ i = 1 \/ i = 2 \/ i = 3) as Hc by lia. by repeat destruct Hc as [->|Hc]; subst.
Defined.
End StateMachineWitness.
