(* ===== verification/ListJoin.v ===== *)
(** * CoreMark's linked lists, [src/fpga/coremark/src/core_list_join.c]

    The heap holds the list cells and the data items at their addresses; a
    dereference of NULL or of an address that holds no object is [None].  This
    file has the list primitives (find, reverse, remove and its undo, insert)
    and the bottom-up mergesort, proved correct for every comparison that
    respects an order; [ListBench] has the benchmark on top of them. *)

From S2P Require Import Prelude.

Record list_head : Type := mk_head { next : Z; info : Z }.
Record list_data : Type := mk_data { data16 : Z; idx : Z }.

(** Sizes of the structures on the target. *)
Definition sizeof_list_head : Z := 8.
Definition sizeof_list_data : Z := 4.

Record world (T : Type) : Type := mk_world {
  heads : gmap Z list_head;
  datas : gmap Z list_data;
  env : T;
}.
Arguments mk_world {T}.
Arguments heads {T}.
Arguments datas {T}.
Arguments env {T}.

Section Ops.
Context {T : Type}.

Definition set_heads (h : gmap Z list_head) (w : world T) : world T :=
  mk_world h (datas w) (env w).
Definition set_datas (d : gmap Z list_data) (w : world T) : world T :=
  mk_world (heads w) d (env w).

(** [*p] for a cell, a data item. *)
Definition rd (p : Z) : M (world T) list_head := fun w => (fun h => (h, w)) <$> heads w !! p.
Definition rd_data (p : Z) : M (world T) list_data := fun w => (fun d => (d, w)) <$> datas w !! p.

(** [p->next = v], [p->info = v], [*p = d]: only on existing objects. *)
Definition wr (p : Z) (f : list_head -> list_head) : M (world T) () :=
  h ← rd p; modify_world (fun w => set_heads (<[p := f h]> (heads w)) w).
Definition wr_next (p v : Z) : M (world T) () := wr p (fun h => mk_head v (info h)).
Definition wr_info (p v : Z) : M (world T) () := wr p (fun h => mk_head (next h) v).
Definition wr_data (p : Z) (f : list_data -> list_data) : M (world T) () :=
  d ← rd_data p; modify_world (fun w => set_datas (<[p := f d]> (datas w)) w).

Definition copy_info (to : Z) (from : list_data) : M (world T) () :=
  _ ← wr_data to (fun d => mk_data (data16 from) (idx d));
  wr_data to (fun d => mk_data (data16 d) (idx from)).

(** [while (list && test(list->info)) list = list->next;] *)
Definition find_while (fuel : nat) (test : list_data -> bool) (list : Z) : M (world T) Z :=
  while_M fuel
    (fun list => if truthy list then (h ← rd list; d ← rd_data (info h); mret (test d)) else mret false)
    (fun list => h ← rd list; mret (next h)) list.

Definition core_list_find (fuel : nat) (list : Z) (inf : list_data) : M (world T) Z :=
  if 0 <=? idx inf
  then find_while fuel (fun d => negb (idx d =? idx inf)) list
  else find_while fuel (fun d => negb (data16 d .& 0xff =? data16 inf)) list.

Definition core_list_reverse (fuel : nat) (list : Z) : M (world T) Z :=
  st ← while_M fuel (fun '(list, _) => mret (truthy list))
         (fun '(list, nxt) =>
            h ← rd list;
            let tmp := next h in
            _ ← wr_next list nxt;
            mret (tmp, list)) (list, 0);
  mret (st.2).

Definition core_list_remove (item : Z) : M (world T) Z :=
  h ← rd item;
  let ret := next h in
  let tmp := info h in
  hr ← rd ret;
  _ ← wr_info item (info hr);
  _ ← wr_info ret tmp;
  h ← rd item;
  hn ← rd (next h);
  _ ← wr_next item (next hn);
  _ ← wr_next ret 0;
  mret ret.

Definition core_list_undo_remove (item_removed item_modified : Z) : M (world T) Z :=
  hr ← rd item_removed;
  let tmp := info hr in
  hm ← rd item_modified;
  _ ← wr_info item_removed (info hm);
  _ ← wr_info item_modified tmp;
  hm ← rd item_modified;
  _ ← wr_next item_removed (next hm);
  _ ← wr_next item_modified item_removed;
  mret item_removed.

(** The two allocation pointers are passed and returned: the new item (or
    NULL), [*memblock] and [*datablock]. *)
Definition core_list_insert_new (insert_point : Z) (inf : list_data)
    (memblock datablock memblock_end datablock_end : Z) : M (world T) (Z * Z * Z) :=
  if memblock_end <=? memblock + sizeof_list_head then mret (0, memblock, datablock)
  else if datablock_end <=? datablock + sizeof_list_data then mret (0, memblock, datablock)
  else
    let newitem := memblock in
    let memblock := memblock + sizeof_list_head in
    hi ← rd insert_point;
    _ ← wr_next newitem (next hi);
    _ ← wr_next insert_point newitem;
    _ ← wr_info newitem datablock;
    let data := datablock in
    let datablock := datablock + sizeof_list_data in
    _ ← copy_info data inf;
    mret (newitem, memblock, datablock).

(** ** The mergesort *)

Variable cmp : Z -> Z -> M (world T) Z.

(** [for (i = 0; i < insize; i++) { psize++; q = q->next; if (!q) break; }] *)
Fixpoint step_along (fuel : nat) (insize i psize q : Z) : M (world T) (Z * Z) :=
  match fuel with
  | O => fun _ => None
  | S f =>
      if i <? insize then
        let psize := s32 (psize + 1) in
        h ← rd q;
        let q := next h in
        if negb (truthy q) then mret (psize, q) else step_along f insize (s32 (i + 1)) psize q
      else mret (psize, q)
  end.

(** Add the element [e] to the merged list: the new [(list, tail)]. *)
Definition link (e : Z) (lt : Z * Z) : M (world T) (Z * Z) :=
  let '(list, tail) := lt in
  if truthy tail then (_ ← wr_next tail e; mret (list, e)) else mret (e, e).

(** Where the next element of the merge comes from: true for [p]. *)
Definition from_p (p q psize qsize : Z) : M (world T) bool :=
  if psize =? 0 then mret false
  else if (qsize =? 0) || negb (truthy q) then mret true
  else
    hp ← rd p; hq ← rd q;
    r ← cmp (info hp) (info hq);
    mret (r <=? 0).

(** The merge of the [psize] elements at [p] with up to [qsize] at [q]. *)
Fixpoint merge (fuel : nat) (p q psize qsize : Z) (lt : Z * Z) : M (world T) (Z * (Z * Z)) :=
  match fuel with
  | O => fun _ => None
  | S f =>
      if (0 <? psize) || ((0 <? qsize) && truthy q) then
        b ← from_p p q psize qsize;
        if b : bool then
          h ← rd p;
          lt ← link p lt;
          merge f (next h) q (s32 (psize - 1)) qsize lt
        else
          h ← rd q;
          lt ← link q lt;
          merge f p (next h) psize (s32 (qsize - 1)) lt
      else mret (q, lt)
  end.

(** One pass: [(nmerges, (list, tail))]. *)
Fixpoint merge_pass (fuel : nat) (insize p nmerges : Z) (lt : Z * Z) : M (world T) (Z * (Z * Z)) :=
  match fuel with
  | O => fun _ => None
  | S f =>
      if truthy p then
        let nmerges := s32 (nmerges + 1) in
        '(psize, q) ← step_along fuel insize 0 0 p;
        '(q, lt) ← merge fuel p q psize insize lt;
        merge_pass f insize q nmerges lt
      else mret (nmerges, lt)
  end.

Fixpoint sort_passes (passes fuel : nat) (insize list : Z) : M (world T) Z :=
  match passes with
  | O => fun _ => None
  | S n =>
      '(nmerges, (list, tail)) ← merge_pass fuel insize list 0 (0, 0);
      _ ← wr_next tail 0;
      if nmerges <=? 1 then mret list else sort_passes n fuel (s32 (insize * 2)) list
  end.

Definition core_list_mergesort (fuel : nat) (list : Z) : M (world T) Z :=
  sort_passes fuel fuel 1 list.
End Ops.

(** ** Lists in the heap *)

(** The cells [l], in order, from the pointer [p] to the pointer [q]. *)
Fixpoint path (h : gmap Z list_head) (p : Z) (l : list Z) (q : Z) : Prop :=
  match l with
  | [] => p = q
  | x :: l' => p = x /\ x <> 0 /\ exists c, h !! x = Some c /\ path h (next c) l' q
  end.

Lemma path_app (h : gmap Z list_head) (p q : Z) (l1 l2 : list Z) :
  path h p (l1 ++ l2) q <-> exists m, path h p l1 m /\ path h m l2 q.
Proof.
  revert p. induction l1 as [|x l1 IH]; intros p; cbn [app path].
  { split; [intros; by exists p|by intros (m & -> & ?)]. }
  split.
  - intros (-> & Hx & c & Hc & (m & H1 & H2)%IH). exists m.
    split; [split_and!; [done..|by exists c]|done].
  - intros (m & (-> & Hx & c & Hc & H1) & H2). split_and!; [done..|].
    exists c. split; [done|]. apply IH. eauto.
Qed.

(** A path depends only on its own cells. *)
Lemma path_ext (h h' : gmap Z list_head) (p q : Z) (l : list Z) :
  (forall x, x ∈ l -> h' !! x = h !! x) -> path h p l q -> path h' p l q.
Proof.
  revert p. induction l as [|x l IH]; intros p E; cbn; [done|].
  intros (-> & Hx & c & Hc & Hl). split_and!; [done..|]. exists c.
  split; [rewrite E; [done|left]|]. apply IH; [|done]. intros y Hy. apply E. by right.
Qed.

Lemma path_insert (h : gmap Z list_head) (p q x : Z) (c : list_head) (l : list Z) :
  x ∉ l -> path h p l q -> path (<[x := c]> h) p l q.
Proof.
  intros Hx. apply path_ext. intros y Hy. apply lookup_insert_ne. intros ->. done.
Qed.

Lemma path_elem (h : gmap Z list_head) (p q x : Z) (l : list Z) :
  path h p l q -> x ∈ l -> x <> 0 /\ is_Some (h !! x).
Proof.
  revert p. induction l as [|y l IH]; intros p; cbn; [by intros _ ?%elem_of_nil|].
  intros (-> & Hy & c & Hc & Hl) [->|Hx]%elem_of_cons; [eauto|]. by eapply IH.
Qed.

(** The list is empty exactly when the pointer is NULL. *)
Lemma path_null (h : gmap Z list_head) (p : Z) (l : list Z) :
  path h p l 0 -> truthy p = negb (bool_decide (l = [])).
Proof.
  destruct l as [|x l]; cbn; [by intros ->|]. intros (-> & Hx & _).
  unfold truthy. by destruct (Z.eqb_spec x 0).
Qed.

Lemma path_cons_inv (h : gmap Z list_head) (p x q : Z) (l : list Z) :
  path h p (x :: l) q -> p = x /\ truthy x = true /\
    exists c, h !! x = Some c /\ path h (next c) l q.
Proof.
  cbn. intros (-> & Hx & Hc). split_and!; [done| |done]. unfold truthy.
  by destruct (Z.eqb_spec x 0).
Qed.

(** Taking the cell after [x] out of the list, and putting a cell behind the
    head. *)
Lemma path_unlink (h : gmap Z list_head) (p q x f : Z) (l m : list Z) (cx cf : list_head) :
  path h p (l ++ x :: f :: m) q -> NoDup (l ++ x :: f :: m) ->
  h !! x = Some cx -> h !! f = Some cf ->
  path (<[x := mk_head (next cf) (info cx)]> h) p (l ++ x :: m) q.
Proof.
  intros Hp Hnd Hx Hf. apply path_app in Hp as (r & H1 & -> & Hx0 & c & Hc & _ & Hf0 & c' & Hc' & H2).
  apply NoDup_app in Hnd as (_ & Hd & Hnd). apply NoDup_cons in Hnd as [Hxm Hnd].
  apply not_elem_of_cons in Hxm as [_ Hxm]. rewrite Hf in Hc'. injection Hc' as <-.
  apply path_app. exists x. split.
  - apply path_insert; [|done]. intros Hxl. apply (Hd _ Hxl). left.
  - cbn. split_and!; [done|done|]. eexists. split; [apply lookup_insert_eq|]. by apply path_insert.
Qed.

Lemma path_insert_second (h : gmap Z list_head) (p q a f : Z) (l : list Z) (ca cf : list_head) :
  path h p (a :: l) q -> NoDup (f :: a :: l) -> f <> 0 -> h !! a = Some ca ->
  path (<[a := mk_head f (info ca)]> (<[f := mk_head (next ca) (info cf)]> h)) p (a :: f :: l) q.
Proof.
  intros (-> & Ha0 & c & Hc & Hl) Hnd Hf0 Ha. rewrite Ha in Hc. injection Hc as <-.
  apply NoDup_cons in Hnd as [Hf Hnd]. apply NoDup_cons in Hnd as [Hal _].
  apply not_elem_of_cons in Hf as [Hfa Hfl]. cbn. split_and!; [done|done|].
  eexists. split; [apply lookup_insert_eq|]. cbn. split_and!; [done|done|].
  eexists. split; [by rewrite lookup_insert_ne, lookup_insert_eq|]. by apply path_insert, path_insert.
Qed.

(** The cells of a list are determined by its order and the item pointers. *)
Lemma path_same (h h' : gmap Z list_head) (p p' q x : Z) (l : list Z) :
  path h p l q -> path h' p' l q -> (forall y, info <$> h' !! y = info <$> h !! y) ->
  x ∈ l -> h' !! x = h !! x.
Proof.
  revert p p'. induction l as [|y l IH]; intros p p'; [by intros _ _ _ ?%elem_of_nil|].
  intros (-> & _ & c & Hc & Hl) (_ & _ & c' & Hc' & Hl') Hi [->|Hx]%elem_of_cons.
  - specialize (Hi y). rewrite Hc, Hc' in *. cbn in Hi. injection Hi as Hi.
    assert (next c = next c') as Hn.
    { destruct l as [|z l]; cbn in Hl, Hl'; [congruence|].
      destruct Hl as [E _], Hl' as [E' _]. congruence. }
    destruct c, c'; cbn in *. congruence.
  - by eapply IH.
Qed.

(** Two heaps with the same cells and the same item pointers. *)
Definition same_info (h h' : gmap Z list_head) : Prop :=
  forall x, info <$> h' !! x = info <$> h !! x.

#[export] Instance same_info_equiv : Equivalence same_info.
Proof.
  split; unfold same_info; [done|intros ?? E x; by rewrite E|].
  intros ??? E1 E2 x. by rewrite E2, E1.
Qed.

Lemma same_info_next (h : gmap Z list_head) (p v : Z) (c : list_head) :
  h !! p = Some c -> same_info h (<[p := mk_head v (info c)]> h).
Proof.
  intros Hc x. destruct (decide (x = p)) as [->|]; [by rewrite lookup_insert_eq, Hc|].
  by rewrite lookup_insert_ne.
Qed.

Section Run.
Context {T : Type}.
Implicit Types w : world T.

Lemma rd_run (w : world T) (p : Z) (c : list_head) : heads w !! p = Some c -> rd p w = Some (c, w).
Proof. unfold rd. by intros ->. Qed.

Lemma rd_data_run (w : world T) (p : Z) (d : list_data) :
  datas w !! p = Some d -> rd_data p w = Some (d, w).
Proof. unfold rd_data. by intros ->. Qed.

Lemma wr_run (w : world T) (p : Z) (f : list_head -> list_head) (c : list_head) :
  heads w !! p = Some c -> wr p f w = Some ((), set_heads (<[p := f c]> (heads w)) w).
Proof. intros Hc. unfold wr. by rewrite (M_bind_Some _ _ _ _ _ (rd_run w p c Hc)). Qed.

Lemma wr_data_run (w : world T) (p : Z) (f : list_data -> list_data) (d : list_data) :
  datas w !! p = Some d -> wr_data p f w = Some ((), set_datas (<[p := f d]> (datas w)) w).
Proof. intros Hd. unfold wr_data. by rewrite (M_bind_Some _ _ _ _ _ (rd_data_run w p d Hd)). Qed.

Lemma set_heads_id (w : world T) : set_heads (heads w) w = w.
Proof. by destruct w. Qed.

(** ** Find and reverse *)

(** The item of a cell. *)
Definition item (w : world T) (x : Z) : option list_data :=
  c ← heads w !! x; datas w !! info c.

Definition items_valid (w : world T) (l : list Z) : Prop := forall x, x ∈ l -> is_Some (item w x).

Lemma find_while_spec (fuel : nat) (test : list_data -> bool) (w : world T) (p : Z) (l : list Z) :
  path (heads w) p l 0 -> items_valid w l -> (length l < fuel)%nat ->
  exists r, find_while fuel test p w = Some (r, w) /\
    exists l1 l2, l = l1 ++ l2 /\ path (heads w) r l2 0 /\
      (forall x d, x ∈ l1 -> item w x = Some d -> test d = true) /\
      match l2 with
      | [] => r = 0
      | x :: _ => r = x /\ exists d, item w x = Some d /\ test d = false
      end.
Proof.
  intros Hp Hv. unfold find_while. revert p l Hp Hv. induction fuel as [|f IH]; intros p l Hp Hv Hf; [lia|].
  cbn [while_M]. destruct l as [|x l].
  { cbn in Hp. subst p. cbn. exists 0. split; [done|]. exists [], []. split_and!; try done.
    intros ?? []%elem_of_nil. }
  pose proof Hp as Hp0. apply path_cons_inv in Hp as (-> & Hx & c & Hc & Hl). rewrite Hx.
  destruct (Hv x) as [d Hd]; [left|]. pose proof Hd as Hd0. unfold item in Hd0. rewrite Hc in Hd0. cbn in Hd0.
  rewrite M_bind_assoc, (M_bind_Some _ _ _ _ _ (rd_run w x c Hc)), M_bind_assoc.
  rewrite (M_bind_Some _ _ _ _ _ (rd_data_run w _ d Hd0)), M_ret_bind.
  destruct (test d) eqn:Ht.
  - rewrite M_bind_assoc, (M_bind_Some _ _ _ _ _ (rd_run w x c Hc)), M_ret_bind.
    destruct (IH (next c) l Hl) as (r & Hr & l1 & l2 & -> & Hp2 & H1 & H2).
    { intros y Hy. apply Hv. by right. }
    { cbn in Hf. lia. }
    exists r. split; [done|]. exists (x :: l1), l2. split_and!; [done|done| |done].
    intros y e [->|Hy]%elem_of_cons He; [congruence|by eapply H1].
  - exists x. split; [done|]. exists [], (x :: l).
    split_and!; [done|done|intros ?? []%elem_of_nil|done|by exists d].
Qed.

(** Same cells, same items, opposite order. *)
Lemma core_list_reverse_run (fuel : nat) (w : world T) (p : Z) (l : list Z) :
  path (heads w) p l 0 -> NoDup l -> (length l < fuel)%nat ->
  exists r h', core_list_reverse fuel p w = Some (r, set_heads h' w) /\
    path h' r (rev l) 0 /\ same_info (heads w) h' /\ forall x, x ∉ l -> h' !! x = heads w !! x.
Proof.
  intros Hp Hnd Hf.
  assert (forall fuel w p l nxt acc, path (heads w) p l 0 -> path (heads w) nxt acc 0 ->
    NoDup (l ++ acc) -> (length l < fuel)%nat ->
    exists r h', while_M fuel (fun '(list, _) => mret (truthy list))
         (fun '(list, nxt) => h ← rd list; let tmp := next h in
            _ ← wr_next list nxt; mret (tmp, list)) (p, nxt) w = Some ((0, r), set_heads h' w) /\
      path h' r (rev l ++ acc) 0 /\ same_info (heads w) h' /\
      forall x, x ∉ l -> h' !! x = heads w !! x) as Hloop.
  { clear. induction fuel as [|f IH]; intros w p l nxt acc Hp Hq Hnd Hf; [lia|].
    cbn [while_M]. rewrite M_ret_bind, (path_null _ _ _ Hp).
    destruct l as [|x l]; cbn [negb bool_decide].
    { cbn in Hp. subst p. exists nxt, (heads w). rewrite set_heads_id. done. }
    case_bool_decide; [done|]. cbn [negb].
    apply path_cons_inv in Hp as (-> & Hx & c & Hc & Hl).
    cbn [app] in Hnd. apply NoDup_cons in Hnd as [Hxl Hnd].
    apply not_elem_of_app in Hxl as [Hxl Hxd].
    rewrite M_bind_assoc, (M_bind_Some _ _ _ _ _ (rd_run w x c Hc)). cbv zeta.
    unfold wr_next. rewrite M_bind_assoc, (M_bind_Some _ _ _ _ _ (wr_run w x _ c Hc)), M_ret_bind.
    set (h1 := <[x := mk_head nxt (info c)]> (heads w)).
    destruct (IH (set_heads h1 w) (next c) l x (x :: acc)) as (r & h' & Hr & Hp' & Hi & Hk).
    - apply path_insert; done.
    - cbn. split_and!; [done|unfold truthy in Hx; by destruct (Z.eqb_spec x 0)|].
      exists (mk_head nxt (info c)). split; [apply lookup_insert_eq|]. by apply path_insert.
    - eapply NoDup_Permutation_proper; [symmetry; apply Permutation_middle|].
      apply NoDup_cons. split; [by apply not_elem_of_app|done].
    - cbn in Hf. lia.
    - exists r, h'. split_and!; [done| | |].
      + cbn [rev]. by rewrite <-app_assoc.
      + etransitivity; [by apply (same_info_next _ x nxt c)|]. exact Hi.
      + intros y [Hne Hy]%not_elem_of_cons. rewrite Hk by done. cbn. by apply lookup_insert_ne. }
  destruct (Hloop fuel w p l 0 []) as (r & h' & Hr & Hp' & Hi & Hk);
    [done|done|by rewrite app_nil_r|done|].
  exists r, h'. unfold core_list_reverse. rewrite (M_bind_Some _ _ _ _ _ Hr).
  rewrite app_nil_r in Hp'. done.
Qed.

Lemma path_head_unique (h h' : gmap Z list_head) (p p' : Z) (l : list Z) :
  path h p l 0 -> path h' p' l 0 -> p = p'.
Proof. destruct l as [|x l]; cbn; [congruence|]. by intros [-> _] [-> _]. Qed.

(** [core_list_reverse] terminates and reverses the list in place, and
    reversing the result gives back exactly the original list and memory. *)
Theorem core_list_reverse_involutive (fuel : nat) (w : world T) (p : Z) (l : list Z) :
  path (heads w) p l 0 -> NoDup l -> (length l < fuel)%nat ->
  exists r w', core_list_reverse fuel p w = Some (r, w') /\ path (heads w') r (rev l) 0 /\
    core_list_reverse fuel r w' = Some (p, w).
Proof.
  intros Hp Hnd Hf.
  destruct (core_list_reverse_run fuel w p l Hp Hnd Hf) as (r & h & Hr & Hp' & Hi & Hk).
  destruct (core_list_reverse_run fuel (set_heads h w) r (rev l)) as (r2 & h2 & Hr2 & Hp2 & Hi2 & Hk2).
  { exact Hp'. }
  { by rewrite <-Permutation_rev. }
  { by rewrite length_rev. }
  exists r, (set_heads h w). split_and!; [done|done|]. rewrite Hr2. rewrite rev_involutive in Hp2.
  do 2 f_equal; [by eapply path_head_unique|]. destruct w as [hw dw ew]. unfold set_heads. cbn in *. f_equal.
  apply map_eq. intros x. destruct (decide (x ∈ l)) as [Hx|Hx].
  - eapply path_same; [exact Hp|exact Hp2| |done]. intros y. by rewrite (Hi2 y), (Hi y).
  - rewrite Hk2, Hk; [done|done|by rewrite <-Permutation_rev].
Qed.

(** ** Remove, undo, insert *)

Lemma core_list_remove_run (w : world T) (x y : Z) (cx cy : list_head) :
  heads w !! x = Some cx -> next cx = y -> heads w !! y = Some cy -> x <> y ->
  core_list_remove x w = Some (y, set_heads
    (<[y := mk_head 0 (info cx)]> (<[x := mk_head (next cy) (info cy)]> (heads w))) w).
Proof.
  intros Hx Hn Hy Hne. unfold core_list_remove.
  rewrite (M_bind_Some _ _ _ _ _ (rd_run w x cx Hx)). cbv zeta. rewrite Hn.
  rewrite (M_bind_Some _ _ _ _ _ (rd_run w y cy Hy)).
  unfold wr_info, wr_next. rewrite (M_bind_Some _ _ _ _ _ (wr_run w x _ cx Hx)).
  set (w1 := set_heads _ w).
  assert (heads w1 !! y = Some cy) as Hy1 by (cbn; by rewrite lookup_insert_ne).
  rewrite (M_bind_Some _ _ _ _ _ (wr_run w1 y _ cy Hy1)). set (w2 := set_heads _ w1).
  assert (heads w2 !! x = Some (mk_head y (info cy))) as Hx2.
  { cbn. rewrite lookup_insert_ne, lookup_insert_eq by done. by rewrite Hn. }
  rewrite (M_bind_Some _ _ _ _ _ (rd_run w2 x _ Hx2)). cbn [next].
  assert (heads w2 !! y = Some (mk_head (next cy) (info cx))) as Hy2 by (cbn; by rewrite lookup_insert_eq).
  rewrite (M_bind_Some _ _ _ _ _ (rd_run w2 y _ Hy2)). cbn [next].
  rewrite (M_bind_Some _ _ _ _ _ (wr_run w2 x _ _ Hx2)). set (w3 := set_heads _ w2).
  assert (heads w3 !! y = Some (mk_head (next cy) (info cx))) as Hy3.
  { cbn. by rewrite lookup_insert_ne, lookup_insert_eq. }
  rewrite (M_bind_Some _ _ _ _ _ (wr_run w3 y _ _ Hy3)). unfold mret, M_ret. do 2 f_equal.
  unfold w3, w2, w1, set_heads. cbn. f_equal. apply map_eq. intros z.
  destruct (decide (z = y)) as [->|]; [by rewrite !lookup_insert_eq|].
  destruct (decide (z = x)) as [->|];
    repeat (rewrite lookup_insert_eq || rewrite lookup_insert_ne by done); done.
Qed.

Lemma core_list_undo_remove_run (w : world T) (x y : Z) (cx cy : list_head) :
  heads w !! x = Some cx -> heads w !! y = Some cy -> x <> y ->
  core_list_undo_remove y x w = Some (y, set_heads
    (<[x := mk_head y (info cy)]> (<[y := mk_head (next cx) (info cx)]> (heads w))) w).
Proof.
  intros Hx Hy Hne. unfold core_list_undo_remove, wr_info, wr_next.
  rewrite (M_bind_Some _ _ _ _ _ (rd_run w y cy Hy)). cbv zeta.
  rewrite (M_bind_Some _ _ _ _ _ (rd_run w x cx Hx)).
  rewrite (M_bind_Some _ _ _ _ _ (wr_run w y _ cy Hy)). set (w1 := set_heads _ w).
  assert (heads w1 !! x = Some cx) as Hx1 by (cbn; by rewrite lookup_insert_ne).
  rewrite (M_bind_Some _ _ _ _ _ (wr_run w1 x _ cx Hx1)). set (w2 := set_heads _ w1).
  assert (heads w2 !! x = Some (mk_head (next cx) (info cy))) as Hx2 by (cbn; by rewrite lookup_insert_eq).
  rewrite (M_bind_Some _ _ _ _ _ (rd_run w2 x _ Hx2)). cbn [next].
  assert (heads w2 !! y = Some (mk_head (next cy) (info cx))) as Hy2.
  { cbn. by rewrite lookup_insert_ne, lookup_insert_eq. }
  rewrite (M_bind_Some _ _ _ _ _ (wr_run w2 y _ _ Hy2)). set (w3 := set_heads _ w2).
  assert (heads w3 !! x = Some (mk_head (next cx) (info cy))) as Hx3.
  { cbn. by rewrite lookup_insert_ne, lookup_insert_eq. }
  rewrite (M_bind_Some _ _ _ _ _ (wr_run w3 x _ _ Hx3)). unfold mret, M_ret. do 2 f_equal.
  unfold w3, w2, w1, set_heads. cbn. f_equal. apply map_eq. intros z.
  destruct (decide (z = x)) as [->|]; [by rewrite !lookup_insert_eq|].
  destruct (decide (z = y)) as [->|];
    repeat (rewrite lookup_insert_eq || rewrite lookup_insert_ne by done); done.
Qed.

(** [core_list_remove] takes the element after which it is called out of
    the list (the cell keeps its place and takes over the next cell's item), and
    [core_list_undo_remove] puts everything back: the two are inverse, even if
    the items' contents changed in between. *)
Theorem core_list_remove_undo (w : world T) (x y : Z) (l : list Z) (d : gmap Z list_data) :
  path (heads w) x (x :: y :: l) 0 -> NoDup (x :: y :: l) ->
  exists w', core_list_remove x w = Some (y, w') /\
    path (heads w') x (x :: l) 0 /\ path (heads w') y [y] 0 /\
    info <$> heads w' !! x = info <$> heads w !! y /\
    info <$> heads w' !! y = info <$> heads w !! x /\
    core_list_undo_remove y x (set_datas d w') = Some (y, set_datas d w).
Proof.
  intros (_ & Hx0 & cx & Hx & Hn & Hy0 & cy & Hy & Hl) Hnd. destruct cx as [nx ix]. cbn in Hn. subst nx.
  apply NoDup_cons in Hnd as [Hxy Hnd]. apply NoDup_cons in Hnd as [Hyl Hnd].
  apply not_elem_of_cons in Hxy as [Hne Hxl].
  eexists. split; [by apply (core_list_remove_run w x y (mk_head y ix) cy)|]. cbn [heads].
  assert (forall p l q c1 c2, x ∉ l -> y ∉ l -> path (heads w) p l q ->
    path (<[y := c1]> (<[x := c2]> (heads w))) p l q) as Hp.
  { intros. by apply path_insert, path_insert. }
  split_and!.
  - cbn [path heads set_heads]. split_and!; [done|done|]. eexists.
    split; [by rewrite lookup_insert_ne, lookup_insert_eq|]. by apply Hp.
  - cbn [path heads set_heads]. split_and!; [done|done|]. eexists.
    split; [by rewrite lookup_insert_eq|done].
  - cbn [heads set_heads]. by rewrite lookup_insert_ne, lookup_insert_eq, Hy.
  - cbn [heads set_heads]. by rewrite lookup_insert_eq, Hx.
  - rewrite (core_list_undo_remove_run _ x y (mk_head (next cy) (info cy)) (mk_head 0 ix));
      [|cbn [heads set_heads set_datas]; by rewrite lookup_insert_ne, lookup_insert_eq
       |cbn [heads set_heads set_datas]; by rewrite lookup_insert_eq|done].
    cbn. unfold set_heads, set_datas. cbn. do 3 f_equal. apply map_eq. intros z.
    destruct (decide (z = x)) as [->|]; [by rewrite lookup_insert_eq, Hx|].
    rewrite lookup_insert_ne by done.
    destruct (decide (z = y)) as [->|]; [rewrite lookup_insert_eq, Hy; by destruct cy|].
    by rewrite !lookup_insert_ne.
Qed.
End Run.

(** ** The mergesort is correct *)

(** The merged list so far: empty, or the cells from [list] to [tail], whose
    [next] is not yet set. *)
Definition merged (h : gmap Z list_head) (lt : Z * Z) (l : list Z) : Prop :=
  (l = [] /\ lt = (0, 0)) \/
  (exists l0, l = l0 ++ [lt.2] /\ path h lt.1 l0 lt.2 /\ lt.2 <> 0 /\ is_Some (h !! lt.2)).

(** What a comparison function promises the sort.  [le w] is the order on
    cells that it has established in the world [w], [touched w] the cells it has
    looked at; [ext] says how it may change the world. *)
Record CmpSpec {T : Type} (cmp : Z -> Z -> M (world T) Z) (nodes : Z -> Prop)
    (before : Z -> Z -> Prop) (ok : world T -> Prop) (ext : world T -> world T -> Prop)
    (le : world T -> Z -> Z -> Prop) (touched : world T -> Z -> Prop) : Prop := {
  ext_preorder : PreOrder ext;
  ext_le : forall w w' a b, ext w w' -> le w a b -> le w' a b;
  ext_touched : forall w w' a, ext w w' -> touched w a -> touched w' a;
  le_trans : forall w a b c, le w a b -> le w b c -> le w a c;
  ok_heads : forall w h', ok w -> same_info (heads w) h' ->
    ok (set_heads h' w) /\ ext w (set_heads h' w);
  cmp_run : forall w a b ca cb, ok w -> nodes a -> nodes b -> before a b ->
    heads w !! a = Some ca -> heads w !! b = Some cb ->
    exists r w', cmp (info ca) (info cb) w = Some (r, w') /\ ok w' /\ ext w w' /\
      heads w' = heads w /\ (r <= 0 -> le w' a b) /\ (0 < r -> le w' b a) /\
      touched w' a /\ touched w' b;
}.

Section Sort.
Context {T : Type} (cmp : Z -> Z -> M (world T) Z).
Context (nodes : Z -> Prop) (before : Z -> Z -> Prop).
Context (ok : world T -> Prop) (ext : world T -> world T -> Prop).
Context (le : world T -> Z -> Z -> Prop) (touched : world T -> Z -> Prop).
Context (spec : CmpSpec cmp nodes before ok ext le touched).
Implicit Types w : world T.

#[local] Instance ext_pre : PreOrder ext := ext_preorder _ _ _ _ _ _ _ spec.

Definition sorted (w : world T) (l : list Z) : Prop := StronglySorted (le w) l.

Lemma sorted_ext (w w' : world T) (l : list Z) : ext w w' -> sorted w l -> sorted w' l.
Proof.
  intros He. induction 1 as [|x l Hs IH Hf]; constructor; [done|].
  eapply Forall_impl; [exact Hf|]. cbn. intros y. by apply (ext_le _ _ _ _ _ _ _ spec).
Qed.

(** What every step of the sort does to the world. *)
Definition evolves (mine : list Z) (w w' : world T) : Prop :=
  ok w' /\ ext w w' /\ same_info (heads w) (heads w') /\
  forall x, x ∉ mine -> heads w' !! x = heads w !! x.

Lemma merge_evolves_trans (mine mine' : list Z) (w1 w2 w3 : world T) :
  (forall x, x ∈ mine -> x ∈ mine') ->
  evolves mine w1 w2 -> evolves mine' w2 w3 -> evolves mine' w1 w3.
Proof.
  intros Hm (H1 & H2 & H3 & H4) (H1' & H2' & H3' & H4').
  split_and!; [done|by etransitivity|by etransitivity|].
  intros x Hx. rewrite H4', H4; [done| |done]. by intros ?%Hm.
Qed.

(** Linking an element behind the merged list. *)
Lemma merge_evolves_refl (mine : list Z) (w : world T) : ok w -> evolves mine w w.
Proof. intros Hok. split_and!; done. Qed.

Lemma link_run (w : world T) (lt : Z * Z) (l : list Z) (e : Z) :
  ok w -> merged (heads w) lt l -> NoDup l -> e ∉ l -> e <> 0 -> is_Some (heads w !! e) ->
  exists lt' w', link e lt w = Some (lt', w') /\ merged (heads w') lt' (l ++ [e]) /\ evolves l w w'.
Proof.
  intros Hok [[-> ->]|(l0 & -> & Hp & Ht0 & [c Hc])] Hnd Hel He0 He; unfold link.
  - cbn. eexists _, w. split; [done|]. split; [|by apply merge_evolves_refl].
    right. exists []. by split_and!.
  - destruct lt as [list tail]. cbn [fst snd] in *. unfold truthy.
    destruct (Z.eqb_spec tail 0); [done|]. cbn [negb].
    unfold wr_next. rewrite (M_bind_Some _ _ _ _ _ (wr_run w tail _ c Hc)).
    eexists _, _. split; [done|].
    assert (tail <> e) as Hte by (intros ->; apply Hel, elem_of_app; right; left).
    apply NoDup_app in Hnd as (_ & Hnd & _).
    assert (tail ∉ l0) as Htl by (intros Hx; apply (Hnd _ Hx); left).
    destruct (ok_heads _ _ _ _ _ _ _ spec w _ Hok (same_info_next (heads w) tail e c Hc)) as [Ho Hx].
    split; [|split; [done|split; [done|split; [by apply same_info_next|]]]].
    + right. exists (l0 ++ [tail]). split; [done|]. cbn [fst snd heads set_heads]. split_and!; [|done|].
      * apply path_app. exists tail. split; [by apply path_insert|].
        cbn. split_and!; [done|done|]. eexists. split; [apply lookup_insert_eq|done].
      * by rewrite lookup_insert_ne.
    + intros x Hx0. cbn. apply lookup_insert_ne. intros <-. apply Hx0, elem_of_app. right; left.
Qed.

(** The two runs being merged: [A] from [p], then [B] (at most [qsize] cells)
    and the rest [R] of the list from [q]. *)
Definition runs (h : gmap Z list_head) (p q psize qsize : Z) (A B R : list Z) : Prop :=
  (exists x, path h p A x) /\ path h q (B ++ R) 0 /\
  psize = Z.of_nat (length A) /\ Z.of_nat (length B) <= qsize /\
  (Z.of_nat (length B) = qsize \/ R = []).

Lemma runs_frame (h h' : gmap Z list_head) (p q psize qsize : Z) (A B R : list Z) :
  (forall x, x ∈ A ++ B ++ R -> h' !! x = h !! x) ->
  runs h p q psize qsize A B R -> runs h' p q psize qsize A B R.
Proof.
  intros E ([x Hx] & Hq & Hr). split_and!; try apply Hr.
  - exists x. eapply path_ext; [|exact Hx]. intros y Hy. apply E, elem_of_app. by left.
  - eapply path_ext; [|exact Hq]. intros y Hy. apply E, elem_of_app. by right.
Qed.

(** A merge in progress. [P] are the cells of the earlier merges of the pass,
    [D] those of this one. *)
Record merging (w : world T) (lt : Z * Z) (p q psize qsize : Z) (P D A B R : list Z) : Prop := {
  m_ok : ok w;
  m_nodup : NoDup (P ++ D ++ A ++ B ++ R);
  m_nodes : Forall nodes (A ++ B);
  m_merged : merged (heads w) lt (P ++ D);
  m_runs : runs (heads w) p q psize qsize A B R;
  m_before : forall a b, a ∈ A -> b ∈ B -> before a b;
  m_sorted : sorted w (D ++ A) /\ sorted w (D ++ B);
}.

(** Taking [e] from the front of a run. *)
Lemma take_run (w : world T) (lt : Z * Z) (P D rest : list Z) (e : Z) :
  ok w -> merged (heads w) lt (P ++ D) -> NoDup (P ++ D ++ e :: rest) ->
  e <> 0 -> is_Some (heads w !! e) ->
  exists lt' w', link e lt w = Some (lt', w') /\ merged (heads w') lt' (P ++ D ++ [e]) /\
    evolves (P ++ D) w w' /\ (forall x, x ∈ e :: rest -> heads w' !! x = heads w !! x).
Proof.
  intros Hok Hm Hnd He0 He. rewrite app_assoc in Hnd. apply NoDup_app in Hnd as (Hpd & Hdis & _).
  destruct (link_run w lt (P ++ D) e) as (lt' & w' & Hl & Hm' & Hev); [done|done|done| |done|done|].
  { intros Hx. apply (Hdis _ Hx). left. }
  exists lt', w'. rewrite app_assoc. split_and!; [done|done|done|].
  intros x Hx. apply Hev. intros Hx'. by apply (Hdis _ Hx').
Qed.

Lemma sorted_app_inv (w : world T) (l1 l2 : list Z) :
  sorted w (l1 ++ l2) -> sorted w l1 /\ sorted w l2.
Proof.
  unfold sorted. induction l1 as [|x l1 IH]; cbn; [split; [constructor|done]|].
  intros [Hs Hf]%StronglySorted_inv. destruct (IH Hs) as [H1 H2]. split; [|done].
  constructor; [done|]. by apply Forall_app in Hf as [? _].
Qed.

(** Appending an element that is below all of [l2] and above all of [l1]. *)
Lemma sorted_insert (w : world T) (l1 l2 : list Z) (e : Z) :
  sorted w (l1 ++ [e]) -> sorted w (l1 ++ l2) -> Forall (le w e) l2 -> sorted w ((l1 ++ [e]) ++ l2).
Proof.
  unfold sorted. induction l1 as [|x l1 IH]; cbn; intros H1 H2 Hf; [by constructor|].
  apply StronglySorted_inv in H1 as [H1 F1]. apply StronglySorted_inv in H2 as [H2 F2].
  constructor; [by apply IH|]. apply Forall_app in F2 as [_ F2]. by apply Forall_app.
Qed.

Lemma sorted_head (w : world T) (D : list Z) (e : Z) (l : list Z) :
  sorted w (D ++ e :: l) -> sorted w (D ++ [e]) /\ Forall (le w e) l /\ sorted w (D ++ l).
Proof.
  intros Hs. replace (D ++ e :: l) with ((D ++ [e]) ++ l) in Hs by by rewrite <-app_assoc.
  pose proof Hs as Hs0. apply sorted_app_inv in Hs0 as [H1 _]. split; [done|].
  clear H1. induction D as [|x D IH]; cbn in *; apply StronglySorted_inv in Hs as [Hs Hf]; [done|].
  destruct (IH Hs) as [IH1 IH2]. split; [done|]. constructor; [done|].
  rewrite <-app_assoc in Hf. apply Forall_app in Hf as [F1 F2]. apply Forall_app. split; [done|].
  by apply Forall_inv_tail in F2.
Qed.

(** The comparisons have looked at every cell of a chunk of two or more. *)
Definition chunk_touched (w : world T) (A : list Z) : Prop :=
  length A = 1%nat \/ Forall (touched w) A.

Definition merge_touched (w : world T) (D A B : list Z) : Prop :=
  Forall (touched w) (D ++ A ++ B) \/
  (D = [] /\ A <> [] /\ B <> [] /\ chunk_touched w A /\ chunk_touched w B) \/
  (B = [] /\ chunk_touched w (D ++ A)).

Lemma Forall_touched_ext (w w' : world T) (l : list Z) :
  ext w w' -> Forall (touched w) l -> Forall (touched w') l.
Proof.
  intros He Hf. eapply Forall_impl; [exact Hf|]. intros x. by apply (ext_touched _ _ _ _ _ _ _ spec).
Qed.

Lemma chunk_touched_ext (w w' : world T) (l : list Z) :
  ext w w' -> chunk_touched w l -> chunk_touched w' l.
Proof. intros He [?|Hf]; [by left|right]. by eapply Forall_touched_ext. Qed.

Lemma chunk_touched_head (w : world T) (x : Z) (l : list Z) :
  touched w x -> chunk_touched w (x :: l) -> Forall (touched w) (x :: l).
Proof.
  intros Hx [Hl|Hf]; [|done]. destruct l; [|done]. by apply Forall_singleton.
Qed.

Lemma sorted_Forall (w : world T) (e x : Z) (l : list Z) :
  le w e x -> sorted w (x :: l) -> Forall (le w e) (x :: l).
Proof.
  intros Hle [_ Hf]%StronglySorted_inv. constructor; [done|].
  eapply Forall_impl; [exact Hf|]. cbn. intros y Hy. by eapply (le_trans _ _ _ _ _ _ _ spec).
Qed.

Lemma nil_length_eqb (l : list Z) : (Z.of_nat (length l) =? 0) = bool_decide (l = []).
Proof. by destruct l. Qed.

Lemma from_p_run (w : world T) (lt : Z * Z) (p q psize qsize : Z) (P D A B R : list Z) :
  merging w lt p q psize qsize P D A B R -> A ++ B <> [] ->
  exists b w1, from_p cmp p q psize qsize w = Some (b, w1) /\
    ok w1 /\ ext w w1 /\ heads w1 = heads w /\
    (b = true -> exists e A', A = e :: A' /\ Forall (le w1 e) B) /\
    (b = false -> exists e B', B = e :: B' /\ Forall (le w1 e) A) /\
    (A <> [] -> B <> [] -> chunk_touched w A -> chunk_touched w B -> Forall (touched w1) (A ++ B)).
Proof.
  intros [Hok _ Hno _ ([x Hx] & Hq & Hps & Hqs & HqR) Hbef [HsA HsB]] Hne. unfold from_p.
  rewrite Hps, nil_length_eqb. case_bool_decide as HA.
  { subst A. destruct B as [|e B]; [done|]. exists false, w. split_and!; try done. intros _.
    exists e, B. by split. }
  destruct A as [|a A]; [done|].
  assert ((qsize =? 0) || negb (truthy q) = bool_decide (B = [])) as ->.
  { rewrite (path_null _ _ _ Hq), negb_involutive. destruct B as [|b B]; cbn [app].
    - rewrite (bool_decide_eq_true_2 ([] = [])) by done.
      destruct HqR as [HqR| ->]; [|by rewrite orb_true_r]. by rewrite <-HqR.
    - rewrite !bool_decide_eq_false_2 by done. cbn in Hqs. by destruct (Z.eqb_spec qsize 0); [lia|]. }
  case_bool_decide as HB.
  { subst B. exists true, w. split_and!; try done. intros _. exists a, A. by split. }
  destruct B as [|b B]; [done|].
  apply path_cons_inv in Hx as (-> & _ & ca & Hca & _).
  cbn [app] in Hq. apply path_cons_inv in Hq as (-> & _ & cb & Hcb & _).
  rewrite (M_bind_Some _ _ _ _ _ (rd_run w a ca Hca)), (M_bind_Some _ _ _ _ _ (rd_run w b cb Hcb)).
  apply Forall_app in Hno as [HnA HnB].
  destruct (cmp_run _ _ _ _ _ _ _ spec w a b ca cb) as (r & w1 & Hr & Hok1 & He & Hh & Hle & Hgt & Ta & Tb);
    [done|by eapply Forall_inv|by eapply Forall_inv|apply Hbef; left|done|done|].
  rewrite (M_bind_Some _ _ _ _ _ Hr). exists (r <=? 0), w1.
  pose proof (sorted_ext _ _ _ He HsA) as HsA1. apply sorted_app_inv in HsA1 as [_ HsA1].
  pose proof (sorted_ext _ _ _ He HsB) as HsB1. apply sorted_app_inv in HsB1 as [_ HsB1].
  split_and!; try done.
  - intros Hb%Z.leb_le. exists a, A. split; [done|]. by apply sorted_Forall; [apply Hle|].
  - intros Hb%Z.leb_gt. exists b, B. split; [done|]. by apply sorted_Forall; [apply Hgt|].
  - intros _ _ HtA HtB. apply Forall_app.
    split; apply chunk_touched_head; [done|by eapply chunk_touched_ext|done|by eapply chunk_touched_ext].
Qed.

Lemma sorted_snoc (w : world T) (D A : list Z) (e : Z) :
  sorted w (D ++ e :: A) -> sorted w ((D ++ [e]) ++ A).
Proof. by rewrite <-app_assoc. Qed.

(** One iteration of the merge loop, on the run the element comes from. *)
Lemma merge_take_p (w w1 : world T) (lt : Z * Z) (p q psize qsize : Z) (P D A B R : list Z) (e : Z) :
  merging w lt p q psize qsize P D (e :: A) B R ->
  ok w1 -> ext w w1 -> heads w1 = heads w -> Forall (le w1 e) B ->
  exists c lt' w2, heads w1 !! p = Some c /\ link p lt w1 = Some (lt', w2) /\
    merging w2 lt' (next c) q (psize - 1) qsize P (D ++ [e]) A B R /\
    ext w1 w2 /\ evolves (P ++ D) w w2.
Proof.
  intros [Hok Hnd Hno Hm Hruns Hbef [HsA HsB]] Hok1 He Hh Hle.
  pose proof Hruns as ([x Hx] & Hq & Hps & Hqs & HqR).
  apply path_cons_inv in Hx as (-> & He0 & c & Hc & Hx). rewrite <-Hh in *.
  assert (NoDup (P ++ D ++ e :: A ++ B ++ R)) as Hnd' by done.
  destruct (take_run w1 lt P D (A ++ B ++ R) e) as (lt' & w2 & Hl & Hm' & Hev & Hfr);
    [done|done|done|by (intros ->)|by exists c|].
  assert (ext w1 w2) as He2 by apply Hev.
  pose proof (sorted_ext _ _ _ He HsA) as HsA1. pose proof (sorted_ext _ _ _ He HsB) as HsB1.
  exists c, lt', w2. split_and!; [done|done| |done|].
  - split.
    + apply Hev.
    + rewrite <-!app_assoc in *. exact Hnd.
    + by apply Forall_inv_tail in Hno.
    + exact Hm'.
    + eapply (runs_frame (heads w1)); [intros y Hy; apply Hfr; by right|].
      split_and!; [by exists x|done|cbn in Hps; lia|done|done].
    + intros a b Ha Hb. apply Hbef; [by right|done].
    + split; apply (sorted_ext w1); try done; [by apply sorted_snoc|].
      apply sorted_insert; [|done|done]. by apply sorted_head in HsA1 as [? _].
  - destruct Hev as (? & ? & Hi & Hout). rewrite Hh in Hi, Hout. split_and!; [done|by etransitivity|done|done].
Qed.

Lemma merge_take_q (w w1 : world T) (lt : Z * Z) (p q psize qsize : Z) (P D A B R : list Z) (e : Z) :
  merging w lt p q psize qsize P D A (e :: B) R ->
  ok w1 -> ext w w1 -> heads w1 = heads w -> Forall (le w1 e) A ->
  exists c lt' w2, heads w1 !! q = Some c /\ link q lt w1 = Some (lt', w2) /\
    merging w2 lt' p (next c) psize (qsize - 1) P (D ++ [e]) A B R /\
    ext w1 w2 /\ evolves (P ++ D) w w2.
Proof.
  intros [Hok Hnd Hno Hm Hruns Hbef [HsA HsB]] Hok1 He Hh Hle.
  pose proof Hruns as ([x Hx] & Hq & Hps & Hqs & HqR).
  cbn [app] in Hq. apply path_cons_inv in Hq as (-> & He0 & c & Hc & Hq). rewrite <-Hh in *.
  assert (P ++ D ++ e :: A ++ B ++ R ≡ₚ P ++ D ++ A ++ (e :: B) ++ R) as Hperm.
  { cbn [app]. apply Permutation_app_head, Permutation_app_head, Permutation_middle. }
  assert (NoDup (P ++ D ++ e :: A ++ B ++ R)) as Hnd' by (eapply NoDup_Permutation_proper; [exact Hperm|done]).
  destruct (take_run w1 lt P D (A ++ B ++ R) e) as (lt' & w2 & Hl & Hm' & Hev & Hfr);
    [done|done|done|by (intros ->)|by exists c|].
  assert (ext w1 w2) as He2 by apply Hev.
  pose proof (sorted_ext _ _ _ He HsA) as HsA1. pose proof (sorted_ext _ _ _ He HsB) as HsB1.
  exists c, lt', w2. split_and!; [done|done| |done|].
  - split.
    + apply Hev.
    + by rewrite <-!app_assoc in *.
    + apply Forall_app in Hno as [? ?%Forall_inv_tail]. by apply Forall_app.
    + exact Hm'.
    + eapply (runs_frame (heads w1)); [intros y Hy; apply Hfr; by right|].
      split_and!; [by exists x|done|done|cbn in Hqs; lia|].
      destruct HqR as [HqR|]; [left; cbn in HqR; lia|by right].
    + intros a b Ha Hb. apply Hbef; [done|by right].
    + split; apply (sorted_ext w1); try done; [|by apply sorted_snoc].
      apply sorted_insert; [|done|done]. by apply sorted_head in HsB1 as [? _].
  - destruct Hev as (? & ? & Hi & Hout). rewrite Hh in Hi, Hout. split_and!; [done|by etransitivity|done|done].
Qed.

Lemma merge_touched_step (w w1 w2 : world T) (D A B A' B' : list Z) (e : Z) :
  ext w w1 -> ext w1 w2 -> merge_touched w D A B ->
  (A <> [] -> B <> [] -> chunk_touched w A -> chunk_touched w B -> Forall (touched w1) (A ++ B)) ->
  (A = e :: A' /\ B = B') \/ (A = A' /\ B = e :: B') ->
  merge_touched w2 (D ++ [e]) A' B'.
Proof.
  intros He1 He2 Hm Hcmp Hcase. assert (ext w w2) as He by by etransitivity.
  assert (D ++ A ++ B ≡ₚ (D ++ [e]) ++ A' ++ B') as Hp.
  { rewrite <-app_assoc. apply Permutation_app_head.
    destruct Hcase as [[-> ->]|[-> ->]]; [done|].
    cbn [app]. symmetry. apply Permutation_middle. }
  destruct Hm as [Hall|[(-> & HA & HB & HtA & HtB)|[-> Ht]]].
  - left. rewrite <-Hp. by apply (Forall_touched_ext w).
  - left. rewrite <-Hp. apply (Forall_touched_ext w1); [done|]. cbn. by apply Hcmp.
  - right. right. destruct Hcase as [[-> <-]|[_ ?]]; [|done]. split; [done|].
    rewrite <-app_assoc. by apply (chunk_touched_ext w).
Qed.

Lemma merge_run (fuel : nat) (w : world T) (lt : Z * Z) (p q psize qsize : Z) (P D A B R : list Z) :
  merging w lt p q psize qsize P D A B R -> merge_touched w D A B ->
  (length (A ++ B) < fuel)%nat -> psize < 2 ^ 31 -> qsize < 2 ^ 31 ->
  exists q' lt' w' D', merge cmp fuel p q psize qsize lt w = Some ((q', lt'), w') /\
    D' ≡ₚ D ++ A ++ B /\ sorted w' D' /\ chunk_touched w' D' /\
    merged (heads w') lt' (P ++ D') /\ path (heads w') q' R 0 /\ evolves (P ++ D ++ A ++ B) w w'.
Proof.
  revert w lt p q psize qsize D A B. induction fuel as [|f IH];
    intros w lt p q psize qsize D A B Hm Ht Hf Hps31 Hqs31; [lia|].
  pose proof Hm as [Hok Hnd Hno Hmg ([x Hx] & Hq & Hps & Hqs & HqR) Hbef [HsA HsB]].
  cbn [merge].
  assert ((0 <? psize) || (0 <? qsize) && truthy q = negb (bool_decide (A ++ B = []))) as ->.
  { rewrite (path_null _ _ _ Hq), Hps. destruct A as [|a A]; cbn [app length].
    - destruct B as [|b B]; cbn [app].
      + destruct HqR as [<-| ->]; [done|by rewrite (bool_decide_eq_true_2 ([] = [])), andb_false_r].
      + rewrite !bool_decide_eq_false_2 by done. cbn in Hqs. by destruct (Z.ltb_spec 0 qsize); [|lia].
    - rewrite (bool_decide_eq_false_2 (a :: A ++ B = [])) by done.
      by destruct (Z.ltb_spec 0 (Z.of_nat (S (length A)))); [|lia]. }
  case_bool_decide as Hnil; cbn [negb].
  { apply app_eq_nil in Hnil as [-> ->]. cbn [app] in *. exists q, lt, w, D.
    rewrite !app_nil_r in *. split_and!; try done.
    destruct Ht as [Ht|[(_ & ? & _)|[_ Ht]]]; [right|done|]; by rewrite ?app_nil_r in Ht. }
  destruct (from_p_run _ _ _ _ _ _ _ _ _ _ _ Hm Hnil) as (b & w1 & Hb & Hok1 & He & Hh & Htrue & Hfalse & Htch).
  rewrite (M_bind_Some _ _ _ _ _ Hb). destruct b.
  - destruct Htrue as (e & A' & -> & Hle); [done|].
    destruct (merge_take_p w w1 lt p q psize qsize P D A' B R e) as (c & lt1 & w2 & Hc & Hl & Hm2 & He2 & Hev);
      [done..|].
    rewrite (M_bind_Some _ _ _ _ _ (rd_run w1 p c Hc)), (M_bind_Some _ _ _ _ _ Hl).
    assert (s32 (psize - 1) = psize - 1) as ->.
    { apply (swrap_id 32); [done|]. cbn in Hps. unfold is_sint. cbn. lia. }
    destruct (IH w2 lt1 (next c) q (psize - 1) qsize (D ++ [e]) A' B) as (q' & lt' & w' & D' & Hrun & Hperm & Hs & Htc & Hmg' & Hp' & Hev').
    + done.
    + eapply (merge_touched_step w w1 w2); [done|done|exact Ht|exact Htch|by left].
    + cbn in Hf. lia.
    + lia.
    + done.
    + exists q', lt', w', D'. split_and!; try done.
      * by rewrite Hperm, <-app_assoc.
      * rewrite <-app_assoc in Hev'. eapply merge_evolves_trans; [|exact Hev|exact Hev'].
        intros y. rewrite !elem_of_app. tauto.
  - destruct Hfalse as (e & B' & -> & Hle); [done|].
    destruct (merge_take_q w w1 lt p q psize qsize P D A B' R e) as (c & lt1 & w2 & Hc & Hl & Hm2 & He2 & Hev);
      [done..|].
    rewrite (M_bind_Some _ _ _ _ _ (rd_run w1 q c Hc)), (M_bind_Some _ _ _ _ _ Hl).
    assert (s32 (qsize - 1) = qsize - 1) as ->.
    { apply (swrap_id 32); [done|]. cbn in Hqs. unfold is_sint. cbn. lia. }
    assert (D ++ A ++ e :: B' ≡ₚ (D ++ [e]) ++ A ++ B') as Hpm.
    { rewrite <-app_assoc. apply Permutation_app_head. cbn [app].
      symmetry. apply Permutation_middle. }
    destruct (IH w2 lt1 p (next c) psize (qsize - 1) (D ++ [e]) A B') as (q' & lt' & w' & D' & Hrun & Hperm & Hs & Htc & Hmg' & Hp' & Hev').
    + done.
    + eapply (merge_touched_step w w1 w2); [done|done|exact Ht|exact Htch|by right].
    + rewrite length_app in *. cbn in Hf. lia.
    + done.
    + lia.
    + exists q', lt', w', D'. split_and!; try done.
      * by rewrite Hperm, Hpm.
      * eapply merge_evolves_trans; [|exact Hev|].
        -- intros y. rewrite !elem_of_app. tauto.
        -- destruct Hev' as (? & ? & ? & Hout). split_and!; [done..|].
           intros y Hy. apply Hout. intros Hy'. apply Hy.
           apply elem_of_app in Hy' as [Hy'|Hy']; apply elem_of_app; [by left|right].
           by rewrite Hpm.
Qed.

(** ** A pass, and the whole sort *)

(** The list as a sequence of sorted chunks of [k] cells, the last one maybe
    shorter. *)
Inductive chunked (w : world T) (k : Z) : list (list Z) -> Prop :=
  | chunked_nil : chunked w k []
  | chunked_cons C CS : C <> [] -> sorted w C -> chunk_touched w C ->
      Z.of_nat (length C) <= k -> (Z.of_nat (length C) = k \/ CS = []) ->
      (forall a b, a ∈ C -> b ∈ concat CS -> before a b) ->
      chunked w k CS -> chunked w k (C :: CS).

Lemma chunked_ext (w w' : world T) (k : Z) (CS : list (list Z)) :
  ext w w' -> chunked w k CS -> chunked w' k CS.
Proof.
  intros He. induction 1; constructor; try done; [by eapply sorted_ext|by eapply chunk_touched_ext].
Qed.

Lemma step_along_run (fuel : nat) (w : world T) (insize i p : Z) (A R : list Z) :
  path (heads w) p (A ++ R) 0 -> A <> [] -> 0 <= i -> insize < 2 ^ 31 ->
  Z.of_nat (length A) <= insize - i -> (Z.of_nat (length A) = insize - i \/ R = []) ->
  (length A < fuel)%nat ->
  exists q, step_along fuel insize i i p w = Some ((i + Z.of_nat (length A), q), w) /\
    path (heads w) p A q /\ path (heads w) q R 0.
Proof.
  revert i p A. induction fuel as [|f IH]; intros i p A Hp HA Hi H31 Hl HR Hf; [lia|].
  destruct A as [|a A]; [done|]. cbn [app] in Hp. cbn [length] in *.
  apply path_cons_inv in Hp as (-> & Ha & c & Hc & Hp). cbn [step_along].
  destruct (Z.ltb_spec i insize); [|lia].
  assert (s32 (i + 1) = i + 1) as -> by (apply (swrap_id 32); [done|unfold is_sint; cbn; lia]).
  rewrite (M_bind_Some _ _ _ _ _ (rd_run w a c Hc)). cbv zeta. rewrite (path_null _ _ _ Hp), negb_involutive.
  assert (a <> 0) as Ha0 by (intros E; rewrite E in Ha; discriminate).
  destruct A as [|a' A].
  - cbn [app] in *. exists (next c). split; [|split; [|done]].
    + case_bool_decide as HR0; [done|].
      destruct f as [|f]; [cbn in Hf; lia|]. cbn [step_along].
      destruct (Z.ltb_spec (i + 1) insize); [|done].
      exfalso. destruct HR as [HR|]; [cbn in HR; lia|done].
    + cbn. eauto.
  - rewrite bool_decide_eq_false_2 by done.
    destruct (IH (i + 1) (next c) (a' :: A)) as (q & Hrun & Hp1 & Hp2);
      [done|done|lia|done|cbn [length] in *; lia| |cbn [length] in *; lia|].
    { destruct HR as [HR|]; [left; cbn [length] in *; lia|by right]. }
    exists q. split; [|split; [|done]].
    + rewrite Hrun. do 3 f_equal. cbn [length]. lia.
    + cbn [path] in *. eauto.
Qed.

Lemma chunked_inv (w : world T) (k : Z) (A : list Z) (CS : list (list Z)) :
  chunked w k (A :: CS) ->
  (A <> [] /\ sorted w A /\ chunk_touched w A) /\
  (Z.of_nat (length A) <= k /\ (Z.of_nat (length A) = k \/ CS = [])) /\
  (forall a b, a ∈ A -> b ∈ concat CS -> before a b) /\ chunked w k CS.
Proof. inversion 1; subst. done. Qed.

Lemma concat_cons (A : list Z) (CS : list (list Z)) : concat (A :: CS) = A ++ concat CS.
Proof. done. Qed.

Lemma concat_nil_chunked (w : world T) (k : Z) (CS : list (list Z)) :
  chunked w k CS -> concat CS = [] -> CS = [].
Proof. destruct 1; [done|]. cbn. by intros [? _]%app_eq_nil. Qed.

(** The second run of a merge: the next chunk, if there is one. *)
Definition second_run (CS : list (list Z)) : list Z := match CS with [] => [] | B :: _ => B end.

Lemma second_run_concat (CS : list (list Z)) : concat CS = second_run CS ++ concat (tail CS).
Proof. by destruct CS. Qed.

Lemma chunked_second (w : world T) (k : Z) (CS : list (list Z)) :
  0 <= k -> chunked w k CS ->
  sorted w (second_run CS) /\ Z.of_nat (length (second_run CS)) <= k /\
  (Z.of_nat (length (second_run CS)) = k \/ concat (tail CS) = []) /\
  (second_run CS = [] \/ chunk_touched w (second_run CS)) /\
  (forall a b, a ∈ second_run CS -> b ∈ concat (tail CS) -> before a b) /\ chunked w k (tail CS).
Proof.
  intros Hk [|C CS' ? ? ? ? HCS]; cbn.
  - split_and!; [constructor|lia|by right|by left|by intros ?? ?%elem_of_nil|constructor].
  - split_and!; [done|done| |by right|done|done]. destruct HCS as [| ->]; [by left|by right].
Qed.

(** What a pass starts from and leaves behind. *)
Record pass_start (w : world T) (lt : Z * Z) (p k : Z) (P : list Z) (LS : list (list Z)) : Prop := {
  ps_ok : ok w;
  ps_merged : merged (heads w) lt P;
  ps_path : path (heads w) p (concat LS) 0;
  ps_nodup : NoDup (P ++ concat LS);
  ps_nodes : Forall nodes (concat LS);
  ps_chunked : chunked w k LS;
}.

(** The first two chunks are merged. *)
Lemma pass_merging (w : world T) (lt : Z * Z) (p q k : Z) (P A : list Z) (CS : list (list Z)) :
  0 <= k -> pass_start w lt p k P (A :: CS) ->
  path (heads w) p A q -> path (heads w) q (concat CS) 0 ->
  merging w lt p q (Z.of_nat (length A)) k P [] A (second_run CS) (concat (tail CS)) /\
  merge_touched w [] A (second_run CS).
Proof.
  intros Hk [Hok Hm Hp Hnd Hno Hch] HpA Hq.
  apply chunked_inv in Hch as ((HA & HsA & HtA) & (HlA & HeA) & Hbef & Hch).
  destruct (chunked_second w k CS Hk Hch) as (HsB & HlB & HeB & HtB & HbB & _).
  rewrite concat_cons, second_run_concat in Hnd, Hno. rewrite second_run_concat in Hq. split.
  - split; cbn [app]; try done.
    + rewrite app_assoc in Hno. by apply Forall_app in Hno as [? _].
    + by rewrite app_nil_r.
    + split_and!; [by exists q|done|done|done|done].
    + intros a b Ha Hb. apply Hbef; [done|]. rewrite second_run_concat. apply elem_of_app. by left.
  - destruct HtB as [HB|HtB]; [right; right; by split|].
    destruct (decide (second_run CS = [])) as [HB|HB]; [right; right; by split|].
    right. left. by split_and!.
Qed.

Lemma merge_pass_run (fuel : nat) (w : world T) (lt : Z * Z) (p k nm : Z) (P : list Z) (LS : list (list Z)) :
  pass_start w lt p k P LS -> 1 <= k < 2 ^ 31 -> (length (concat LS) < fuel)%nat ->
  0 <= nm -> nm + Z.of_nat (length (concat LS)) < 2 ^ 31 ->
  exists CS' lt' w', merge_pass cmp fuel k p nm lt w = Some ((nm + Z.of_nat (length CS'), lt'), w') /\
    ok w' /\ chunked w' (2 * k) CS' /\ concat CS' ≡ₚ concat LS /\
    merged (heads w') lt' (P ++ concat CS') /\ evolves (P ++ concat LS) w w' /\
    (2 * length CS' <= length LS + 1)%nat.
Proof.
  revert w lt p nm P LS. induction fuel as [|f IH]; intros w lt p nm P LS Hps Hk Hf Hnm Hn; [lia|].
  pose proof Hps as [Hok Hm Hp Hnd Hno Hch]. cbn [merge_pass].
  rewrite (path_null _ _ _ Hp).
  destruct LS as [|A CS].
  { exists [], lt, w. cbn [concat] in *. rewrite app_nil_r in *.
    split; [cbn; by rewrite Z.add_0_r|]. split; [done|]. split; [apply chunked_nil|].
    split; [done|]. split; [done|]. split; [by apply merge_evolves_refl|cbn; lia]. }
  pose proof Hch as Hch0.
  apply chunked_inv in Hch as ((HA & HsA & HtA) & (HlA & HeA) & Hbef & Hch).
  rewrite bool_decide_eq_false_2 by (rewrite concat_cons; by intros [? _]%app_eq_nil). cbn [negb]. cbv zeta.
  rewrite concat_cons, length_app in Hf, Hn.
  assert (1 <= Z.of_nat (length A)) as HA1 by (destruct A; cbn in *; [done|lia]).
  assert (s32 (nm + 1) = nm + 1) as -> by (apply (swrap_id 32); [done|unfold is_sint; cbn; lia]).
  destruct (step_along_run (S f) w k 0 p A (concat CS)) as (q & Hst & HpA & Hq);
    [done|done|lia|lia|lia| |lia|].
  { destruct HeA as [?| ->]; [left; lia|by right]. }
  rewrite (M_bind_Some _ _ _ _ _ Hst). cbn [Z.add].
  destruct (pass_merging w lt p q k P A CS) as [Hmg Htc]; [lia|done..|].
  destruct (chunked_second w k CS ltac:(lia) Hch) as (_ & HlB & HeB & _ & HbB & Hch2).
  set (B := second_run CS) in *. set (R := concat (tail CS)) in *.
  assert (length (concat CS) = length B + length R)%nat as HlC.
  { rewrite second_run_concat, length_app. done. }
  destruct (merge_run (S f) w lt p q _ k P [] A B R Hmg Htc) as (q' & lt1 & w1 & D' & Hrun & HD & HsD & HtD & HmD & HpR & Hev1);
    [rewrite length_app; lia|lia|lia|].
  rewrite (M_bind_Some _ _ _ _ _ Hrun). cbn [app] in HD.
  assert (NoDup ((P ++ D') ++ R)) as Hnd1.
  { rewrite <-app_assoc, HD, <-(app_assoc A B R). by rewrite concat_cons, second_run_concat in Hnd. }
  destruct (IH w1 lt1 q' (nm + 1) (P ++ D') (tail CS)) as (CS2 & lt' & w' & Hrun2 & Hok' & Hch' & Hperm & Hm' & Hev2 & Hcnt).
  { split; [apply Hev1|done|done|done| |].
    - rewrite concat_cons, second_run_concat in Hno. by apply Forall_app in Hno as [_ [_ ?]%Forall_app].
    - eapply chunked_ext; [apply Hev1|done]. }
  { done. }
  { fold R. lia. }
  { lia. }
  { fold R. lia. }
  exists (D' :: CS2), lt', w'. fold R in Hperm, Hev2. cbn [app] in Hev1.
  assert (concat (A :: CS) = A ++ B ++ R) as Econ by (by rewrite concat_cons, second_run_concat).
  assert (length D' = length A + length B)%nat as HlD by (by rewrite HD, length_app).
  assert (R = [] -> CS2 = []) as HR.
  { intros HR. rewrite HR in Hperm. symmetry in Hperm. apply Permutation_nil in Hperm.
    by eapply concat_nil_chunked. }
  split_and!.
  - rewrite Hrun2. do 3 f_equal. cbn [length]. lia.
  - done.
  - constructor; try done.
    + intros ->. cbn in HlD. lia.
    + eapply sorted_ext; [apply Hev2|done].
    + eapply chunk_touched_ext; [apply Hev2|done].
    + lia.
    + destruct HeB as [HeB|HeB]; [|right; by apply HR].
      destruct HeA as [HeA| HCS]; [left; lia|right]. apply HR. unfold R. by rewrite HCS.
    + intros a b Ha Hb. rewrite Hperm in Hb. rewrite HD in Ha.
      apply elem_of_app in Ha as [Ha|Ha]; [|by apply HbB].
      apply Hbef; [done|]. rewrite second_run_concat. apply elem_of_app. by right.
  - rewrite concat_cons, Econ, Hperm, HD. by rewrite app_assoc.
  - rewrite concat_cons, app_assoc. done.
  - rewrite Econ. destruct Hev2 as (E1 & E2 & E3 & E4). destruct Hev1 as (F1 & F2 & F3 & F4).
    split_and!; [done|by etransitivity|by etransitivity|].
    intros x Hx. rewrite !elem_of_app in Hx.
    rewrite E4, F4; [done| |]; intros Hx'; rewrite ?HD, !elem_of_app in Hx'; tauto.
  - cbn [length]. destruct CS as [|B' CS]; cbn in *; [|lia]. by rewrite HR.
Qed.

(** The end of a pass: the tail is terminated. *)
Lemma terminate_run (w : world T) (lt : Z * Z) (l : list Z) :
  ok w -> merged (heads w) lt l -> NoDup l -> l <> [] ->
  exists w', wr_next lt.2 0 w = Some ((), w') /\ path (heads w') lt.1 l 0 /\ evolves l w w'.
Proof.
  intros Hok [[-> _]|(l0 & -> & Hp & Ht0 & [c Hc])] Hnd Hl; [done|].
  unfold wr_next. rewrite (wr_run w _ _ c Hc). eexists. split; [done|].
  apply NoDup_app in Hnd as (_ & Hnd & _).
  assert (lt.2 ∉ l0) as Htl by (intros Hx; apply (Hnd _ Hx); left).
  destruct (ok_heads _ _ _ _ _ _ _ spec w _ Hok (same_info_next (heads w) lt.2 0 c Hc)) as [Ho Hx].
  split.
  - apply path_app. exists lt.2. split; [by apply path_insert|]. cbn. split_and!; [done|done|].
    eexists. split; [apply lookup_insert_eq|done].
  - split_and!; [done|done|by apply same_info_next|].
    intros x Hx0. cbn. apply lookup_insert_ne. intros <-. apply Hx0, elem_of_app. right; left.
Qed.

Definition sort_result (w w' : world T) (L : list Z) (r : Z) : Prop :=
  exists L', L' ≡ₚ L /\ path (heads w') r L' 0 /\ sorted w' L' /\ chunk_touched w' L' /\
    evolves L w w'.

Lemma sort_passes_run (passes fuel : nat) (w : world T) (k p : Z) (LS : list (list Z)) :
  pass_start w (0, 0) p k [] LS -> LS <> [] -> 1 <= k ->
  (length LS <= passes)%nat -> (length (concat LS) < fuel)%nat ->
  k < 2 ^ 30 -> Z.of_nat (length (concat LS)) < 2 ^ 30 ->
  exists r w', sort_passes cmp passes fuel k p w = Some (r, w') /\ sort_result w w' (concat LS) r.
Proof.
  revert w k p LS. induction passes as [|n IH]; intros w k p LS Hps HLS Hk Hn Hf Hk30 H30.
  { destruct LS; cbn in *; [done|lia]. }
  cbn [sort_passes].
  destruct (merge_pass_run fuel w (0, 0) p k 0 [] LS Hps) as (CS & lt & w1 & Hrun & Hok1 & Hch & Hperm & Hm & Hev & Hcnt);
    [lia|done|lia|lia|].
  rewrite (M_bind_Some _ _ _ _ _ Hrun). destruct lt as [list tail]. cbn [app] in Hm, Hev.
  pose proof Hps as [_ _ _ Hnd Hno HchL]. cbn [app] in Hnd.
  assert (concat CS <> []) as HC.
  { intros E. rewrite E in Hperm. apply Permutation_nil in Hperm.
    apply HLS. by eapply concat_nil_chunked. }
  destruct (terminate_run w1 (list, tail) (concat CS)) as (w2 & Hw & Hp2 & Hev2); [done|done|by rewrite Hperm|done|].
  cbn [fst snd] in *. rewrite (M_bind_Some _ _ _ _ _ Hw).
  assert (evolves (concat LS) w w2) as Hev12.
  { eapply merge_evolves_trans; [|exact Hev|].
    - done.
    - destruct Hev2 as (? & ? & ? & Hout). split_and!; [done..|]. intros x Hx. apply Hout. by rewrite Hperm. }
  assert (chunked w2 (2 * k) CS) as Hch2 by (eapply chunked_ext; [apply Hev2|done]).
  destruct CS as [|D CS]; [done|]. cbn [length] in *.
  destruct CS as [|D2 CS].
  - exists list, w2. destruct (Z.leb_spec (0 + Z.of_nat 1) 1); [|lia]. split; [done|].
    rewrite concat_cons, app_nil_r in *. apply chunked_inv in Hch2 as ((_ & ? & ?) & _).
    exists D. by split_and!.
  - cbn [length] in *. destruct (Z.leb_spec (0 + Z.of_nat (S (S (length CS)))) 1); [lia|].
    pose proof Hch2 as Hch2'. apply chunked_inv in Hch2' as (_ & (HlD & [HeD|]) & _); [|done].
    assert (length D <= length (concat LS))%nat as HDL.
    { rewrite <-Hperm, concat_cons, length_app. lia. }
    assert (s32 (k * 2) = 2 * k) as -> by (unfold s32; rewrite swrap_id; [lia|lia|unfold is_sint; cbn; lia]).
    destruct (IH w2 (2 * k) list (D :: D2 :: CS)) as (r & w' & Hrun' & L' & HL' & Hp' & Hs' & Ht' & Hev').
    + split; [apply Hev2|by left|done|by rewrite Hperm|by rewrite Hperm|done].
    + done.
    + lia.
    + cbn [length]. lia.
    + by rewrite Hperm.
    + lia.
    + by rewrite Hperm.
    + exists r, w'. split; [done|]. exists L'.
      split; [by rewrite HL'|]. split_and!; [done|done|done|].
      eapply merge_evolves_trans; [|exact Hev12|].
      * done.
      * destruct Hev' as (? & ? & ? & Hout). split_and!; [done..|]. intros x Hx. apply Hout. by rewrite Hperm.
Qed.

Lemma concat_singletons (l : list Z) : concat ((fun x => [x]) <$> l) = l.
Proof. induction l as [|x l IH]; [done|]. cbn. by f_equal. Qed.

Lemma chunked_singletons (w : world T) (l : list Z) :
  StronglySorted before l -> chunked w 1 ((fun x => [x]) <$> l).
Proof.
  induction 1 as [|x l Hs IH Hf]; cbn; [constructor|]. constructor; try done.
  - repeat constructor.
  - by left.
  - by left.
  - intros a b ->%list_elem_of_singleton. rewrite concat_singletons. intros Hb.
    rewrite Forall_forall in Hf. by apply Hf.
Qed.

(** The sort on any comparison: it terminates with a sorted permutation of the
    same cells, each keeping its item, and compares every cell at least once
    when there are two or more. *)
Lemma mergesort_run (fuel : nat) (w : world T) (p : Z) (L : list Z) :
  ok w -> path (heads w) p L 0 -> NoDup L -> L <> [] -> Forall nodes L ->
  StronglySorted before L -> (length L < fuel)%nat -> Z.of_nat (length L) < 2 ^ 30 ->
  exists r w', core_list_mergesort cmp fuel p w = Some (r, w') /\ sort_result w w' L r.
Proof.
  intros Hok Hp Hnd HL Hno Hb Hf H30. unfold core_list_mergesort.
  pose proof (sort_passes_run fuel fuel w 1 p ((fun x => [x]) <$> L)) as H.
  rewrite concat_singletons in H. apply H; try done.
  - split; rewrite ?concat_singletons; try done; [by left|by apply chunked_singletons].
  - by destruct L.
  - rewrite length_fmap. lia.
Qed.
End Sort.

(** Sorting an empty list is not supported: after the pass without merges
    the code writes through the NULL tail. *)
Theorem core_list_mergesort_empty {T : Type} (cmp : Z -> Z -> M (world T) Z) (fuel : nat) (w : world T) :
  heads w !! 0 = None -> core_list_mergesort cmp fuel 0 w = None.
Proof.
  intros H0. unfold core_list_mergesort. destruct fuel as [|f]; [done|].
  assert (rd 0 w = None) as Hr by (unfold rd; by rewrite H0).
  change (sort_passes cmp (S f) (S f) 1 0 w) with ((wr_next 0 0 ≫= fun _ => mret 0) w).
  unfold wr_next, wr, mbind, M_bind. by rewrite Hr.
Qed.
