(* ===== verification/ListBench.v ===== *)
(** * CoreMark's list benchmark, [src/fpga/coremark/src/core_list_join.c]

    The comparison functions, the construction of the list and the benchmark
    iteration, on top of the primitives of [ListJoin] and the state and matrix
    kernels that [cmp_complex] runs. *)

From S2P Require Import Prelude CoreUtil Matrix StateMachine ListJoin.

(** [core_results], with the contents of the state block and the matrices. *)
Record core_results : Type := mk_results {
  seed1 : Z; seed2 : Z; seed3 : Z;
  size : Z;
  iterations : Z;
  execs : Z;
  list : Z;
  state_mem : Datatypes.list Z;
  mat : mat_params;
  crc : Z; crclist : Z; crcmatrix : Z; crcstate : Z;
  err : Z;
}.

Definition set_state_mem (b : Datatypes.list Z) (r : core_results) : core_results :=
  mk_results (seed1 r) (seed2 r) (seed3 r) (size r) (iterations r) (execs r) (list r) b (mat r)
    (crc r) (crclist r) (crcmatrix r) (crcstate r) (err r).
Definition set_mat (m : mat_params) (r : core_results) : core_results :=
  mk_results (seed1 r) (seed2 r) (seed3 r) (size r) (iterations r) (execs r) (list r) (state_mem r) m
    (crc r) (crclist r) (crcmatrix r) (crcstate r) (err r).
Definition set_crcs (c cl cm cs : Z) (r : core_results) : core_results :=
  mk_results (seed1 r) (seed2 r) (seed3 r) (size r) (iterations r) (execs r) (list r) (state_mem r)
    (mat r) c cl cm cs (err r).
Definition set_crc (c : Z) (r : core_results) : core_results :=
  set_crcs c (crclist r) (crcmatrix r) (crcstate r) r.
Definition set_crcmatrix (c : Z) (r : core_results) : core_results :=
  set_crcs (crc r) (crclist r) c (crcstate r) r.
Definition set_crcstate (c : Z) (r : core_results) : core_results :=
  set_crcs (crc r) (crclist r) (crcmatrix r) c r.

Definition world : Type := ListJoin.world core_results.
Definition get_res : M world core_results := fun w => Some (env w, w).
Definition modify_res (f : core_results -> core_results) : M world () :=
  modify_world (fun w => mk_world (heads w) (datas w) (f (env w))).

Section Bench.
(** Fuel of the state kernel's loops. *)
Variable state_fuel : nat.

(** The two kernels on the results structure: [None] when the state kernel
    leaves its block. *)
Definition run_state (dtype : Z) : M world Z :=
  res ← get_res;
  match core_bench_state state_fuel (size res) (state_mem res) (seed1 res) (seed2 res) dtype (crc res) with
  | Some (r, mem) => _ ← modify_res (set_state_mem mem); mret (s16 r)
  | None => fun _ => None
  end.

Definition run_matrix (dtype : Z) : M world Z :=
  res ← get_res;
  let '(r, m) := core_bench_matrix (mat res) dtype (crc res) in
  _ ← modify_res (set_mat m);
  mret (s16 r).

(** The [switch] of [calc_func]: the function's result on uncached data. *)
Definition calc_result (data : Z) : M world Z :=
  let flag := s16 (data .& 0x7) in
  let dtype := s16 ((data .>> 3) .& 0xf) in
  let dtype := s16 (dtype .| (dtype .<< 4)) in
  match flag with
  | 0 =>
      let dtype := if dtype <? 0x22 then 0x22 else dtype in
      retval ← run_state dtype;
      res ← get_res;
      _ ← (if crcstate res =? 0 then modify_res (set_crcstate (u16 retval)) else mret ());
      mret retval
  | 1 =>
      retval ← run_matrix dtype;
      res ← get_res;
      _ ← (if crcmatrix res =? 0 then modify_res (set_crcmatrix (u16 retval)) else mret ());
      mret retval
  | _ => mret data
  end.

Definition calc_func (pdata : Z) : M world Z :=
  d ← rd_data pdata;
  let data := data16 d in
  let optype := u8 ((data .>> 7) .& 1) in
  if truthy optype then mret (data .& 0x007f)
  else
    retval ← calc_result data;
    _ ← modify_res (fun res => set_crc (crcu16 (u16 retval) (crc res)) res);
    let retval := retval .& 0x007f in
    _ ← wr_data pdata (fun d => mk_data (s16 ((data .& 0xff00) .| 0x0080 .| retval)) (idx d));
    mret retval.

Definition cmp_complex (a b : Z) : M world Z :=
  val1 ← calc_func a;
  val2 ← calc_func b;
  mret (val1 - val2).

(** The regeneration of an item's data. *)
Definition regen (d : list_data) : list_data :=
  mk_data (s16 ((data16 d .& 0xff00) .| (0x00ff .& (data16 d .>> 8)))) (idx d).

(** [cmp_idx] with [res == NULL], as both callers pass it. *)
Definition cmp_idx (res_null : bool) (a b : Z) : M world Z :=
  _ ← (if res_null then (_ ← wr_data a regen; wr_data b regen) else mret ());
  da ← rd_data a;
  db ← rd_data b;
  mret (idx da - idx db).

Variable fuel : nat.

(** The state of the find loop: [(list, info.idx, retval, missed, found)]. *)
Definition find_state : Type := Z * Z * Z * Z * Z.

Definition find_step (i : Z) (st : find_state) : M world find_state :=
  let '(list, iidx, retval, missed, found) := st in
  let inf := mk_data (i .& 0xff) iidx in
  this_find ← core_list_find fuel list inf;
  list ← core_list_reverse fuel list;
  '(retval, missed, found) ←
    (if negb (truthy this_find) then
       h ← rd list; hn ← rd (next h); d ← rd_data (info hn);
       mret (u16 (retval + ((data16 d .>> 8) .& 1)), u16 (missed + 1), found)
     else
       h ← rd this_find; d ← rd_data (info h);
       let retval := if truthy (data16 d .& 0x1)
                     then u16 (retval + ((data16 d .>> 9) .& 1)) else retval in
       _ ← (if truthy (next h) then
              let finder := next h in
              hf ← rd finder;
              _ ← wr_next this_find (next hf);
              hl ← rd list;
              _ ← wr_next finder (next hl);
              wr_next list finder
            else mret ());
       mret (retval, missed, u16 (found + 1)));
  let iidx := if 0 <=? iidx then s16 (iidx + 1) else iidx in
  mret (list, iidx, retval, missed, found).

Fixpoint find_loop (n : nat) (i : Z) (st : find_state) : M world find_state :=
  match n with
  | O => mret st
  | S n' => st ← find_step i st; find_loop n' (i + 1) st
  end.

(** [while (finder) { retval = crc16(list->info->data16, retval); ... }] *)
Definition crc_loop (list finder retval : Z) : M world Z :=
  '(_, retval) ← while_M fuel (fun '(finder, _) => mret (truthy finder))
    (fun '(finder, retval) =>
       h ← rd list; d ← rd_data (info h);
       let retval := crc16 (data16 d) retval in
       hf ← rd finder;
       mret (next hf, retval)) (finder, retval);
  mret retval.

(** Remove one item, CRC the list from the found cell on, undo the remove. *)
Definition crc_without_one (list : Z) (inf : list_data) (retval : Z) : M world Z :=
  h ← rd list;
  remover ← core_list_remove (next h);
  finder ← core_list_find fuel list inf;
  finder ← (if negb (truthy finder) then h ← rd list; mret (next h) else mret finder);
  retval ← crc_loop list finder retval;
  h ← rd list;
  _ ← core_list_undo_remove remover (next h);
  mret retval.

Definition core_bench_list (finder_idx : Z) : M world Z :=
  res ← get_res;
  let find_num := seed3 res in
  '(list, iidx, retval, missed, found) ←
    find_loop (Z.to_nat find_num) 0 (list res, finder_idx, 0, 0, 0);
  let inf := mk_data (if 0 <? find_num then (find_num - 1) .& 0xff else 0) iidx in
  let retval := u16 (retval + (found * 4 - missed)) in
  list ← (if 0 <? finder_idx then core_list_mergesort cmp_complex fuel list else mret list);
  retval ← crc_without_one list inf retval;
  list ← core_list_mergesort (cmp_idx true) fuel list;
  h ← rd list;
  crc_loop list (next h) retval.

(** ** Initialisation *)

Definition per_item : Z := 16 + sizeof_list_data.
Definition list_items (blksize : Z) : Z := u32 (blksize / per_item - 2).

(** The data of the [i]-th inserted item. *)
Definition init_data (seed i : Z) : Z :=
  let datpat := u16 (u32 (seed .^ i)) .& 0xf in
  let dat := u16 ((datpat .<< 3) .| (i .& 0x7)) in
  s16 ((dat .<< 8) .| dat).

Fixpoint insert_loop (n : nat) (i list : Z) (seed memblock datablock memblock_end datablock_end : Z)
  : M world () :=
  match n with
  | O => mret ()
  | S n' =>
      '(_, memblock, datablock) ← core_list_insert_new list (mk_data (init_data seed i) 0x7fff)
        memblock datablock memblock_end datablock_end;
      insert_loop n' (i + 1) list seed memblock datablock memblock_end datablock_end
  end.

(** The index of the [i]-th cell. *)
Definition init_idx (size seed i : Z) : Z :=
  if i <? size / 5 then s16 i
  else
    let pat := u16 (u32 (i .^ seed)) in
    s16 (0x3fff .& (u32 ((u32 (i + 1) .& 0x07) .<< 8) .| pat)).

Fixpoint index_loop (n : nat) (i size seed finder : Z) : M world () :=
  match n with
  | O => fun _ => None
  | S n' =>
      h ← rd finder;
      if truthy (next h) then
        _ ← wr_data (info h) (fun d => mk_data (data16 d) (init_idx size seed i));
        index_loop n' (u32 (i + 1)) size seed (next h)
      else mret ()
  end.

Definition core_list_init (blksize memblock seed : Z) : M world Z :=
  let size := list_items blksize in
  let memblock_end := memblock + size * sizeof_list_head in
  let datablock := memblock_end in
  let datablock_end := datablock + size * sizeof_list_data in
  let list := memblock in
  _ ← wr_next list 0;
  _ ← wr_info list datablock;
  h ← rd list;
  _ ← wr_data (info h) (fun d => mk_data (data16 d) 0);
  _ ← wr_data (info h) (fun d => mk_data (s16 0x8080) (idx d));
  let memblock := memblock + sizeof_list_head in
  let datablock := datablock + sizeof_list_data in
  '(_, memblock, datablock) ← core_list_insert_new list (mk_data (s16 0xffff) 0x7fff)
    memblock datablock memblock_end datablock_end;
  _ ← insert_loop (Z.to_nat size) 0 list seed memblock datablock memblock_end datablock_end;
  h ← rd list;
  _ ← index_loop fuel 1 size seed (next h);
  core_list_mergesort (cmp_idx true) fuel list.
End Bench.

(** The raw block before [core_list_init]: every cell and item has some value. *)
Definition raw_block (memblock n : Z) (r : core_results) : world :=
  let mend := memblock + n * sizeof_list_head in
  mk_world
    (list_to_map ((fun k => (memblock + k * sizeof_list_head, mk_head 0 0)) <$> seqZ 0 n))
    (list_to_map ((fun k => (mend + k * sizeof_list_data, mk_data 0 0)) <$> seqZ 0 n)) r.

(** ** Items keep their index and their backup byte *)

(** The upper byte is the backup of the original data. *)
Definition keep (d d' : list_data) : Prop :=
  idx d' = idx d /\ data16 d' .>> 8 = data16 d .>> 8 /\
  (is_sint 16 (data16 d) -> is_sint 16 (data16 d')).

Definition cached (d : list_data) : Prop := Z.testbit (data16 d) 7 = true.
Definition value (d : list_data) : Z := data16 d .& 0x7f.
Definition regenerated (d : list_data) : Prop := data16 d .& 0xff = (data16 d .>> 8) .& 0xff.

(** [(data & 0xff00) | low] for a byte [low], as an [ee_s16]. *)
Definition with_low (data low : Z) : Z := s16 ((data .& 0xff00) .| low).

Lemma with_low_eq (data low : Z) :
  is_sint 16 data -> is_uint 8 low -> with_low data low = (data .>> 8) * 256 + low.
Proof.
  intros Hd Hl. unfold with_low.
  assert (data .& 0xff00 = ((data .>> 8) .& 0xff) .<< 8) as ->.
  { apply Z.bits_inj'. intros i Hi. rewrite Z.shiftl_spec, !Z.land_spec by lia.
    destruct (Z.lt_ge_cases i 8).
    - rewrite (Z.testbit_neg_r (_ .>> _)) by lia.
      change 0xff00 with (0xff .<< 8). rewrite Z.shiftl_spec, (Z.testbit_neg_r 0xff) by lia. apply andb_false_r.
    - rewrite Z.shiftr_spec by lia. change 0xff00 with (0xff .<< 8).
      rewrite Z.shiftl_spec by lia. by replace (i - 8 + 8) with i by lia. }
  rewrite shiftl_lor_add by done. change 0xff with (Z.ones 8). rewrite Z.land_ones by lia.
  change (2 ^ 8) with 256.
  assert (is_sint 16 ((data .>> 8) * 256 + low)) as Hr.
  { unfold is_sint, is_uint in *. rewrite Z.shiftr_div_pow2 by lia. cbn in *. divlia. }
  rewrite <-(swrap_id 16 _ ltac:(lia) Hr). apply swrap_cong.
  change (2 ^ 16) with 65536. generalize (data .>> 8). intros x. clear. divlia.
Qed.

Lemma with_low_parts (data low : Z) :
  is_sint 16 data -> is_uint 8 low ->
  with_low data low .>> 8 = data .>> 8 /\ with_low data low .& 0xff = low /\
  is_sint 16 (with_low data low).
Proof.
  intros Hd Hl. split_and!; [| |apply swrap_range; lia]; rewrite with_low_eq by done.
  - rewrite Z.shiftr_div_pow2 by lia. rewrite Z.div_add_l, (Z.div_small low) by (done || lia). lia.
  - change 0xff with (Z.ones 8). rewrite Z.land_ones by lia. change (2 ^ 8) with 256.
    rewrite Z.add_comm, Z.mod_add by lia. by apply Z.mod_small.
Qed.

(** Two items' data with the same upper byte and the same lower byte. *)
Lemma data16_eq (x y : Z) : x .>> 8 = y .>> 8 -> x .& 0xff = y .& 0xff -> x = y.
Proof.
  rewrite !Z.shiftr_div_pow2 by lia. change 0xff with (Z.ones 8). rewrite !Z.land_ones by lia.
  change (2 ^ 8) with 256. intros. divlia.
Qed.

#[export] Instance keep_preorder : PreOrder keep.
Proof.
  split; unfold keep; [done|]. intros ??? (E1 & E2 & H1) (E3 & E4 & H2).
  split_and!; [congruence|congruence|auto].
Qed.

(** The items before and after: the same addresses, related contents. *)
Definition datas_rel (K : relation list_data) (m m' : gmap Z list_data) : Prop :=
  forall p, option_Forall2 K (m !! p) (m' !! p).

#[export] Instance datas_rel_preorder (K : relation list_data) `{!PreOrder K} : PreOrder (datas_rel K).
Proof.
  split; unfold datas_rel.
  - intros m p. destruct (m !! p); constructor. reflexivity.
  - intros m1 m2 m3 H1 H2 p. specialize (H1 p). specialize (H2 p).
    destruct H1; inversion H2; subst; constructor. by etransitivity.
Qed.

Lemma datas_rel_insert (K : relation list_data) `{!PreOrder K} (m : gmap Z list_data) (p : Z) (d d' : list_data) :
  m !! p = Some d -> K d d' -> datas_rel K m (<[p := d']> m).
Proof.
  intros Hd HK x. destruct (decide (x = p)) as [->|].
  - rewrite lookup_insert_eq, Hd. by constructor.
  - by rewrite lookup_insert_ne.
Qed.

Lemma datas_rel_lookup (K : relation list_data) (m m' : gmap Z list_data) (p : Z) (d : list_data) :
  datas_rel K m m' -> m !! p = Some d -> exists d', m' !! p = Some d' /\ K d d'.
Proof. intros H Hd. specialize (H p). rewrite Hd in H. inversion H; subst. eauto. Qed.

(** How the benchmark's steps change the world: the cells keep their items,
    the items change by [K], the results by [E]. *)
Definition wext (K : relation list_data) (E : relation core_results) (w w' : world) : Prop :=
  same_info (heads w) (heads w') /\ datas_rel K (datas w) (datas w') /\ E (env w) (env w').

#[export] Instance wext_preorder (K : relation list_data) (E : relation core_results)
  `{!PreOrder K, !PreOrder E} : PreOrder (wext K E).
Proof.
  split; unfold wext; [done|]. intros ??? (? & ? & ?) (? & ? & ?).
  split_and!; by etransitivity.
Qed.

Lemma wext_item (K : relation list_data) (E : relation core_results) (w w' : world) (x : Z) (d : list_data) :
  wext K E w w' -> item w x = Some d -> exists d', item w' x = Some d' /\ K d d'.
Proof.
  intros (Hi & Hd & _) Hx. unfold item in *. specialize (Hi x).
  destruct (heads w !! x) as [c|] eqn:Hc; [|done]. cbn in Hx, Hi.
  destruct (heads w' !! x) as [c'|]; [|done]. cbn in *. injection Hi as ->.
  by eapply datas_rel_lookup.
Qed.

(** Every cell of the list has an item of the right type. *)
Definition items_ok (L : Datatypes.list Z) (w : world) : Prop :=
  forall x, x ∈ L -> exists d, item w x = Some d /\ is_sint 16 (data16 d) /\ is_sint 16 (idx d).

Lemma items_ok_ext (L : Datatypes.list Z) (K : relation list_data) (E : relation core_results) (w w' : world) :
  (forall d d', K d d' -> keep d d') -> wext K E w w' -> items_ok L w -> items_ok L w'.
Proof.
  intros HK He Hok x Hx. destruct (Hok x Hx) as (d & Hd & H16 & Hi).
  destruct (wext_item _ _ _ _ _ _ He Hd) as (d' & Hd' & (E1 & E2 & E3)%HK).
  exists d'. split_and!; [done|by apply E3|by rewrite E1].
Qed.

Lemma item_cell (w : world) (x : Z) (c : list_head) (d : list_data) :
  heads w !! x = Some c -> item w x = Some d -> datas w !! info c = Some d.
Proof. intros Hc. unfold item. by rewrite Hc. Qed.

(** The position order of a list. *)
Definition before (L : Datatypes.list Z) (a b : Z) : Prop :=
  exists i j, L !! i = Some a /\ L !! j = Some b /\ (i < j)%nat.

Lemma before_trans (L : Datatypes.list Z) (a b c : Z) :
  NoDup L -> before L a b -> before L b c -> before L a c.
Proof.
  intros Hnd (i & j & Hi & Hj & ?) (j' & k & Hj' & Hk & ?).
  assert (j = j') by (by eapply NoDup_lookup). subst. exists i, k. split_and!; [done|done|lia].
Qed.

Lemma before_sorted (L : Datatypes.list Z) : StronglySorted (before L) L.
Proof.
  assert (forall l1 l2, L = l1 ++ l2 -> StronglySorted (before L) l2) as H; [|by apply (H [])].
  intros l1 l2. revert l1. induction l2 as [|x l2 IH]; intros l1 E; constructor.
  - apply (IH (l1 ++ [x])). by rewrite <-app_assoc.
  - apply Forall_forall. intros y Hy. apply list_elem_of_lookup in Hy as [k Hk].
    exists (length l1), (length l1 + S k)%nat. rewrite E. split_and!; [|by rewrite lookup_app_r, Nat.add_sub_swap, Nat.sub_diag by lia|lia].
    by rewrite lookup_app_r, Nat.sub_diag by lia.
Qed.

(** ** Sorting by index *)

Lemma regen_eq (d : list_data) : data16 (regen d) = with_low (data16 d) ((data16 d .>> 8) .& 0xff).
Proof. unfold regen, with_low. cbn. by rewrite (Z.land_comm 0xff). Qed.

Lemma byte_uint (z : Z) : is_uint 8 (z .& 0xff).
Proof. apply land_uint_r; [done|unfold is_uint; lia]. Qed.

Lemma regen_parts (d : list_data) :
  is_sint 16 (data16 d) ->
  data16 (regen d) .>> 8 = data16 d .>> 8 /\ regenerated (regen d) /\ is_sint 16 (data16 (regen d)) /\
  (regenerated d -> regen d = d).
Proof.
  intros Hd. unfold regenerated. rewrite regen_eq.
  destruct (with_low_parts (data16 d) ((data16 d .>> 8) .& 0xff) Hd (byte_uint _)) as (E1 & E2 & E3).
  split_and!; [done|by rewrite E1, E2|done|]. intros Hr.
  assert (data16 (regen d) = data16 d) as E by (rewrite regen_eq; apply data16_eq; congruence).
  destruct d as [x i]. unfold regen in *. cbn in *. by f_equal.
Qed.

(** Sorting by index regenerates data, and regenerated data stays. *)
Definition keep_idx (d d' : list_data) : Prop :=
  keep d d' /\ (is_sint 16 (data16 d) -> regenerated d -> d' = d).

#[export] Instance keep_idx_preorder : PreOrder keep_idx.
Proof.
  split; unfold keep_idx; [done|]. intros x y z [H1 R1] [H2 R2].
  split; [by etransitivity|]. intros H16 Hr. rewrite <-(R1 H16 Hr). apply R2; rewrite (R1 H16 Hr); done.
Qed.

Lemma keep_idx_regen (d : list_data) : is_sint 16 (data16 d) -> keep_idx d (regen d).
Proof.
  intros Hd. destruct (regen_parts d Hd) as (E1 & _ & H16 & Hr). split; [by split_and!|auto].
Qed.

(** The order by index, equal indices by position. *)
Definition le_idx (L : Datatypes.list Z) (w : world) (a b : Z) : Prop :=
  exists da db, item w a = Some da /\ item w b = Some db /\
    (idx da < idx db \/ idx da = idx db /\ before L a b).

Definition regen_at (w : world) (a : Z) : Prop :=
  exists d, item w a = Some d /\ is_sint 16 (data16 d) /\ regenerated d.

Abbreviation ext_idx := (wext keep_idx eq).

(** Regenerating the item of a cell. *)
Lemma regen_run (L : Datatypes.list Z) (w : world) (a : Z) (ca : list_head) :
  items_ok L w -> a ∈ L -> heads w !! a = Some ca ->
  exists w', wr_data (info ca) regen w = Some ((), w') /\ ext_idx w w' /\ heads w' = heads w /\
    items_ok L w' /\ regen_at w' a.
Proof.
  intros Hok Ha Hca. destruct (Hok a Ha) as (d & Hd & H16 & Hi).
  pose proof (item_cell _ _ _ _ Hca Hd) as Hdat.
  eexists. split; [by apply wr_data_run|].
  set (w' := set_datas _ w).
  assert (ext_idx w w') as He.
  { split_and!; [done| |done]. cbn. eapply datas_rel_insert; [typeclasses eauto|exact Hdat|by apply keep_idx_regen]. }
  split_and!; [done|done| |].
  - eapply items_ok_ext; [|exact He|done]. by intros ?? [].
  - exists (regen d). destruct (regen_parts d H16) as (_ & ? & ? & _). split_and!; [|done|done].
    unfold item. cbn. rewrite Hca. cbn. apply lookup_insert_eq.
Qed.

Lemma regen_at_ext (w w' : world) (a : Z) : ext_idx w w' -> regen_at w a -> regen_at w' a.
Proof.
  intros He (d & Hd & H16 & Hr). destruct (wext_item _ _ _ _ _ _ He Hd) as (d' & Hd' & _ & Heq).
  rewrite (Heq H16 Hr) in Hd'. by exists d.
Qed.

Lemma le_idx_ext (L : Datatypes.list Z) (w w' : world) (a b : Z) :
  ext_idx w w' -> le_idx L w a b -> le_idx L w' a b.
Proof.
  intros He (da & db & Ha & Hb & Hor).
  destruct (wext_item _ _ _ _ _ _ He Ha) as (da' & Ha' & (Ea & _) & _).
  destruct (wext_item _ _ _ _ _ _ He Hb) as (db' & Hb' & (Eb & _) & _).
  exists da', db'. rewrite Ea, Eb. done.
Qed.

Lemma cmp_idx_spec (L : Datatypes.list Z) :
  NoDup L ->
  CmpSpec (cmp_idx true) (fun x => x ∈ L) (before L) (items_ok L) ext_idx (le_idx L) regen_at.
Proof.
  intros Hnd. split.
  - typeclasses eauto.
  - intros w w' a b. apply le_idx_ext.
  - intros w w' a. apply regen_at_ext.
  - intros w a b c (da & db & Ha & Hb & Hab) (db' & dc & Hb' & Hc & Hbc).
    rewrite Hb in Hb'. injection Hb' as <-. exists da, dc. split_and!; [done|done|].
    destruct Hab as [?|[? ?]], Hbc as [?|[? ?]]; [left; lia..|].
    right. split; [lia|]. by eapply before_trans.
  - intros w h' Hok Hi. assert (ext_idx w (set_heads h' w)) as He by by split_and!.
    split; [|done]. eapply items_ok_ext; [|exact He|done]. by intros ?? [].
  - intros w a b ca cb Hok Ha Hb Hbef Hca Hcb. unfold cmp_idx.
    destruct (regen_run L w a ca Hok Ha Hca) as (w1 & Hr1 & He1 & Hh1 & Hok1 & Ta).
    rewrite <-Hh1 in Hcb.
    destruct (regen_run L w1 b cb Hok1 Hb Hcb) as (w2 & Hr2 & He2 & Hh2 & Hok2 & Tb).
    destruct (Hok2 a Ha) as (da & Hda & _). destruct (Hok2 b Hb) as (db & Hdb & _).
    assert (heads w2 !! a = Some ca) as Hca2 by (rewrite Hh2, Hh1; done).
    assert (heads w2 !! b = Some cb) as Hcb2 by (rewrite Hh2; done).
    pose proof (item_cell _ _ _ _ Hca2 Hda) as Hia. pose proof (item_cell _ _ _ _ Hcb2 Hdb) as Hib.
    exists (idx da - idx db), w2.
    rewrite M_bind_assoc, (M_bind_Some _ _ _ _ _ Hr1), (M_bind_Some _ _ _ _ _ Hr2).
    rewrite (M_bind_Some _ _ _ _ _ (rd_data_run w2 _ _ Hia)), (M_bind_Some _ _ _ _ _ (rd_data_run w2 _ _ Hib)).
    split_and!; [done|done|by etransitivity|congruence| | |by eapply regen_at_ext|done].
    + intros Hle. exists da, db. split_and!; [done|done|].
      destruct (Z.lt_ge_cases (idx da) (idx db)); [by left|right]. split; [lia|done].
    + intros Hgt. exists db, da. split_and!; [done|done|]. left. lia.
Qed.

(** [core_list_mergesort] with [cmp_idx] and no results structure
    terminates, keeps the cells and every cell's item, sorts the list by index
    (cells with equal indices stay in their order) and restores the data of
    every item from its backup byte. *)
Theorem mergesort_by_index (fuel : nat) (w : world) (p : Z) (L : Datatypes.list Z) :
  path (heads w) p L 0 -> NoDup L -> items_ok L w -> (2 <= length L < fuel)%nat ->
  Z.of_nat (length L) < 2 ^ 30 ->
  exists r w' L', core_list_mergesort (cmp_idx true) fuel p w = Some (r, w') /\
    path (heads w') r L' 0 /\ L' ≡ₚ L /\ StronglySorted (le_idx L w') L' /\
    Forall (regen_at w') L' /\ ext_idx w w' /\
    forall x, x ∉ L -> heads w' !! x = heads w !! x.
Proof.
  intros Hp Hnd Hok Hl H30.
  destruct (mergesort_run _ _ _ _ _ _ _ (cmp_idx_spec L Hnd) fuel w p L)
    as (r & w' & Hrun & L' & Hperm & Hp' & Hs & Ht & (_ & He & _ & Hout)); try done.
  - intros ->. cbn in Hl. lia.
  - by apply Forall_forall.
  - apply before_sorted.
  - lia.
  - exists r, w', L'. split_and!; try done. destruct Ht as [Ht|]; [|done].
    rewrite Hperm in Ht. lia.
Qed.

(** ** The comparison that runs the other kernels *)

Section Complex.
Variable state_fuel : nat.

(** The results structure can run the kernels: the state block is an input
    block that the corruption with the (equal) seeds restores, and the matrices
    are well formed. *)
Record res_ok (r : core_results) : Prop := {
  ro_seeds : seed2 r = seed1 r;
  ro_block : input_block (size r) (state_mem r);
  ro_bytes : Forall (is_uint 8) (state_mem r);
  ro_commas : Forall (fun c => c <> 44 -> c <> 44 .^ u8 (seed1 r)) (state_mem r);
  ro_fuel : (Z.to_nat (size r) < state_fuel)%nat;
  ro_mat : wf_mat (mat r);
  ro_crc : is_uint 16 (crc r);
}.

(** What the kernels leave alone: everything but the CRCs and the result
    matrix. *)
Definition inputs (r : core_results) : core_results :=
  set_mat (mk_mat (N (mat r)) (A (mat r)) (B (mat r)) []) (set_crcs 0 0 0 0 r).

(** The kernels' CRCs are recorded once: a nonzero one stays. *)
Definition crcs_kept (r r' : core_results) : Prop :=
  crclist r' = crclist r /\ (crcmatrix r <> 0 -> crcmatrix r' = crcmatrix r) /\
  (crcstate r <> 0 -> crcstate r' = crcstate r).

#[global] Instance crcs_kept_preorder : PreOrder crcs_kept.
Proof.
  split; unfold crcs_kept; [done|]. intros ??? (E1 & E2 & E3) (F1 & F2 & F3).
  split; [congruence|]. split; intros H.
  - rewrite F2, E2; try done. by rewrite E2.
  - rewrite F3, E3; try done. by rewrite E3.
Qed.

Definition res_rel (r r' : core_results) : Prop :=
  inputs r' = inputs r /\ crcs_kept r r' /\ (res_ok r -> res_ok r').

#[global] Instance res_rel_preorder : PreOrder res_rel.
Proof.
  split; unfold res_rel; [done|]. intros ??? (E1 & K1 & H1) (E2 & K2 & H2).
  split; [congruence|]. split; [by etransitivity|auto].
Qed.

Lemma res_ok_crcs (r : core_results) (c cl cm cs : Z) :
  is_uint 16 c -> crcs_kept r (set_crcs c cl cm cs r) -> res_rel r (set_crcs c cl cm cs r).
Proof. intros Hc Hk. split; [done|]. split; [done|]. intros []. by split. Qed.

Definition keep_cplx (d d' : list_data) : Prop := keep d d' /\ (cached d -> d' = d).

#[global] Instance keep_cplx_preorder : PreOrder keep_cplx.
Proof.
  split; unfold keep_cplx; [done|]. intros x y z [H1 R1] [H2 R2].
  split; [by etransitivity|]. intros Hc. rewrite <-(R1 Hc). apply R2. by rewrite (R1 Hc).
Qed.

Abbreviation ext_cplx := (wext keep_cplx res_rel).

(** A change of the results only. *)
Lemma ext_cplx_res (w : world) (f : core_results -> core_results) :
  res_rel (env w) (f (env w)) -> ext_cplx w (mk_world (heads w) (datas w) (f (env w))).
Proof. intros H. by split_and!. Qed.

Lemma run_state_run (w : world) (dtype : Z) :
  res_ok (env w) -> 2 <= dtype ->
  exists r, run_state state_fuel dtype w = Some (r, w) /\ is_sint 16 r.
Proof.
  intros Hok Hd. pose proof Hok as [Hs Hb Hby Hco Hf Hm Hc]. unfold run_state.
  rewrite (M_bind_Some get_res _ w w (env w)) by done. rewrite Hs.
  destruct (core_bench_state_same state_fuel (size (env w)) (state_mem (env w)) (seed1 (env w)) dtype (crc (env w)))
    as [r ->]; try done.
  { intros i Hi _ Hne. rewrite Forall_forall in Hco. apply Hco; [|done].
    destruct Hb as [Hl _]. apply aget_elem. lia. }
  cbv iota beta. rewrite (M_bind_Some _ _ _ w ()); [eexists; split; [done|by apply swrap_range]|].
  unfold modify_res, modify_world. destruct w as [h d []]. done.
Qed.

Lemma run_matrix_run (w : world) (dtype : Z) :
  res_ok (env w) -> is_sint 16 dtype ->
  exists r w', run_matrix dtype w = Some (r, w') /\ is_sint 16 r /\
    heads w' = heads w /\ datas w' = datas w /\ res_rel (env w) (env w').
Proof.
  intros Hok Hd. pose proof Hok as [Hs Hb Hby Hco Hf Hm Hc]. unfold run_matrix.
  rewrite (M_bind_Some get_res _ w w (env w)) by done. unfold core_bench_matrix.
  pose proof (matrix_test_run (mat (env w)) dtype Hm Hd) as Hspec. cbv zeta in Hspec.
  rewrite Hspec. cbv iota beta. eexists _, _. split; [reflexivity|]. split; [by apply swrap_range|].
  split; [done|]. split; [done|]. split; [done|]. split; [by split_and!|]. cbn [env]. intros []. split; try done.
  destruct Hm as (Hn & Hnn & HA & HB & HC). split_and!; try done.
  cbn. apply alen_tabulate. nia.
Qed.

Lemma nibble_range (x : Z) : 0 <= x .& 0xf < 16.
Proof. change 0xf with (Z.ones 4). rewrite Z.land_ones by lia. by apply Z.mod_pos_bound. Qed.

Lemma dtype_range (data : Z) :
  let d1 := s16 ((data .>> 3) .& 0xf) in is_uint 8 (s16 (d1 .| (d1 .<< 4))).
Proof.
  cbv zeta. pose proof (nibble_range (data .>> 3)) as Hn. set (n := (data .>> 3) .& 0xf) in *. clearbody n.
  unfold s16. rewrite (swrap_id 16 n) by (unfold is_sint; cbn; lia).
  rewrite Z.lor_comm, shiftl_lor_add by (unfold is_uint; cbn; lia). cbn [Z.pow Z.pow_pos Pos.iter].
  rewrite swrap_id; unfold is_uint, is_sint; cbn; lia.
Qed.

(** The value that [calc_func] stores for a computed [retval]. *)
Lemma cache_value (d : list_data) (retval : Z) :
  is_sint 16 (data16 d) ->
  let d' := mk_data (s16 ((data16 d .& 0xff00) .| 0x0080 .| (retval .& 0x007f))) (idx d) in
  keep d d' /\ cached d' /\ value d' = retval .& 0x7f.
Proof.
  intros H16 d'. set (low := 0x80 .| (retval .& 0x7f)).
  assert (is_uint 8 (retval .& 0x7f)) as H7 by (apply land_uint_r; [done|unfold is_uint; lia]).
  assert (is_uint 8 low) as Hlow by (apply lor_uint; [done|unfold is_uint; lia|done]).
  assert (data16 d' = with_low (data16 d) low) as E by (unfold with_low, low; cbn; by rewrite Z.lor_assoc).
  destruct (with_low_parts (data16 d) low H16 Hlow) as (E1 & E2 & E3).
  unfold keep, cached, value. rewrite E. split_and!; try done.
  - transitivity (Z.testbit (with_low (data16 d) low .& 0xff) 7).
    + rewrite Z.land_spec. by rewrite andb_true_r.
    + rewrite E2. unfold low. rewrite Z.lor_spec. done.
  - transitivity ((with_low (data16 d) low .& 0xff) .& 0x7f).
    + rewrite <-Z.land_assoc. done.
    + rewrite E2. unfold low. bitwise i Hi.
      destruct (Z.testbit 0x7f i) eqn:E7; rewrite ?andb_false_r, ?andb_true_r; [|done].
      assert (Z.testbit 0x80 i = false) as ->; [|done].
      change 0x80 with (2 ^ 7). rewrite Z.pow2_bits_eqb by lia. apply Z.eqb_neq. intros <-. done.
Qed.

Lemma value_range (d : list_data) : 0 <= value d < 128.
Proof. unfold value. change 0x7f with (Z.ones 7). rewrite Z.land_ones by lia. by apply Z.mod_pos_bound. Qed.

Lemma modify_if_run (w : world) (b : bool) (f : core_results -> core_results) :
  (b = true -> res_rel (env w) (f (env w))) ->
  exists w', (if b then modify_res f else mret ()) w = Some ((), w') /\
    heads w' = heads w /\ datas w' = datas w /\ res_rel (env w) (env w').
Proof.
  intros Hr. destruct b; eexists; (split; [reflexivity|]); (split; [done|]); (split; [done|]); [by apply Hr|].
  reflexivity.
Qed.

Lemma calc_result_run (w : world) (data : Z) :
  res_ok (env w) ->
  exists r w', calc_result state_fuel data w = Some (r, w') /\
    heads w' = heads w /\ datas w' = datas w /\ res_rel (env w) (env w').
Proof.
  intros Hok. unfold calc_result. pose proof (dtype_range data) as Hd. cbv zeta in *.
  set (dtype := s16 (s16 _ .| _)) in *. clearbody dtype.
  set (flag := s16 (data .& 0x7)). clearbody flag.
  assert (exists r w', (mret data : M world Z) w = Some (r, w') /\
    heads w' = heads w /\ datas w' = datas w /\ res_rel (env w) (env w')) as Hother by by exists data, w.
  destruct flag as [|[| |]|]; try exact Hother.
  - set (dt := if dtype <? 0x22 then 0x22 else dtype).
    destruct (run_state_run w dt Hok) as (r & Hr & H16).
    { unfold dt. destruct (Z.ltb_spec dtype 0x22); lia. }
    rewrite (M_bind_Some _ _ _ _ _ Hr), (M_bind_Some get_res _ w w (env w)) by done.
    destruct (modify_if_run w (crcstate (env w) =? 0) (set_crcstate (u16 r))) as (w1 & H1 & ? & ? & ?).
    { intros E%Z.eqb_eq. apply res_ok_crcs; [apply Hok|]. by split_and!. }
    exists r, w1. by rewrite (M_bind_Some _ _ _ _ _ H1).
  - destruct (run_matrix_run w dtype Hok) as (r & w1 & Hr & H16 & Hh & Hda & He).
    { unfold is_uint, is_sint in *. cbn in *. lia. }
    rewrite (M_bind_Some _ _ _ _ _ Hr), (M_bind_Some get_res _ w1 w1 (env w1)) by done.
    destruct (modify_if_run w1 (crcmatrix (env w1) =? 0) (set_crcmatrix (u16 r))) as (w2 & H2 & ? & ? & ?).
    { intros E%Z.eqb_eq. apply res_ok_crcs; [by apply He|]. by split_and!. }
    exists r, w2. rewrite (M_bind_Some _ _ _ _ _ H2). split_and!; [done|congruence|congruence|by etransitivity].
Qed.

Definition cached_at (w : world) (a : Z) : Prop :=
  exists d, item w a = Some d /\ cached d.

Definition le_cplx (L : Datatypes.list Z) (w : world) (a b : Z) : Prop :=
  exists da db, item w a = Some da /\ item w b = Some db /\ cached da /\ cached db /\
    (value da < value db \/ value da = value db /\ before L a b).

(** [calc_func] on the item of a cell: the item is cached afterwards, and the
    result is its cached value. *)
Lemma calc_func_run (L : Datatypes.list Z) (w : world) (a : Z) (ca : list_head) :
  items_ok L w -> res_ok (env w) -> a ∈ L -> heads w !! a = Some ca ->
  exists r w' d', calc_func state_fuel (info ca) w = Some (r, w') /\ ext_cplx w w' /\
    heads w' = heads w /\ items_ok L w' /\ res_ok (env w') /\
    item w' a = Some d' /\ cached d' /\ r = value d'.
Proof.
  intros Hok Hres Ha Hca. destruct (Hok a Ha) as (d & Hd & H16 & Hi).
  pose proof (item_cell _ _ _ _ Hca Hd) as Hdat. unfold calc_func.
  rewrite (M_bind_Some _ _ _ _ _ (rd_data_run w _ d Hdat)).
  assert (truthy (u8 ((data16 d .>> 7) .& 1)) = Z.testbit (data16 d) 7) as ->.
  { rewrite land_1_testbit, Z.shiftr_spec by lia. change (0 + 7) with 7.
    by destruct (Z.testbit (data16 d) 7). }
  destruct (Z.testbit (data16 d) 7) eqn:Hc.
  { exists (value d), w, d. split_and!; done. }
  destruct (calc_result_run w (data16 d) Hres) as (rv & w1 & Hr & Hh1 & Hd1 & Hrel1).
  rewrite (M_bind_Some _ _ _ _ _ Hr).
  set (f := fun res => set_crc (crcu16 (u16 rv) (crc res)) res).
  set (w2 := mk_world (heads w1) (datas w1) (f (env w1))).
  rewrite (M_bind_Some (modify_res f) _ w1 w2 ()) by done.
  assert (res_rel (env w1) (f (env w1))) as Hrel2.
  { apply res_ok_crcs; [|by split_and!]. apply crcu16_range. by apply Hrel1. }
  assert (datas w2 !! info ca = Some d) as Hdat2 by (cbn; congruence).
  cbv zeta. rewrite (M_bind_Some _ _ _ _ _ (wr_data_run w2 _ _ d Hdat2)).
  set (d' := mk_data _ (idx d)). set (w3 := set_datas _ w2).
  destruct (cache_value d rv H16) as (Hk & Hcd & Hv). fold d' in Hk, Hcd, Hv.
  assert (ext_cplx w w3) as He.
  { split_and!.
    - cbn. by rewrite Hh1.
    - cbn. rewrite Hd1. eapply datas_rel_insert; [typeclasses eauto|exact Hdat|].
      split; [done|]. unfold cached. by rewrite Hc.
    - cbn. by etransitivity. }
  exists (rv .& 0x7f), w3, d'. split_and!; try done.
  - eapply items_ok_ext; [|exact He|done]. by intros ?? [].
  - by apply He.
  - unfold item. cbn. rewrite Hh1, Hca. cbn. apply lookup_insert_eq.
Qed.

Lemma cached_item_ext (w w' : world) (a : Z) (d : list_data) :
  ext_cplx w w' -> item w a = Some d -> cached d -> item w' a = Some d.
Proof.
  intros He Hd Hc. destruct (wext_item _ _ _ _ _ _ He Hd) as (d' & Hd' & _ & Heq).
  by rewrite (Heq Hc) in Hd'.
Qed.

Lemma cmp_complex_spec (L : Datatypes.list Z) :
  NoDup L ->
  CmpSpec (cmp_complex state_fuel) (fun x => x ∈ L) (before L)
    (fun w => items_ok L w /\ res_ok (env w)) ext_cplx (le_cplx L) cached_at.
Proof.
  intros Hnd. split.
  - typeclasses eauto.
  - intros w w' a b He (da & db & Ha & Hb & Ca & Cb & Hor). exists da, db.
    split_and!; [by eapply cached_item_ext|by eapply cached_item_ext|done..].
  - intros w w' a He (d & Hd & Hc). exists d. split; [by eapply cached_item_ext|done].
  - intros w a b c (da & db & Ha & Hb & Ca & Cb & Hab) (db' & dc & Hb' & Hc & _ & Cc & Hbc).
    rewrite Hb in Hb'. injection Hb' as <-. exists da, dc. split_and!; [done..|].
    destruct Hab as [?|[? ?]], Hbc as [?|[? ?]]; [left; lia..|].
    right. split; [lia|]. by eapply before_trans.
  - intros w h' [Hok Hres] Hi. assert (ext_cplx w (set_heads h' w)) as He by by split_and!.
    split; [|done]. split; [|done]. eapply items_ok_ext; [|exact He|done]. by intros ?? [].
  - intros w a b ca cb [Hok Hres] Ha Hb Hbef Hca Hcb. unfold cmp_complex.
    destruct (calc_func_run L w a ca Hok Hres Ha Hca) as (va & w1 & da & Hr1 & He1 & Hh1 & Hok1 & Hres1 & Ia & Ca & ->).
    rewrite <-Hh1 in Hcb.
    destruct (calc_func_run L w1 b cb Hok1 Hres1 Hb Hcb) as (vb & w2 & db & Hr2 & He2 & Hh2 & Hok2 & Hres2 & Ib & Cb & ->).
    pose proof (cached_item_ext _ _ _ _ He2 Ia Ca) as Ia2.
    exists (value da - value db), w2.
    rewrite (M_bind_Some _ _ _ _ _ Hr1), (M_bind_Some _ _ _ _ _ Hr2).
    split_and!; [done|done|done|by etransitivity|congruence| | |by exists da|by exists db].
    + intros Hle. exists da, db. split_and!; [done..|].
      destruct (Z.lt_ge_cases (value da) (value db)); [by left|right]. split; [lia|done].
    + intros Hgt. exists db, da. split_and!; [done..|]. left. lia.
Qed.

(** C14: [core_list_mergesort] with [cmp_complex], which runs the state and
    matrix kernels while it sorts, terminates, keeps the cells and their items,
    caches every item's value and sorts the list by it (stably), and leaves the
    kernels' inputs as they were. *)
Theorem mergesort_by_value (fuel : nat) (w : world) (p : Z) (L : Datatypes.list Z) :
  path (heads w) p L 0 -> NoDup L -> items_ok L w -> res_ok (env w) ->
  (2 <= length L < fuel)%nat -> Z.of_nat (length L) < 2 ^ 30 ->
  exists r w' L', core_list_mergesort (cmp_complex state_fuel) fuel p w = Some (r, w') /\
    path (heads w') r L' 0 /\ L' ≡ₚ L /\ StronglySorted (le_cplx L w') L' /\
    Forall (cached_at w') L' /\ ext_cplx w w' /\
    forall x, x ∉ L -> heads w' !! x = heads w !! x.
Proof.
  intros Hp Hnd Hok Hres Hl H30.
  destruct (mergesort_run _ _ _ _ _ _ _ (cmp_complex_spec L Hnd) fuel w p L)
    as (r & w' & Hrun & L' & Hperm & Hp' & Hs & Ht & (_ & He & _ & Hout)); try done.
  - intros ->. cbn in Hl. lia.
  - by apply Forall_forall.
  - apply before_sorted.
  - lia.
  - exists r, w', L'. split_and!; try done. destruct Ht as [Ht|]; [|done].
    rewrite Hperm in Ht. lia.
Qed.
End Complex.

(** ** The benchmark iteration *)

Section Iteration.
Variable state_fuel : nat.
Variable fuel : nat.
Implicit Types w : world.

(** What the steps of the iteration preserve, for the cells of [L]. *)
Definition bench_rel (L : Datatypes.list Z) (w w' : world) : Prop :=
  wext keep (res_rel state_fuel) w w' /\ forall x, x ∉ L -> heads w' !! x = heads w !! x.

Lemma bench_rel_trans (L : Datatypes.list Z) (w1 w2 w3 : world) :
  bench_rel L w1 w2 -> bench_rel L w2 w3 -> bench_rel L w1 w3.
Proof.
  intros [H1 E1] [H2 E2]. split; [by etransitivity|]. intros x Hx. by rewrite E2, E1.
Qed.

Lemma bench_rel_refl (L : Datatypes.list Z) (w : world) : bench_rel L w w.
Proof. by split. Qed.

Lemma wext_mono (K K' : relation list_data) (E E' : relation core_results) (w w' : world) :
  (forall d d', K d d' -> K' d d') -> (forall r r', E r r' -> E' r r') ->
  wext K E w w' -> wext K' E' w w'.
Proof.
  intros HK HE (H1 & H2 & H3). split_and!; [done| |auto]. intros p. specialize (H2 p).
  destruct H2; constructor. auto.
Qed.

(** The list is in place: its cells are those of [L] in some order. *)
Record on_list (L : Datatypes.list Z) (w : world) (p : Z) (l : Datatypes.list Z) : Prop := {
  ol_path : path (heads w) p l 0;
  ol_perm : l ≡ₚ L;
  ol_items : items_ok L w;
  ol_res : res_ok state_fuel (env w);
}.

Lemma on_list_ext (L : Datatypes.list Z) (w w' : world) (p p' : Z) (l l' : Datatypes.list Z) :
  on_list L w p l -> bench_rel L w w' -> path (heads w') p' l' 0 -> l' ≡ₚ L -> on_list L w' p' l'.
Proof.
  intros [_ _ Hi Hr] [He _] Hp Hl. split; [done|done| |].
  - eapply items_ok_ext; [|exact He|done]. done.
  - by apply He.
Qed.

Lemma items_ok_valid (L l : Datatypes.list Z) (w : world) :
  items_ok L w -> (forall x, x ∈ l -> x ∈ L) -> items_valid w l.
Proof. intros Hi Hl x Hx. destruct (Hi x (Hl x Hx)) as (d & Hd & _). by exists d. Qed.

(** A step that only relinks cells of [L]. *)
Lemma bench_rel_heads (L : Datatypes.list Z) (w : world) (h : gmap Z list_head) :
  same_info (heads w) h -> (forall x, x ∉ L -> h !! x = heads w !! x) ->
  bench_rel L w (set_heads h w).
Proof. intros Hi Hk. split; [|done]. by split_and!. Qed.

Lemma find_run (L l : Datatypes.list Z) (w : world) (p : Z) (inf : list_data) :
  path (heads w) p l 0 -> items_valid w l -> (length l < fuel)%nat ->
  exists r, core_list_find fuel p inf w = Some (r, w) /\ exists l1 l2, l = l1 ++ l2 /\
    path (heads w) r l2 0.
Proof.
  intros Hp Hv Hf. unfold core_list_find. destruct (0 <=? idx inf);
    match goal with |- context [find_while fuel ?t p w] =>
      destruct (find_while_spec fuel t w p l Hp Hv Hf) as (r & Hr & l1 & l2 & El & Hp2 & _) end;
    exists r; (split; [exact Hr|]); by exists l1, l2.
Qed.

Lemma read_item (L : Datatypes.list Z) (w : world) (x : Z) (c : list_head) :
  items_ok L w -> x ∈ L -> heads w !! x = Some c ->
  exists d, rd_data (info c) w = Some (d, w) /\ item w x = Some d.
Proof.
  intros Hok Hx Hc. destruct (Hok x Hx) as (d & Hd & _). exists d.
  split; [|done]. apply rd_data_run. by eapply item_cell.
Qed.

(** The found cell's successor [f] is moved behind the head [a] of the list. *)
Lemma move_to_front_run (L : Datatypes.list Z) (w : world) (a x f : Z) (l l1 m : Datatypes.list Z)
    (cx : list_head) :
  on_list L w a l -> NoDup L -> l = l1 ++ x :: f :: m -> heads w !! x = Some cx -> next cx = f ->
  exists w' l', (hf ← rd f;
      _ ← wr_next x (next hf);
      hl ← rd a;
      _ ← wr_next f (next hl);
      wr_next a f) w = Some ((), w') /\ on_list L w' a l' /\ bench_rel L w w'.
Proof.
  intros Hol Hnd -> Hcx Hnx. pose proof Hol as [Hp Hperm Hi Hr].
  assert (NoDup (l1 ++ x :: f :: m)) as Hndl by by rewrite Hperm.
  assert (exists cf, heads w !! f = Some cf /\ f <> 0) as (cf & Hcf & Hf0).
  { destruct (path_elem _ _ _ f _ Hp) as [? [cf ?]]; [|by exists cf].
    apply elem_of_app. right. right. left. }
  pose proof (path_unlink _ _ _ _ _ _ _ _ _ Hp Hndl Hcx Hcf) as Hp1.
  set (h1 := <[x := mk_head (next cf) (info cx)]> (heads w)) in *.
  destruct (l1 ++ x :: m) as [|a' l2] eqn:El2; [by destruct l1|].
  assert (a' = a) as -> by (by destruct Hp1 as [-> _]).
  assert (f :: a :: l2 ≡ₚ l1 ++ x :: f :: m) as Hperm2.
  { rewrite <-El2.
    replace (l1 ++ x :: f :: m) with ((l1 ++ [x]) ++ f :: m) by by rewrite <-app_assoc.
    replace (l1 ++ x :: m) with ((l1 ++ [x]) ++ m) by by rewrite <-app_assoc.
    apply Permutation_middle. }
  assert (NoDup (f :: a :: l2)) as Hnd2 by by rewrite Hperm2.
  assert (x <> f) as Hxf.
  { intros ->. apply NoDup_app in Hndl as (_ & _ & [Hx _]%NoDup_cons). apply Hx. left. }
  assert (h1 !! f = Some cf) as Hcf1 by (unfold h1; by rewrite lookup_insert_ne).
  destruct (path_elem _ _ _ a _ Hp1) as [_ [ca Hca]]; [left|].
  pose proof (path_insert_second h1 a 0 a f l2 ca cf Hp1 Hnd2 Hf0 Hca) as Hp2.
  set (h2 := <[f := mk_head (next ca) (info cf)]> h1) in *.
  assert (h2 !! a = Some ca) as Hca2.
  { unfold h2. rewrite lookup_insert_ne; [done|]. intros ->.
    apply NoDup_cons in Hnd2 as [Ha _]. apply Ha. left. }
  unfold wr_next. rewrite (M_bind_Some _ _ _ _ _ (rd_run w f cf Hcf)).
  rewrite (M_bind_Some _ _ _ _ _ (wr_run w x _ cx Hcx)). fold h1.
  rewrite (M_bind_Some _ _ _ _ _ (rd_run (set_heads h1 w) a ca Hca)).
  rewrite (M_bind_Some _ _ _ _ _ (wr_run (set_heads h1 w) f _ cf Hcf1)). fold h2.
  change (set_heads h2 (set_heads h1 w)) with (set_heads h2 w).
  rewrite (wr_run (set_heads h2 w) a _ ca Hca2).
  eexists _, (a :: f :: l2). split; [done|].
  set (h3 := <[a := _]> _).
  assert (bench_rel L w (set_heads h3 w)) as Hrel.
  { apply bench_rel_heads.
    - etransitivity; [by apply (same_info_next _ x (next cf) cx)|].
      etransitivity; [by apply (same_info_next h1 f (next ca) cf)|].
      by apply (same_info_next h2 a f ca).
    - intros y Hy. rewrite <-Hperm, <-Hperm2 in Hy.
      apply not_elem_of_cons in Hy as [Hyf Hy]. apply not_elem_of_cons in Hy as [Hya Hy].
      unfold h3, h2, h1. cbn. rewrite !lookup_insert_ne; try done.
      intros <-. assert (x ∈ a :: l2) as Hx by (rewrite <-El2; apply elem_of_app; right; left).
      apply elem_of_cons in Hx as [?|?]; congruence. }
  split; [|exact Hrel]. eapply on_list_ext; [exact Hol|exact Hrel|exact Hp2|].
  rewrite <-Hperm, <-Hperm2. apply Permutation_swap.
Qed.

Section Steps.
Context (L : Datatypes.list Z) (HL : NoDup L) (Hfuel : (length L < fuel)%nat).

Lemma on_list_nodup (w : world) (p : Z) (l : Datatypes.list Z) : on_list L w p l -> NoDup l.
Proof. intros []. by rewrite ol_perm0. Qed.

Lemma on_list_length (w : world) (p : Z) (l : Datatypes.list Z) : on_list L w p l -> length l = length L.
Proof. intros []. by rewrite ol_perm0. Qed.

Lemma on_list_in (w : world) (p x : Z) (l : Datatypes.list Z) : on_list L w p l -> x ∈ l -> x ∈ L.
Proof. intros []. by rewrite ol_perm0. Qed.

Lemma reverse_on_list (w : world) (p : Z) (l : Datatypes.list Z) :
  on_list L w p l ->
  exists r w', core_list_reverse fuel p w = Some (r, w') /\ on_list L w' r (rev l) /\ bench_rel L w w'.
Proof.
  intros Hol. pose proof (on_list_length _ _ _ Hol) as Hlen.
  destruct (core_list_reverse_run fuel w p l) as (r & h & Hr & Hp' & Hi & Hk);
    [apply Hol|by eapply on_list_nodup|lia|].
  assert (bench_rel L w (set_heads h w)) as Hrel.
  { apply bench_rel_heads; [done|]. intros x Hx. apply Hk. intros ?. by eapply Hx, on_list_in. }
  exists r, (set_heads h w). split; [done|]. split; [|done].
  eapply on_list_ext; [exact Hol|exact Hrel|done|]. rewrite <-Permutation_rev. apply Hol.
Qed.

(** The data of the cell after the head. *)
Lemma on_list_two (w : world) (p : Z) (l : Datatypes.list Z) :
  on_list L w p l -> (2 <= length L)%nat ->
  exists x m c cx, l = p :: x :: m /\ heads w !! p = Some c /\ next c = x /\ heads w !! x = Some cx.
Proof.
  intros Hol Hl. pose proof (on_list_length _ _ _ Hol) as Hlen.
  destruct l as [|a [|x m]]; cbn in Hlen; [lia..|].
  pose proof (ol_path _ _ _ _ Hol) as (-> & _ & c & Hc & Hn & _ & cx & Hcx & _).
  by exists x, m, c, cx.
Qed.

Lemma found_run (w : world) (p x : Z) (l l1 l2 : Datatypes.list Z) :
  on_list L w p l -> l = l1 ++ x :: l2 ->
  exists h d w' l', heads w !! x = Some h /\ rd_data (info h) w = Some (d, w) /\
    (if truthy (next h) then
       let finder := next h in
       hf ← rd finder;
       _ ← wr_next x (next hf);
       hl ← rd p;
       _ ← wr_next finder (next hl);
       wr_next p finder
     else mret ()) w = Some ((), w') /\ on_list L w' p l' /\ bench_rel L w w'.
Proof.
  intros Hol El. pose proof (ol_path _ _ _ _ Hol) as Hp. rewrite El in Hp.
  apply path_app in Hp as (m & _ & -> & Hx0 & c & Hc & Hp).
  destruct (read_item L w x c) as (d & Hd & _); [apply Hol| |done|].
  { eapply on_list_in; [exact Hol|]. rewrite El. apply elem_of_app. right. left. }
  exists c, d. rewrite (path_null _ _ _ Hp). destruct l2 as [|f l2].
  - exists w, l. split_and!; [done..|]. apply bench_rel_refl.
  - pose proof Hp as (Hf & _). rewrite bool_decide_eq_false_2 by done. cbn [negb].
    destruct (move_to_front_run L w p x f l l1 l2 c Hol HL El Hc Hf) as (w' & l' & Hrun & Hol' & Hrel).
    exists w', l'. split_and!; try done. cbv zeta. by rewrite Hf.
Qed.

Lemma find_step_run (w : world) (i p iidx retval missed found : Z) (l : Datatypes.list Z) :
  on_list L w p l -> (2 <= length L)%nat -> is_uint 16 retval ->
  exists p' iidx' retval' missed' found' w' l',
    find_step fuel i (p, iidx, retval, missed, found) w = Some ((p', iidx', retval', missed', found'), w') /\
    is_uint 16 retval' /\ on_list L w' p' l' /\ bench_rel L w w'.
Proof.
  intros Hol Hl2 Hrv. unfold find_step. set (inf := mk_data _ iidx).
  pose proof (on_list_length _ _ _ Hol) as Hlen.
  destruct (find_run L l w p inf) as (r & Hr & l1 & l2 & El & Hp2); [apply Hol| |lia|].
  { eapply items_ok_valid; [apply Hol|]. intros x. by eapply on_list_in. }
  rewrite (M_bind_Some _ _ _ _ _ Hr).
  destruct (reverse_on_list w p l Hol) as (p1 & w1 & Hrev & Hol1 & Hrel1).
  rewrite (M_bind_Some _ _ _ _ _ Hrev). rewrite (path_null _ _ _ Hp2), negb_involutive.
  destruct l2 as [|x l2].
  - rewrite bool_decide_eq_true_2 by done.
    destruct (on_list_two w1 p1 (rev l) Hol1 Hl2) as (y & m & c & cy & El1 & Hc & Hn & Hcy).
    rewrite M_bind_assoc, (M_bind_Some _ _ _ _ _ (rd_run w1 p1 c Hc)). rewrite Hn.
    rewrite M_bind_assoc, (M_bind_Some _ _ _ _ _ (rd_run w1 y cy Hcy)).
    destruct (read_item L w1 y cy) as (d & Hd & _); [apply Hol1| |done|].
    { eapply on_list_in; [exact Hol1|]. rewrite El1. right. left. }
    rewrite M_bind_assoc, (M_bind_Some _ _ _ _ _ Hd), M_ret_bind.
    eexists _, _, _, _, _, w1, (rev l). split; [done|]. split_and!; [|done|done].
    by apply uwrap_range.
  - rewrite bool_decide_eq_false_2 by done. destruct Hp2 as [-> _].
    destruct (found_run w1 p1 x (rev l) (rev l2) (rev l1)) as (h & d & w2 & l' & Hh & Hd & Hmv & Hol2 & Hrel2);
      [done| |].
    { rewrite El, rev_app_distr. cbn. by rewrite <-app_assoc. }
    rewrite M_bind_assoc, (M_bind_Some _ _ _ _ _ (rd_run w1 x h Hh)).
    rewrite M_bind_assoc, (M_bind_Some _ _ _ _ _ Hd).
    rewrite M_bind_assoc, (M_bind_Some _ _ _ _ _ Hmv), M_ret_bind.
    eexists _, _, _, _, _, w2, l'. split; [done|]. split_and!; [|done|by eapply bench_rel_trans].
    destruct (truthy (data16 d .& 1)); [by apply uwrap_range|done].
Qed.

Lemma find_loop_run (n : nat) (w : world) (i p iidx retval missed found : Z) (l : Datatypes.list Z) :
  on_list L w p l -> (2 <= length L)%nat -> is_uint 16 retval ->
  exists p' iidx' retval' missed' found' w' l',
    find_loop fuel n i (p, iidx, retval, missed, found) w = Some ((p', iidx', retval', missed', found'), w') /\
    is_uint 16 retval' /\ on_list L w' p' l' /\ bench_rel L w w'.
Proof.
  revert w i p iidx retval missed found l.
  induction n as [|n IH]; intros w i p iidx retval missed found l Hol Hl2 Hrv; cbn [find_loop].
  - eexists _, _, _, _, _, w, l. split; [done|]. split_and!; [done|done|apply bench_rel_refl].
  - destruct (find_step_run w i p iidx retval missed found l Hol Hl2 Hrv)
      as (p1 & i1 & r1 & m1 & f1 & w1 & l1 & H1 & Hr1 & Hol1 & Hrel1).
    rewrite (M_bind_Some _ _ _ _ _ H1).
    destruct (IH w1 (i + 1) p1 i1 r1 m1 f1 l1 Hol1 Hl2 Hr1)
      as (p2 & i2 & r2 & m2 & f2 & w2 & l2 & H2 & Hr2 & Hol2 & Hrel2).
    exists p2, i2, r2, m2, f2, w2, l2. split_and!; [done..|by eapply bench_rel_trans].
Qed.

(** The CRC loops read the head's item once per remaining cell. *)
Lemma crc_loop_run (w : world) (p f retval : Z) (c : list_head) (l : Datatypes.list Z) (d : list_data) :
  heads w !! p = Some c -> datas w !! info c = Some d -> path (heads w) f l 0 ->
  is_uint 16 retval -> (length l < fuel)%nat ->
  crc_loop fuel p f retval w = Some (crc_stream ((fun _ => data16 d) <$> l) retval, w).
Proof.
  intros Hc Hd Hp Hrv Hf. unfold crc_loop.
  assert (forall n f l retval, path (heads w) f l 0 -> (length l < n)%nat ->
    while_M n (fun '(finder, _) => mret (truthy finder))
    (fun '(finder, retval) =>
       h ← rd p; d ← rd_data (info h);
       let retval := crc16 (data16 d) retval in
       hf ← rd finder;
       mret (next hf, retval)) (f, retval) w =
    Some ((0, crc_stream ((fun _ => data16 d) <$> l) retval), w)) as H.
  { clear Hp Hrv Hf f l retval. induction n as [|n IH]; intros f l retval Hp Hn; [lia|].
    cbn [while_M]. rewrite M_ret_bind, (path_null _ _ _ Hp). destruct l as [|x l].
    { cbn in Hp. by subst f. }
    rewrite bool_decide_eq_false_2 by done. cbn [negb].
    apply path_cons_inv in Hp as (-> & _ & cx & Hcx & Hp).
    rewrite M_bind_assoc, (M_bind_Some _ _ _ _ _ (rd_run w p c Hc)).
    rewrite M_bind_assoc, (M_bind_Some _ _ _ _ _ (rd_data_run w _ d Hd)). cbv zeta.
    rewrite M_bind_assoc, (M_bind_Some _ _ _ _ _ (rd_run w x cx Hcx)), M_ret_bind.
    rewrite (IH (next cx) l) by (done || (cbn in Hn; lia)). done. }
  rewrite (M_bind_Some _ _ _ _ _ (H fuel f l retval Hp Hf)). done.
Qed.

Lemma crc_stream_uint (l : Datatypes.list Z) (c : Z) : is_uint 16 c -> is_uint 16 (crc_stream l c).
Proof. apply crc_stream_range. Qed.

(** The remove, find, CRC and undo of the iteration leave the world as it was. *)
Lemma crc_without_one_run (w : world) (p retval : Z) (inf : list_data) (l : Datatypes.list Z) :
  on_list L w p l -> (3 <= length L)%nat -> is_uint 16 retval ->
  exists retval', crc_without_one fuel p inf retval w = Some (retval', w) /\ is_uint 16 retval'.
Proof.
  intros Hol Hl3 Hrv. pose proof (on_list_length _ _ _ Hol) as Hlen.
  pose proof (on_list_nodup _ _ _ Hol) as Hnd.
  pose proof (ol_path _ _ _ _ Hol) as Hp. destruct l as [|a [|x [|y m]]]; cbn in Hlen; [lia..|].
  pose proof Hp as (-> & Ha0 & c & Hc & Hn & Hx0 & cx & Hcx & Hnx & Hy0 & cy & Hcy & Hm).
  apply NoDup_cons in Hnd as [Ha Hnd]. apply NoDup_cons in Hnd as [Hx Hnd].
  apply NoDup_cons in Hnd as [Hy Hnd].
  apply not_elem_of_cons in Ha as [Hax Ha]. apply not_elem_of_cons in Ha as [Hay Ham].
  apply not_elem_of_cons in Hx as [Hxy Hxm].
  unfold crc_without_one. rewrite (M_bind_Some _ _ _ _ _ (rd_run w a c Hc)), Hn.
  rewrite (M_bind_Some _ _ _ _ _ (core_list_remove_run w x y cx cy Hcx Hnx Hcy Hxy)).
  set (h1 := <[y := _]> _). set (w1 := set_heads h1 w).
  assert (heads w1 !! a = Some c) as Hc1 by (cbn; unfold h1; by rewrite !lookup_insert_ne).
  assert (heads w1 !! x = Some (mk_head (next cy) (info cy))) as Hcx1.
  { cbn. unfold h1. by rewrite lookup_insert_ne, lookup_insert_eq. }
  assert (path (heads w1) x (x :: m) 0) as Hpx.
  { cbn [path]. split_and!; [done|done|]. exists (mk_head (next cy) (info cy)). split; [done|].
    by apply path_insert, path_insert. }
  assert (path (heads w1) a (a :: x :: m) 0) as Hp1.
  { cbn [path]. split_and!; [done|done|]. exists c. split; [done|]. by rewrite Hn. }
  assert (forall z, z ∈ a :: x :: y :: m -> z ∈ L) as Hin by (intros z; by eapply on_list_in).
  destruct (ol_items _ _ _ _ Hol a) as (da & Hda & _); [apply Hin; left|].
  assert (items_valid w1 (a :: x :: m)) as Hv.
  { intros z [->|[->|Hz]%elem_of_cons]%elem_of_cons.
    - unfold item. rewrite Hc1. cbn. pose proof (item_cell _ _ _ _ Hc Hda) as E. by exists da.
    - destruct (ol_items _ _ _ _ Hol y) as (dy & Hdy & _); [apply Hin; right; right; left|].
      unfold item. rewrite Hcx1. cbn. pose proof (item_cell _ _ _ _ Hcy Hdy) as E. by exists dy.
    - destruct (ol_items _ _ _ _ Hol z) as (dz & Hdz & _); [apply Hin; by do 3 right|].
      exists dz. unfold item in *. cbn. unfold h1.
      rewrite !lookup_insert_ne by congruence. done. }
  destruct (find_run (a :: x :: m) (a :: x :: m) w1 a inf Hp1 Hv) as (r & Hr & l1 & l2 & El & Hp2);
    [cbn [length]; lia|].
  rewrite (M_bind_Some _ _ _ _ _ Hr).
  assert (exists f lf, (if negb (truthy r) then h ← rd a; mret (next h) else mret r) w1 = Some (f, w1) /\
    path (heads w1) f lf 0 /\ (length lf <= length (a :: x :: m))%nat) as (f & lf & Hf & Hpf & Hlf).
  { rewrite (path_null _ _ _ Hp2), negb_involutive. case_bool_decide as E.
    - exists x, (x :: m). rewrite (M_bind_Some _ _ _ _ _ (rd_run w1 a c Hc1)), Hn.
      split_and!; [done|done|cbn; lia].
    - exists r, l2. split_and!; [done|done|]. rewrite El, length_app. lia. }
  rewrite (M_bind_Some _ _ _ _ _ Hf).
  pose proof (item_cell _ _ _ _ Hc Hda) as Hdat.
  rewrite (M_bind_Some _ _ _ _ _ (crc_loop_run w1 a f retval c lf da Hc1 Hdat Hpf Hrv ltac:(cbn in *; lia))).
  rewrite (M_bind_Some _ _ _ _ _ (rd_run w1 a c Hc1)), Hn.
  assert (heads w1 !! y = Some (mk_head 0 (info cx))) as Hcy1 by (cbn; unfold h1; by rewrite lookup_insert_eq).
  rewrite (M_bind_Some _ _ _ _ _ (core_list_undo_remove_run w1 x y _ _ Hcx1 Hcy1 Hxy)).
  eexists. split; [|by apply crc_stream_uint]. unfold mret, M_ret. do 2 f_equal.
  unfold w1, set_heads. cbn. destruct w as [hw dw ew]. cbn in *. f_equal. apply map_eq. intros z.
  destruct (decide (z = x)) as [->|]; [rewrite lookup_insert_eq, Hcx; destruct cx; cbn in *; congruence|].
  rewrite lookup_insert_ne by done.
  destruct (decide (z = y)) as [->|]; [rewrite lookup_insert_eq, Hcy; by destruct cy|].
  unfold h1. by rewrite !lookup_insert_ne.
Qed.

Lemma items_ok_perm (l : Datatypes.list Z) (w : world) : l ≡ₚ L -> items_ok L w -> items_ok l w.
Proof. intros Hl Hi x Hx. apply Hi. by rewrite <-Hl. Qed.

Lemma sort_on_list (w w' : world) (p r : Z) (l l' : Datatypes.list Z) (K : relation list_data)
    (E : relation core_results) :
  on_list L w p l -> (forall d d', K d d' -> keep d d') ->
  (forall e e', E e e' -> res_rel state_fuel e e') ->
  wext K E w w' -> l' ≡ₚ l -> path (heads w') r l' 0 ->
  (forall x, x ∉ l -> heads w' !! x = heads w !! x) ->
  on_list L w' r l' /\ bench_rel L w w'.
Proof.
  intros Hol HK HE He Hl' Hp' Hout.
  assert (bench_rel L w w') as Hrel.
  { split; [by eapply wext_mono|]. intros x Hx. apply Hout. intros ?. by eapply Hx, on_list_in. }
  split; [|done]. eapply on_list_ext; [exact Hol|done|done|]. rewrite Hl'. apply Hol.
Qed.

Lemma sort_by_value_run (w : world) (p : Z) (l : Datatypes.list Z) :
  on_list L w p l -> (2 <= length L)%nat -> Z.of_nat (length L) < 2 ^ 30 ->
  exists r w' l', core_list_mergesort (cmp_complex state_fuel) fuel p w = Some (r, w') /\
    on_list L w' r l' /\ bench_rel L w w'.
Proof.
  intros Hol Hl2 H30. pose proof (on_list_length _ _ _ Hol) as Hlen.
  pose proof (on_list_nodup _ _ _ Hol) as Hnd.
  destruct (mergesort_run _ _ _ _ _ _ _ (cmp_complex_spec state_fuel l Hnd) fuel w p l)
    as (r & w' & Hrun & l' & Hperm & Hp' & _ & _ & (_ & He & _ & Hout)); try apply Hol; try done.
  - split; [|apply Hol]. eapply items_ok_perm; apply Hol.
  - intros ->. cbn in *. lia.
  - by apply Forall_forall.
  - apply before_sorted.
  - lia.
  - lia.
  - exists r, w', l'. split; [done|].
    eapply sort_on_list; [exact Hol| | |exact He|done|done|done]; [by intros ?? []|done].
Qed.

Lemma sort_by_index_run (w : world) (p : Z) (l : Datatypes.list Z) :
  on_list L w p l -> (2 <= length L)%nat -> Z.of_nat (length L) < 2 ^ 30 ->
  exists r w' l', core_list_mergesort (cmp_idx true) fuel p w = Some (r, w') /\
    on_list L w' r l' /\ bench_rel L w w' /\
    StronglySorted (le_idx l w') l' /\ Forall (regen_at w') l'.
Proof.
  intros Hol Hl2 H30. pose proof (on_list_length _ _ _ Hol) as Hlen.
  pose proof (on_list_nodup _ _ _ Hol) as Hnd.
  destruct (mergesort_run _ _ _ _ _ _ _ (cmp_idx_spec l Hnd) fuel w p l)
    as (r & w' & Hrun & l' & Hperm & Hp' & Hs & Ht & (_ & He & _ & Hout)); try apply Hol; try done.
  - eapply items_ok_perm; apply Hol.
  - intros ->. cbn in *. lia.
  - by apply Forall_forall.
  - apply before_sorted.
  - lia.
  - lia.
  - exists r, w', l'. split; [done|].
    destruct (sort_on_list w w' p r l l' keep_idx eq Hol) as [Hol' Hrel];
      [by intros ?? []|by intros ?? ->|done..|].
    split; [done|]. split; [done|]. split; [done|]. destruct Ht as [Ht|]; [|done]. rewrite Hperm in Ht. lia.
Qed.
End Steps.
End Iteration.

(** ** An iteration leaves the list as it found it *)

Definition key (w : world) (x : Z) : Z := match item w x with Some d => idx d | None => 0 end.

(** The list as [core_list_init] leaves it: in strict index order, all data
    equal to its backup. *)
Record pristine (L : Datatypes.list Z) (w : world) : Prop := {
  pr_sorted : StronglySorted (fun a b => key w a < key w b) L;
  pr_regen : Forall (regen_at w) L;
}.

Lemma sorted_key_inj (f : Z -> Z) (L : Datatypes.list Z) (a b : Z) :
  StronglySorted (fun a b => f a < f b) L -> a ∈ L -> b ∈ L -> f a = f b -> a = b.
Proof.
  induction 1 as [|x l Hs IH Hf]; [by intros ?%elem_of_nil|].
  rewrite Forall_forall in Hf. intros [->|Ha]%elem_of_cons [->|Hb]%elem_of_cons E; [done| | |auto].
  - specialize (Hf b Hb). lia.
  - specialize (Hf a Ha). lia.
Qed.

Lemma StronglySorted_impl {A : Type} (R1 R2 : relation A) (l : Datatypes.list A) :
  (forall a b, R1 a b -> R2 a b) -> StronglySorted R1 l -> StronglySorted R2 l.
Proof.
  intros HR. induction 1 as [|x l Hs IH Hf]; constructor; [done|].
  eapply Forall_impl; [exact Hf|]. auto.
Qed.

Lemma pristine_unique (L l l' : Datatypes.list Z) (state_fuel : nat) (w w' : world) :
  pristine L w -> bench_rel state_fuel L w w' -> items_ok L w ->
  StronglySorted (le_idx l w') l' -> l' ≡ₚ L -> l' = L.
Proof.
  intros [Hs _] [He _] Hok Hs' Hp.
  assert (forall x, x ∈ L -> key w' x = key w x) as Hkey.
  { intros x Hx. destruct (Hok x Hx) as (d & Hd & _).
    destruct (wext_item _ _ _ _ _ _ He Hd) as (d' & Hd' & Ei & _).
    unfold key. by rewrite Hd, Hd'. }
  apply (StronglySorted_unique_strong (fun a b => key w' a <= key w' b)); [| | |done].
  - intros a b Ha Hb H1 H2. rewrite Hp in Ha. eapply sorted_key_inj; [exact Hs|done|done|].
    rewrite <-!Hkey by done. lia.
  - eapply StronglySorted_impl; [|exact Hs']. intros a b (da & db & Ha & Hb & Hor).
    unfold key. rewrite Ha, Hb. lia.
  - assert (forall l, (forall x, x ∈ l -> x ∈ L) -> StronglySorted (fun a b => key w a < key w b) l ->
      StronglySorted (fun a b => key w' a <= key w' b) l) as H; [|by apply H].
    clear -Hkey. intros l Hin. induction 1 as [|x l Hs IH Hf]; constructor.
    + apply IH. intros y Hy. apply Hin. by right.
    + rewrite Forall_forall in *. intros y Hy. rewrite !Hkey; [|apply Hin; by right|apply Hin; left].
      specialize (Hf y Hy). lia.
Qed.

Lemma pristine_item (L : Datatypes.list Z) (state_fuel : nat) (w w' : world) (x : Z) :
  pristine L w -> bench_rel state_fuel L w w' -> Forall (regen_at w') L -> x ∈ L ->
  item w' x = item w x.
Proof.
  intros [_ Hr] [He _] Hr' Hx. rewrite Forall_forall in Hr, Hr'.
  destruct (Hr x Hx) as (d & Hd & _ & Hrd). destruct (Hr' x Hx) as (d' & Hd' & _ & Hrd').
  destruct (wext_item _ _ _ _ _ _ He Hd) as (d2 & Hd2 & Ei & E8 & _).
  rewrite Hd' in Hd2. injection Hd2 as <-. rewrite Hd, Hd'. f_equal.
  unfold regenerated in *.
  assert (data16 d' = data16 d) as E by (apply data16_eq; congruence).
  destruct d, d'. cbn in *. congruence.
Qed.

(** The run of an iteration. *)
Lemma core_bench_list_run (state_fuel fuel : nat) (w : world) (finder_idx : Z) (L : Datatypes.list Z) :
  path (heads w) (list (env w)) L 0 -> NoDup L -> items_ok L w -> res_ok state_fuel (env w) ->
  pristine L w -> (3 <= length L < fuel)%nat -> Z.of_nat (length L) < 2 ^ 30 ->
  exists crc w', core_bench_list state_fuel fuel finder_idx w = Some (crc, w') /\
    is_uint 16 crc /\ heads w' = heads w /\ (forall x, x ∈ L -> item w' x = item w x) /\
    inputs (env w') = inputs (env w) /\ crcs_kept (env w) (env w') /\ res_ok state_fuel (env w').
Proof.
  intros Hp Hnd Hok Hres Hpr Hl H30. unfold core_bench_list.
  rewrite (M_bind_Some get_res _ w w (env w)) by done.
  assert (on_list state_fuel L w (list (env w)) L) as Hol by by split.
  destruct (find_loop_run state_fuel fuel L Hnd ltac:(lia) (Z.to_nat (seed3 (env w))) w 0 (list (env w))
    finder_idx 0 0 0 L Hol ltac:(lia) ltac:(unfold is_uint; lia))
    as (p1 & ii & rv & ms & fd & w1 & l1 & H1 & Hrv & Hol1 & Hrel1).
  rewrite (M_bind_Some _ _ _ _ _ H1). cbv zeta. set (inf := mk_data _ ii).
  set (rv1 := u16 _). assert (is_uint 16 rv1) as Hrv1 by by apply uwrap_range.
  assert (exists p2 w2 l2, (if 0 <? finder_idx then core_list_mergesort (cmp_complex state_fuel) fuel p1
      else mret p1) w1 = Some (p2, w2) /\ on_list state_fuel L w2 p2 l2 /\ bench_rel state_fuel L w1 w2)
    as (p2 & w2 & l2 & H2 & Hol2 & Hrel2).
  { destruct (0 <? finder_idx).
    - destruct (sort_by_value_run state_fuel fuel L Hnd ltac:(lia) w1 p1 l1 Hol1) as (p2 & w2 & l2 & ?);
        [lia|done|]. by exists p2, w2, l2.
    - exists p1, w1, l1. split_and!; [done..|apply bench_rel_refl]. }
  rewrite (M_bind_Some _ _ _ _ _ H2).
  destruct (crc_without_one_run state_fuel fuel L Hnd ltac:(lia) w2 p2 rv1 inf l2 Hol2) as (rv2 & H3 & Hrv2);
    [lia|done|].
  rewrite (M_bind_Some _ _ _ _ _ H3).
  destruct (sort_by_index_run state_fuel fuel L Hnd ltac:(lia) w2 p2 l2 Hol2)
    as (p3 & w3 & l3 & H4 & Hol3 & Hrel3 & Hs3 & Hr3); [lia|done|].
  rewrite (M_bind_Some _ _ _ _ _ H4).
  assert (bench_rel state_fuel L w w3) as Hrel.
  { eapply bench_rel_trans; [exact Hrel1|]. by eapply bench_rel_trans. }
  assert (l3 = L) as -> by (eapply pristine_unique; [exact Hpr|exact Hrel|done|exact Hs3|apply Hol3]).
  destruct (on_list_two state_fuel fuel L ltac:(lia) w3 p3 L Hol3 ltac:(lia)) as (x & m & c & cx & EL & Hc & Hn & Hcx).
  rewrite (M_bind_Some _ _ _ _ _ (rd_run w3 p3 c Hc)).
  destruct (read_item L w3 p3 c (ol_items _ _ _ _ _ Hol3)) as (d & _ & Hd); [rewrite EL; left|done|].
  pose proof (ol_path _ _ _ _ _ Hol3) as Hp3.
  assert (path (heads w3) (next c) (x :: m) 0) as Hpn.
  { rewrite EL in Hp3. destruct Hp3 as (_ & _ & c' & Hc' & Hq). rewrite Hc in Hc'.
    injection Hc' as <-. done. }
  rewrite (crc_loop_run fuel L ltac:(lia) w3 p3 (next c) rv2 c (x :: m) d Hc (item_cell _ _ _ _ Hc Hd) Hpn Hrv2)
    by (rewrite EL in Hl; cbn [length] in *; lia).
  eexists _, w3. split; [done|]. split; [by apply crc_stream_range|].
  destruct Hrel as [He Hout].
  split; [|split; [|split; [apply He|split; [apply He|by apply He]]]].
  - apply map_eq. intros z. destruct (decide (z ∈ L)) as [Hz|Hz]; [|by apply Hout].
    eapply path_same; [exact Hp|exact Hp3|apply He|done].
  - intros z Hz. by eapply pristine_item; [exact Hpr|by split| |].
Qed.

(** C11: an iteration of the list benchmark (reversals, moves, the sort by
    value with the other kernels inside it, the remove and its undo, the sort
    by index) terminates without touching anything outside the list and leaves
    the list exactly as it was: every cell's link and item, and the inputs of
    the other kernels. *)
Theorem core_bench_list_restores (state_fuel fuel : nat) (w : world) (finder_idx : Z) (L : Datatypes.list Z) :
  path (heads w) (list (env w)) L 0 -> NoDup L -> items_ok L w -> res_ok state_fuel (env w) ->
  pristine L w -> (3 <= length L < fuel)%nat -> Z.of_nat (length L) < 2 ^ 30 ->
  exists crc w', core_bench_list state_fuel fuel finder_idx w = Some (crc, w') /\
    is_uint 16 crc /\ heads w' = heads w /\ (forall x, x ∈ L -> item w' x = item w x) /\
    inputs (env w') = inputs (env w) /\ res_ok state_fuel (env w').
Proof.
  intros. destruct (core_bench_list_run state_fuel fuel w finder_idx L)
    as (crc & w' & ? & ? & ? & ? & ? & _ & ?); [done..|]. by exists crc, w'.
Qed.

Module ListBenchWitness.
(** A list of three cells, a three-byte state block and 1x1 matrices. *)
Definition r0 : core_results := mk_results 0 0 2 3 1 7 8 [49; 0; 0] (mk_mat 1 [2] [3] [0]) 0 0 0 0 0.
Definition w0 : world := mk_world
  (list_to_map [(8, mk_head 16 100); (16, mk_head 24 104); (24, mk_head 0 108)])
  (list_to_map [(100, mk_data (-32640) 0); (104, mk_data 257 1); (108, mk_data (-1) 0x7fff)]) r0.
Definition L0 : Datatypes.list Z := [8; 16; 24].

Lemma path0 : path (heads w0) 8 L0 0.
Proof. repeat (split; [done|]). by repeat (eexists; split; [reflexivity|]; repeat (split; [done|])). Qed.

Lemma nodup0 : NoDup L0.
Proof. by apply (bool_decide_unpack _); vm_compute. Qed.

Lemma in_L0 (x : Z) : x ∈ L0 -> x = 8 \/ x = 16 \/ x = 24.
Proof. unfold L0. rewrite !elem_of_cons, elem_of_nil. tauto. Qed.

Lemma items0 : items_ok L0 w0.
Proof.
  intros x [->|[->| ->]]%in_L0; (eexists; split; [reflexivity|]); unfold is_sint; cbn; lia.
Qed.

Lemma res0 : res_ok 100 r0.
Proof.
  split; cbn; try done.
  - split; [done|]. exists 1. by split.
  - by apply (bool_decide_unpack _); vm_compute.
  - by apply (bool_decide_unpack _); vm_compute.
  - lia.
  - split_and!; try done; (split; [done|]); apply Forall_singleton; unfold is_sint; cbn; lia.
Qed.

Lemma pristine0 : pristine L0 w0.
Proof.
  split.
  - repeat constructor.
  - apply Forall_forall. intros x [->|[->| ->]]%in_L0;
      (eexists; split; [reflexivity|]); split; unfold is_sint, regenerated; cbn; (lia || done).
Qed.

Lemma core_bench_list_restores_witness : exists crc w',
  core_bench_list 100 10 1 w0 = Some (crc, w') /\
  is_uint 16 crc /\ heads w' = heads w0 /\ (forall x, x ∈ L0 -> item w' x = item w0 x) /\
  inputs (env w') = inputs (env w0) /\ res_ok 100 (env w').
Proof.
  apply (core_bench_list_restores 100 10 w0 1 L0);
    [apply path0|apply nodup0|apply items0|apply res0|apply pristine0|cbn; lia|done].
Defined.

Lemma mergesort_by_index_witness : exists r w' L',
  core_list_mergesort (cmp_idx true) 10 8 w0 = Some (r, w') /\
  path (heads w') r L' 0 /\ L' ≡ₚ L0 /\ StronglySorted (le_idx L0 w') L' /\
  Forall (regen_at w') L' /\ wext keep_idx eq w0 w' /\
  forall x, x ∉ L0 -> heads w' !! x = heads w0 !! x.
Proof.
  apply (mergesort_by_index 10 w0 8 L0); [apply path0|apply nodup0|apply items0|cbn; lia|done].
Defined.

Lemma mergesort_by_value_witness : exists r w' L',
  core_list_mergesort (cmp_complex 100) 10 8 w0 = Some (r, w') /\
  path (heads w') r L' 0 /\ L' ≡ₚ L0 /\ StronglySorted (le_cplx L0 w') L' /\
  Forall (cached_at w') L' /\ wext keep_cplx (res_rel 100) w0 w' /\
  forall x, x ∉ L0 -> heads w' !! x = heads w0 !! x.
Proof.
  apply (mergesort_by_value 100 10 w0 8 L0);
    [apply path0|apply nodup0|apply items0|apply res0|cbn; lia|done].
Defined.

Lemma core_list_reverse_involutive_witness : exists r w',
  core_list_reverse 10 8 w0 = Some (r, w') /\ path (heads w') r (rev L0) 0 /\
  core_list_reverse 10 r w' = Some (8, w0).
Proof. apply (core_list_reverse_involutive 10 w0 8 L0); [apply path0|apply nodup0|cbn; lia]. Defined.

Lemma core_list_remove_undo_witness : exists w',
  core_list_remove 8 w0 = Some (16, w') /\
  path (heads w') 8 [8; 24] 0 /\ path (heads w') 16 [16] 0 /\
  info <$> heads w' !! 8 = info <$> heads w0 !! 16 /\
  info <$> heads w' !! 16 = info <$> heads w0 !! 8 /\
  core_list_undo_remove 16 8 (set_datas ∅ w') = Some (16, set_datas ∅ w0).
Proof. apply (core_list_remove_undo w0 8 16 [24] ∅); [apply path0|apply nodup0]. Defined.

Lemma core_list_mergesort_empty_witness : core_list_mergesort (cmp_idx true) 10 0 w0 = None.
Proof. apply (core_list_mergesort_empty (cmp_idx true) 10 w0). reflexivity. Defined.
End ListBenchWitness.
