(* ===== verification/PortTime.v ===== *)
(** * The port layer, [src/fpga/coremark/core_portme.c] and its header

    The kind of run and its volatile seeds, the sizes of the port's types, and
    the timing.  The cycle counter is read as 32 bits and the elapsed ticks are
    a difference modulo 2^32; seconds are a [double], computed with the Standard
    Library's executable IEEE-754 binary64 ([SpecFloat]).  The lemmas show that
    the comparisons and the truncation the benchmark makes on that [double]
    agree with exact arithmetic on ticks. *)

From Stdlib Require Import SpecFloat.
From S2P Require Import Prelude.

(** ** Configuration *)

(** Of the three run macros, the one set on the command line, or the one the
    header selects by the size of the data. *)
Inductive run_kind : Type := VALIDATION_RUN | PERFORMANCE_RUN | PROFILE_RUN.

Definition default_run (TOTAL_DATA_SIZE : Z) : run_kind :=
  if TOTAL_DATA_SIZE =? 1200 then PROFILE_RUN
  else if TOTAL_DATA_SIZE =? 2000 then PERFORMANCE_RUN
  else VALIDATION_RUN.

(** [seed1_volatile] to [seed5_volatile]. *)
Definition volatile_seeds (run : run_kind) (ITERATIONS : Z) : list Z :=
  match run with
  | VALIDATION_RUN => [0x3415; 0x3415; 0x66]
  | PERFORMANCE_RUN => [0; 0; 0x66]
  | PROFILE_RUN => [8; 8; 8]
  end ++ [ITERATIONS; 0].

(** ** Definitions *)

Definition CLOCKS_PER_SEC : Z := 60000000.
Definition TIMER_RES_DIVIDER : Z := 1.
Definition EE_TICKS_PER_SEC : Z := CLOCKS_PER_SEC / TIMER_RES_DIVIDER.

(** The hardware counter and the port's two static variables. *)
Record clock : Type := mk_clock { mtime : Z; start_time_val : Z; stop_time_val : Z }.

(** [CLINT_MTIME_LO] *)
Definition barebones_clock (c : clock) : Z := u32 (mtime c).

Definition start_time (c : clock) : clock := mk_clock (mtime c) (barebones_clock c) (stop_time_val c).
Definition stop_time (c : clock) : clock := mk_clock (mtime c) (start_time_val c) (barebones_clock c).
Definition get_time (c : clock) : Z := u32 (stop_time_val c - start_time_val c).

(** The counter runs for [n] cycles. *)
Definition elapse (n : Z) (c : clock) : clock := mk_clock (mtime c + n) (start_time_val c) (stop_time_val c).

(** [secs_ret] is [double]. *)
Abbreviation double := spec_float.
Abbreviation PREC := 53 (only parsing).
Abbreviation EMAX := 1024 (only parsing).

Definition double_of (n : Z) : double := binary_normalize PREC EMAX n 0 false.

Definition time_in_secs (ticks : Z) : double :=
  SFdiv PREC EMAX (double_of ticks) (double_of EE_TICKS_PER_SEC).

(** The conversion of a non-negative [double] to [ee_u32]: undefined when the
    value does not fit. *)
Definition u32_of_double (x : double) : option Z :=
  match x with
  | S754_zero _ => Some 0
  | S754_finite false m e => let n := Z.shiftl (Zpos m) e in if n <? 2 ^ 32 then Some n else None
  | _ => None
  end.

Example secs_of_one : SFltb (time_in_secs 59999999) (double_of 1) = true
  /\ SFltb (time_in_secs 60000000) (double_of 1) = false
  /\ u32_of_double (time_in_secs 4294967295) = Some 71.
Proof. by vm_compute. Qed.

(** ** Binary64 rounding *)

Lemma digits2_log2 (p : positive) : Zpos (digits2_pos p) = Z.log2 (Zpos p) + 1.
Proof.
  induction p as [p IH|p IH|]; [| |done]; cbn [digits2_pos]; rewrite Pos2Z.inj_succ, IH.
  - rewrite (Pos2Z.inj_xI p), Z.log2_succ_double by done. lia.
  - rewrite (Pos2Z.inj_xO p), Z.log2_double by done. lia.
Qed.

Lemma digits2_range (n k : Z) : 0 < k -> 2 ^ (k - 1) <= n < 2 ^ k -> Zdigits2 n = k.
Proof.
  intros Hk Hn. assert (0 < 2 ^ (k - 1)) by (apply Z.pow_pos_nonneg; lia).
  destruct n as [|p|p]; [lia| |lia]. cbn [Zdigits2]. rewrite digits2_log2.
  rewrite (Z.log2_unique (Zpos p) (k - 1)); [lia|lia|]. replace (Z.succ (k - 1)) with k by lia. done.
Qed.

(** Rounding to nearest is off by at most half a unit. *)
Lemma round_error (q st r : Z) :
  0 <= r < st -> let v := round_nearest_even q (new_location_even st r) in
  q <= v <= q + 1 /\ Z.abs (2 * (v * st) - 2 * (q * st + r)) <= st.
Proof.
  intros Hr. unfold new_location_even, round_nearest_even. cbv zeta.
  destruct (Z.eqb_spec r 0); [split; lia|].
  destruct (Z.compare_spec (2 * r) st); [destruct (Z.even q)|..]; split; nia.
Qed.

(** A shift by one bit halves the mantissa and doubles the unit. *)
Lemma shr_1_location (q st r : Z) :
  0 < q -> 0 <= r < st ->
  let x := shr_1 (shr_record_of_loc q (new_location_even st r)) in
  shr_m x = q / 2 /\
  loc_of_shr_record x = new_location_even (2 * st) (q mod 2 * st + r).
Proof.
  intros Hq Hr. destruct q as [|p|p]; [lia| |lia]. cbv zeta. unfold new_location_even.
  assert (exists h b, Zpos p / 2 = h /\ Zpos p mod 2 = b /\ (b = 0 \/ b = 1) /\
    forall x y, shr_1 (Build_shr_record (Zpos p) x y) = Build_shr_record h (0 <? b) (x || y))
    as (h & b & Eh & Eb & Hb & Hs).
  { destruct p as [p|p|].
    - exists (Zpos p), 1. rewrite (Pos2Z.inj_xI p). split; [divlia|]. split; [divlia|]. split; [by right|done].
    - exists (Zpos p), 0. rewrite (Pos2Z.inj_xO p). split; [divlia|]. split; [divlia|]. split; [by left|done].
    - exists 0, 1. split; [done|]. split; [done|]. split; [by right|done]. }
  rewrite Eh, Eb. clear Eh Eb.
  destruct (Z.eqb_spec r 0) as [->|Hr0].
  - cbn [shr_record_of_loc]. rewrite Hs. split; [done|]. destruct Hb as [-> | ->]; [done|].
    destruct (Z.eqb_spec (1 * st + 0) 0); [lia|]. cbn.
    destruct (Z.compare_spec (2 * (1 * st + 0)) (2 * st)); (lia || done).
  - assert (shr_1 (shr_record_of_loc (Zpos p) (loc_Inexact (2 * r ?= st))) = Build_shr_record h (0 <? b) true) as ->.
    { destruct (2 * r ?= st); cbn [shr_record_of_loc]; by rewrite Hs. }
    split; [done|]. destruct (Z.eqb_spec (b * st + r) 0); [nia|].
    destruct Hb as [-> | ->]; cbn [Z.ltb Z.compare loc_of_shr_record].
    + destruct (Z.compare_spec (2 * (0 * st + r)) (2 * st)); (lia || done).
    + destruct (Z.compare_spec (2 * (1 * st + r)) (2 * st)); (lia || done).
Qed.

Lemma shr_fexp_0 (q e : Z) (l : location) :
  2 ^ 52 <= q < 2 ^ 53 -> -200 <= e <= 201 ->
  shr_fexp 53 1024 q e l = (shr_record_of_loc q l, e).
Proof.
  intros Hq He. unfold shr_fexp. rewrite (digits2_range q 53) by lia.
  unfold fexp, emin. replace (Z.max _ _ - e) with 0 by lia. done.
Qed.

Lemma shr_fexp_1 (q e : Z) (l : location) :
  2 ^ 53 <= q < 2 ^ 54 -> -200 <= e <= 201 ->
  shr_fexp 53 1024 q e l = (shr_1 (shr_record_of_loc q l), e + 1).
Proof.
  intros Hq He. unfold shr_fexp. rewrite (digits2_range q 54) by lia.
  unfold fexp, emin. replace (Z.max _ _ - e) with 1 by lia. done.
Qed.

(** Rounding a 53- or 54-bit quotient [q + r / st], at exponent [e]: the result
    has a full mantissa and is off by at most half a unit. *)
Lemma round_aux_spec (q st r e : Z) :
  2 ^ 52 <= q < 2 ^ 54 -> 0 <= r < st -> -200 <= e <= 200 ->
  exists m j, binary_round_aux 53 1024 false q e (new_location_even st r) = S754_finite false m (e + j) /\
    0 <= j <= 2 /\ 2 ^ 52 <= Zpos m < 2 ^ 53 /\
    Z.abs (2 * (Zpos m * (2 ^ j * st)) - 2 * (q * st + r)) <= 2 ^ j * st.
Proof.
  intros Hq Hr He. unfold binary_round_aux.
  assert (exists q' st' r' k mrs, shr_fexp 53 1024 q e (new_location_even st r) = (mrs, e + k) /\
    0 <= k <= 1 /\ shr_m mrs = q' /\ loc_of_shr_record mrs = new_location_even st' r' /\
    2 ^ 52 <= q' < 2 ^ 53 /\ 0 <= r' < st' /\ st' = 2 ^ k * st /\ q' * st' + r' = q * st + r)
    as (q' & st' & r' & k & mrs & -> & Hk & -> & -> & Hq' & Hr' & Est & Eq).
  { destruct (Z.lt_ge_cases q (2 ^ 53)).
    - exists q, st, r, 0, (shr_record_of_loc q (new_location_even st r)).
      rewrite shr_fexp_0, Z.add_0_r by lia. split_and!; try (lia || done).
      + by destruct (new_location_even st r) as [|[]].
      + by destruct (new_location_even st r) as [|[]].
    - destruct (shr_1_location q st r) as [E1 E2]; [lia|done|].
      exists (q / 2), (2 * st), (q mod 2 * st + r), 1, (shr_1 (shr_record_of_loc q (new_location_even st r))).
      rewrite shr_fexp_1 by lia. pose proof (Z.div_mod q 2 ltac:(lia)). pose proof (Z.mod_pos_bound q 2 ltac:(lia)).
      split_and!; try (lia || done); nia. }
  destruct (round_error q' st' r' Hr') as [Hv Herr]. set (v := round_nearest_even _ _) in *. clearbody v.
  destruct (Z.eq_dec v (2 ^ 53)) as [Ev|Ev].
  - rewrite shr_fexp_1 by lia. subst v. change (shr_1 _) with (Build_shr_record (2 ^ 52) false false).
    cbv zeta iota beta. cbn [shr_m]. change (2 ^ 52) with (Zpos (2 ^ 52)) at 1. cbv iota.
    destruct (Z.leb_spec (e + k + 1) (1024 - 53)); [|lia].
    exists (2 ^ 52)%positive, (k + 1). split; [by rewrite Z.add_assoc|]. split; [lia|]. split; [done|].
    rewrite Z.pow_add_r by lia. change (Z.pos (2 ^ 52)) with (2 ^ 52). nia.
  - rewrite shr_fexp_0 by lia. cbn [shr_record_of_loc shr_m]. destruct v as [|m|m]; [lia| |lia].
    destruct (Z.leb_spec (e + k) (1024 - 53)); [|lia].
    exists m, k. split; [done|]. split; [lia|]. split; [lia|]. subst st'. nia.
Qed.

Lemma iter_xO (p k : positive) : Zpos (Pos.iter xO p k) = Zpos p * 2 ^ Zpos k.
Proof.
  induction k as [|k IH] using Pos.peano_ind.
  { change (Pos.iter xO p 1) with (xO p). rewrite (Pos2Z.inj_xO p). lia. }
  rewrite Pos.iter_succ, Pos2Z.inj_xO, IH, Pos2Z.inj_succ, Z.pow_succ_r by lia. lia.
Qed.

(** Integers below 2^52 are represented exactly. *)
Lemma double_of_spec (n d : Z) :
  1 <= d <= 52 -> 2 ^ (d - 1) <= n < 2 ^ d ->
  exists m, double_of n = S754_finite false m (d - 53) /\ Zpos m = n * 2 ^ (53 - d) /\
    2 ^ 52 <= Zpos m < 2 ^ 53.
Proof.
  intros Hd Hn. assert (0 < 2 ^ (d - 1)) by (apply Z.pow_pos_nonneg; lia).
  destruct n as [|p|p]; [lia| |lia]. unfold double_of, binary_normalize, binary_round.
  change (Z.pos (digits2_pos p)) with (Zdigits2 (Zpos p)). rewrite (digits2_range (Zpos p) d) by lia.
  unfold fexp, emin. replace (Z.max _ _) with (d - 53) by lia. unfold shl_align.
  destruct (d - 53 - 0) as [|k|k] eqn:Ek; [lia|lia|].
  pose proof (iter_xO p k) as Hm. replace (Zpos k) with (53 - d) in Hm by lia.
  assert (2 ^ 52 <= Z.pos (Pos.iter xO p k) < 2 ^ 53) as Hr.
  { rewrite Hm. replace (2 ^ 52) with (2 ^ (d - 1) * 2 ^ (53 - d)) by (rewrite <-Z.pow_add_r by lia; f_equal; lia).
    replace (2 ^ 53) with (2 ^ d * 2 ^ (53 - d)) by (rewrite <-Z.pow_add_r by lia; f_equal; lia).
    assert (0 < 2 ^ (53 - d)) by (apply Z.pow_pos_nonneg; lia). nia. }
  exists (Pos.iter xO p k). split; [|done]. unfold binary_round_aux.
  rewrite shr_fexp_0 by lia. cbn [shr_record_of_loc shr_m loc_of_shr_record round_nearest_even].
  rewrite shr_fexp_0 by lia. cbn [shr_record_of_loc shr_m].
  destruct (Z.leb_spec (d - 53) (1024 - 53)); [done|lia].
Qed.

(** The quotient of the ticks [t] by the clock rate. *)
Lemma time_in_secs_spec (t : Z) :
  0 < t < 2 ^ 32 -> exists m f,
    time_in_secs t = S754_finite false m (- f) /\ 40 <= f <= 78 /\ 2 ^ 52 <= Zpos m < 2 ^ 53 /\
    Z.abs (2 * Zpos m * CLOCKS_PER_SEC - 2 * t * 2 ^ f) <= CLOCKS_PER_SEC.
Proof.
  intros Ht. set (d := Z.log2 t + 1).
  assert (2 ^ (d - 1) <= t < 2 ^ d) as Htd.
  { unfold d. replace (Z.log2 t + 1 - 1) with (Z.log2 t) by lia. apply Z.log2_spec. lia. }
  assert (1 <= d <= 32) as Hd.
  { unfold d. pose proof (Z.log2_nonneg t). pose proof (Z.log2_lt_pow2 t 32). lia. }
  destruct (double_of_spec t d) as (m & Em & Hm & Hmr); [lia|done|]. unfold time_in_secs. rewrite Em.
  change (double_of EE_TICKS_PER_SEC) with (S754_finite false (60000000 * 2 ^ 27) (-27)).
  unfold SFdiv, SFdiv_core_binary. rewrite (digits2_range (Zpos m) 53) by lia.
  change (Zdigits2 (Z.pos (60000000 * 2 ^ 27))) with 53. unfold fexp, emin.
  replace (Z.min _ _) with (d - 79) by lia. replace (d - 53 - -27 - (d - 79)) with 53 by lia.
  cbv iota zeta. rewrite Z.shiftl_mul_pow2 by lia.
  set (st := Z.pos (60000000 * 2 ^ 27)). assert (st = CLOCKS_PER_SEC * 2 ^ 27) as Est by done.
  unfold CLOCKS_PER_SEC in *.
  pose proof (Z_div_mod (Z.pos m * 2 ^ 53) st ltac:(done)) as Hdiv. destruct (Z.div_eucl _ _) as [q r].
  destruct Hdiv as [Eq Hr]. unfold new_location. change (Z.even st) with true. cbv iota.
  change (xorb false false) with false.
  destruct (round_aux_spec q st r (d - 79)) as (m' & j & -> & Hj & Hm' & He); [|done|lia|].
  { clearbody st. subst st. nia. }
  exists m', (79 - d - j). split; [f_equal; lia|]. split; [lia|]. split; [done|].
  rewrite <-Eq, Hm, Est in He || rewrite (Z.mul_comm q), <-Eq, Hm, Est in He.
  assert (0 < 2 ^ j) by (apply Z.pow_pos_nonneg; lia).
  assert (t * 2 ^ (53 - d) * 2 ^ 53 = t * 2 ^ (79 - d - j) * 2 ^ j * 2 ^ 27) as E2.
  { rewrite <-!Z.mul_assoc, <-!Z.pow_add_r by lia. do 2 f_equal. lia. }
  rewrite E2 in He. set (f := 2 ^ (79 - d - j)) in *. clearbody f. clear -He H. nia.
Qed.

(** The comparison with one second and with ten seconds, and the truncation to
    whole seconds, are exact. *)
Lemma secs_truncate (t : Z) : is_uint 32 t -> u32_of_double (time_in_secs t) = Some (t / CLOCKS_PER_SEC).
Proof.
  intros Ht. destruct (Z.eq_dec t 0) as [->|]; [done|]. unfold is_uint in Ht.
  destruct (time_in_secs_spec t) as (m & f & -> & Hf & Hm & He); [lia|]. unfold u32_of_double.
  rewrite Z.shiftl_div_pow2 by lia. replace (- - f) with f by lia.
  assert (2 ^ 40 <= 2 ^ f) as Hp by (apply Z.pow_le_mono_r; lia). unfold CLOCKS_PER_SEC in *.
  set (F := 2 ^ f) in *. clearbody F. clear Hf.
  pose proof (Z.div_mod t 60000000 ltac:(lia)) as Hdm. pose proof (Z.mod_pos_bound t 60000000 ltac:(lia)) as Hmb.
  set (q := t / 60000000) in *. set (r := t mod 60000000) in *. clearbody q r.
  assert (Z.pos m / F = q) as ->; [|destruct (Z.ltb_spec q (2 ^ 32)); [done|lia]].
  symmetry. apply Z.div_unique_pos with (Z.pos m - F * q); [|lia]. subst t. nia.
Qed.

Lemma secs_lt (t k : Z) :
  is_uint 32 t -> 1 <= k < 2 ^ 32 ->
  SFltb (time_in_secs t) (double_of k) = (t <? k * EE_TICKS_PER_SEC).
Proof.
  intros Ht Hk. change EE_TICKS_PER_SEC with CLOCKS_PER_SEC.
  assert (1 <= Z.log2 k + 1 <= 32) as Hd.
  { pose proof (Z.log2_nonneg k). pose proof (Z.log2_lt_pow2 k 32). lia. }
  set (d := Z.log2 k + 1) in *.
  destruct (double_of_spec k d) as (mk & -> & Emk & Hmk); [lia|..].
  { unfold d. replace (Z.log2 k + 1 - 1) with (Z.log2 k) by lia. apply Z.log2_spec. lia. }
  destruct (Z.eq_dec t 0) as [->|Ht0].
  { change (time_in_secs 0) with (S754_zero false). symmetry. apply Z.ltb_lt. unfold CLOCKS_PER_SEC. lia. }
  unfold is_uint in Ht. destruct (time_in_secs_spec t) as (m & f & -> & Hf & Hm & He); [lia|].
  unfold SFltb. cbn [SFcompare].
  transitivity (Z.pos m <? k * 2 ^ f).
  - destruct (Z.compare_spec (- f) (d - 53)) as [E|E|E]; symmetry.
    + change (Pos.compare_cont Eq m mk) with (m ?= mk)%positive.
      replace (k * 2 ^ f) with (Z.pos mk) by (rewrite Emk; do 2 f_equal; lia). done.
    + apply Z.ltb_lt. replace (2 ^ f) with (2 ^ (53 - d) * 2 ^ (f - (53 - d)))
        by (rewrite <-Z.pow_add_r by lia; f_equal; lia).
      assert (2 ^ 1 <= 2 ^ (f - (53 - d))) by (apply Z.pow_le_mono_r; lia). nia.
    + apply Z.ltb_ge. replace (2 ^ (53 - d)) with (2 ^ f * 2 ^ (53 - d - f)) in Emk
        by (rewrite <-Z.pow_add_r by lia; f_equal; lia).
      assert (2 ^ 1 <= 2 ^ (53 - d - f)) by (apply Z.pow_le_mono_r; lia).
      assert (0 < 2 ^ f) by (apply Z.pow_pos_nonneg; lia). nia.
  - assert (2 ^ 40 <= 2 ^ f) as Hp by (apply Z.pow_le_mono_r; lia). unfold CLOCKS_PER_SEC in *.
    set (F := 2 ^ f) in *. clearbody F. clear Hf Hd Emk Hmk.
    destruct (Z.ltb_spec (Z.pos m) (k * F)), (Z.ltb_spec t (k * 60000000)); nia.
Qed.

(** ** The clock *)

(** The difference of two 32-bit readings is the elapsed time modulo 2^32. *)
Lemma get_time_elapsed (c : clock) (n : Z) :
  get_time (stop_time (elapse n (start_time c))) = u32 n.
Proof.
  unfold get_time, stop_time, elapse, start_time, barebones_clock. cbn. unfold u32, uwrap.
  rewrite Zminus_mod_idemp_l, Zminus_mod_idemp_r. f_equal. lia.
Qed.

Lemma get_time_exact (c : clock) (n : Z) :
  is_uint 32 n -> get_time (stop_time (elapse n (start_time c))) = n.
Proof. intros Hn. rewrite get_time_elapsed. by apply uwrap_id. Qed.

(** Timing a run of [n] cycles that fits in 32 bits: [get_time] returns
    [n], the [double] returned by [time_in_secs] compares with any whole number
    of seconds as [n] does, and its truncation is the whole number of seconds. *)
Theorem timing_exact (c : clock) (n k : Z) :
  is_uint 32 n -> 1 <= k < 2 ^ 32 ->
  let ticks := get_time (stop_time (elapse n (start_time c))) in
  ticks = n /\
  SFltb (time_in_secs ticks) (double_of k) = (n <? k * EE_TICKS_PER_SEC) /\
  u32_of_double (time_in_secs ticks) = Some (n / EE_TICKS_PER_SEC).
Proof.
  intros Hn Hk ticks. assert (ticks = n) as -> by by apply get_time_exact.
  split; [done|]. split; [by apply secs_lt|by apply secs_truncate].
Qed.

Lemma timing_exact_witness :
  let ticks := get_time (stop_time (elapse 600000000 (start_time (mk_clock 4294967290 0 0)))) in
  ticks = 600000000 /\
  SFltb (time_in_secs ticks) (double_of 10) = (600000000 <? 10 * EE_TICKS_PER_SEC) /\
  u32_of_double (time_in_secs ticks) = Some (600000000 / EE_TICKS_PER_SEC).
Proof. apply (timing_exact (mk_clock 4294967290 0 0) 600000000 10); [done|lia]. Defined.
