(* ===== verification/EeFloat.v ===== *)
(** * Printing a [double]: [src/fpga/coremark/cvt.c] and the [HAS_FLOAT] half of
    [src/fpga/coremark/ee_printf.c]

    The digit generator over the Standard Library's binary64 ([SpecFloat]), the
    text of a number in the three formats, and the padded field.  Buffers are
    arrays with checked indices: an access outside of one is [None], as is a
    loop that does not end. *)

From Stdlib Require Import SpecFloat.
From S2P Require Import Prelude CoreUtil PortTime.

(** ** Doubles *)

Definition dmul : double -> double -> double := SFmul PREC EMAX.
Definition dadd : double -> double -> double := SFadd PREC EMAX.
Definition ddiv : double -> double -> double := SFdiv PREC EMAX.

Definition D0 : double := S754_zero false.
Definition D1 : double := double_of 1.
Definition D10 : double := double_of 10.
(** The literal [.03]. *)
Definition D003 : double := S754_finite false 8646911284551352 (-58).

Definition nonzero (x : double) : bool := match x with S754_zero _ => false | _ => true end.

(** [modf] of the C library: the fraction and the integral part, both with the
    sign of the argument. *)
Definition modf (x : double) : double * double :=
  match x with
  | S754_finite s m e =>
      if 0 <=? e then (S754_zero s, x)
      else
        let sgn z := if s then - z else z in
        let ip := Zpos m / 2 ^ (- e) in
        let fp := Zpos m mod 2 ^ (- e) in
        (binary_normalize PREC EMAX (sgn fp) e s, binary_normalize PREC EMAX (sgn ip) 0 s)
  | S754_zero s => (x, x)
  | S754_infinity s => (S754_zero s, x)
  | S754_nan => (x, x)
  end.

(** The conversion to [int]: undefined when the value does not fit. *)
Definition int_of_double (x : double) : option Z :=
  match x with
  | S754_zero _ => Some 0
  | S754_finite s m e =>
      let n := Z.shiftl (Zpos m) e in
      let n := if s then - n else n in
      if (- 2 ^ 31 <=? n) && (n <? 2 ^ 31) then Some n else None
  | _ => None
  end.

(** ** [cvt.c] *)

Definition CVTBUFSIZE : Z := 80.

(** The integral part's digits, stored backwards from the end of [buf]. *)
Fixpoint cvt_int (fuel : nat) (fi : double) (p1 r2 : Z) (buf : list Z) : option (Z * Z * list Z) :=
  if nonzero fi then
    match fuel with
    | O => None
    | S f =>
        let '(fj, fi) := modf (ddiv fi D10) in
        d ← int_of_double (dmul (dadd fj D003) D10);
        let p1 := p1 - 1 in
        buf ← awrite buf p1 (u8 (d + 48));
        cvt_int f fi p1 (r2 + 1) buf
    end
  else Some (p1, r2, buf).

(** [while (p1 < &buf[CVTBUFSIZE]) *p++ = *p1++;] *)
Fixpoint cvt_move (n : nat) (p p1 : Z) (buf : list Z) : option (Z * list Z) :=
  match n with
  | O => Some (p, buf)
  | S n' => c ← aread buf p1; buf ← awrite buf p c; cvt_move n' (p + 1) (p1 + 1) buf
  end.

(** Leading zeros of a number below one. *)
Fixpoint cvt_scale (fuel : nat) (arg : double) (r2 : Z) : option (double * Z) :=
  let fj := dmul arg D10 in
  if SFltb fj D1 then match fuel with O => None | S f => cvt_scale f fj (r2 - 1) end
  else Some (arg, r2).

(** [while (p <= p1 && p < &buf[CVTBUFSIZE])]: digits of the fraction. *)
Fixpoint cvt_frac (n : nat) (arg : double) (p : Z) (buf : list Z) : option (Z * list Z) :=
  match n with
  | O => Some (p, buf)
  | S n' =>
      let '(arg, fj) := modf (dmul arg D10) in
      d ← int_of_double fj;
      buf ← awrite buf p (u8 (d + 48));
      cvt_frac n' arg (p + 1) buf
  end.

(** [while ( *p1 > '9')]: the carry of the rounding; the state is [p1], [p],
    [*decpt] and the buffer. *)
Fixpoint cvt_carry (fuel : nat) (eflag : bool) (p1 p decpt : Z) (buf : list Z) : option (Z * Z * list Z) :=
  c ← aread buf p1;
  if 57 <? c then
    match fuel with
    | O => None
    | S f =>
        buf ← awrite buf p1 48;
        if 0 <? p1 then
          c ← aread buf (p1 - 1);
          buf ← awrite buf (p1 - 1) (u8 (c + 1));
          cvt_carry f eflag (p1 - 1) p decpt buf
        else
          buf ← awrite buf p1 49;
          if eflag then cvt_carry f eflag p1 p (decpt + 1) buf
          else
            buf ← (if 0 <? p then awrite buf p 48 else Some buf);
            cvt_carry f eflag p1 (p + 1) (decpt + 1) buf
    end
  else Some (p, decpt, buf).

(** The digits before the point, or the leading zeros behind it: what is left
    of the number, where the next digit goes, [r2] and the buffer. *)
Definition cvt_start (arg fi : double) (buf : list Z) : option (double * Z * Z * list Z) :=
  if nonzero fi then
    '(p1, r2, buf) ← cvt_int 81 fi CVTBUFSIZE 0 buf;
    '(p, buf) ← cvt_move (Z.to_nat (CVTBUFSIZE - p1)) 0 p1 buf;
    Some (arg, p, r2, buf)
  else if SFltb D0 arg then
    '(arg, r2) ← cvt_scale 400 arg 0; Some (arg, 0, r2, buf)
  else Some (arg, 0, 0, buf).

(** Rounding at [p1]; the result is the buffer and [*decpt]. *)
Definition cvt_round (eflag : bool) (p1 decpt : Z) (buf : list Z) : option (list Z * Z) :=
  c ← aread buf p1;
  buf ← awrite buf p1 (u8 (c + 5));
  '(p, decpt, buf) ← cvt_carry (2 * Z.to_nat CVTBUFSIZE) eflag p1 p1 decpt buf;
  buf ← awrite buf p 0;
  Some (buf, decpt).

(** [buf] is what the caller's buffer holds; the result is its new contents,
    [*decpt] and [*sign]. *)
Definition cvt (arg : double) (ndigits : Z) (buf : list Z) (eflag : bool) : option (list Z * Z * bool) :=
  let ndigits := if ndigits <? 0 then 0 else ndigits in
  let ndigits := if CVTBUFSIZE - 1 <=? ndigits then CVTBUFSIZE - 2 else ndigits in
  let '(sign, arg) := if SFltb arg D0 then (true, SFopp arg) else (false, arg) in
  let '(arg, fi) := modf arg in
  '(arg, p, r2, buf) ← cvt_start arg fi buf;
  let p1 := if eflag then ndigits else ndigits + r2 in
  let decpt := r2 in
  if p1 <? 0 then buf ← awrite buf 0 0; Some (buf, decpt, sign)
  else
    '(_, buf) ← cvt_frac (Z.to_nat (Z.min (p1 + 1) CVTBUFSIZE - p)) arg p buf;
    if CVTBUFSIZE <=? p1 then buf ← awrite buf (CVTBUFSIZE - 1) 0; Some (buf, decpt, sign)
    else '(buf, decpt) ← cvt_round eflag p1 decpt buf; Some (buf, decpt, sign).

Definition ecvtbuf (arg : double) (ndigits : Z) (buf : list Z) : option (list Z * Z * bool) :=
  cvt arg ndigits buf true.
Definition fcvtbuf (arg : double) (ndigits : Z) (buf : list Z) : option (list Z * Z * bool) :=
  cvt arg ndigits buf false.

(** The characters of the string in a buffer. *)
Fixpoint c_string (l : list Z) : list Z :=
  match l with [] => [] | c :: l' => if c =? 0 then [] else c :: c_string l' end.

(** ** [ee_printf.c], the text of a [double] *)

(** [ee_bufcpy]: [count] characters from the start of [ps]; with a negative
    count the loop would not meet its end. *)
Fixpoint ee_bufcpy (ps : list Z) (count : nat) {struct count} : option (list Z) :=
  match count with
  | O => Some []
  | S n => match ps with [] => None | c :: ps' => r ← ee_bufcpy ps' n; Some (c :: r) end
  end.

(** [char tmp[80]] of [flt], which [parse_float] and [decimal_point] fill: a text
    that does not fit with its final zero is undefined. *)
Definition TMPSIZE : Z := 80.
Definition fits (s : list Z) : option (list Z) := if alen s <? TMPSIZE then Some s else None.

(** The exponent field: sign and three digits. *)
Definition exp_text (e : Z) : list Z :=
  let a := Z.abs e in
  [if e <? 0 then 45 else 43; u8 (Z.rem (a ÷ 100) 10 + 48); u8 (Z.rem (a ÷ 10) 10 + 48); u8 (Z.rem a 10 + 48)].

Definition e_text (value : double) (capexp : bool) (precision decpt : Z) (sign : bool) (digits : list Z)
    : option (list Z) :=
  c ← aread digits 0;
  frac ← (if precision <? 0 then None else ee_bufcpy (tail digits) (Z.to_nat precision));
  let e := if decpt =? 0 then (if nonzero value then -1 else 0) else decpt - 1 in
  Some ((if sign then [45] else []) ++ [c] ++ (if 0 <? precision then [46] else []) ++ frac
          ++ [if capexp then 69 else 101] ++ exp_text e).

(** The digits of a number at least one, the point after the first [decpt]. *)
Fixpoint point_at (pos decpt : Z) (digits : list Z) : list Z :=
  match digits with
  | [] => []
  | c :: ds => (if pos =? decpt then [46] else []) ++ c :: point_at (pos + 1) decpt ds
  end.

Definition f_text (precision decpt : Z) (sign : bool) (digits : list Z) : list Z :=
  (if sign then [45] else []) ++
  match digits with
  | [] => [48] ++ (if 0 <? precision then 46 :: repeat 48 (Z.to_nat precision) else [])
  | _ => if decpt <=? 0 then [48; 46] ++ repeat 48 (Z.to_nat (- decpt)) ++ digits else point_at 0 decpt digits
  end.

(** [buf] is what the uninitialised [cvtbuf] holds; the result is the string
    left in [buffer], which is [tmp] of [flt]. *)
Definition parse_float (buf : list Z) (value : double) (fmt precision : Z) : option (list Z) :=
  let '(capexp, fmt) := if (fmt =? 71) || (fmt =? 69) then (true, fmt + 32) else (false, fmt) in
  '(fmt, precision, buf) ←
    (if fmt =? 103 then
       '(buf, decpt, _) ← ecvtbuf value precision buf;
       let magnitude := decpt - 1 in
       Some (if (magnitude <? -4) || (precision - 1 <? magnitude) then (101, precision - 1, buf)
             else (102, precision - decpt, buf))
     else Some (fmt, precision, buf));
  if fmt =? 101 then
    '(buf, decpt, sign) ← ecvtbuf value (precision + 1) buf;
    r ← e_text value capexp precision decpt sign buf; fits r
  else if fmt =? 102 then
    '(buf, decpt, sign) ← fcvtbuf value precision buf;
    fits (f_text precision decpt sign (c_string buf))
  else Some [].

(** The string up to its first point or exponent letter, and the rest. *)
Fixpoint to_point (s : list Z) : list Z * list Z :=
  match s with
  | [] => ([], [])
  | c :: s' =>
      if (c =? 46) || (c =? 101) || (c =? 69) then ([], s)
      else let '(a, b) := to_point s' in (c :: a, b)
  end.

(** In front of an exponent the characters from the second on are moved up by
    one and the first is overwritten.  The final zero moves up by one as well. *)
Definition decimal_point (s : list Z) : option (list Z) :=
  match to_point s with
  | (_, 46 :: _) => Some s
  | (a, b) =>
      if alen s + 1 <? TMPSIZE then
        Some (a ++ 46 :: match b with [] => [] | _ :: b => match b with [] => [] | c :: _ => c :: b end end)
      else None
  end.

Fixpoint drop_zeros (s : list Z) : list Z :=
  match s with c :: s' => if c =? 48 then drop_zeros s' else s | [] => [] end.

(** The digits after the point, up to an exponent. *)
Fixpoint fraction (s : list Z) : list Z :=
  match s with
  | [] => []
  | c :: s' => if (c =? 101) || (c =? 69) then [] else c :: fraction s'
  end.

(** The fraction loses its trailing zeros, and the point when none of it is
    left; everything behind it is cut off. *)
Fixpoint cropzeros (s : list Z) : list Z :=
  match s with
  | [] => []
  | c :: s' =>
      if c =? 46
      then match rev (drop_zeros (rev (fraction s'))) with [] => [] | d => c :: d end
      else c :: cropzeros s'
  end.

Definition text (s : string) : list Z := (fun a => Z.of_nat (Ascii.nat_of_ascii a)) <$> String.list_ascii_of_string s.
Definition garbage : list Z := repeat 170 80.

(** 12.5, 1/1000 and 99.9999999 at six digits, 2/3 at three, 0 and 1e-9. *)
Example parse_float_f :
  let f x y n := parse_float garbage (ddiv (double_of x) (double_of y)) 102 n in
  f 25 2 6 = Some (text "12.500000") /\ f 1 1000 6 = Some (text "0.001000") /\
  f 999999999 10000000 6 = Some (text "100.000000") /\ f 2 3 3 = Some (text "0.667") /\
  f 0 1 6 = Some (text "0.000000") /\ f 1 1000000000 6 = Some (text "0.000000").
Proof. by vm_compute. Qed.

Example parse_float_g :
  let f c x y n := parse_float garbage (ddiv (double_of x) (double_of y)) c n in
  f 103 25 2 6 = Some (text "12.5000") /\ f 71 1 1000000 6 = Some (text "1.00000E-006") /\
  f 101 12345678 1 3 = Some (text "1.235e+007") /\
  cropzeros <$> f 103 25 2 6 = Some (text "12.5").
Proof. by vm_compute. Qed.

(** ** Everything printed is a byte *)

Definition bytes (l : list Z) : Prop := Forall (is_uint 8) l.

Lemma u8_byte (z : Z) : is_uint 8 (u8 z).
Proof. apply uwrap_range. lia. Qed.

Lemma aget_byte (l : list Z) (i : Z) : bytes l -> is_uint 8 (aget l i).
Proof.
  intros Hl. unfold aget. destruct (i <? 0); [done|].
  destruct (nth_in_or_default (Z.to_nat i) l 0) as [Hin| ->]; [|done].
  by eapply Forall_forall; [exact Hl|apply list_elem_of_In].
Qed.

Lemma aread_byte (l : list Z) (i v : Z) : bytes l -> aread l i = Some v -> is_uint 8 v.
Proof. unfold aread. intros Hl. destruct (_ && _); [intros [= <-]; by apply aget_byte|done]. Qed.

Lemma awrite_bytes (l l' : list Z) (i v : Z) : bytes l -> is_uint 8 v -> awrite l i v = Some l' -> bytes l'.
Proof.
  unfold awrite, aset. intros Hl Hv. destruct (_ && _); [|done]. intros [= <-].
  destruct (i <? 0); [done|]. by apply Forall_insert.
Qed.

Lemma bytes_app (l1 l2 : list Z) : bytes l1 -> bytes l2 -> bytes (l1 ++ l2).
Proof. intros. by apply Forall_app. Qed.

Lemma bytes_cons (c : Z) (l : list Z) : is_uint 8 c -> bytes l -> bytes (c :: l).
Proof. by constructor. Qed.

Lemma bytes_nil : bytes [].
Proof. constructor. Qed.

Lemma bytes_repeat (c : Z) (n : nat) : is_uint 8 c -> bytes (repeat c n).
Proof. intros Hc. apply Forall_forall. intros x Hx%list_elem_of_In%repeat_spec. by subst. Qed.

Lemma bytes_text (s : string) : bytes (text s).
Proof.
  apply Forall_fmap, Forall_forall. intros a _. unfold is_uint. cbn.
  pose proof (Ascii.nat_ascii_bounded a). lia.
Qed.

Create HintDb bytes discriminated.
#[export] Hint Resolve u8_byte aget_byte bytes_app bytes_cons bytes_nil bytes_repeat bytes_text : bytes.
#[export] Hint Extern 1 (is_uint 8 _) => (unfold is_uint; lia) : bytes.

(** Inversion of a run of checked accesses. *)
Ltac inv_opt :=
  repeat match goal with
  | H : mbind _ ?o = Some _ |- _ =>
      let E := fresh "E" in destruct o eqn:E; cbn [mbind option_bind] in H; [|discriminate H]
  | H : Some _ = Some _ |- _ => injection H as H; subst
  | H : (let '(_, _) := ?p in _) = Some _ |- _ => destruct p eqn:?
  end.

Lemma cvt_int_bytes (f : nat) (fi : double) (p1 r2 : Z) (buf : list Z) (p1' r2' : Z) (buf' : list Z) :
  bytes buf -> cvt_int f fi p1 r2 buf = Some (p1', r2', buf') -> bytes buf'.
Proof.
  revert fi p1 r2 buf. induction f as [|f IH]; intros fi p1 r2 buf Hb; cbn [cvt_int]; destruct (nonzero fi);
    try done; try by intros [= _ _ <-].
  intros H. destruct (modf (ddiv fi D10)) as [fj fi']. inv_opt.
  eapply IH; [|exact H]. eapply awrite_bytes; [exact Hb| |eassumption]. apply u8_byte.
Qed.

Lemma cvt_move_bytes (n : nat) (p p1 : Z) (buf : list Z) (p' : Z) (buf' : list Z) :
  bytes buf -> cvt_move n p p1 buf = Some (p', buf') -> bytes buf'.
Proof.
  revert p p1 buf. induction n as [|n IH]; intros p p1 buf Hb H; cbn [cvt_move] in H; [by injection H as _ <-|].
  inv_opt. eapply IH; [|exact H]. eapply awrite_bytes; [exact Hb| |eassumption]. by eapply aread_byte.
Qed.

Lemma cvt_frac_bytes (n : nat) (arg : double) (p : Z) (buf : list Z) (p' : Z) (buf' : list Z) :
  bytes buf -> cvt_frac n arg p buf = Some (p', buf') -> bytes buf'.
Proof.
  revert arg p buf. induction n as [|n IH]; intros arg p buf Hb H; cbn [cvt_frac] in H; [by injection H as _ <-|].
  destruct (modf (dmul arg D10)) as [arg' fj]. inv_opt. eapply IH; [|exact H].
  eapply awrite_bytes; [exact Hb| |eassumption]. apply u8_byte.
Qed.

Lemma cvt_carry_bytes (f : nat) (eflag : bool) (p1 p decpt : Z) (buf : list Z) (p' decpt' : Z) (buf' : list Z) :
  bytes buf -> cvt_carry f eflag p1 p decpt buf = Some (p', decpt', buf') -> bytes buf'.
Proof.
  revert p1 p decpt buf. induction f as [|f IH]; intros p1 p decpt buf Hb H; cbn [cvt_carry] in H; inv_opt.
  - destruct (57 <? _); [done|by injection H as _ _ <-].
  - destruct (57 <? _); [|by injection H as _ _ <-]. inv_opt.
    assert (bytes l) as Hl by (by eapply awrite_bytes; [exact Hb| |eassumption]).
    destruct (0 <? p1); inv_opt.
    + eapply IH; [|exact H]. eapply awrite_bytes; [exact Hl|apply u8_byte|eassumption].
    + assert (bytes l0) as Hl0 by (by eapply awrite_bytes; [exact Hl| |eassumption]).
      destruct eflag; [by eapply IH|]. inv_opt. eapply IH; [|exact H].
      destruct (0 <? p); [|congruence]. by eapply awrite_bytes; [exact Hl0| |eassumption].
Qed.

Lemma cvt_start_bytes (arg fi : double) (buf : list Z) (arg' : double) (p r2 : Z) (buf' : list Z) :
  bytes buf -> cvt_start arg fi buf = Some (arg', p, r2, buf') -> bytes buf'.
Proof.
  unfold cvt_start. generalize 81%nat 400%nat CVTBUFSIZE. intros n1 n2 n3 Hb H.
  destruct (nonzero fi); [|destruct (SFltb D0 arg); inv_opt; by simplify_eq].
  inv_opt. simplify_eq. eapply cvt_move_bytes; [|eassumption]. by eapply cvt_int_bytes; [|eassumption].
Qed.

Lemma cvt_round_bytes (eflag : bool) (p1 decpt : Z) (buf buf' : list Z) (decpt' : Z) :
  bytes buf -> cvt_round eflag p1 decpt buf = Some (buf', decpt') -> bytes buf'.
Proof.
  unfold cvt_round. generalize (2 * Z.to_nat CVTBUFSIZE)%nat. intros n Hb H. inv_opt. simplify_eq.
  eapply awrite_bytes; [|apply (u8_byte 0)|eassumption]. eapply cvt_carry_bytes; [|eassumption].
  eapply awrite_bytes; [exact Hb|apply u8_byte|eassumption].
Qed.

Lemma cvt_bytes (arg : double) (n : Z) (buf buf' : list Z) (eflag sign : bool) (decpt : Z) :
  bytes buf -> cvt arg n buf eflag = Some (buf', decpt, sign) -> bytes buf'.
Proof.
  intros Hb. unfold cvt. generalize CVTBUFSIZE. intros size H.
  destruct (if SFltb arg D0 then _ else _) as [sg a1]. destruct (modf a1) as [a2 fi].
  destruct (cvt_start a2 fi buf) as [[[[a3 p] r2] b1]|] eqn:E; [|done].
  apply cvt_start_bytes in E; [|done]. cbn [mbind option_bind] in H. destruct (_ <? 0); inv_opt; simplify_eq.
  - eapply awrite_bytes; [exact E|apply (u8_byte 0)|eassumption].
  - assert (bytes l) as Hl by by eapply cvt_frac_bytes.
    destruct (size <=? _); inv_opt; simplify_eq; [|by eapply cvt_round_bytes].
    eapply awrite_bytes; [exact Hl|apply (u8_byte 0)|eassumption].
Qed.

Lemma bytes_c_string (l : list Z) : bytes l -> bytes (c_string l).
Proof. induction 1 as [|c l Hc Hl IH]; [constructor|]. cbn. destruct (c =? 0); [constructor|by constructor]. Qed.

Lemma ee_bufcpy_bytes (l : list Z) (n : nat) (r : list Z) : bytes l -> ee_bufcpy l n = Some r -> bytes r.
Proof.
  revert l r. induction n as [|n IH]; intros l r Hl H; cbn [ee_bufcpy] in H; [inv_opt; constructor|].
  destruct l as [|c l]; [done|]. apply Forall_cons in Hl as [Hc Hl]. inv_opt. constructor; [done|by eapply IH].
Qed.

Lemma point_at_bytes (pos decpt : Z) (l : list Z) : bytes l -> bytes (point_at pos decpt l).
Proof.
  intros Hl. revert pos. induction Hl as [|c l Hc _ IH]; intros pos; [constructor|]. cbn [point_at].
  apply bytes_app; [destruct (pos =? decpt); auto with bytes|by apply bytes_cons].
Qed.

Lemma exp_text_bytes (e : Z) : bytes (exp_text e).
Proof. unfold exp_text. apply bytes_cons; [destruct (e <? 0); auto with bytes|auto with bytes]. Qed.

Lemma fits_some (s r : list Z) : fits s = Some r -> r = s /\ alen s < TMPSIZE.
Proof. unfold fits. destruct (Z.ltb_spec (alen s) TMPSIZE); [by intros [= <-]|done]. Qed.

Lemma e_text_bytes (value : double) (capexp sign : bool) (precision decpt : Z) (l r : list Z) :
  bytes l -> e_text value capexp precision decpt sign l = Some r -> bytes r.
Proof.
  intros Hl H. unfold e_text in H. inv_opt. destruct (precision <? 0); [done|].
  repeat first [apply exp_text_bytes | apply bytes_cons | apply bytes_app | apply bytes_nil | eapply aread_byte; eassumption].
  all: try solve [match goal with |- context [if ?x then _ else _] => destruct x end; auto with bytes].
  eapply ee_bufcpy_bytes; [|eassumption]. destruct Hl as [|c0 l1 Hc0 Hl1]; [constructor|exact Hl1].
Qed.

Lemma f_text_bytes (precision decpt : Z) (sign : bool) (l : list Z) :
  bytes l -> bytes (f_text precision decpt sign l).
Proof.
  intros Hl. unfold f_text. apply bytes_app; [destruct sign; auto with bytes|]. destruct l as [|c ds].
  - apply bytes_app; [auto with bytes|]. destruct (0 <? precision); auto with bytes.
  - destruct (_ <=? 0); [auto 10 with bytes|by apply point_at_bytes].
Qed.

Lemma parse_float_bytes (buf : list Z) (value : double) (fmt precision : Z) (r : list Z) :
  bytes buf -> parse_float buf value fmt precision = Some r -> bytes r.
Proof.
  intros Hb. unfold parse_float. destruct (if _ || _ then _ else _) as [capexp fm]. intros H.
  match type of H with mbind _ ?o = _ => destruct o as [[[fm' pr] b1]|] eqn:E; [|done] end.
  assert (bytes b1) as Hb1.
  { destruct (fm =? 103); [|by injection E as _ _ <-]. inv_opt. destruct (_ || _); injection E as _ _ <-;
      (by eapply cvt_bytes; [exact Hb|eassumption]). }
  cbn [mbind option_bind] in H. clear E. destruct (fm' =? 101); [|destruct (fm' =? 102)]; inv_opt; [| |constructor].
  all: match goal with H : fits _ = Some _ |- _ => apply fits_some in H as [-> _] end.
  - eapply e_text_bytes; [|eassumption]. by eapply cvt_bytes; [exact Hb1|eassumption].
  - apply f_text_bytes. by eapply bytes_c_string, cvt_bytes; [exact Hb1|eassumption].
Qed.

Lemma to_point_bytes (s : list Z) : bytes s -> bytes (to_point s).1 /\ bytes (to_point s).2.
Proof.
  induction 1 as [|c s Hc Hs IH]; [by split; constructor|]. cbn. destruct (_ || _); [split; by constructor|].
  destruct (to_point s) as [a b]. destruct IH. split; [by constructor|done].
Qed.

Lemma decimal_point_bytes (s r : list Z) : bytes s -> decimal_point s = Some r -> bytes r.
Proof.
  intros Hs. pose proof (to_point_bytes s Hs) as [Ha Hb]. unfold decimal_point. destruct (to_point s) as [a b].
  cbn [fst snd] in *.
  assert (bytes (a ++ 46 :: match b with [] => [] | _ :: b => match b with [] => [] | c :: _ => c :: b end end)) as Hr.
  { apply bytes_app; [done|]. apply bytes_cons; [auto with bytes|]. destruct b as [|c b]; [apply bytes_nil|].
    apply Forall_cons in Hb as [_ Hb]. destruct b as [|d b]; [apply bytes_nil|].
    apply bytes_cons; [|done]. by apply Forall_cons in Hb as [Hd _]. }
  intros H. repeat case_match; simplify_eq; done.
Qed.

Lemma drop_zeros_bytes (s : list Z) : bytes s -> bytes (drop_zeros s).
Proof. induction 1 as [|c s Hc Hs IH]; [constructor|]. cbn. destruct (c =? 48); [done|by constructor]. Qed.

Lemma bytes_rev (s : list Z) : bytes s -> bytes (rev s).
Proof. intros Hs. by apply Forall_rev. Qed.

Lemma cropzeros_bytes (s : list Z) : bytes s -> bytes (cropzeros s).
Proof.
  induction 1 as [|c s Hc Hs IH]; [constructor|]. cbn. destruct (c =? 46); [|by constructor].
  assert (bytes (fraction s)) as Hf.
  { clear -Hs. induction Hs as [|d s Hd Hs IH]; [constructor|]. cbn. destruct (_ || _); [constructor|by constructor]. }
  pose proof (bytes_rev _ (drop_zeros_bytes _ (bytes_rev _ Hf))) as Hr.
  destruct (rev (drop_zeros (rev (fraction s)))); [constructor|by constructor].
Qed.
