(* ===== verification/EeFloatSpec.v ===== *)
(** * The rounding error of one [double] operation

    A non-negative [double] is a multiple of 2^-1200, so errors are integers:
    multiplication and division by ten, [modf], addition of [.03], conversion and
    comparison, and from them one digit of [src/fpga/coremark/cvt.c] on either
    side of the point. *)

From Stdlib Require Import SpecFloat.
From S2P Require Import Prelude CoreUtil PortTime EeFloat.

(** ** Values *)

Definition ONE : Z := 2 ^ 1200.

(** The value of a finite [double] without its sign, times 2^1200. *)
Definition val (x : double) : Z := match x with S754_finite _ m e => Zpos m * 2 ^ (e + 1200) | _ => 0 end.

Definition nonneg (x : double) : bool :=
  match x with
  | S754_zero _ => true
  | S754_finite false m e => bounded PREC EMAX m e
  | _ => false
  end.

Lemma pow_pos (n : Z) : 0 <= n -> 0 < 2 ^ n.
Proof. intros. by apply Z.pow_pos_nonneg. Qed.

Lemma pow_split (a b : Z) : 0 <= a <= b -> 2 ^ b = 2 ^ (b - a) * 2 ^ a.
Proof. intros. rewrite <-Z.pow_add_r by lia. f_equal. lia. Qed.

Lemma pow_divide (a b : Z) : 0 <= a <= b -> (2 ^ a | 2 ^ b).
Proof. intros Hab. exists (2 ^ (b - a)). by apply pow_split. Qed.

Lemma digits2_bounds (q : Z) : 0 < q -> 0 < Zdigits2 q /\ 2 ^ (Zdigits2 q - 1) <= q < 2 ^ Zdigits2 q.
Proof.
  intros Hq. destruct q as [|q|q]; [lia| |lia]. cbn [Zdigits2]. rewrite digits2_log2.
  pose proof (Z.log2_nonneg (Zpos q)). pose proof (Z.log2_spec (Zpos q) ltac:(done)).
  replace (Z.log2 (Zpos q) + 1 - 1) with (Z.log2 (Zpos q)) by lia.
  rewrite Z.add_1_r. split; [lia|done].
Qed.

Lemma bounded_iff (m : positive) (e : Z) :
  bounded PREC EMAX m e = true <->
  -1074 <= e <= 971 /\ Zpos m < 2 ^ 53 /\ (e = -1074 \/ 2 ^ 52 <= Zpos m).
Proof.
  unfold bounded, canonical_mantissa, fexp, emin. change (Zpos (digits2_pos m)) with (Zdigits2 (Zpos m)).
  destruct (digits2_bounds (Zpos m) ltac:(done)) as [Hd Hm]. set (d := Zdigits2 (Zpos m)) in *.
  rewrite andb_true_iff, Z.eqb_eq, Z.leb_le. split.
  - intros [He Hl]. assert (d <= 53) as Hd53 by lia. split; [lia|]. split.
    + pose proof (Z.pow_le_mono_r 2 d 53). lia.
    + destruct (Z.eq_dec e (-1074)); [by left|]. right. replace d with 53 in Hm by lia. lia.
  - intros (He & Hlt & Hn). assert (d <= 53) as Hd53.
    { destruct (Z.le_gt_cases d 53); [done|]. pose proof (Z.pow_le_mono_r 2 53 (d - 1)). lia. }
    split; [|lia]. destruct Hn as [-> |Hge]; [lia|]. assert (53 <= d); [|lia].
    destruct (Z.le_gt_cases 53 d); [done|]. pose proof (Z.pow_le_mono_r 2 d 52). lia.
Qed.

Lemma val_nonneg (x : double) : nonneg x = true -> 0 <= val x.
Proof.
  destruct x as [s|s| |[] m e]; try done. intros ((? & _) & _)%bounded_iff. cbn [val].
  pose proof (pow_pos (e + 1200)). lia.
Qed.

(** ** One rounding *)

(** [w] is [N / D] rounded: a multiple of a unit [2^p], off by at most half of
    it, and the unit is at most 2^-52 of [N / D] but for subnormal numbers. *)
Definition near (N D w : Z) : Prop :=
  exists p, 126 <= p /\ (2 ^ p | w) /\ Z.abs (2 * w * D - 2 * N) <= 2 ^ p * D /\
    (2 ^ 52 * 2 ^ p * D <= N \/ p = 126).

(** A shift record that stands for [N / D]. *)
Definition stands_for (N D : Z) (x : shr_record) : Prop :=
  shr_m x = N / D /\ loc_of_shr_record x = new_location_even D (N mod D).

Lemma record_of_loc (x : shr_record) : x = shr_record_of_loc (shr_m x) (loc_of_shr_record x).
Proof. by destruct x as [m [] []]. Qed.

Lemma stands_for_shr_1 (N D : Z) (x : shr_record) :
  0 <= N -> 0 < D -> stands_for N D x -> stands_for N (2 * D) (shr_1 x).
Proof.
  intros HN HD [Em El]. pose proof (Z.div_pos N D HN HD) as Hq. pose proof (Z.mod_pos_bound N D HD) as Hr.
  pose proof (Z.div_mod N D ltac:(lia)) as HNd. set (q := N / D) in *. set (r := N mod D) in *.
  assert (N / (2 * D) = q / 2) as E1 by (rewrite Z.mul_comm, <-Z.div_div by lia; done).
  assert (N mod (2 * D) = q mod 2 * D + r) as E2.
  { symmetry. apply Z.mod_unique with (q / 2); [left; pose proof (Z.mod_pos_bound q 2); nia|].
    pose proof (Z.div_mod q 2). nia. }
  unfold stands_for. rewrite E1, E2. clearbody q r. clear E1 E2. destruct (Z.eq_dec q 0) as [->|Hq0].
  - destruct x as [m rb sb]. cbn [shr_m] in Em. subst m. cbn [shr_1 shr_m loc_of_shr_record].
    split; [done|]. replace (0 mod 2 * D + r) with r by done. unfold new_location_even in *.
    destruct (Z.eqb_spec r 0) as [Er|].
    + by destruct rb, sb.
    + destruct (Z.compare_spec (2 * r) (2 * D)); try lia. by destruct rb, sb.
  - rewrite (record_of_loc x), Em, El. destruct (shr_1_location q D r) as [F1 F2]; [lia|done|]. by split.
Qed.

Lemma stands_for_shr (n : positive) (N D : Z) (x : shr_record) :
  0 <= N -> 0 < D -> stands_for N D x -> stands_for N (2 ^ Zpos n * D) (SpecFloat.iter_pos shr_1 n x).
Proof.
  intros HN. revert D x. induction n as [n IH|n IH|]; intros D x HD Hx; cbn [SpecFloat.iter_pos].
  - replace (2 ^ Zpos n~1 * D) with (2 ^ Zpos n * (2 ^ Zpos n * (2 * D))).
    2:{ rewrite (Pos2Z.inj_xI n), Z.pow_add_r, Z.mul_comm, (Z.mul_comm 2 (Zpos n)), Z.pow_mul_r by lia. nia. }
    apply IH; [pose proof (pow_pos (Zpos n)); nia|]. apply IH; [lia|]. by apply stands_for_shr_1.
  - replace (2 ^ Zpos n~0 * D) with (2 ^ Zpos n * (2 ^ Zpos n * D)).
    2:{ rewrite (Pos2Z.inj_xO n), (Z.mul_comm 2 (Zpos n)), Z.pow_mul_r by lia. nia. }
    apply IH; [pose proof (pow_pos (Zpos n)); nia|]. by apply IH.
  - by apply stands_for_shr_1.
Qed.

Abbreviation fexp64 := (fexp 53 1024).

Lemma shr_fexp_stands (q e N D : Z) :
  0 <= N -> 0 < D -> q = N / D -> e <= fexp64 (Zdigits2 q + e) ->
  exists x, shr_fexp 53 1024 q e (new_location_even D (N mod D)) = (x, fexp64 (Zdigits2 q + e)) /\
    stands_for N (2 ^ (fexp64 (Zdigits2 q + e) - e) * D) x.
Proof.
  intros HN HD -> He. unfold shr_fexp. set (e' := fexp64 _) in *.
  assert (stands_for N D (shr_record_of_loc (N / D) (new_location_even D (N mod D)))) as Hs.
  { split; by destruct (new_location_even D (N mod D)) as [|[]]. }
  destruct (e' - e) as [|k|k] eqn:Ek; [| |lia]; cbn [shr].
  - replace e' with e by lia. eexists. split; [done|]. by rewrite Z.mul_1_l.
  - exists (SpecFloat.iter_pos shr_1 k (shr_record_of_loc (N / D) (new_location_even D (N mod D)))).
    split; [f_equal; lia|]. by apply stands_for_shr.
Qed.

Lemma shr_fexp_rounded (v e : Z) :
  0 <= v <= 2 ^ 53 -> -1074 <= e -> e = -1074 \/ 2 ^ 52 <= v ->
  exists x e', shr_fexp 53 1024 v e loc_Exact = (x, e') /\ 0 <= shr_m x < 2 ^ 53 /\ e <= e' <= e + 1 /\
    (e' = -1074 \/ 2 ^ 52 <= shr_m x) /\ shr_m x * 2 ^ (e' + 1200) = v * 2 ^ (e + 1200).
Proof.
  intros Hv He Hn. destruct (Z.eq_dec v (2 ^ 53)) as [-> |Hv53].
  - exists (Build_shr_record (2 ^ 52) false false), (e + 1). unfold shr_fexp. change (Zdigits2 (2 ^ 53)) with 54.
    unfold fexp, emin. replace (Z.max _ _ - e) with 1 by lia. split; [done|]. cbn [shr_m]. split; [lia|]. split; [lia|].
    split; [by right|]. replace (e + 1 + 1200) with (Z.succ (e + 1200)) by lia. rewrite Z.pow_succ_r by lia. lia.
  - exists (Build_shr_record v false false), e. unfold shr_fexp. unfold fexp, emin.
    assert (Z.max (Zdigits2 v + e - 53) (3 - 1024 - 53) - e = 0) as ->.
    { destruct (Z.eq_dec v 0) as [->|Hv0]; [cbn [Zdigits2]; lia|].
      destruct (digits2_bounds v) as [Hd Hb]; [lia|]. set (d := Zdigits2 v) in *.
      assert (d <= 53) as Hd53.
      { destruct (Z.le_gt_cases d 53); [done|]. pose proof (Z.pow_le_mono_r 2 53 (d - 1)). lia. }
      destruct Hn as [-> |Hge]; [lia|]. assert (53 <= d); [|lia].
      destruct (Z.le_gt_cases 53 d); [done|]. pose proof (Z.pow_le_mono_r 2 d 52). lia. }
    split; [done|]. cbn [shr_m]. split; [lia|]. split; [lia|]. by split.
Qed.

(** The mantissa after the first shift. *)
Lemma shifted_mantissa (q e : Z) :
  0 < q -> e <= fexp64 (Zdigits2 q + e) ->
  let e' := fexp64 (Zdigits2 q + e) in
  let q' := q / 2 ^ (e' - e) in 0 <= q' < 2 ^ 53 /\ -1074 <= e' /\ (e' = -1074 \/ 2 ^ 52 <= q').
Proof.
  intros Hq He e' q'. destruct (digits2_bounds q Hq) as [Hd Hb]. set (d := Zdigits2 q) in *.
  assert (e' = Z.max (d + e - 53) (-1074)) as Ee by done. change (e <= e') in He. unfold q'. clearbody e'. clear q'.
  pose proof (pow_pos (e' - e) ltac:(lia)) as Hp. set (q' := q / _).
  assert (0 <= q') as H0 by (apply Z.div_pos; lia).
  assert (q' < 2 ^ 53) as Hlt.
  { apply Z.div_lt_upper_bound; [done|]. rewrite Z.mul_comm, <-Z.pow_add_r by lia.
    pose proof (Z.pow_le_mono_r 2 d (53 + (e' - e))). lia. }
  split; [done|]. split; [lia|]. destruct (Z.le_gt_cases (d + e - 53) (-1074)); [left; lia|right].
  apply Z.div_le_lower_bound; [done|]. rewrite Z.mul_comm, <-Z.pow_add_r by lia.
  pose proof (Z.pow_le_mono_r 2 (52 + (e' - e)) (d - 1)). lia.
Qed.

(** The result of a rounding step on [N / D], of mantissa [q] at exponent [e]. *)
Lemma round_near (q e N D : Z) :
  0 < q -> 0 <= N -> 0 < D -> q = N / D -> -1200 <= e -> e <= fexp64 (Zdigits2 q + e) -> Zdigits2 q + e <= 1000 ->
  let x := binary_round_aux 53 1024 false q e (new_location_even D (N mod D)) in
  nonneg x = true /\ near (N * 2 ^ (e + 1200)) D (val x).
Proof.
  intros Hq HN HD Eq Hlo He Hhi. cbv zeta. unfold binary_round_aux.
  destruct (shr_fexp_stands q e N D HN HD Eq He) as (x1 & -> & Em & El).
  destruct (shifted_mantissa q e Hq He) as (Hq' & He1 & Hn).
  assert (fexp64 (Zdigits2 q + e) = Z.max (Zdigits2 q + e - 53) (-1074)) as Ee by done.
  set (e1 := fexp64 _) in *. clearbody e1.
  set (k := e1 - e) in *. assert (0 <= k) as Hk by lia. pose proof (pow_pos k Hk) as Hpk.
  assert (N / (2 ^ k * D) = q / 2 ^ k) as Eqk by (rewrite Eq, Z.div_div by lia; f_equal; lia).
  rewrite Em, El. assert (0 < 2 ^ k * D) as HD' by nia. pose proof (Z.mod_pos_bound N (2 ^ k * D) HD') as Hr.
  pose proof (Z.div_mod N (2 ^ k * D) ltac:(lia)) as HNd. rewrite Eqk in *. set (q' := q / 2 ^ k) in *.
  destruct (round_error q' (2 ^ k * D) _ Hr) as [Hv Herr]. set (v := round_nearest_even _ _) in *.
  destruct (shr_fexp_rounded v e1) as (x2 & e2 & -> & Hm & He2 & Hn2 & Eval); [lia|done|destruct Hn; [by left|right; lia]|].
  assert (near (N * 2 ^ (e + 1200)) D (v * 2 ^ (e1 + 1200))) as Hnear.
  { exists (e1 + 1200). split; [lia|]. split; [by exists v|].
    assert (2 ^ (e1 + 1200) = 2 ^ k * 2 ^ (e + 1200)) as Ep by (rewrite <-Z.pow_add_r by lia; f_equal; lia).
    pose proof (pow_pos (e + 1200) ltac:(lia)) as Hpe. rewrite Ep. split.
    - replace (2 * (v * (2 ^ k * 2 ^ (e + 1200))) * D - 2 * (N * 2 ^ (e + 1200)))
        with ((2 * (v * (2 ^ k * D)) - 2 * N) * 2 ^ (e + 1200)) by lia.
      rewrite Z.abs_mul, (Z.abs_eq (2 ^ (e + 1200))) by lia. rewrite (Z.mul_comm q'), <-HNd in Herr. nia.
    - destruct Hn as [Hn|Hn]; [right; lia|left]. nia. }
  rewrite <-Eval in Hnear. destruct (shr_m x2) as [|m|m] eqn:E2; [split; [done|exact Hnear]|..]; [|lia].
  destruct (Z.leb_spec e2 (1024 - 53)) as [Hle|Hgt]; [|lia].
  split; [|exact Hnear]. apply bounded_iff. split; [lia|]. split; [lia|exact Hn2].
Qed.

(** ** One operation *)

Lemma near_refl (N D : Z) : (2 ^ 126 | N) -> 0 < D -> near (N * D) D N.
Proof.
  intros Hd HD. exists 126. split; [lia|]. split; [done|]. split; [|by right].
  replace (2 * N * D - 2 * (N * D)) with 0 by lia. pose proof (pow_pos 126). cbn [Z.abs]. nia.
Qed.

Lemma val_tiny (x : double) : nonneg x = true -> (2 ^ 126 | val x).
Proof.
  destruct x as [s|s| |[] m e]; try done; [intros _; apply Z.divide_0_r|].
  intros (He & _)%bounded_iff. cbn [val]. apply Z.divide_mul_r, pow_divide. lia.
Qed.

Lemma digits2_mono (a b : Z) : 0 < a <= b -> Zdigits2 a <= Zdigits2 b.
Proof.
  intros Hab. destruct (digits2_bounds a) as [Ha Ha']; [lia|]. destruct (digits2_bounds b) as [Hb Hb']; [lia|].
  destruct (Z.le_gt_cases (Zdigits2 a) (Zdigits2 b)); [done|].
  pose proof (Z.pow_le_mono_r 2 (Zdigits2 b) (Zdigits2 a - 1)). lia.
Qed.

Lemma digits2_upper (q n : Z) : 0 < q -> 0 <= n -> q < 2 ^ n -> Zdigits2 q <= n.
Proof.
  intros Hq Hn Hlt. destruct (digits2_bounds q Hq) as [Hd Hb]. destruct (Z.le_gt_cases (Zdigits2 q) n); [done|].
  pose proof (Z.pow_le_mono_r 2 n (Zdigits2 q - 1)). lia.
Qed.

Lemma digits2_lower (q n : Z) : 0 < q -> 0 <= n -> 2 ^ n <= q -> n + 1 <= Zdigits2 q.
Proof.
  intros Hq Hn Hle. destruct (digits2_bounds q Hq) as [Hd Hb]. destruct (Z.le_gt_cases (n + 1) (Zdigits2 q)); [done|].
  pose proof (Z.pow_le_mono_r 2 (Zdigits2 q) n). lia.
Qed.

Lemma exact_location (N : Z) : loc_Exact = new_location_even 1 (N mod 1).
Proof. by rewrite Z.mod_1_r. Qed.

(** The exponent of a small number. *)
Lemma val_below (m : positive) (e k : Z) : 0 <= k -> -1074 <= e -> Zpos m * 2 ^ (e + 1200) < 2 ^ k * ONE -> e < k.
Proof.
  intros Hk He Hlt. destruct (Z.lt_ge_cases e k); [done|]. unfold ONE in Hlt. rewrite <-Z.pow_add_r in Hlt by lia.
  pose proof (Z.pow_le_mono_r 2 (k + 1200) (e + 1200)). pose proof (pow_pos (k + 1200)). nia.
Qed.

Lemma mul_near (x : double) :
  nonneg x = true -> val x < 2 ^ 64 * ONE -> nonneg (dmul x D10) = true /\ near (10 * val x) 1 (val (dmul x D10)).
Proof.
  intros Hx Hlt. destruct x as [s|s| |[] m e]; try done.
  { split; [done|]. cbn [val]. apply (near_refl 0 1); [apply Z.divide_0_r|lia]. }
  pose proof Hx as (He & Hm & Hn)%bounded_iff. cbn [val] in Hlt. apply val_below in Hlt; [|lia..].
  change D10 with (S754_finite false (10 * 2 ^ 49) (-49)). unfold dmul, SFmul. cbn [xorb].
  set (q := Zpos (m * (10 * 2 ^ 49))). assert (q = Zpos m * (10 * 2 ^ 49)) as Eq by done.
  rewrite (exact_location q).
  assert (53 <= Zdigits2 q) as Hd by (apply (digits2_lower q 52); lia).
  assert (Zdigits2 q <= 106) as Hd' by (apply (digits2_upper q 106); lia).
  destruct (round_near q (e + -49) q 1) as [H1 H2]; [lia|lia|lia|by rewrite Z.div_1_r|lia| |lia|].
  { unfold fexp. lia. }
  split; [exact H1|]. cbn [val] in H2 |- *. replace (10 * (Zpos m * 2 ^ (e + 1200))) with (q * 2 ^ (e + -49 + 1200)); [exact H2|].
  rewrite Eq. replace (e + 1200) with (e + -49 + 1200 + 49) by lia. rewrite (Z.pow_add_r 2 _ 49) by lia. lia.
Qed.

Lemma div_near (x : double) :
  nonneg x = true -> val x = 0 \/ ONE <= val x < 2 ^ 64 * ONE ->
  nonneg (ddiv x D10) = true /\ near (val x) 10 (val (ddiv x D10)).
Proof.
  intros Hx Hr. destruct x as [s|s| |[] m e]; try done.
  { split; [done|]. cbn [val]. apply (near_refl 0 10); [apply Z.divide_0_r|lia]. }
  pose proof Hx as (He & Hm & Hn)%bounded_iff. cbn [val] in Hr |- *.
  pose proof (pow_pos (e + 1200) ltac:(lia)) as Hpe.
  destruct Hr as [Hr|[Hge Hlt]]; [lia|]. apply val_below in Hlt; [|lia..].
  assert (-53 <= e) as Hlo.
  { destruct (Z.le_gt_cases (-53) e); [done|]. unfold ONE in Hge. pose proof (pow_split (e + 1200) 1200 ltac:(lia)) as E.
    pose proof (Z.pow_le_mono_r 2 53 (1200 - (e + 1200))). nia. }
  destruct Hn as [|Hn]; [lia|].
  change D10 with (S754_finite false (10 * 2 ^ 49) (-49)). unfold ddiv, SFdiv, SFdiv_core_binary. cbn [xorb].
  rewrite (digits2_range (Zpos m) 53) by lia. change (Zdigits2 (Z.pos (10 * 2 ^ 49))) with 53.
  assert (Z.min (fexp64 (53 + e - (53 + -49))) (e - -49) = e - 4) as -> by (unfold fexp, emin; lia). replace (e - -49 - (e - 4)) with 53 by lia. cbv iota zeta.
  rewrite Z.shiftl_mul_pow2 by lia. set (D := Z.pos (10 * 2 ^ 49)). assert (D = 10 * 2 ^ 49) as ED by done.
  unfold new_location. change (Z.even D) with true. cbv iota.
  destruct (Z.div_eucl _ _) as [q r] eqn:Edv.
  assert (q = Zpos m * 2 ^ 53 / D /\ r = Zpos m * 2 ^ 53 mod D) as [Eq ->] by (unfold Z.div, Z.modulo; by rewrite Edv).
  assert (2 ^ 52 <= q) as Hq by (rewrite Eq; apply Z.div_le_lower_bound; lia).
  assert (53 <= Zdigits2 q) as Hd by (apply (digits2_lower q 52); lia).
  assert (Zdigits2 q <= 54) as Hd'.
  { apply (digits2_upper q 54); [lia|lia|]. rewrite Eq. apply Z.div_lt_upper_bound; lia. }
  destruct (round_near q (e - 4) (Zpos m * 2 ^ 53) D) as [H1 [p (Hp & Hdv & Herr & Hsz)]]; [lia|lia|lia|done|lia| |lia|].
  { unfold fexp. lia. }
  split; [exact H1|]. exists p. split; [done|]. split; [done|].
  assert (2 ^ (e + 1200) = 2 ^ 4 * 2 ^ (e - 4 + 1200)) as E4 by (rewrite <-Z.pow_add_r by lia; f_equal; lia).
  rewrite E4, ED in *. set (w := val _) in *. set (u := 2 ^ p) in *. clearbody w u. split; [lia|].
  destruct Hsz as [Hsz|]; [left; lia|by right].
Qed.

Lemma binary_round_near (m : positive) (e : Z) :
  -1074 <= e -> Zdigits2 (Zpos m) + e <= 1000 ->
  let x := binary_round 53 1024 false m e in nonneg x = true /\ near (Zpos m * 2 ^ (e + 1200)) 1 (val x).
Proof.
  intros He Hd. cbv zeta. unfold binary_round. change (Zpos (digits2_pos m)) with (Zdigits2 (Zpos m)).
  destruct (digits2_bounds (Zpos m) ltac:(done)) as [Hd0 Hb]. set (d := Zdigits2 (Zpos m)) in *.
  assert (fexp64 (d + e) = Z.max (d + e - 53) (-1074)) as Ee by done. set (ez := fexp64 (d + e)) in *. clearbody ez.
  unfold shl_align. destruct (Z.lt_ge_cases ez e) as [Hlt|Hge].
  - destruct (ez - e) as [|k|k] eqn:Ek; [lia|lia|].
    pose proof (iter_xO m k) as Hm. replace (Zpos k) with (e - ez) in Hm by lia. set (mz := Pos.iter xO m k) in *.
    pose proof (pow_pos (e - ez) ltac:(lia)).
    assert (Zdigits2 (Zpos mz) = d + (e - ez)) as Edz.
    { apply digits2_range; [lia|]. rewrite Hm, Z.pow_add_r by lia.
      replace (d + (e - ez) - 1) with (d - 1 + (e - ez)) by lia. rewrite Z.pow_add_r by lia. nia. }
    rewrite (exact_location (Zpos mz)).
    destruct (round_near (Zpos mz) ez (Zpos mz) 1) as [H1 H2]; [lia|lia|lia|by rewrite Z.div_1_r|lia| |lia|].
    { rewrite Edz. unfold fexp, emin. lia. }
    split; [exact H1|]. replace (Zpos m * 2 ^ (e + 1200)) with (Zpos mz * 2 ^ (ez + 1200)); [exact H2|].
    rewrite Hm, <-Z.mul_assoc, <-Z.pow_add_r by lia. do 2 f_equal. lia.
  - assert ((match ez - e with Zneg d => (Pos.iter xO m d, ez) | _ => (m, e) end) = (m, e)) as ->
      by (destruct (ez - e) eqn:Ek; (done || lia)).
    rewrite (exact_location (Zpos m)).
    apply (round_near (Zpos m) e (Zpos m) 1); [lia|lia|lia|by rewrite Z.div_1_r|lia| |lia]. fold d. unfold fexp, emin. lia.
Qed.

(** A number with at most 53 significant bits is not rounded. *)
Lemma near_exact (a N w : Z) : 126 <= a -> (2 ^ a | N) -> N < 2 ^ 53 * 2 ^ a -> near N 1 w -> w = N.
Proof.
  intros Ha HdN HN (p & Hp & Hdw & Herr & Hsz).
  assert (2 ^ p | N) as Hd.
  { etrans; [|exact HdN]. apply pow_divide. split; [lia|]. destruct Hsz as [Hsz|]; [|lia].
    destruct (Z.le_gt_cases p a); [done|]. pose proof (Z.pow_le_mono_r 2 (a + 1) p) as Hm.
    rewrite Z.pow_add_r in Hm by lia. lia. }
  destruct Hdw as [i ->], Hd as [j ->]. pose proof (pow_pos p ltac:(lia)). set (u := 2 ^ p) in *. clearbody u.
  destruct (Z.eq_dec i j) as [->|]; [done|]. nia.
Qed.

Lemma normalize_exact (z e : Z) (s : bool) :
  0 <= z < 2 ^ 53 -> -1074 <= e <= 0 ->
  nonneg (binary_normalize PREC EMAX z e s) = true /\ val (binary_normalize PREC EMAX z e s) = z * 2 ^ (e + 1200).
Proof.
  intros Hz He. destruct z as [|m|m]; [done| |lia]. cbn [binary_normalize].
  destruct (binary_round_near m e) as [H1 H2]; [lia|pose proof (digits2_upper (Zpos m) 53); lia|].
  split; [exact H1|]. apply (near_exact (e + 1200)) in H2; [done|lia|by exists (Zpos m)|].
  pose proof (pow_pos (e + 1200)). nia.
Qed.

Lemma ONE_pos : 0 < ONE.
Proof. by apply pow_pos. Qed.

Lemma ONE_split (e : Z) : -1200 <= e <= 0 -> ONE = 2 ^ (- e) * 2 ^ (e + 1200).
Proof. intros He. unfold ONE. rewrite <-Z.pow_add_r by lia. f_equal. lia. Qed.

(** [modf] is division with remainder by one. *)
Lemma modf_spec (x : double) :
  nonneg x = true ->
  nonneg (modf x).1 = true /\ val (modf x).1 = val x mod ONE /\
  nonneg (modf x).2 = true /\ val (modf x).2 = val x / ONE * ONE.
Proof.
  intros Hx. destruct x as [s|s| |[] m e]; try done. pose proof Hx as (He & Hm & _)%bounded_iff.
  cbn [modf val]. destruct (Z.leb_spec 0 e) as [H0|H0]; cbn [fst snd].
  - assert (Zpos m * 2 ^ (e + 1200) = Zpos m * 2 ^ e * ONE) as -> by (unfold ONE; rewrite Z.pow_add_r by lia; lia).
    pose proof ONE_pos. rewrite Z.mod_mul, Z.div_mul by lia. split; [done|]. split; [done|]. split; [done|].
    cbn [val]. unfold ONE. rewrite Z.pow_add_r by lia. lia.
  - pose proof (pow_pos (- e) ltac:(lia)) as Hp. pose proof (pow_pos (e + 1200) ltac:(lia)) as Hq.
    pose proof (Z.div_mod (Zpos m) (2 ^ (- e)) ltac:(lia)). pose proof (Z.mod_pos_bound (Zpos m) (2 ^ (- e)) Hp).
    pose proof (Z.div_pos (Zpos m) (2 ^ (- e)) ltac:(lia) Hp).
    destruct (normalize_exact (Zpos m mod 2 ^ (- e)) e false) as [F1 F2]; [nia|lia|].
    destruct (normalize_exact (Zpos m / 2 ^ (- e)) 0 false) as [I1 I2]; [nia|lia|].
    rewrite (ONE_split e) at 1 2 by lia. rewrite Z.div_mul_cancel_r, Z.mul_mod_distr_r by lia. by split_and!.
Qed.

Lemma int_of_double_spec (x : double) :
  nonneg x = true -> val x < 2 ^ 31 * ONE -> int_of_double x = Some (val x / ONE).
Proof.
  intros Hx Hlt. destruct x as [s|s| |[] m e]; try done. pose proof Hx as (He & Hm & _)%bounded_iff.
  cbn [int_of_double val] in *. pose proof ONE_pos as H1.
  assert (Zpos m * 2 ^ (e + 1200) / ONE = Z.shiftl (Zpos m) e) as ->.
  { destruct (Z.le_gt_cases 0 e).
    - rewrite Z.shiftl_mul_pow2, Z.pow_add_r by lia. fold ONE. rewrite Z.mul_assoc. by apply Z.div_mul; lia.
    - replace e with (- - e) at 2 by lia. rewrite Z.shiftl_opp_r, Z.shiftr_div_pow2 by lia.
      pose proof (pow_pos (e + 1200)). pose proof (pow_pos (- e)). rewrite (ONE_split e), Z.div_mul_cancel_r by lia. done. }
  assert (0 <= Z.shiftl (Zpos m) e) as Hnn by (apply Z.shiftl_nonneg; lia).
  assert (Z.shiftl (Zpos m) e < 2 ^ 31) as Hub.
  { destruct (Z.le_gt_cases 0 e).
    - rewrite Z.shiftl_mul_pow2 by lia. rewrite Z.pow_add_r in Hlt by lia. fold ONE in Hlt. nia.
    - replace e with (- - e) by lia. rewrite Z.shiftl_opp_r, Z.shiftr_div_pow2 by lia.
      pose proof (pow_pos (e + 1200)). pose proof (pow_pos (- e)). apply Z.div_lt_upper_bound; [lia|].
      rewrite (ONE_split e) in Hlt by lia. nia. }
  destruct (Z.leb_spec (- 2 ^ 31) (Z.shiftl (Zpos m) e)); [|lia].
  by destruct (Z.ltb_spec (Z.shiftl (Zpos m) e) (2 ^ 31)); [|lia].
Qed.

Lemma shl_align_val (m : positive) (e e' : Z) : e' <= e -> Zpos (shl_align m e e').1 = Zpos m * 2 ^ (e - e').
Proof.
  intros He. unfold shl_align. destruct (e' - e) as [|k|k] eqn:Ek; [|lia|]; cbn [fst].
  - replace (e - e') with 0 by lia. lia.
  - rewrite iter_xO. do 2 f_equal. lia.
Qed.

Lemma add_near (x : double) :
  nonneg x = true -> val x < ONE -> nonneg (dadd x D003) = true /\ near (val x + val D003) 1 (val (dadd x D003)).
Proof.
  intros Hx Hlt. destruct x as [s|s| |[] m e]; try done.
  { split; [done|]. change (near (0 + val D003) 1 (val D003)). rewrite Z.add_0_l.
    pose proof (near_refl (val D003) 1) as H. rewrite Z.mul_1_r in H. apply H; [by apply val_tiny|lia]. }
  pose proof Hx as (He & Hm & Hn)%bounded_iff. unfold dadd, SFadd, D003. cbn [val cond_Zopp].
  set (c := 8646911284551352%positive). set (ez := Z.min e (-58)). cbn [val] in Hlt.
  assert (e < 0) as He0 by (apply (val_below m e 0); [lia|lia|]; lia).
  pose proof (shl_align_val m e ez ltac:(lia)) as E1. pose proof (shl_align_val c (-58) ez ltac:(lia)) as E2.
  set (m1 := (shl_align m e ez).1) in *. set (c1 := (shl_align c (-58) ez).1) in *.
  change (Zpos m1 + Zpos c1) with (Zpos (m1 + c1)). cbn [binary_normalize].
  assert (Zpos (m1 + c1) * 2 ^ (ez + 1200) = Zpos m * 2 ^ (e + 1200) + Zpos c * 2 ^ (-58 + 1200)) as Ev.
  { rewrite Pos2Z.inj_add, E1, E2, Z.mul_add_distr_r, <-!Z.mul_assoc, <-!Z.pow_add_r by lia. do 3 f_equal; lia. }
  rewrite <-Ev. apply binary_round_near; [lia|].
  assert (Zdigits2 (Zpos (m1 + c1)) <= 1 - ez); [|lia]. apply digits2_upper; [done|lia|].
  rewrite (ONE_split ez) in Hlt by lia. pose proof (pow_pos (ez + 1200) ltac:(lia)) as Hp.
  assert (Zpos c * 2 ^ (-58 + 1200) < 2 ^ (- ez) * 2 ^ (ez + 1200)) as Hc.
  { rewrite <-ONE_split by lia. unfold ONE. rewrite (pow_split (-58 + 1200) 1200) by lia.
    pose proof (pow_pos (-58 + 1200) ltac:(lia)). replace (1200 - (-58 + 1200)) with 58 by lia. unfold c. nia. }
  replace (1 - ez) with (Z.succ (- ez)) by lia. rewrite Z.pow_succ_r by lia. nia.
Qed.

(** ** Comparison *)

Lemma compare_mantissas (m1 m2 : positive) : Pos.compare_cont Eq m1 m2 = (Zpos m1 ?= Zpos m2).
Proof. done. Qed.

Lemma exponent_order (m1 m2 : positive) (e1 e2 : Z) :
  bounded PREC EMAX m1 e1 = true -> bounded PREC EMAX m2 e2 = true -> e1 < e2 ->
  Zpos m1 * 2 ^ (e1 + 1200) < Zpos m2 * 2 ^ (e2 + 1200).
Proof.
  intros (He1 & Hm1 & _)%bounded_iff (He2 & Hm2 & Hn2)%bounded_iff Hlt. destruct Hn2 as [|Hn2]; [lia|].
  pose proof (pow_pos (e1 + 1200) ltac:(lia)). rewrite (pow_split (e1 + 1200) (e2 + 1200)) by lia.
  assert (2 ^ 1 <= 2 ^ (e2 + 1200 - (e1 + 1200))) as Hk by (apply Z.pow_le_mono_r; lia).
  set (k := 2 ^ (e2 + 1200 - _)) in *. clearbody k. assert (Zpos m1 < Zpos m2 * k) by nia. nia.
Qed.

Lemma ltb_spec (x y : double) : nonneg x = true -> nonneg y = true -> SFltb x y = (val x <? val y).
Proof.
  intros Hx Hy. destruct x as [sx|sx| |[] mx ex]; try done; destruct y as [sy|sy| |[] my ey]; try done;
    cbn [val]; unfold SFltb; cbn [SFcompare].
  - symmetry. apply Z.ltb_lt. apply bounded_iff in Hy as (? & _). pose proof (pow_pos (ey + 1200)). lia.
  - symmetry. apply Z.ltb_ge. apply bounded_iff in Hx as (? & _). pose proof (pow_pos (ex + 1200)). lia.
  - destruct (Z.compare_spec ex ey) as [->|Hlt|Hgt].
    + rewrite compare_mantissas. apply bounded_iff in Hx as (? & _). pose proof (pow_pos (ey + 1200) ltac:(lia)).
      destruct (Z.compare_spec (Zpos mx) (Zpos my)); symmetry; (apply Z.ltb_lt || apply Z.ltb_ge); nia.
    + symmetry. apply Z.ltb_lt. by apply exponent_order.
    + symmetry. apply Z.ltb_ge. pose proof (exponent_order my mx ey ex Hy Hx Hgt). lia.
Qed.

Lemma nonzero_spec (x : double) : nonneg x = true -> nonzero x = negb (val x =? 0).
Proof.
  intros Hx. destruct x as [s|s| |[] m e]; try done. apply bounded_iff in Hx as (? & _). cbn [nonzero val].
  pose proof (pow_pos (e + 1200) ltac:(lia)). symmetry. apply negb_true_iff, Z.eqb_neq. lia.
Qed.

(** A number below one is at most 1 - 2^-53. *)
Lemma below_one (x : double) : nonneg x = true -> val x < ONE -> 2 ^ 53 * val x <= (2 ^ 53 - 1) * ONE.
Proof.
  intros Hx Hlt. destruct x as [s|s| |[] m e]; try done.
  pose proof Hx as (He & Hm & _)%bounded_iff. cbn [val] in *.
  assert (e < 0) as He0 by (apply (val_below m e 0); [lia|lia|]; lia).
  pose proof (pow_pos (e + 1200) ltac:(lia)) as Hp. pose proof (pow_pos (- e) ltac:(lia)).
  rewrite (ONE_split e) in * by lia. set (u := 2 ^ (e + 1200)) in *. clearbody u.
  destruct (Z.le_gt_cases 53 (- e)) as [Hge|Hlt'].
  - rewrite (pow_split 53 (- e)) in * by lia. pose proof (pow_pos (- e - 53) ltac:(lia)). nia.
  - pose proof (Z.pow_le_mono_r 2 (- e) 52). assert (Zpos m < 2 ^ (- e)) by nia. nia.
Qed.

(** ** Error bounds *)

(** 2^-1022; small against [ONE]. *)
Definition TINY : Z := 2 ^ 178.

Lemma TINY_small : 0 < TINY /\ 2 ^ 1000 * TINY <= ONE.
Proof. split; [by apply pow_pos|]. unfold TINY, ONE. rewrite (pow_split 178 1200) by lia. pose proof (pow_pos 178). nia. Qed.

(** A rounded result is off by at most 2^-53 of the exact one. *)
Lemma near_error (N D w : Z) : 0 <= N -> 0 < D -> near N D w -> 2 ^ 53 * Z.abs (w * D - N) <= N + TINY * D.
Proof.
  intros HN HD (p & Hp & _ & Herr & Hsz). pose proof TINY_small as [HT _]. destruct Hsz as [Hsz| ->].
  - set (u := 2 ^ p) in *. clearbody u. nia.
  - change (2 ^ 126) with (2 ^ 126) in Herr. unfold TINY. rewrite (pow_split 126 178) by lia.
    pose proof (pow_pos 126). change (2 ^ (178 - 126)) with (2 ^ 52). set (u := 2 ^ 126) in *. clearbody u. nia.
Qed.

(** ... and not below a whole number that the exact one reaches. *)
Lemma near_whole (N D w a : Z) :
  0 < D -> a * ONE * D <= N < 2 ^ 52 * ONE * D -> near N D w -> a * ONE <= w.
Proof.
  intros HD HN (p & Hp & [i ->] & Herr & Hsz). pose proof ONE_pos. pose proof TINY_small as [? HT].
  pose proof (pow_pos p ltac:(lia)) as Hpp.
  assert (p <= 1200) as Hp'.
  { destruct Hsz as [Hsz|]; [|lia]. destruct (Z.le_gt_cases p 1200); [done|].
    pose proof (Z.pow_le_mono_r 2 1200 p). unfold ONE in *. nia. }
  unfold ONE in *. rewrite (pow_split p 1200) in * by lia. set (u := 2 ^ p) in *. set (k := 2 ^ (1200 - p)) in *.
  clearbody u k. destruct (Z.le_gt_cases (a * k) i); [nia|]. assert (i + 1 <= a * k) by lia. nia.
Qed.

(** Ten times a number below one rounds below ten. *)
Lemma near_below_ten (a w : Z) :
  0 <= a -> 2 ^ 53 * a <= (2 ^ 53 - 1) * ONE -> near (10 * a) 1 w -> w < 10 * ONE.
Proof.
  intros Ha Hlt (p & Hp & _ & Herr & Hsz). pose proof ONE_pos as H1. pose proof (pow_pos p ltac:(lia)) as Hpp.
  assert (2 ^ p <= 8 * 2 ^ 1148) as Hu.
  { destruct Hsz as [Hsz| ->].
    - assert (p <= 1151) as Hp'.
      { destruct (Z.le_gt_cases p 1151); [done|]. pose proof (Z.pow_le_mono_r 2 1152 p ltac:(lia) ltac:(lia)) as Hm.
        unfold ONE in *. rewrite (pow_split 1152 1200) in * by lia. change (2 ^ (1200 - 1152)) with (2 ^ 48) in *.
        pose proof (pow_pos 1152 ltac:(lia)). set (v := 2 ^ 1152) in *. set (u := 2 ^ p) in *. clearbody u v. nia. }
      pose proof (Z.pow_le_mono_r 2 p 1151 ltac:(lia) ltac:(lia)). by rewrite (pow_split 1148 1151) in * by lia.
    - pose proof (Z.pow_le_mono_r 2 126 1148 ltac:(lia) ltac:(lia)). lia. }
  unfold ONE in *. rewrite (pow_split 1148 1200) in * by lia. change (2 ^ (1200 - 1148)) with (2 ^ 52) in *.
  set (v := 2 ^ 1148) in *. set (u := 2 ^ p) in *. clearbody u v. lia.
Qed.

(** ** One digit *)

Lemma D003_value : nonneg D003 = true /\ 2 ^ 53 * (3 * ONE - 100 * val D003) = ONE.
Proof. split; [by vm_compute|]. unfold ONE, D003. cbn [val]. rewrite (pow_split 1142 1200) by lia. lia. Qed.

(** The last digit of a whole number, and the number without it. *)
Lemma int_digit (fi : double) (n : Z) :
  nonneg fi = true -> val fi = n * ONE -> 0 < n < 2 ^ 48 ->
  let '(fj, fi') := modf (ddiv fi D10) in
  nonneg fi' = true /\ val fi' = n / 10 * ONE /\ int_of_double (dmul (dadd fj D003) D10) = Some (n mod 10).
Proof.
  intros Hfi Ev Hn. pose proof ONE_pos as H1. pose proof TINY_small as [HT0 HT]. destruct D003_value as [_ Hc].
  destruct (div_near fi Hfi) as [Hx Hnear]; [right; nia|]. set (x := ddiv fi D10) in *.
  destruct (modf_spec x Hx) as (Hf & Ef & Hi & Ei). destruct (modf x) as [fj fi']. cbn [fst snd] in *.
  pose proof (Z.div_mod n 10 ltac:(lia)) as Hqd. pose proof (Z.mod_pos_bound n 10 ltac:(lia)) as Hd.
  set (q := n / 10) in *. set (d := n mod 10) in *. set (w := val x) in *. rewrite Ev in Hnear.
  pose proof (near_error (n * ONE) 10 w ltac:(lia) ltac:(lia) Hnear) as Herr.
  assert (q * ONE <= w) as Hlo by (apply (near_whole (n * ONE) 10); [lia|nia|done]).
  assert (n * ONE = 10 * (q * ONE) + d * ONE) as Hnu by (rewrite Hqd at 1; ring).
  assert (n * ONE <= 2 ^ 48 * ONE) as Hns by (apply Z.mul_le_mono_nonneg_r; lia).
  assert (0 <= d * ONE <= 9 * ONE) as Hdu by (split; [apply Z.mul_nonneg_nonneg|apply Z.mul_le_mono_nonneg_r]; lia).
  set (u := ONE) in *. set (t := TINY) in *. set (qu := q * u) in *. set (nu := n * u) in *. set (du := d * u) in *.
  assert (2 * t <= u) as Ht by lia. clear HT.
  assert (w < qu + u) as Hhi by lia.
  assert (w / u = q /\ w mod u = w - qu) as [Eq Er].
  { unfold qu. split; symmetry; [apply Z.div_unique with (w - qu)|apply Z.mod_unique with q]; lia. }
  rewrite Eq in Ei. rewrite Er in Ef. split; [done|]. split; [done|].
  assert (Z.abs (10 * val fj - du) * 32 <= u + t) as Hfj by lia.
  assert (0 <= val fj < u) as Hfr by lia.
  destruct (add_near fj Hf (proj2 Hfr)) as [Hg Hgn]. set (g := dadd fj D003) in *. set (c := val D003) in *.
  assert (0 <= c) as Hc0 by (unfold c; by apply val_nonneg).
  assert (Hge := Hgn). apply near_error in Hge; [|lia..]. fold t in Hge.
  pose proof (val_nonneg g Hg) as Hg0. clearbody c.
  destruct (mul_near g Hg) as [Hh Hhn]; [fold u; lia|]. set (h := dmul g D10) in *.
  assert (Hhe := Hhn). apply near_error in Hhe; [|lia..]. fold t in Hhe.
  assert (du <= val h < du + u) as Hhd by lia.
  rewrite int_of_double_spec; [|done|fold u; lia]. f_equal. symmetry. apply Z.div_unique with (val h - du); unfold du; fold u; lia.
Qed.

(** The next digit of a fraction, and what is left. *)
Lemma frac_digit (a : double) :
  nonneg a = true -> val a < ONE ->
  let '(a', fj) := modf (dmul a D10) in
  exists d, int_of_double fj = Some d /\ 0 <= d <= 9 /\ nonneg a' = true /\ val a' < ONE /\
    nonneg (dmul a D10) = true /\ val (dmul a D10) = d * ONE + val a' /\
    2 ^ 53 * Z.abs (d * ONE + val a' - 10 * val a) <= 11 * ONE.
Proof.
  intros Ha Hlt. pose proof ONE_pos as H1. pose proof TINY_small as [HT0 HT]. pose proof (val_nonneg a Ha) as Ha0.
  destruct (mul_near a Ha ltac:(lia)) as [Hx Hnear]. set (x := dmul a D10) in *.
  destruct (modf_spec x Hx) as (Hf & Ef & Hi & Ei). destruct (modf x) as [a' fj]. cbn [fst snd] in *.
  assert (Herr := Hnear). apply near_error in Herr; [|lia..].
  pose proof (near_below_ten (val a) _ Ha0 (below_one a Ha Hlt) Hnear) as Hten.
  pose proof (val_nonneg x Hx) as Hx0. set (w := val x) in *.
  pose proof (Z.div_mod w ONE ltac:(lia)) as Hdm. pose proof (Z.mod_pos_bound w ONE ltac:(lia)) as Hm.
  assert (0 <= w / ONE <= 9) as Hd.
  { split; [by apply Z.div_pos|]. assert (w / ONE < 10); [|lia]. apply Z.div_lt_upper_bound; lia. }
  exists (w / ONE). split; [|split; [done|split; [done|split; [lia|split; [done|split; lia]]]]].
  rewrite int_of_double_spec by (done || nia). f_equal. rewrite Ei. apply Z.div_mul. lia.
Qed.
