(* ===== verification/EeFloatText.v ===== *)
(** * What the text of [%f] says

    For every [double] below 2^48 and at most 60 digits: [cvt] of
    [src/fpga/coremark/cvt.c] returns, its digits before the point are exact, and
    the text that [parse_float] makes of them is a decimal within half a unit of
    its last digit, plus 2^-52, of the number. *)

From Stdlib Require Import SpecFloat.
From S2P Require Import Prelude CoreUtil PortTime EeFloat EeFloatSpec.

(** ** Digits in a buffer *)

Definition dec_value (ds : list Z) : Z := digits_value 10 dec_digit ds 0.
Definition all_digits (ds : list Z) : Prop := Forall (fun c => is_digit c = true) ds.

Lemma dec_value_snoc (ds : list Z) (c : Z) : dec_value (ds ++ [c]) = dec_value ds * 10 + (c - 48).
Proof. unfold dec_value, digits_value. by rewrite fold_left_app. Qed.

Lemma dec_value_zeros (ds : list Z) (j : nat) : dec_value (ds ++ repeat 48 j) = dec_value ds * 10 ^ Z.of_nat j.
Proof.
  induction j as [|j IH]; [cbn [repeat]; rewrite app_nil_r; cbn; lia|].
  change (repeat 48 (S j)) with (48 :: repeat 48 j).
  rewrite repeat_cons, app_assoc, dec_value_snoc, IH, Nat2Z.inj_succ, Z.pow_succ_r by lia. lia.
Qed.

Lemma dec_value_leading (j : nat) (ds : list Z) : dec_value (repeat 48 j ++ ds) = dec_value ds.
Proof. unfold dec_value, digits_value. rewrite fold_left_app. f_equal. by induction j. Qed.

Lemma all_digits_snoc (ds : list Z) (d : Z) : all_digits ds -> 0 <= d <= 9 -> all_digits (ds ++ [d + 48]).
Proof. intros Hd Hr. apply Forall_app. split; [done|]. constructor; [|done]. apply is_digit_iff. lia. Qed.

Lemma all_digits_zeros (j : nat) : all_digits (repeat 48 j).
Proof. by apply Forall_forall; intros c ->%list_elem_of_In%repeat_spec. Qed.

Lemma alen_snoc_inv (l : list Z) : 0 < alen l -> exists l0 c, l = l0 ++ [c].
Proof. destruct l as [|c l _] using rev_ind; [done|]. by exists l, c. Qed.

Lemma aread_mid (l r : list Z) (c : Z) : aread (l ++ c :: r) (alen l) = Some c.
Proof.
  pose proof (alen_nonneg l). pose proof (alen_nonneg r). rewrite aread_Some by (rewrite alen_app, alen_cons; lia).
  unfold alen. rewrite aget_nth. by rewrite app_nth2, Nat.sub_diag by lia.
Qed.

Lemma awrite_mid (l r : list Z) (c v : Z) : awrite (l ++ c :: r) (alen l) v = Some (l ++ v :: r).
Proof.
  pose proof (alen_nonneg l). pose proof (alen_nonneg r). rewrite awrite_Some by (rewrite alen_app, alen_cons; lia).
  unfold aset. destruct (Z.ltb_spec (alen l) 0); [lia|]. unfold alen.
  rewrite Nat2Z.id, insert_app_r_alt, Nat.sub_diag by lia. done.
Qed.

Lemma u8_digit (d : Z) : 0 <= d <= 14 -> u8 (d + 48) = d + 48.
Proof. intros. apply uwrap_id. unfold is_uint. lia. Qed.

(** ** The digits before the point *)

Lemma cvt_int_spec (k : nat) (fuel : nat) (fi : double) (n r2 : Z) (a rest : list Z) :
  nonneg fi = true -> val fi = n * ONE -> 0 <= n < 2 ^ 48 -> n < 10 ^ Z.of_nat k -> (k <= fuel)%nat -> Z.of_nat k <= alen a ->
  exists a' ds, cvt_int fuel fi (alen a) r2 (a ++ rest) = Some (alen a', r2 + alen ds, a' ++ ds ++ rest) /\
    alen a' + alen ds = alen a /\ alen ds <= Z.of_nat k /\ all_digits ds /\ dec_value ds = n /\
    (n = 0 -> ds = []) /\ (0 < n -> hd 48 ds <> 48).
Proof.
  revert fuel fi n r2 a rest. induction k as [|k IH]; intros fuel fi n r2 a rest Hfi Hv Hn Hk Hf Ha.
  all: destruct (Z.eq_dec n 0) as [->|Hn0].
  1,3: exists a, []; change (alen (@nil Z)) with 0; rewrite !Z.add_0_r; split; [|split_and!; (done || lia || constructor)];
    destruct fuel; cbn [cvt_int]; rewrite nonzero_spec, Hv by done; done.
  { cbn in Hk. lia. }
  destruct fuel as [|fuel]; [lia|]. cbn [cvt_int].
  assert (nonzero fi = true) as ->.
  { rewrite nonzero_spec, Hv by done. apply negb_true_iff, Z.eqb_neq. pose proof ONE_pos.
    intros [E|E]%Z.eq_mul_0; lia. }
  pose proof (int_digit fi n Hfi Hv ltac:(lia)) as Hd. destruct (modf (ddiv fi D10)) as [fj fi'].
  destruct Hd as (Hfi' & Hv' & ->). cbn [mbind option_bind].
  destruct (alen_snoc_inv a) as (a0 & x & ->); [lia|]. rewrite alen_snoc in Ha |- *.
  replace (alen a0 + 1 - 1) with (alen a0) by lia. rewrite <-app_assoc. cbn [app]. rewrite awrite_mid. cbn [mbind option_bind].
  pose proof (Z.mod_pos_bound n 10 ltac:(lia)) as Hm. pose proof (Z.div_mod n 10 ltac:(lia)) as Hdm.
  rewrite u8_digit by lia. rewrite Nat2Z.inj_succ, Z.pow_succ_r in Hk by lia.
  destruct (IH fuel fi' (n / 10) (r2 + 1) a0 (n mod 10 + 48 :: rest)) as (a' & ds & -> & Hl & Hlk & Hds & Hval & Hz & Hhd);
    [done|done|split; [by apply Z.div_pos; lia|apply Z.div_lt_upper_bound; lia]|apply Z.div_lt_upper_bound; lia|lia|lia|].
  exists a', (ds ++ [n mod 10 + 48]). rewrite !alen_snoc, <-app_assoc.
  split; [do 3 f_equal; lia|]. split; [lia|]. split; [lia|]. split; [apply all_digits_snoc; [done|lia]|].
  rewrite dec_value_snoc. split; [lia|]. split; [lia|]. intros _. destruct (Z.eq_dec (n / 10) 0) as [E|].
  - rewrite (Hz E). cbn. lia.
  - specialize (Hhd ltac:(pose proof (Z.div_pos n 10); lia)). by destruct ds.
Qed.

Lemma cvt_move_spec (ds l g : list Z) :
  0 < alen g ->
  exists r, cvt_move (length ds) (alen l) (alen l + alen g) (l ++ g ++ ds) = Some (alen l + alen ds, l ++ ds ++ r) /\
    alen r = alen g.
Proof.
  revert l g. induction ds as [|c ds IH]; intros l g Hg; cbn [length cvt_move].
  { exists g. change (alen (@nil Z)) with 0. by rewrite Z.add_0_r, app_nil_r. }
  destruct g as [|x g]; [done|]. rewrite <-alen_app. rewrite (app_assoc l (x :: g)), aread_mid. cbn [mbind option_bind].
  rewrite <-app_assoc. cbn [app]. rewrite awrite_mid. cbn [mbind option_bind].
  destruct (IH (l ++ [c]) (g ++ [c])) as (r & Hrun & Hr); [rewrite alen_snoc; pose proof (alen_nonneg g); lia|].
  exists r. rewrite !alen_snoc, <-!app_assoc in *. rewrite !alen_app, !alen_cons. cbn [app] in Hrun.
  replace (alen l + (alen g + 1) + 1) with (alen l + 1 + (alen g + 1)) by lia. rewrite Hrun.
  split; [do 2 f_equal|]; lia.
Qed.

(** ** Scaled numbers *)

(** [d] and the fraction [a] are [x] times [10^t], up to the error of [t]
    multiplications by ten. *)
Definition tracks (x t d a : Z) : Prop :=
  2 ^ 53 * Z.abs (d * ONE + a - x * 10 ^ t) <= (2 * 10 ^ t - 2) * ONE.

Lemma tracks_0 (x d a : Z) : x = d * ONE + a -> tracks x 0 d a.
Proof. intros ->. unfold tracks. rewrite Z.pow_0_r. lia. Qed.

Lemma tracks_step (x t d a d' a' : Z) :
  0 <= t -> tracks x t d a -> 2 ^ 53 * Z.abs (d' * ONE + a' - 10 * a) <= 11 * ONE ->
  tracks x (t + 1) (d * 10 + d') a'.
Proof.
  intros Ht H1 H2. unfold tracks in *. rewrite Z.pow_add_r, Z.pow_1_r by lia. pose proof ONE_pos.
  set (p := 10 ^ t) in *. replace ((d * 10 + d') * ONE) with (10 * (d * ONE) + d' * ONE) by ring.
  replace (x * (p * 10)) with (10 * (x * p)) by ring. replace ((2 * (p * 10) - 2) * ONE) with (20 * (p * ONE) - 2 * ONE) by ring.
  replace ((2 * p - 2) * ONE) with (2 * (p * ONE) - 2 * ONE) in H1 by ring. lia.
Qed.

Lemma D0_value : nonneg D0 = true /\ val D0 = 0.
Proof. done. Qed.

Lemma D1_value : nonneg D1 = true /\ val D1 = ONE.
Proof. by vm_compute. Qed.

Lemma val_least (a : double) : nonneg a = true -> 0 < val a -> 2 ^ 126 <= val a.
Proof.
  intros Ha. destruct a as [s|s| |[] m e]; try done. apply bounded_iff in Ha as (He & _). cbn [val]. intros _.
  pose proof (Z.pow_le_mono_r 2 126 (e + 1200)). pose proof (pow_pos (e + 1200)). lia.
Qed.

(** The state of the loop over the leading zeros of [x]: [a] is [x * 10^j], and
    at every step so far it was below one. *)
Definition scaled (x j : Z) (a : double) : Prop :=
  nonneg a = true /\ 0 < val a < ONE /\ tracks x j 0 (val a) /\
  forall i, 0 <= i <= j -> 2 ^ 53 * (x * 10 ^ i) <= (2 ^ 53 + 2 * 10 ^ i) * ONE.

Lemma scaled_step (x j : Z) (a : double) :
  0 <= j -> scaled x j a ->
  nonneg (dmul a D10) = true /\ 8 * val a <= val (dmul a D10) /\
  (val (dmul a D10) < ONE -> scaled x (j + 1) (dmul a D10)).
Proof.
  intros Hj (Ha & Hr & Htr & Hall). pose proof ONE_pos. destruct TINY_small as [HT0 HT].
  destruct (mul_near a Ha) as [Hx Hnear]; [lia|]. apply near_error in Hnear; [|lia..].
  pose proof (val_least a Ha (proj1 Hr)) as Hmin. assert (TINY = 2 ^ 52 * 2 ^ 126) as ET by done.
  set (w := val (dmul a D10)) in *. split; [done|]. split; [lia|]. intros Hlt.
  assert (tracks x (j + 1) 0 w) as Htr'.
  { apply (tracks_step x j 0 (val a) 0 w); [done|done|]. lia. }
  split; [done|]. split; [unfold w in *; lia|]. split; [done|]. intros i Hi.
  destruct (Z.eq_dec i (j + 1)) as [->|]; [|apply Hall; lia]. unfold tracks in Htr'.
  set (p := 10 ^ (j + 1)) in *. clearbody w p.
  replace ((2 * p - 2) * ONE) with (2 * (p * ONE) - 2 * ONE) in Htr' by ring.
  replace ((2 ^ 53 + 2 * p) * ONE) with (2 ^ 53 * ONE + 2 * (p * ONE)) by ring. lia.
Qed.

Lemma cvt_scale_spec (fuel : nat) (x j : Z) (a : double) :
  0 <= j -> scaled x j a -> (fuel <= 400)%nat -> 2 ^ (1200 - 3 * Z.of_nat fuel) <= val a ->
  exists a' j', cvt_scale fuel a (- j) = Some (a', - j') /\ j <= j' /\ scaled x j' a'.
Proof.
  revert j a. induction fuel as [|fuel IH]; intros j a Hj Hs Hf Hlo; cbn [cvt_scale];
    destruct (scaled_step x j a Hj Hs) as (Hx & H8 & Hnext); destruct D1_value as [H1 E1];
    rewrite ltb_spec, E1 by done.
  - destruct Hs as (_ & Hr & _). change (2 ^ (1200 - 3 * Z.of_nat 0)) with ONE in Hlo. lia.
  - destruct (Z.ltb_spec (val (dmul a D10)) ONE) as [Hlt|_]; [|by exists a, j].
    destruct (IH (j + 1) (dmul a D10)) as (a' & j' & Hrun & Hle & Hs'); [lia|by apply Hnext|lia| |].
    { replace (1200 - 3 * Z.of_nat fuel) with (3 + (1200 - 3 * Z.of_nat (S fuel))) by lia.
      rewrite Z.pow_add_r by lia. change (2 ^ 3) with 8. lia. }
    exists a', j'. replace (- j - 1) with (- (j + 1)) by lia. split; [done|]. split; [lia|done].
Qed.

Lemma cvt_start_spec (arg : double) (buf : list Z) :
  nonneg arg = true -> val arg < 2 ^ 48 * ONE -> alen buf = CVTBUFSIZE ->
  exists a ds rest r, cvt_start (modf arg).1 (modf arg).2 buf = Some (a, alen ds, r, ds ++ rest) /\
    nonneg a = true /\ val a < ONE /\ all_digits ds /\ alen ds = Z.max 0 r /\ r <= 15 /\
    alen ds + alen rest = CVTBUFSIZE /\ (0 < r -> hd 48 ds <> 48) /\
    tracks (val arg) (Z.max 0 (- r)) (dec_value ds) (val a) /\
    forall i, 0 <= i <= - r -> 2 ^ 53 * (val arg * 10 ^ i) <= (2 ^ 53 + 2 * 10 ^ i) * ONE.
Proof.
  intros Ha Hlt Hb. pose proof ONE_pos as H1. destruct (modf_spec arg Ha) as (Hf & Ef & Hi & Ei).
  destruct (modf arg) as [a fi]. cbn [fst snd] in *. pose proof (val_nonneg arg Ha) as H0.
  set (x := val arg) in *. clearbody x. pose proof (Z.div_mod x ONE ltac:(lia)) as Hdm.
  pose proof (Z.mod_pos_bound x ONE ltac:(lia)) as Hm. set (n := x / ONE) in *.
  assert (0 <= n < 2 ^ 48) as Hn by (split; [by apply Z.div_pos|apply Z.div_lt_upper_bound; lia]).
  unfold cvt_start. rewrite (nonzero_spec fi Hi). destruct (Z.eqb_spec (val fi) 0) as [E0|E0]; cbn [negb].
  - assert (n = 0) as Hn0 by (rewrite Ei in E0; apply Z.eq_mul_0 in E0; lia).
    assert (val a = x) as Eax by lia. destruct D0_value as [HD0 ED0]. rewrite ltb_spec, ED0, Eax by done.
    destruct (Z.ltb_spec 0 x) as [Hx|Hx].
    + destruct (cvt_scale_spec 400 x 0 a) as (a' & j & Hrun & Hj & Ha' & Hr & Htr & Hall); [done| |lia| |].
      { split; [done|]. rewrite Eax. split; [lia|]. split; [by apply tracks_0|]. intros i Hi0. replace i with 0 by lia. cbn. lia. }
      { change (2 ^ (1200 - 3 * Z.of_nat 400)) with 1. lia. }
      change (- 0) with 0 in Hrun. rewrite Hrun. exists a', [], buf, (- j). cbn [mbind option_bind].
      change (alen (@nil Z)) with 0. rewrite Z.opp_involutive. replace (Z.max 0 j) with j by lia.
      repeat (split; [first [done | lia | constructor]|]). done.
    + exists a, [], buf, 0. change (alen (@nil Z)) with 0. assert (x = 0) as -> by lia. change (Z.max 0 (- 0)) with 0.
      repeat (split; [first [done | lia | constructor]|]). split; [apply tracks_0; cbn; lia|]. intros i Hi0. replace i with 0 by lia. cbn. lia.
  - assert (0 < n) as Hn0 by (destruct (Z.eq_dec n 0) as [E|]; [rewrite Ei, E in E0|]; lia).
    destruct (cvt_int_spec 15 81 fi n 0 buf []) as (p & ds & Hrun & Hl & Hk & Hds & Hval & _ & Hhd);
      [done|done|done|by (cbn; lia)|lia|rewrite Hb; unfold CVTBUFSIZE; lia|].
    rewrite !app_nil_r, Hb in Hrun. rewrite Hrun. cbn [mbind option_bind]. rewrite Hb in Hl.
    pose proof (alen_nonneg ds). unfold CVTBUFSIZE in *.
    destruct (cvt_move_spec ds [] p) as (r & Hmv & Hr); [lia|].
    change (alen (@nil Z)) with 0 in Hmv. cbn [app] in Hmv. rewrite !Z.add_0_l in Hmv.
    replace (Z.to_nat (80 - alen p)) with (length ds) by (unfold alen in *; lia). rewrite Hmv. cbn [mbind option_bind].
    exists a, ds, r, (alen ds). assert (0 < alen ds) as Hpos by (destruct ds; [cbn in Hval; unfold dec_value in Hval; cbn in Hval; lia|rewrite alen_cons; pose proof (alen_nonneg ds); lia]).
    rewrite Z.add_0_l. replace (Z.max 0 (- alen ds)) with 0 by lia.
    repeat (split; [first [done | lia | by intros _; apply Hhd]|]). split; [|intros; lia]. apply tracks_0. rewrite Hval. lia.
Qed.

Lemma cvt_frac_spec (n : nat) (a : double) (x t : Z) (l rest : list Z) :
  nonneg a = true -> val a < ONE -> 0 <= t -> tracks x t (dec_value l) (val a) -> all_digits l -> Z.of_nat n <= alen rest ->
  exists l' rest' a', cvt_frac n a (alen l) (l ++ rest) = Some (alen (l ++ l'), (l ++ l') ++ rest') /\
    alen l' = Z.of_nat n /\ alen rest' = alen rest - Z.of_nat n /\ all_digits (l ++ l') /\
    0 <= a' < ONE /\ tracks x (t + Z.of_nat n) (dec_value (l ++ l')) a'.
Proof.
  revert a t l rest. induction n as [|n IH]; intros a t l rest Ha Hlt Ht Htr Hl Hr; cbn [cvt_frac].
  { exists [], rest, (val a). change (alen (@nil Z)) with 0. rewrite app_nil_r, !Z.add_0_r.
    repeat (split; [first [done | lia]|]). split; [split; [by apply val_nonneg|done]|done]. }
  pose proof (frac_digit a Ha Hlt) as Hd. destruct (modf (dmul a D10)) as [a1 fj].
  destruct Hd as (d & -> & Hd & Ha1 & Hlt1 & _ & _ & Herr). cbn [mbind option_bind].
  destruct rest as [|c rest]; [unfold alen in Hr; cbn in Hr; lia|]. rewrite awrite_mid. cbn [mbind option_bind].
  rewrite u8_digit by lia. rewrite alen_cons in *.
  destruct (IH a1 (t + 1) (l ++ [d + 48]) rest) as (l' & rest' & a' & Hrun & Hl' & Hr' & Hd' & Ha' & Htr').
  - done.
  - done.
  - lia.
  - rewrite dec_value_snoc. replace (d + 48 - 48) with d by lia. by eapply tracks_step.
  - by apply all_digits_snoc.
  - lia.
  - exists (d + 48 :: l'), rest', a'. rewrite alen_cons. rewrite <-!app_assoc in *. cbn [app] in *.
    rewrite alen_snoc in Hrun. rewrite Hrun. split; [done|]. split; [lia|]. split; [lia|]. split; [done|]. split; [done|].
    replace (t + Z.of_nat (S n)) with (t + 1 + Z.of_nat n) by lia. done.
Qed.

(** ** Rounding *)

Lemma all_digits_snoc_inv (l : list Z) (c : Z) : all_digits (l ++ [c]) -> all_digits l /\ 48 <= c <= 57.
Proof. intros [Hl Hc]%Forall_app. apply Forall_cons in Hc as [Hc%is_digit_iff _]. done. Qed.

Lemma carry_stops (l : list Z) (c : Z) (j : nat) (rest : list Z) (decpt : Z) :
  all_digits l -> 48 <= c <= 57 ->
  exists m rest', Some (alen l + 1 + Z.of_nat j, decpt, l ++ c :: repeat 48 j ++ 48 :: rest) =
      Some (alen m, decpt + (alen m - (alen l + 1 + Z.of_nat j)), m ++ rest') /\
    all_digits m /\ dec_value m = (dec_value l * 10 + (c - 48)) * 10 ^ Z.of_nat j /\
    alen m + alen rest' = alen l + 1 + Z.of_nat j + 1 + alen rest /\
    0 <= alen m - (alen l + 1 + Z.of_nat j) <= 1 /\ (hd 48 (l ++ [c]) <> 48 \/ alen m = alen l + 2 + Z.of_nat j -> hd 48 m <> 48).
Proof.
  intros Hl Hc. exists ((l ++ [c]) ++ repeat 48 j), (48 :: rest). rewrite dec_value_zeros, dec_value_snoc.
  rewrite !alen_app, !alen_cons, alen_repeat. change (alen (@nil Z)) with 0. rewrite <-!app_assoc. cbn [app].
  split; [apply f_equal, f_equal2; [apply f_equal2; lia|done]|]. split.
  { apply Forall_app. split; [done|]. constructor; [by apply is_digit_iff|apply all_digits_zeros]. }
  split; [done|]. split; [lia|]. split; [lia|]. intros [Hh|]; [by destruct l|lia].
Qed.

(** The carry out of the character behind [l]; the ones behind that are zeros
    already. *)
Lemma cvt_carry_spec (l : list Z) (fuel : nat) (c : Z) (j : nat) (rest : list Z) (decpt : Z) :
  all_digits l -> 48 <= c <= 58 -> (length l < fuel)%nat ->
  exists m rest', cvt_carry fuel false (alen l) (alen l + 1 + Z.of_nat j) decpt (l ++ c :: repeat 48 j ++ 48 :: rest) =
      Some (alen m, decpt + (alen m - (alen l + 1 + Z.of_nat j)), m ++ rest') /\
    all_digits m /\ dec_value m = (dec_value l * 10 + (c - 48)) * 10 ^ Z.of_nat j /\
    alen m + alen rest' = alen l + 1 + Z.of_nat j + 1 + alen rest /\
    0 <= alen m - (alen l + 1 + Z.of_nat j) <= 1 /\ (hd 48 (l ++ [c]) <> 48 \/ alen m = alen l + 2 + Z.of_nat j -> hd 48 m <> 48).
Proof.
  revert fuel c j. induction l as [|d l IH] using rev_ind; intros fuel c j Hl Hc Hf.
  all: destruct fuel as [|fuel]; [lia|]; cbn [cvt_carry]; rewrite aread_mid; cbn [mbind option_bind];
    destruct (Z.ltb_spec 57 c) as [Hgt|Hle].
  - assert (c = 58) as -> by lia. pose proof (fun r c v => awrite_mid [] r c v) as Hw0. pose proof (fun r c => aread_mid [] r c) as Hr0.
    change (alen (@nil Z)) with 0 in *. cbn [app] in *. rewrite Hw0. cbn [mbind option_bind]. change (0 <? 0) with false. cbn iota.
    rewrite Hw0. cbn [mbind option_bind].
    assert (forall v r, awrite (49 :: repeat 48 j ++ 48 :: r) (0 + 1 + Z.of_nat j) v = Some (49 :: repeat 48 j ++ v :: r)) as Hw.
    { intros v r. pose proof (awrite_mid (49 :: repeat 48 j) r 48 v) as E. rewrite alen_cons, alen_repeat in E.
      replace (0 + 1 + Z.of_nat j) with (Z.of_nat j + 1) by lia. exact E. }
    destruct (Z.ltb_spec 0 (0 + 1 + Z.of_nat j)); [|lia]. rewrite Hw. cbn [mbind option_bind].
    exists (49 :: repeat 48 (S j)), rest. rewrite alen_cons, alen_repeat. split.
    { destruct fuel; cbn [cvt_carry]; rewrite Hr0; cbn [mbind option_bind Z.ltb Z.compare Pos.compare Pos.compare_cont].
      all: change (repeat 48 (S j)) with (48 :: repeat 48 j); rewrite repeat_cons; cbn [app]; rewrite <-app_assoc. all: do 3 f_equal; lia. }
    split; [constructor; [done|apply all_digits_zeros]|]. change (49 :: repeat 48 (S j)) with ([49] ++ repeat 48 (S j)).
    rewrite dec_value_zeros, Nat2Z.inj_succ, Z.pow_succ_r by lia. change (dec_value [49]) with 1. change (dec_value []) with 0.
    split; [lia|]. split; [lia|]. split; [lia|]. done.
  - apply (carry_stops []); [done|lia].
  - apply all_digits_snoc_inv in Hl as [Hl Hd]. assert (c = 58) as -> by lia. rewrite awrite_mid. cbn [mbind option_bind].
    rewrite length_app in Hf. cbn in Hf. pose proof (alen_nonneg l). rewrite alen_snoc in *.
    destruct (Z.ltb_spec 0 (alen l + 1)); [|lia]. replace (alen l + 1 - 1) with (alen l) by lia.
    rewrite <-app_assoc. cbn [app]. rewrite aread_mid. cbn [mbind option_bind]. rewrite awrite_mid. cbn [mbind option_bind].
    replace (u8 (d + 1)) with (d + 1) by (symmetry; apply uwrap_id; unfold is_uint; lia).
    destruct (IH fuel (d + 1) (S j)) as (m & rest' & Hrun & Hm & Hv & Hlen & Hb & Hhd); [done|lia|lia|].
    replace (alen l + 1 + Z.of_nat (S j)) with (alen l + 1 + 1 + Z.of_nat j) in * by lia.
    exists m, rest'. cbn [repeat app] in Hrun. rewrite Hrun. split; [done|]. split; [done|].
    rewrite dec_value_snoc. rewrite Nat2Z.inj_succ, Z.pow_succ_r in Hv by lia. split; [rewrite Hv; ring|].
    split; [lia|]. split; [lia|]. intros [Hh|Hh]; apply Hhd; [left|right; lia].
    destruct l as [|e l]; [cbn; lia|exact Hh].
  - apply carry_stops; [done|lia].
Qed.

Lemma cvt_round_start (l rest : list Z) (c decpt : Z) :
  48 <= c <= 57 ->
  exists f, (100 < f)%nat /\ cvt_round false (alen l) decpt ((l ++ [c]) ++ rest) =
    ('(p, decpt, buf) ← cvt_carry (S (S f)) false (alen l) (alen l) decpt (l ++ (c + 5) :: rest);
     buf ← awrite buf p 0; Some (buf, decpt)).
Proof.
  intros Hc. unfold cvt_round, CVTBUFSIZE. rewrite <-app_assoc. cbn [app]. rewrite aread_mid. cbn [mbind option_bind].
  rewrite awrite_mid. cbn [mbind option_bind].
  replace (u8 (c + 5)) with (c + 5) by (symmetry; apply uwrap_id; unfold is_uint; lia).
  assert (exists f, (2 * Z.to_nat 80)%nat = S (S f) /\ (100 < f)%nat) as (f & -> & Ef) by (exists 158%nat; lia).
  by exists f.
Qed.

(** What rounding at the last digit [c] of [l ++ [c]] gives. *)
Definition round_result (l rest : list Z) (c decpt : Z) : Prop :=
  exists m rest', cvt_round false (alen l) decpt ((l ++ [c]) ++ rest) = Some (m ++ 0 :: rest', decpt + (alen m - alen l)) /\
    all_digits m /\ dec_value m = (dec_value (l ++ [c]) + 5) / 10 /\ 0 <= alen m - alen l <= 1 /\
    (m <> [] -> hd 48 (l ++ [c]) <> 48 \/ alen m = alen l + 1 -> hd 48 m <> 48).

Lemma round_down (l rest : list Z) (c decpt : Z) : all_digits l -> 48 <= c <= 52 -> round_result l rest c decpt.
Proof.
  intros Hl Hc. destruct (cvt_round_start l rest c decpt) as (f & _ & Hrun); [lia|]. exists l, rest. rewrite Hrun, dec_value_snoc.
  cbn [cvt_carry]. rewrite aread_mid. cbn [mbind option_bind]. destruct (Z.ltb_spec 57 (c + 5)); [lia|].
  cbn [mbind option_bind]. rewrite awrite_mid. cbn [mbind option_bind].
  split; [do 2 f_equal; lia|]. split; [done|]. split; [apply Z.div_unique with (c - 48 + 5); lia|]. split; [lia|].
  intros Hne [Hh|]; [by destruct l|lia].
Qed.

Lemma round_up_first (x : Z) (rest : list Z) (c decpt : Z) : 53 <= c <= 57 -> round_result [] (x :: rest) c decpt.
Proof.
  intros Hc. destruct (cvt_round_start [] (x :: rest) c decpt) as (f & _ & Hrun); [lia|]. exists [49], rest.
  split; [|split; [by repeat constructor|split; [|done]]].
  2:{ rewrite dec_value_snoc. change (dec_value [49]) with 1. change (dec_value []) with 0.
      apply Z.div_unique with (c - 48 + 5 - 10); lia. }
  rewrite Hrun. cbn [cvt_carry]. pose proof (fun r c v => awrite_mid [] r c v) as Hw0. pose proof (fun r c => aread_mid [] r c) as Hr0.
  change (alen (@nil Z)) with 0 in *. cbn [app] in *. rewrite Hr0. cbn [mbind option_bind].
  destruct (Z.ltb_spec 57 (c + 5)); [|lia]. rewrite Hw0. cbn [mbind option_bind]. change (0 <? 0) with false. cbn iota.
  rewrite Hw0. cbn [mbind option_bind]. rewrite Hr0. cbn [mbind option_bind]. change (57 <? 49) with false. cbn [mbind option_bind].
  pose proof (awrite_mid [49] rest x 0) as E. cbn [app] in E. change (alen [49]) with (0 + 1) in E. by rewrite E.
Qed.

Lemma round_up (l rest : list Z) (d c decpt : Z) :
  all_digits (l ++ [d]) -> 53 <= c <= 57 -> 0 < alen rest -> alen l < 100 -> round_result (l ++ [d]) rest c decpt.
Proof.
  intros Hl Hc Hr Hlen. apply all_digits_snoc_inv in Hl as [Hl Hd]. pose proof (alen_nonneg l).
  destruct (cvt_round_start (l ++ [d]) rest c decpt) as (f & Hf & Hrun); [lia|]. remember (S f) as f1 eqn:Ef1.
  cbn [cvt_carry] in Hrun. rewrite aread_mid in Hrun. cbn [mbind option_bind] in Hrun.
  destruct (Z.ltb_spec 57 (c + 5)); [|lia]. rewrite awrite_mid in Hrun. cbn [mbind option_bind] in Hrun.
  rewrite alen_snoc in Hrun. destruct (Z.ltb_spec 0 (alen l + 1)); [|lia].
  replace (alen l + 1 - 1) with (alen l) in Hrun by lia. rewrite <-(app_assoc l [d] (48 :: rest)) in Hrun. cbn [app] in Hrun.
  rewrite aread_mid in Hrun. cbn [mbind option_bind] in Hrun. rewrite awrite_mid in Hrun. cbn [mbind option_bind] in Hrun.
  replace (u8 (d + 1)) with (d + 1) in Hrun by (symmetry; apply uwrap_id; unfold is_uint; lia).
  destruct (cvt_carry_spec l f1 (d + 1) 0 rest decpt) as (m & rest' & Hcarry & Hm & Hv & Hlm & Hb & Hhd);
    [done|lia|unfold alen in *; lia|]. cbn [repeat app] in Hcarry. change (Z.of_nat 0) with 0 in *. rewrite !Z.add_0_r in *.
  rewrite Hcarry in Hrun. cbn [mbind option_bind] in Hrun.
  destruct rest' as [|x rest']; [change (alen (@nil Z)) with 0 in Hlm; lia|].
  rewrite awrite_mid in Hrun. cbn [mbind option_bind] in Hrun. exists m, rest'. rewrite alen_snoc.
  split; [exact Hrun|]. split; [done|]. split.
  { rewrite Hv, !dec_value_snoc. change (10 ^ 0) with 1. apply Z.div_unique with (c - 48 + 5 - 10); lia. }
  split; [lia|]. intros _ [Hh|Hh]; apply Hhd; [left|right; lia]. destruct l as [|e l]; [cbn; lia|exact Hh].
Qed.

Lemma cvt_round_spec (l rest : list Z) (c decpt : Z) :
  all_digits (l ++ [c]) -> 0 < alen rest -> alen l < 100 -> round_result l rest c decpt.
Proof.
  intros [Hl Hc]%all_digits_snoc_inv Hr Hlen. destruct (Z.le_gt_cases c 52); [by apply round_down; [|lia]|].
  destruct l as [|d l _] using rev_ind.
  - destruct rest as [|x rest]; [done|]. by apply round_up_first; lia.
  - rewrite alen_snoc in Hlen. apply round_up; (done || lia).
Qed.

(** ** The digits of a number *)

(** [v] units of the last of [n] places are [x] rounded: within half a unit, and
    2^-52. *)
Definition rounds (x n v : Z) : Prop := 2 ^ 53 * Z.abs (v * ONE - x * 10 ^ n) <= (2 ^ 52 + 2 * 10 ^ n) * ONE.

Lemma tracks_rounds (x n d a : Z) :
  0 <= n -> tracks x (n + 1) d a -> 0 <= a < ONE -> rounds x n ((d + 5) / 10).
Proof.
  intros Hn Htr Ha. unfold tracks, rounds in *. rewrite Z.pow_add_r, Z.pow_1_r in Htr by lia. pose proof ONE_pos.
  pose proof (Z.div_mod (d + 5) 10 ltac:(lia)) as Hdm. pose proof (Z.mod_pos_bound (d + 5) 10 ltac:(lia)) as Hm.
  set (v := (d + 5) / 10) in *. set (m := (d + 5) mod 10) in *. set (p := 10 ^ n) in *. clearbody v m p.
  assert (d = 10 * v + m - 5) as -> by lia. clear Hdm.
  replace ((10 * v + m - 5) * ONE + a - x * (p * 10)) with (10 * (v * ONE - x * p) + m * ONE - 5 * ONE + a) in Htr by ring.
  replace ((2 * (p * 10) - 2) * ONE) with (20 * (p * ONE) - 2 * ONE) in Htr by ring.
  replace ((2 ^ 52 + 2 * p) * ONE) with (2 ^ 52 * ONE + 2 * (p * ONE)) by ring.
  assert (0 <= m * ONE <= 9 * ONE) as Hmo by (split; [apply Z.mul_nonneg_nonneg|apply Z.mul_le_mono_nonneg_r]; lia).
  set (mo := m * ONE) in *. set (e := v * ONE - x * p) in *. clearbody mo e. lia.
Qed.

(** What [fcvtbuf] leaves: the rounded digits, and where the point goes. *)
Lemma cvt_spec (arg : double) (n : Z) (buf : list Z) :
  nonneg arg = true -> val arg < 2 ^ 48 * ONE -> 0 <= n <= 60 -> alen buf = CVTBUFSIZE ->
  exists m rest decpt, cvt arg n buf false = Some (m ++ 0 :: rest, decpt, false) /\
    all_digits m /\ rounds (val arg) n (dec_value m) /\ decpt <= 16 /\
    (m = [] /\ decpt <= 0 \/ alen m = n + decpt /\ (0 < decpt -> hd 48 m <> 48)).
Proof.
  intros Ha Hlt Hn Hb. destruct (cvt_start_spec arg buf Ha Hlt Hb)
    as (a & ds & rest & r & Hst & Hna & Hla & Hds & Hlen & Hr & Hsum & Hhd & Htr & Hall).
  unfold cvt. destruct D0_value as [HD0 ED0]. pose proof (val_nonneg arg Ha). rewrite ltb_spec, ED0 by done.
  destruct (Z.ltb_spec (val arg) 0); [lia|]. destruct (modf arg) as [a0 fi]. cbn [fst snd] in Hst.
  unfold CVTBUFSIZE in *. destruct (Z.ltb_spec n 0); [lia|]. destruct (Z.leb_spec (80 - 1) n); [lia|].
  rewrite Hst. cbn [mbind option_bind]. pose proof (alen_nonneg ds). pose proof (alen_nonneg rest).
  destruct (Z.ltb_spec (n + r) 0) as [Hneg|Hpos].
  - assert (ds = []) as -> by (destruct ds; [done|rewrite alen_cons in Hlen; pose proof (alen_nonneg ds); lia]).
    destruct rest as [|x rest]; [change (alen (@nil Z)) with 0 in Hsum; lia|]. cbn [app].
    pose proof (awrite_mid [] rest x 0) as E. cbn [app] in E. change (alen (@nil Z)) with 0 in E. rewrite E. cbn [mbind option_bind].
    exists [], rest, r. split; [done|]. split; [constructor|]. split; [|split; [lia|left; split; [done|lia]]].
    change (dec_value []) with 0. unfold rounds. specialize (Hall (n + 1) ltac:(lia)). rewrite Z.pow_add_r, Z.pow_1_r in Hall by lia.
    pose proof (Z.mul_nonneg_nonneg (val arg) (10 ^ n) ltac:(lia) ltac:(lia)). pose proof ONE_pos.
    set (x0 := val arg) in *. set (p := 10 ^ n) in *. clearbody x0 p.
    replace ((2 ^ 53 + 2 * (p * 10)) * ONE) with (2 ^ 53 * ONE + 20 * (p * ONE)) in Hall by ring.
    replace ((2 ^ 52 + 2 * p) * ONE) with (2 ^ 52 * ONE + 2 * (p * ONE)) by ring.
    replace (x0 * (p * 10)) with (10 * (x0 * p)) in Hall by ring. lia.
  - set (k := Z.to_nat _). assert (Z.of_nat k = n + r + 1 - alen ds) as Hk by (unfold k; lia). clearbody k.
    destruct (cvt_frac_spec k a (val arg) (Z.max 0 (- r)) ds rest) as (l' & rest' & a' & Hfr & Hl' & Hr' & Hd' & Ha' & Htr');
      [done|done|lia|done|done|lia|].
    rewrite Hfr. cbn [mbind option_bind]. destruct (Z.leb_spec 80 (n + r)); [lia|].
    destruct (alen_snoc_inv (ds ++ l')) as (l & c & E); [rewrite alen_app; lia|].
    assert (alen l = n + r) as El by (pose proof (f_equal alen E) as Hal; rewrite alen_snoc, alen_app in Hal; lia).
    rewrite E in *. rewrite <-El.
    destruct (cvt_round_spec l rest' c r) as (m & rest2 & -> & Hm & Hv & Hb' & Hmh); [done|lia|lia|]. cbn [mbind option_bind].
    exists m, rest2, (r + (alen m - alen l)). split; [done|]. split; [done|]. split.
    { rewrite Hv. apply (tracks_rounds _ _ _ a'); [lia| |done].
      replace (n + 1) with (Z.max 0 (- r) + Z.of_nat k) by lia. done. }
    split; [lia|]. destruct m as [|m0 m].
    + left. split; [done|]. change (alen (@nil Z)) with 0 in *. lia.
    + right. split; [lia|]. intros Hdp. apply Hmh; [done|].
      destruct (Z.eq_dec (alen (m0 :: m)) (alen l + 1)); [by right|left].
      assert (0 < r) as Hr0 by lia. specialize (Hhd Hr0). destruct ds as [|e ds]; [done|]. by rewrite <-E.
Qed.

(** ** The text *)

(** A decimal with [n] places: digits, and a point with exactly [n] more when
    there are any; [v] is the value in units of the last place. *)
Definition decimal (n v : Z) (s : list Z) : Prop :=
  exists ip fp, s = ip ++ (if n =? 0 then [] else 46 :: fp) /\ all_digits (ip ++ fp) /\ alen fp = n /\
    dec_value (ip ++ fp) = v /\ ip <> [] /\ (hd 48 ip = 48 -> ip = [48]).

Lemma point_at_after (pos decpt : Z) (l : list Z) : decpt < pos -> point_at pos decpt l = l.
Proof.
  revert pos. induction l as [|c l IH]; intros pos Hp; [done|]. cbn [point_at].
  destruct (Z.eqb_spec pos decpt); [lia|]. cbn [app]. by rewrite IH by lia.
Qed.

Lemma point_at_spec (l1 l2 : list Z) (pos : Z) :
  point_at pos (pos + alen l1) (l1 ++ l2) = l1 ++ (match l2 with [] => [] | _ => 46 :: l2 end).
Proof.
  revert pos. induction l1 as [|c l1 IH]; intros pos; cbn [app].
  - change (alen (@nil Z)) with 0. destruct l2 as [|c l2]; [done|]. cbn [point_at]. rewrite Z.add_0_r, Z.eqb_refl. cbn [app].
    by rewrite point_at_after by lia.
  - cbn [point_at]. rewrite alen_cons. pose proof (alen_nonneg l1). destruct (Z.eqb_spec pos (pos + (alen l1 + 1))); [lia|].
    cbn [app]. replace (pos + (alen l1 + 1)) with (pos + 1 + alen l1) by lia. by rewrite IH.
Qed.

Lemma f_text_spec (n decpt : Z) (m : list Z) :
  0 <= n -> all_digits m -> m = [] /\ decpt <= 0 \/ alen m = n + decpt /\ (0 < decpt -> hd 48 m <> 48) ->
  decimal n (dec_value m) (f_text n decpt false m) /\ alen (f_text n decpt false m) <= Z.max 1 decpt + n + (if n =? 0 then 0 else 1).
Proof.
  intros Hn Hm Hc. unfold f_text. cbn [app]. destruct m as [|c ds].
  { assert (48 :: (if 0 <? n then 46 :: repeat 48 (Z.to_nat n) else [])
      = [48] ++ (if n =? 0 then [] else 46 :: repeat 48 (Z.to_nat n))) as ->.
    { destruct (Z.ltb_spec 0 n), (Z.eqb_spec n 0); (done || lia). }
    split.
    - exists [48], (repeat 48 (Z.to_nat n)). split; [done|]. split; [constructor; [done|apply all_digits_zeros]|].
      rewrite alen_repeat. split; [lia|]. split; [|done]. by rewrite (dec_value_zeros [48]).
    - rewrite alen_app. destruct (Z.eqb_spec n 0); rewrite ?alen_cons, ?alen_repeat; change (alen (@nil Z)) with 0; lia. }
  destruct Hc as [[? _]|[Hlen Hhd]]; [done|]. set (m := c :: ds) in *. assert (0 < alen m) as Hpos by (unfold m; rewrite alen_cons; pose proof (alen_nonneg ds); lia).
  clearbody m. destruct (Z.leb_spec decpt 0) as [Hle|Hgt].
  - destruct (Z.eqb_spec n 0); [lia|]. split.
    + exists [48], (repeat 48 (Z.to_nat (- decpt)) ++ m). destruct (Z.eqb_spec n 0); [lia|]. split; [done|]. split.
      { constructor; [done|]. apply Forall_app. split; [apply all_digits_zeros|done]. }
      split; [rewrite alen_app, alen_repeat; lia|]. split; [|done].
      change (48 :: ?l) with (repeat 48 1 ++ l). cbn [app]. exact (dec_value_leading (S (Z.to_nat (- decpt))) m).
    + cbn [app]. rewrite !alen_cons, alen_app, alen_repeat. lia.
  - rewrite <-(take_drop (Z.to_nat decpt) m) in *. set (l1 := take _ m) in *. set (l2 := drop _ m) in *.
    assert (alen l1 = decpt /\ alen l2 = n) as [E1 E2].
    { unfold l1, l2, alen in *. rewrite length_app, length_take, length_drop in Hlen. rewrite length_take, length_drop. lia. }
    pose proof (point_at_spec l1 l2 0) as Hp. rewrite Z.add_0_l, E1 in Hp. rewrite Hp.
    assert ((match l2 with [] => [] | _ => 46 :: l2 end) = if n =? 0 then [] else 46 :: l2) as ->.
    { destruct l2; [by rewrite <-E2|]. rewrite alen_cons in E2. pose proof (alen_nonneg l2). by destruct (Z.eqb_spec n 0); [lia|]. }
    split.
    + exists l1, l2. split; [done|]. split; [done|]. split; [done|]. split; [done|].
      destruct l1 as [|d l1]; [change (alen (@nil Z)) with 0 in E1; lia|]. split; [done|]. intros Hh. by specialize (Hhd Hgt).
    + rewrite alen_app. destruct (Z.eqb_spec n 0); rewrite ?alen_cons; change (alen (@nil Z)) with 0; lia.
Qed.

(** A [double] whose digits the buffers have room for: finite and below 2^48. *)
Definition small (x : double) : bool := (nonneg x || nonneg (SFopp x)) && (val x <? 2 ^ 48 * ONE).

Lemma small_abs (x : double) :
  small x = true ->
  let a := if SFltb x D0 then SFopp x else x in nonneg a = true /\ val a = val x /\ val x < 2 ^ 48 * ONE.
Proof.
  intros [Hn Hv%Z.ltb_lt]%andb_true_iff. cbn zeta. split; [|split; [|done]].
  - destruct x as [s|s| |[] m e]; try done. cbn [nonneg SFopp negb] in Hn |- *. by rewrite orb_false_r in Hn.
  - by destruct x as [s|s| |[] m e].
Qed.

Lemma c_string_digits (m rest : list Z) : all_digits m -> c_string (m ++ 0 :: rest) = m.
Proof.
  induction 1 as [|c m Hc%is_digit_iff _ IH]; [done|]. cbn [app c_string]. destruct (Z.eqb_spec c 0); [lia|]. by rewrite IH.
Qed.

Lemma parse_float_spec (stack : list Z) (x : double) (n : Z) :
  nonneg x = true -> val x < 2 ^ 48 * ONE -> 0 <= n <= 60 -> alen stack = CVTBUFSIZE ->
  exists s v, parse_float stack x 102 n = Some s /\ decimal n v s /\ rounds (val x) n v /\
    alen s <= 16 + n + (if n =? 0 then 0 else 1).
Proof.
  intros Hx Hlt Hn Hst. destruct (cvt_spec x n stack Hx Hlt Hn Hst) as (m & rest & decpt & Hrun & Hm & Hr & Hd & Hc).
  destruct (f_text_spec n decpt m) as [Htext Hlen]; [lia|done|done|].
  unfold parse_float, fcvtbuf. cbn [Z.eqb Pos.eqb orb mbind option_bind]. rewrite Hrun. cbn [mbind option_bind].
  rewrite c_string_digits by done. exists (f_text n decpt false m), (dec_value m).
  unfold fits, TMPSIZE. destruct (Z.ltb_spec (alen (f_text n decpt false m)) 80); [|destruct (n =? 0); lia].
  split; [done|]. split; [done|]. split; [done|]. destruct (n =? 0); lia.
Qed.

(** A decimal has neither a zero nor an exponent; a whole one gets its point at
    the end. *)
Lemma decimal_chars (n v : Z) (s : list Z) : decimal n v s -> Forall (fun c => c <> 0) s.
Proof.
  intros (ip & fp & -> & [Hi Hf]%Forall_app & _).
  assert (forall l, all_digits l -> Forall (fun c => c <> 0) l) as Hd
    by (intros l Hl; eapply Forall_impl; [exact Hl|]; intros c Hc%is_digit_iff; lia).
  apply Forall_app. split; [by apply Hd|]. destruct (n =? 0); [constructor|]. constructor; [done|by apply Hd].
Qed.

Lemma decimal_point_whole (v : Z) (s : list Z) : decimal 0 v s -> alen s + 1 < TMPSIZE -> decimal_point s = Some (s ++ [46]).
Proof.
  intros (ip & fp & -> & [Hi _]%Forall_app & _) Hlen. cbn [Z.eqb] in *. rewrite app_nil_r in *. unfold decimal_point.
  assert (to_point ip = (ip, [])) as ->.
  { clear Hlen. induction Hi as [|c l Hc%is_digit_iff _ IH]; [done|]. cbn [to_point]. rewrite IH.
    destruct (Z.eqb_spec c 46), (Z.eqb_spec c 101), (Z.eqb_spec c 69); (done || lia). }
  destruct (Z.ltb_spec (alen ip + 1) TMPSIZE); [done|lia].
Qed.
