(* ===== verification/EePrintf.v ===== *)
(** * [src/fpga/coremark/ee_printf.c]: the formatter

    Text is a list of characters ([char] is unsigned on the target); a C string
    reads as zero beyond its end.  Each function returns the characters it
    appends at [str].  An argument of the wrong type or a missing one is
    undefined in C and [None] here. *)

From Stdlib Require Import SpecFloat.
From S2P Require Import Prelude Zephyr CoreUtil Uart PortTime EeFloat EeFloatSpec EeFloatText.

(** ** Flags *)

Definition ZEROPAD : Z := 1 .<< 0.
Definition SIGN : Z := 1 .<< 1.
Definition PLUS : Z := 1 .<< 2.
Definition SPACE : Z := 1 .<< 3.
Definition LEFT : Z := 1 .<< 4.
Definition HEX_PREP : Z := 1 .<< 5.
Definition UPPERCASE : Z := 1 .<< 6.

Definition has (type flag : Z) : bool := truthy (type .& flag).

Definition digits : list Z := text "0123456789abcdefghijklmnopqrstuvwxyz".
Definition upper_digits : list Z := text "0123456789ABCDEFGHIJKLMNOPQRSTUVWXYZ".

(** ** Scanning *)

(** [count] is an [ee_size_t]. *)
Fixpoint strnlen (s : list Z) (count : Z) : Z :=
  match s with
  | [] => 0
  | c :: s' => if truthy c && truthy count then 1 + strnlen s' (count - 1) else 0
  end.

(** [skip_atoi]: the number and what follows it. *)
Fixpoint atoi_from (s : list Z) (i : Z) : Z * list Z :=
  match s with
  | c :: s' => if is_digit c then atoi_from s' (s32 (s32 (s32 (i * 10) + c) - 48)) else (i, s)
  | [] => (i, [])
  end.
Definition skip_atoi (s : list Z) : Z * list Z := atoi_from s 0.

(** ** Padded fields *)

(** [while (lim < size--) *str++ = c;] and the value it leaves in [size]. *)
Fixpoint pad_loop (n : nat) (c lim size : Z) : list Z * Z :=
  if lim <? size then
    match n with
    | O => ([], size)
    | S n' => let '(o, size) := pad_loop n' c lim (size - 1) in (c :: o, size)
    end
  else ([], size - 1).
Definition pad (c lim size : Z) : list Z * Z := pad_loop (Z.to_nat (size - lim)) c lim size.

(** [while (--size > 0) *str++ = c;] *)
Definition pad_pre (c size : Z) : list Z * Z := let '(o, size) := pad c 0 (size - 1) in (o, size + 1).

(** The digits of [num] as an [unsigned long], least significant first. *)
Definition number_digits (dig : list Z) (num base : Z) : option (list Z) :=
  if num =? 0 then Some [48]
  else
    snd <$> while_fuel 33 (fun '(num, _) => negb (num =? 0))
      (fun '(num, tmp) => (s32 (u32 num / base), tmp ++ [aget dig (u32 num mod base)])) (num, []).

(** [None] also for the null pointer returned on a bad base. *)
Definition number (num base size precision type : Z) : option (list Z) :=
  let dig := if has type UPPERCASE then upper_digits else digits in
  let type := if has type LEFT then type .& Z.lnot ZEROPAD else type in
  if (base <? 2) || (36 <? base) then None
  else
    let c := if has type ZEROPAD then 48 else 32 in
    let '(sign, num, size) :=
      if has type SIGN then
        if num <? 0 then (45, s32 (- num), size - 1)
        else if has type PLUS then (43, num, size - 1)
        else if has type SPACE then (32, num, size - 1)
        else (0, num, size)
      else (0, num, size) in
    let size :=
      if has type HEX_PREP then
        if base =? 16 then size - 2 else if base =? 8 then size - 1 else size
      else size in
    tmp ← number_digits dig num base;
    let i := alen tmp in
    let precision := if precision <? i then i else precision in
    let size := size - precision in
    let '(lead, size) := if has type (ZEROPAD .| LEFT) then ([], size) else pad 32 0 size in
    let prefix :=
      if has type HEX_PREP then
        if base =? 8 then [48] else if base =? 16 then [48; aget digits 33] else []
      else [] in
    let '(fill, size) := if has type LEFT then ([], size) else pad c 0 size in
    let '(zeros, _) := pad 48 i precision in
    let '(trail, _) := pad 32 0 size in
    Some (lead ++ (if truthy sign then [sign] else []) ++ prefix ++ fill ++ zeros ++ rev tmp ++ trail).

(** A text of length [len] in a field. *)
Definition field (s : list Z) (len size type : Z) : list Z :=
  let '(lead, size) := if has type LEFT then ([], size) else pad 32 len size in
  let '(trail, _) := pad 32 len size in
  lead ++ take (Z.to_nat len) s ++ trail.

Definition eaddr (addr : list Z) (size precision type : Z) : list Z :=
  let dig := if has type UPPERCASE then upper_digits else digits in
  let tmp := for_upto 6 (fun i tmp =>
    tmp ++ (if i =? 0 then [] else [58]) ++ [aget dig (aget addr i .>> 4)] ++ [aget dig (aget addr i .& 0x0F)]) [] in
  field tmp (alen tmp) size type.

Definition octet (n : Z) : list Z :=
  if n =? 0 then [aget digits 0]
  else
    let '(h, n) :=
      if 100 <=? n then ([aget digits (n / 100)] ++ [aget digits (n mod 100 / 10)], n mod 100 mod 10)
      else if 10 <=? n then ([aget digits (n / 10)], n mod 10)
      else ([], n) in
    h ++ [aget digits n].

Definition iaddr (addr : list Z) (size precision type : Z) : list Z :=
  let tmp := for_upto 4 (fun i tmp => tmp ++ (if i =? 0 then [] else [46]) ++ octet (aget addr i)) [] in
  field tmp (alen tmp) size type.

(** [cvtbuf] is uninitialised: [stack] is what it holds.  [tmp] has room for 80
    characters ([EeFloat.fits], [EeFloat.decimal_point]). *)
Definition flt (stack : list Z) (num : double) (size precision fmt flags : Z) : option (list Z) :=
  let flags := if has flags LEFT then flags .& Z.lnot ZEROPAD else flags in
  let c := if has flags ZEROPAD then 48 else 32 in
  let '(sign, num, size) :=
    if has flags SIGN then
      if SFltb num D0 then (45, SFopp num, size - 1)
      else if has flags PLUS then (43, num, size - 1)
      else if has flags SPACE then (32, num, size - 1)
      else (0, num, size)
    else (0, num, size) in
  let precision := if precision <? 0 then 6 else precision in
  tmp ← parse_float stack num fmt precision;
  tmp ← (if has flags HEX_PREP && (precision =? 0) then decimal_point tmp else Some tmp);
  let tmp := if (fmt =? 103) && negb (has flags HEX_PREP) then cropzeros tmp else tmp in
  let n := strnlen tmp 256 in
  let size := size - n in
  let '(lead, size) := if has flags (ZEROPAD .| LEFT) then ([], size) else pad 32 0 size in
  let '(fill, size) := if has flags LEFT then ([], size) else pad c 0 size in
  let '(trail, _) := pad 32 0 size in
  Some (lead ++ (if truthy sign then [sign] else []) ++ fill ++ take (Z.to_nat n) tmp ++ trail).

(** ** Directives *)

(** Variadic arguments: a 32-bit word (any integer type), a pointer to a
    string ([None] is NULL), to an address, or a [double]. *)
Inductive varg : Type := VWord (z : Z) | VStr (s : option (list Z)) | VAddr (l : list Z) | VDouble (d : double).

Definition arg_word (args : list varg) : option (Z * list varg) :=
  match args with VWord z :: args' => Some (u32 z, args') | _ => None end.

(** The flag characters after [%]. *)
Fixpoint parse_flags (fmt : list Z) (flags : Z) : Z * list Z :=
  match fmt with
  | c :: fmt' =>
      if c =? 45 then parse_flags fmt' (flags .| LEFT)
      else if c =? 43 then parse_flags fmt' (flags .| PLUS)
      else if c =? 32 then parse_flags fmt' (flags .| SPACE)
      else if c =? 35 then parse_flags fmt' (flags .| HEX_PREP)
      else if c =? 48 then parse_flags fmt' (flags .| ZEROPAD)
      else (flags, fmt)
  | [] => (flags, [])
  end.

Definition parse_width (fmt : list Z) (flags : Z) (args : list varg) : option (Z * Z * list Z * list varg) :=
  if is_digit (chr fmt) then let '(w, fmt) := skip_atoi fmt in Some (w, flags, fmt, args)
  else if chr fmt =? 42 then
    '(z, args) ← arg_word args;
    let w := s32 z in
    Some (if w <? 0 then (s32 (- w), flags .| LEFT, tail fmt, args) else (w, flags, tail fmt, args))
  else Some (-1, flags, fmt, args).

Definition parse_precision (fmt : list Z) (args : list varg) : option (Z * list Z * list varg) :=
  if chr fmt =? 46 then
    let fmt := tail fmt in
    '(p, fmt, args) ←
      (if is_digit (chr fmt) then let '(p, fmt) := skip_atoi fmt in Some (p, fmt, args)
       else if chr fmt =? 42 then '(z, args) ← arg_word args; Some (s32 z, tail fmt, args)
       else Some (-1, fmt, args));
    Some (if p <? 0 then 0 else p, fmt, args)
  else Some (-1, fmt, args).

Definition parse_qualifier (fmt : list Z) : Z * list Z :=
  if (chr fmt =? 108) || (chr fmt =? 76) then (chr fmt, tail fmt) else (-1, fmt).

(** The integer conversions: flags and base. *)
Definition integer_conv (c flags : Z) : option (Z * Z) :=
  if c =? 111 then Some (flags, 8)
  else if c =? 88 then Some (flags .| UPPERCASE, 16)
  else if c =? 120 then Some (flags, 16)
  else if (c =? 100) || (c =? 105) then Some (flags .| SIGN, 10)
  else if c =? 117 then Some (flags, 10)
  else None.

(** [switch ( *fmt)]; [c] is the conversion character. *)
Definition convert (stack : list Z) (c flags width precision qual : Z) (args : list varg)
    : option (list Z * list varg) :=
  if c =? 99 then
    '(z, args) ← arg_word args;
    let '(lead, w) := if has flags LEFT then ([], width) else pad_pre 32 width in
    Some (lead ++ [u8 z] ++ (pad_pre 32 w).1, args)
  else if c =? 115 then
    match args with
    | VStr s :: args =>
        let s := default (text "<NULL>") s in
        Some (field s (s32 (strnlen s (u32 precision))) width flags, args)
    | _ => None
    end
  else if c =? 112 then
    '(z, args) ← arg_word args;
    let '(width, flags) := if width =? -1 then (8, flags .| ZEROPAD) else (width, flags) in
    out ← number (s32 z) 16 width precision flags;
    Some (out, args)
  else if (c =? 97) || (c =? 65) then
    let flags := if c =? 65 then flags .| UPPERCASE else flags in
    match args with
    | VAddr a :: args =>
        Some (if qual =? 108 then eaddr a width precision flags else iaddr a width precision flags, args)
    | _ => None
    end
  else if c =? 102 then
    match args with
    | VDouble d :: args => out ← flt stack d width precision c (flags .| SIGN); Some (out, args)
    | _ => None
    end
  else
    match integer_conv c flags with
    | Some (flags, base) =>
        '(z, args) ← arg_word args;
        out ← number (s32 z) base width precision flags;
        Some (out, args)
    | None => Some ((if c =? 37 then [] else [37]) ++ (if truthy c then [c] else []), args)
    end.

(** One directive, from behind its [%]: output, remaining format, arguments. *)
Definition directive (stack fmt : list Z) (args : list varg) : option (list Z * list Z * list varg) :=
  let '(flags, fmt) := parse_flags fmt 0 in
  '(width, flags, fmt, args) ← parse_width fmt flags args;
  '(precision, fmt, args) ← parse_precision fmt args;
  let '(qual, fmt) := parse_qualifier fmt in
  '(out, args) ← convert stack (chr fmt) flags width precision qual args;
  Some (out, if truthy (chr fmt) then tail fmt else [], args).

Fixpoint vsprintf_loop (fuel : nat) (stack fmt : list Z) (args : list varg) : option (list Z) :=
  match fuel with
  | O => None
  | S f =>
      if chr fmt =? 0 then Some []
      else if negb (chr fmt =? 37) then out ← vsprintf_loop f stack (tail fmt) args; Some (chr fmt :: out)
      else
        '(out, fmt, args) ← directive stack (tail fmt) args;
        rest ← vsprintf_loop f stack fmt args;
        Some (out ++ rest)
  end.

(** The characters stored before the final zero. *)
Definition ee_vsprintf (stack fmt : list Z) (args : list varg) : option (list Z) :=
  vsprintf_loop (S (length fmt)) stack fmt args.


Example vsprintf_examples :
  let p f a := ee_vsprintf garbage (text f) a in
  p "%d|%5d|%-5d|%05d|%+d|% d"%string (VWord <$> [42; -42; 42; -42; 7; 7]) =
    Some (text "42|  -42|42   |-0042|+7| 7") /\
  p "0x%04x %#x %X %o %p %lu"%string (VWord <$> [0xe714; 255; 0xBEEF; 8; 0x80001000; 4294967295]) =
    Some (text "0xe714 0xff BEEF 10 80001000 4294967295") /\
  p "[%8s][%-8s][%.3s][%s] %c%%"%string [VStr (Some (text "abcde")); VStr (Some (text "abcde"));
      VStr (Some (text "abcde")); VStr None; VWord 65] = Some (text "[   abcde][abcde   ][abc][<NULL>] A%") /\
  p "%a %la %*d %.5d %10.3f %"%string [VAddr [192; 168; 0; 10]; VAddr [0; 17; 0x2a; 255; 1; 2]; VWord (-6); VWord 9;
      VWord 31; VDouble (ddiv (double_of (-22)) (double_of 7))] =
    Some (text "192.168.0.10 00:11:2a:ff:01:02 9      00031     -3.143 %").
Proof. by vm_compute. Qed.

(** ** Padding *)

Lemma pad_loop_spec (n : nat) (c lim size : Z) :
  size - lim <= Z.of_nat n -> pad_loop n c lim size = (repeat c (Z.to_nat (size - lim)), Z.min size lim - 1).
Proof.
  revert size. induction n as [|n IH]; intros size Hn; cbn; destruct (Z.ltb_spec lim size); try lia.
  - rewrite Z2Nat.nonpos by lia. f_equal. lia.
  - rewrite IH by lia. replace (Z.to_nat (size - lim)) with (S (Z.to_nat (size - 1 - lim))) by lia. cbn. f_equal. lia.
  - rewrite Z2Nat.nonpos by lia. f_equal. lia.
Qed.

Lemma pad_spec (c lim size : Z) : pad c lim size = (repeat c (Z.to_nat (size - lim)), Z.min size lim - 1).
Proof. apply pad_loop_spec. lia. Qed.

(** The three places a field's padding can go. *)
Definition layout (type size : Z) (sgn pre body : list Z) : list Z :=
  let fill := Z.to_nat (size - (alen sgn + alen pre + alen body)) in
  if has type LEFT then sgn ++ pre ++ body ++ repeat 32 fill
  else if has type ZEROPAD then sgn ++ pre ++ repeat 48 fill ++ body
  else repeat 32 fill ++ sgn ++ pre ++ body.


(** ** Flag bits *)

(** The flag bits of a type word, one by one. *)
Lemma has_bit (type n : Z) : 0 <= n -> has type (1 .<< n) = Z.testbit type n.
Proof.
  intros Hn. unfold has, truthy. rewrite Z.shiftl_1_l. destruct (Z.testbit type n) eqn:E.
  - apply negb_true_iff, Z.eqb_neq. intros H. assert (Z.testbit (type .& 2 ^ n) n = true) as Hb
      by (by rewrite Z.land_spec, E, Z.pow2_bits_true).
    by rewrite H, Z.bits_0 in Hb.
  - apply negb_false_iff, Z.eqb_eq. apply Z.bits_inj'. intros i Hi. rewrite Z.land_spec, Z.bits_0, Z.pow2_bits_eqb by done.
    destruct (Z.eqb_spec n i) as [<-|]; [by rewrite E|by rewrite andb_false_r].
Qed.

Lemma has_lor_r (type f g : Z) : has type (f .| g) = has type f || has type g.
Proof.
  unfold has, truthy. rewrite Z.land_lor_distr_r.
  destruct (Z.eqb_spec (type .& f) 0) as [->|Hf]; [done|]. cbn [negb orb].
  apply negb_true_iff, Z.eqb_neq. intros [? _]%Z.lor_eq_0_iff. done.
Qed.

Lemma has_lor_l (x y f : Z) : has (x .| y) f = has x f || has y f.
Proof. unfold has. rewrite Z.land_lor_distr_l, <-!(Z.land_comm f). fold (has f (x .| y)).
  rewrite <-Z.land_lor_distr_r. apply has_lor_r. Qed.

(** Dropping ZEROPAD when LEFT is set. *)
Definition norm_flags (type : Z) : Z := if has type LEFT then type .& Z.lnot ZEROPAD else type.

Lemma norm_flags_has (type : Z) :
  has (norm_flags type) ZEROPAD = has type ZEROPAD && negb (has type LEFT) /\
  forall n, 0 < n -> has (norm_flags type) (1 .<< n) = has type (1 .<< n).
Proof.
  unfold norm_flags, ZEROPAD. split.
  - destruct (has type LEFT); [|by rewrite andb_true_r]. rewrite andb_false_r, has_bit, Z.land_spec, Z.lnot_spec by lia.
    apply andb_false_r.
  - intros n Hn. destruct (has type LEFT); [|done]. rewrite !has_bit, Z.land_spec, Z.lnot_spec by lia.
    change (1 .<< 0) with (2 ^ 0). rewrite Z.pow2_bits_false by lia. apply andb_true_r.
Qed.

(** The padding steps, on the space the text leaves in its field, make the
    layout. *)
Lemma padded_layout (type size : Z) (sgn pre body : list Z) :
  let fill := size - (alen sgn + alen pre + alen body) in
  let flags := norm_flags type in
  let '(lead, size1) := if has flags (ZEROPAD .| LEFT) then ([], fill) else pad 32 0 fill in
  let '(zeros, size2) := if has flags LEFT then ([], size1) else pad (if has flags ZEROPAD then 48 else 32) 0 size1 in
  lead ++ sgn ++ pre ++ zeros ++ body ++ (pad 32 0 size2).1 = layout type size sgn pre body.
Proof.
  cbn zeta. destruct (norm_flags_has type) as [Hz Hf].
  assert (has (norm_flags type) LEFT = has type LEFT) as HL by by apply (Hf 4).
  rewrite has_lor_r, Hz, HL. unfold layout. set (fill := size - _). clearbody fill.
  assert (forall c z : Z, z <= 0 -> repeat c (Z.to_nat z) = []) as Hnil by (intros c z Hz0; by rewrite Z2Nat.nonpos by lia).
  destruct (has type LEFT), (has type ZEROPAD); cbn [andb orb negb]; rewrite ?pad_spec; cbn [fst snd]; rewrite ?pad_spec;
    cbn [fst snd]; rewrite ?pad_spec, ?Z.sub_0_r; cbn [fst snd].
  all: rewrite ?(Hnil 32 (Z.min fill 0 - 1)), ?(Hnil 32 (Z.min (Z.min fill 0 - 1) 0 - 1)) by lia.
  all: by rewrite ?app_nil_r, <-?app_assoc.
Qed.

(** ** Digits *)

Definition digit_values (base : Z) (ds : list Z) : Z := digits_value base (fun d => d) ds 0.

(** The digits of [n], most significant first, without leading zeros. *)
Definition canonical (base n : Z) (ds : list Z) : Prop :=
  Forall (fun d => 0 <= d < base) ds /\ digit_values base ds = n /\ ds <> [] /\ (hd 0 ds = 0 -> ds = [0]).

Lemma digit_values_snoc (base d : Z) (ds : list Z) :
  digit_values base (ds ++ [d]) = digit_values base ds * base + d.
Proof. unfold digit_values, digits_value. by rewrite fold_left_app. Qed.

Lemma u32_nonzero (num : Z) : is_sint 32 num -> num <> 0 -> 0 < u32 num < 2 ^ 32.
Proof.
  intros Hn H0. pose proof (uwrap_range 32 num ltac:(lia)) as Hr. unfold is_uint, is_sint in *.
  split; [|apply Hr]. destruct (Z.eq_dec (u32 num) 0) as [E|]; [|unfold u32 in *; lia].
  unfold u32, uwrap in E. apply Z.mod_divide in E as [q Hq]; [|lia]. cbn in *. nia.
Qed.

Lemma digits_loop (dig : list Z) (base : Z) (f : nat) (num : Z) (tmp : list Z) :
  2 <= base -> is_sint 32 num -> u32 num < 2 ^ Z.of_nat f ->
  exists ds, while_fuel (S f) (fun '(num, _) => negb (num =? 0))
      (fun '(num, tmp) => (s32 (u32 num / base), tmp ++ [aget dig (u32 num mod base)])) (num, tmp)
      = Some (0, tmp ++ rev (aget dig <$> ds)) /\
    Forall (fun d => 0 <= d < base) ds /\ digit_values base ds = u32 num /\
    (ds = [] <-> num = 0) /\ (num <> 0 -> hd 0 ds <> 0).
Proof.
  intros Hb. revert num tmp. induction f as [|f IH]; intros num tmp Hs Hf.
  { exists []. destruct (Z.eq_dec num 0) as [->|Hne]; [|pose proof (u32_nonzero num Hs Hne); cbn in Hf; lia].
    rewrite app_nil_r. by split_and!. }
  destruct (Z.eq_dec num 0) as [->|Hne]; [exists []; rewrite app_nil_r; by split_and!|].
  pose proof (u32_nonzero num Hs Hne) as Hu. set (n1 := u32 num / base). set (r := u32 num mod base).
  pose proof (Z.div_mod (u32 num) base ltac:(lia)) as Hdm. fold n1 r in Hdm.
  pose proof (Z.mod_pos_bound (u32 num) base ltac:(lia)) as Hr. fold r in Hr.
  assert (0 <= n1 /\ 2 * n1 <= u32 num) as Hn1 by nia.
  assert (is_sint 32 n1) as Hs1 by (unfold is_sint; cbn in *; lia).
  assert (u32 n1 = n1) as Hu1 by (apply uwrap_id; unfold is_uint; lia).
  destruct (IH n1 (tmp ++ [aget dig r]) Hs1) as (ds & Hrun & Hall & Hval & Hnil & Hhd).
  { rewrite Hu1. rewrite Nat2Z.inj_succ, Z.pow_succ_r in Hf by lia. lia. }
  exists (ds ++ [r]). split; [|split; [|split; [|split]]].
  - change (while_fuel (S (S f)) ?c ?b (num, tmp)) with
      (if negb (num =? 0) then while_fuel (S f) c b (b (num, tmp)) else Some (num, tmp)).
    destruct (Z.eqb_spec num 0); [done|]. cbn [negb]. fold n1 r. rewrite (s32_id n1) by done.
    rewrite Hrun. do 2 f_equal. rewrite fmap_app, rev_app_distr, <-app_assoc. done.
  - apply Forall_app. split; [done|]. by constructor.
  - rewrite digit_values_snoc, Hval, Hu1. lia.
  - split; [by intros []%app_nil|done].
  - intros _. destruct ds as [|d ds]; cbn in *; [|apply Hhd; intros E; by apply Hnil in E].
    assert (n1 = 0) as E by by apply Hnil. lia.
Qed.

Lemma number_digits_spec (dig : list Z) (num base : Z) :
  2 <= base -> is_sint 32 num -> aget dig 0 = 48 ->
  exists ds, number_digits dig num base = Some (rev (aget dig <$> ds)) /\ canonical base (u32 num) ds.
Proof.
  intros Hb Hs H0. unfold number_digits. destruct (Z.eqb_spec num 0) as [->|Hne].
  - exists [0]. split; [cbn [fmap list_fmap rev app]; by rewrite H0|]. split; [constructor; [lia|constructor]|]. by split_and!.
  - destruct (digits_loop dig base 32 num [] Hb Hs) as (ds & -> & Hall & Hval & Hnil & Hhd);
      [by apply u32_nonzero|].
    exists ds. split; [done|]. split; [done|]. split; [done|]. split; [by intros E%Hnil|]. intros E. by apply Hhd in E.
Qed.



(** ** [number] *)

Definition alphabet (type : Z) : list Z := if has type UPPERCASE then upper_digits else digits.

Definition sign_text (type num : Z) : list Z :=
  if has type SIGN then
    if num <? 0 then [45] else if has type PLUS then [43] else if has type SPACE then [32] else []
  else [].

Definition prefix_text (type base : Z) : list Z :=
  if has type HEX_PREP then if base =? 8 then [48] else if base =? 16 then [48; 120] else [] else [].

Definition magnitude (type num : Z) : Z := if has type SIGN then Z.abs num else u32 num.

Lemma s32_opp_magnitude (num : Z) : is_sint 32 num -> num < 0 -> u32 (s32 (- num)) = - num /\ is_sint 32 (s32 (- num)).
Proof.
  intros Hs Hn. split; [|by apply swrap_range]. unfold u32, s32. rewrite uwrap_swrap by lia.
  apply uwrap_id. unfold is_uint, is_sint in *. cbn in *. lia.
Qed.

Lemma alphabet_zero (type : Z) : aget (alphabet type) 0 = 48.
Proof. unfold alphabet. by destruct (has type UPPERCASE). Qed.

Lemma number_spec (num base size precision type : Z) :
  2 <= base <= 36 -> is_sint 32 num ->
  exists ds, canonical base (magnitude type num) ds /\
    number num base size precision type =
      Some (layout type size (sign_text type num) (prefix_text type base)
              (repeat 48 (Z.to_nat (precision - alen ds)) ++ (aget (alphabet type) <$> ds))).
Proof.
  intros Hb Hs. unfold number. fold (alphabet type) (norm_flags type).
  destruct (norm_flags_has type) as [Hz Hf].
  assert (has (norm_flags type) SIGN = has type SIGN) as -> by by apply (Hf 1).
  assert (has (norm_flags type) PLUS = has type PLUS) as -> by by apply (Hf 2).
  assert (has (norm_flags type) SPACE = has type SPACE) as -> by by apply (Hf 3).
  assert (has (norm_flags type) LEFT = has type LEFT) as HL by by apply (Hf 4).
  assert (has (norm_flags type) HEX_PREP = has type HEX_PREP) as -> by by apply (Hf 5).
  rewrite has_lor_r, Hz, HL.
  destruct (Z.ltb_spec base 2); [lia|]. destruct (Z.ltb_spec 36 base); [lia|]. cbn [orb].
  set (st := if has type SIGN then _ else (0, num, size)).
  assert (exists n1, st = (match sign_text type num with [] => 0 | c :: _ => c end, n1, size - alen (sign_text type num)) /\
    u32 n1 = magnitude type num /\ is_sint 32 n1) as (n1 & -> & Hm & Hs1).
  { unfold st, sign_text, magnitude. destruct (has type SIGN); [|exists num; split; [by rewrite Z.sub_0_r|done]].
    destruct (Z.ltb_spec num 0).
    - exists (s32 (- num)). destruct (s32_opp_magnitude num Hs) as [-> ?]; [done|]. split; [done|]. split; [lia|done].
    - exists num. split; [by destruct (has type PLUS), (has type SPACE); rewrite ?Z.sub_0_r|].
      split; [|done]. rewrite Z.abs_eq by done. apply uwrap_id. unfold is_sint, is_uint in *. cbn in *. lia. }
  destruct (number_digits_spec (alphabet type) n1 base) as (ds & -> & Hc); [lia|done|apply alphabet_zero|].
  rewrite Hm in Hc. exists ds. split; [done|]. cbn [mbind option_bind].
  assert (alen (rev (aget (alphabet type) <$> ds)) = alen ds) as -> by (unfold alen; by rewrite length_rev, length_fmap).
  rewrite rev_involutive.
  set (size1 := if has type HEX_PREP then _ else _). set (sgn := sign_text type num) in *.
  assert (size1 = size - alen sgn - alen (prefix_text type base)) as ->.
  { unfold size1, prefix_text. destruct (has type HEX_PREP); [|by rewrite Z.sub_0_r].
    destruct (Z.eqb_spec base 16) as [->|]; [done|]. destruct (Z.eqb_spec base 8); [done|by rewrite Z.sub_0_r]. }
  assert ((if has type HEX_PREP then if base =? 8 then [48] else if base =? 16 then [48; aget digits 33] else [] else [])
    = prefix_text type base) as -> by done.
  assert ((if truthy (match sgn with [] => 0 | c :: _ => c end) then [match sgn with [] => 0 | c :: _ => c end] else []) = sgn) as ->.
  { unfold sgn, sign_text. destruct (has type SIGN), (num <? 0), (has type PLUS), (has type SPACE); done. }
  set (body := repeat 48 _ ++ _).
  assert (alen body = Z.max precision (alen ds)) as Hlen.
  { unfold body, alen. rewrite length_app, repeat_length, length_fmap. lia. }
  assert ((if precision <? alen ds then alen ds else precision) = alen body) as ->
    by (rewrite Hlen; destruct (Z.ltb_spec precision (alen ds)); lia).
  rewrite (pad_spec 48 (alen ds)), Hlen. fold sgn. set (p := prefix_text type base).
  replace (Z.to_nat (Z.max precision (alen ds) - alen ds)) with (Z.to_nat (precision - alen ds)) by lia.
  pose proof (padded_layout type size sgn p body) as Hpad. cbn zeta in Hpad. rewrite Hlen in Hpad.
  replace (size - (alen sgn + alen p + Z.max precision (alen ds))) with (size - alen sgn - alen p - Z.max precision (alen ds)) in Hpad by lia.
  rewrite has_lor_r, Hz, HL in *. revert Hpad.
  destruct (if _ || _ then _ else _) as [lead size1]. destruct (if has type LEFT then _ else _) as [fill size2].
  intros <-. destruct (pad 32 0 size2). unfold body. by rewrite <-!app_assoc.
Qed.

(** ** [flt] *)

Definition double_sign (type : Z) (x : double) : list Z :=
  if SFltb x D0 then [45] else if has type PLUS then [43] else if has type SPACE then [32] else [].

(** The point that [#] adds to a whole number. *)
Definition point_text (type n : Z) : list Z := if has type HEX_PREP && (n =? 0) then [46] else [].

Lemma alen_point_text (type n : Z) : alen (point_text type n) <= if n =? 0 then 1 else 0.
Proof. unfold point_text. by destruct (has type HEX_PREP), (n =? 0). Qed.

Lemma strnlen_all (s : list Z) (count : Z) : Forall (fun c => c <> 0) s -> alen s <= count -> strnlen s count = alen s.
Proof.
  intros Hs. revert count. induction Hs as [|c s Hc _ IH]; intros count Hl; [done|]. cbn [strnlen]. rewrite alen_cons in *.
  pose proof (alen_nonneg s). unfold truthy. destruct (Z.eqb_spec c 0), (Z.eqb_spec count 0); try (done || lia).
  cbn [negb andb]. rewrite IH by lia. lia.
Qed.

(** [%f] of a number below 2^48 with at most 60 places: the sign, and a
    decimal with the right number of places and the rounded value. *)
Lemma flt_spec (stack : list Z) (x : double) (size precision type : Z) :
  has type SIGN = true -> small x = true -> precision <= 60 -> alen stack = CVTBUFSIZE ->
  let n := if precision <? 0 then 6 else precision in
  exists s v, flt stack x size precision 102 type =
      Some (layout type size (double_sign type x) [] (s ++ point_text type n)) /\
    decimal n v s /\ rounds (val x) n v /\ alen s <= 16 + n + (if n =? 0 then 0 else 1).
Proof.
  intros HS Hx Hp Hst n. destruct (small_abs x Hx) as (Hx0 & Ev & Hlt). set (a := if SFltb x D0 then SFopp x else x) in *.
  assert (0 <= n <= 60) as Hn by (unfold n; destruct (Z.ltb_spec precision 0); lia).
  destruct (parse_float_spec stack a n Hx0 ltac:(lia) Hn Hst) as (s & v & Hs & Hd & Hr & Hl). rewrite Ev in Hr.
  exists s, v. split; [|done]. unfold flt. fold (norm_flags type). destruct (norm_flags_has type) as [_ Hf].
  assert (has (norm_flags type) SIGN = true) as -> by (rewrite <-HS; by apply (Hf 1)).
  assert (has (norm_flags type) PLUS = has type PLUS) as -> by by apply (Hf 2).
  assert (has (norm_flags type) SPACE = has type SPACE) as -> by by apply (Hf 3).
  assert (has (norm_flags type) HEX_PREP = has type HEX_PREP) as -> by by apply (Hf 5).
  fold n. set (st := if SFltb x D0 then (45, _, _) else _). set (sgn := double_sign type x).
  assert (st = (match sgn with [] => 0 | c :: _ => c end, a, size - alen sgn)) as ->.
  { unfold st, sgn, double_sign, a. destruct (SFltb x D0); [done|].
    destruct (has type PLUS); [done|]. destruct (has type SPACE); [done|]. by rewrite Z.sub_0_r. }
  rewrite Hs. cbn [mbind option_bind].
  assert ((if has type HEX_PREP && (n =? 0) then decimal_point s else Some s) = Some (s ++ point_text type n)) as ->.
  { unfold point_text. destruct (has type HEX_PREP); cbn [andb]; [|by rewrite app_nil_r].
    destruct (Z.eqb_spec n 0) as [E|]; [|by rewrite app_nil_r]. rewrite E in *. apply (decimal_point_whole v); [done|].
    unfold TMPSIZE. cbn in Hl. lia. }
  cbn [mbind option_bind Z.eqb Pos.eqb andb]. set (body := s ++ point_text type n).
  assert (strnlen body 256 = alen body) as ->.
  { apply strnlen_all; [|pose proof (alen_point_text type n); unfold body; rewrite alen_app; destruct (n =? 0); lia].
    apply Forall_app. split; [by eapply decimal_chars|]. unfold point_text. destruct (_ && _); by repeat constructor. }
  assert (take (Z.to_nat (alen body)) body = body) as -> by (apply take_ge; unfold alen; lia).
  assert ((if truthy (match sgn with [] => 0 | c :: _ => c end) then [match sgn with [] => 0 | c :: _ => c end] else []) = sgn) as ->.
  { unfold sgn, double_sign. by destruct (SFltb x D0), (has type PLUS), (has type SPACE). }
  pose proof (padded_layout type size sgn [] body) as Hpad. cbn zeta in Hpad. change (alen (@nil Z)) with 0 in Hpad.
  replace (size - (alen sgn + 0 + alen body)) with (size - alen sgn - alen body) in Hpad by lia. revert Hpad.
  destruct (if has (norm_flags type) (ZEROPAD .| LEFT) then _ else _) as [lead size1].
  destruct (if has (norm_flags type) LEFT then _ else _) as [fill size2]. intros <-. by destruct (pad 32 0 size2).
Qed.

(** ** Printed numbers parse back *)

Lemma aget_digit (hexmode : bool) (type d : Z) :
  (hexmode = true -> has type UPPERCASE = false) -> 0 <= d < base_of hexmode ->
  digit_ok hexmode (aget (alphabet type) d) = true /\ digit_of hexmode (aget (alphabet type) d) = d.
Proof.
  intros Hu Hd.
  assert (forallb (fun d => digit_ok hexmode (aget (alphabet type) d) &&
    (digit_of hexmode (aget (alphabet type) d) =? d)) (seqZ 0 (base_of hexmode)) = true) as H.
  { unfold alphabet. destruct hexmode; [by rewrite Hu|]. by destruct (has type UPPERCASE). }
  rewrite forallb_forall in H. specialize (H d). rewrite <-list_elem_of_In, elem_of_seqZ in H.
  specialize (H ltac:(lia)). apply andb_true_iff in H as [? ?%Z.eqb_eq]. done.
Qed.

Lemma digits_text (hexmode : bool) (type : Z) (ds : list Z) (k : nat) :
  (hexmode = true -> has type UPPERCASE = false) -> Forall (fun d => 0 <= d < base_of hexmode) ds ->
  let l := repeat 48 k ++ (aget (alphabet type) <$> ds) in
  Forall (fun c => digit_ok hexmode c = true) l /\
  digits_value (base_of hexmode) (digit_of hexmode) l 0 = digit_values (base_of hexmode) ds.
Proof.
  intros Hu Hds. cbn zeta. split.
  - apply Forall_app. split.
    + apply Forall_forall. intros c Hc%list_elem_of_In%repeat_spec. subst c. by destruct hexmode.
    + apply Forall_fmap. eapply Forall_impl; [exact Hds|]. intros d Hd. by apply aget_digit.
  - unfold digits_value, digit_values, digits_value. rewrite fold_left_app.
    assert (fold_left (fun a c => a * base_of hexmode + digit_of hexmode c) (repeat 48 k) 0 = 0) as ->.
    { induction k as [|k IH]; [done|]. cbn [repeat fold_left].
      replace (0 * base_of hexmode + digit_of hexmode 48) with 0; [exact IH|]. by destruct hexmode. }
    generalize 0 as acc. induction Hds as [|d ds Hd _ IH]; intros acc; [done|]. cbn [fmap list_fmap fold_left].
    destruct (aget_digit hexmode type d Hu Hd) as [_ ->]. apply IH.
Qed.

Lemma layout_filled (type size : Z) (sgn pre body : list Z) :
  has type LEFT = false -> has type ZEROPAD = true \/ size <= 0 ->
  exists k, layout type size sgn pre body = sgn ++ pre ++ repeat 48 k ++ body.
Proof.
  intros HL Hz. unfold layout. rewrite HL. destruct (has type ZEROPAD).
  - by eexists.
  - destruct Hz as [|Hz]; [done|]. exists 0%nat. unfold alen. by rewrite Z2Nat.nonpos by lia.
Qed.

(** The flags of a text [parseval] understands: signed decimal, or lower-case
    hexadecimal with its prefix. *)
Definition parseable (hexmode : bool) (type : Z) : Prop :=
  if hexmode then has type HEX_PREP = true /\ has type SIGN = false /\ has type UPPERCASE = false
  else has type SIGN = true /\ has type PLUS = false /\ has type SPACE = false.

Lemma number_parse_back (hexmode : bool) (num size precision type : Z) :
  is_sint 32 num -> parseable hexmode type ->
  has type LEFT = false -> has type ZEROPAD = true \/ size <= 0 ->
  exists out, number num (base_of hexmode) size precision type = Some out /\
    parseval (out ++ [0]) = Some num.
Proof.
  intros Hs Hp HL Hz.
  destruct (number_spec num (base_of hexmode) size precision type) as (ds & (Hall & Hval & _) & ->);
    [by destruct hexmode|done|]. eexists. split; [done|].
  edestruct (layout_filled type size) as [k ->]; [done..|]. rewrite (app_assoc (repeat 48 k)), <-repeat_app.
  set (j := (k + _)%nat).
  destruct (digits_text hexmode type ds j) as [Hok Hv]; [by intros ->; apply Hp|done|]. cbn zeta in Hok, Hv.
  set (l := repeat 48 j ++ _) in *.
  assert (sign_text type num ++ prefix_text type (base_of hexmode) ++ l =
    (if negb hexmode && (num <? 0) then [45] else []) ++ (if hexmode then [48; 120] else []) ++ l) as ->.
  { unfold sign_text, prefix_text. destruct hexmode; cbn in Hp; destruct Hp as (H1 & H2 & H3); rewrite ?H1, ?H2, ?H3.
    - done.
    - cbn. by destruct (num <? 0), (has type HEX_PREP). }
  pose proof (parseval_text (negb hexmode && (num <? 0)) hexmode l NoQual Hok) as Ht. cbn zeta in Ht.
  unfold number_text in Ht. cbn [qual_chars qual_factor app] in Ht. rewrite <-!app_assoc. rewrite Ht.
  rewrite Hv, Hval, Z.mul_1_r. f_equal. unfold magnitude.
  destruct hexmode; cbn in Hp; destruct Hp as (H1 & H2 & H3); cbn [negb andb].
  - rewrite H2. unfold s32, u32. rewrite swrap_uwrap. by apply s32_id.
  - rewrite H1. destruct (Z.ltb_spec num 0); rewrite s32_id; try lia.
    + by replace (- Z.abs num) with num by lia.
    + by replace (Z.abs num) with num by lia.
Qed.

(** ** The grammar of formats

    A directive as the author of a format writes it, its text, and what it
    means: the parameters handed to the conversion. *)

Inductive count : Type := Digits (ds : list Z) | Star.

Record dir : Type := mk_dir {
  d_flags : list Z;
  d_width : option count;
  d_prec : option (option count);
  d_qual : option Z;
  d_conv : Z;
}.

Inductive item : Type := Lit (c : Z) | Dir (d : dir).

Definition count_text (c : count) : list Z := match c with Digits ds => ds | Star => [42] end.
Definition opt_text {A : Type} (f : A -> list Z) (o : option A) : list Z := match o with Some x => f x | None => [] end.

Definition dir_text (d : dir) : list Z :=
  d_flags d ++ opt_text count_text (d_width d) ++ opt_text (fun p => 46 :: opt_text count_text p) (d_prec d)
    ++ opt_text (fun q => [q]) (d_qual d) ++ [d_conv d].
Definition item_text (i : item) : list Z := match i with Lit c => [c] | Dir d => 37 :: dir_text d end.
Definition format_text (l : list item) : list Z := concat (item_text <$> l).

Definition flag_bit (c : Z) : Z :=
  if c =? 45 then LEFT else if c =? 43 then PLUS else if c =? 32 then SPACE
  else if c =? 35 then HEX_PREP else ZEROPAD.
Definition flag_mask (l : list Z) (flags : Z) : Z := fold_left (fun m c => m .| flag_bit c) l flags.

Definition is_flag (c : Z) : bool := (c =? 45) || (c =? 43) || (c =? 32) || (c =? 35) || (c =? 48).

(** A width is a number that does not start with 0, or [*]: a negative one
    stands for a left-justified field. *)
Definition width_value (w : option count) (flags : Z) (args : list varg) : option (Z * Z * list varg) :=
  match w with
  | None => Some (-1, flags, args)
  | Some (Digits ds) => Some (dec_value ds, flags, args)
  | Some Star =>
      '(z, args) ← arg_word args;
      Some (if s32 z <? 0 then (s32 (- s32 z), flags .| LEFT, args) else (s32 z, flags, args))
  end.

(** A point without a number is a precision of zero, and so is a negative one. *)
Definition prec_value (p : option (option count)) (args : list varg) : option (Z * list varg) :=
  match p with
  | None => Some (-1, args)
  | Some None => Some (0, args)
  | Some (Some (Digits ds)) => Some (dec_value ds, args)
  | Some (Some Star) => '(z, args) ← arg_word args; Some (Z.max 0 (s32 z), args)
  end.

Definition print_dir (stack : list Z) (d : dir) (args : list varg) : option (list Z * list varg) :=
  '(width, flags, args) ← width_value (d_width d) (flag_mask (d_flags d) 0) args;
  '(precision, args) ← prec_value (d_prec d) args;
  convert stack (d_conv d) flags width precision (default (-1) (d_qual d)) args.

Fixpoint print_items (stack : list Z) (l : list item) (args : list varg) : option (list Z) :=
  match l with
  | [] => Some []
  | Lit c :: l' => out ← print_items stack l' args; Some (c :: out)
  | Dir d :: l' => '(out, args) ← print_dir stack d args; rest ← print_items stack l' args; Some (out ++ rest)
  end.

Definition count_ok (first : Z -> bool) (c : count) : Prop :=
  match c with
  | Digits ds => ds <> [] /\ Forall (fun c => is_digit c = true) ds /\ first (hd 0 ds) = true /\ dec_value ds < 2 ^ 31
  | Star => True
  end.

(** The conversion character is none that continues the directive. *)
Definition conv_ok (c : Z) : bool :=
  negb (is_flag c) && negb (is_digit c) && negb (c =? 42) && negb (c =? 46) && negb (c =? 108) && negb (c =? 76)
    && negb (c =? 0).

Definition dir_ok (d : dir) : Prop :=
  Forall (fun c => is_flag c = true) (d_flags d) /\
  from_option (count_ok (fun c => negb (c =? 48))) True (d_width d) /\
  from_option (from_option (count_ok (fun _ => true)) True) True (d_prec d) /\
  from_option (fun q => q = 108 \/ q = 76) True (d_qual d) /\
  conv_ok (d_conv d) = true.

Definition item_ok (i : item) : Prop := match i with Lit c => c <> 0 /\ c <> 37 | Dir d => dir_ok d end.

Lemma parse_flags_cons (c : Z) (l : list Z) (m : Z) :
  parse_flags (c :: l) m = if is_flag c then parse_flags l (m .| flag_bit c) else (m, c :: l).
Proof.
  cbn [parse_flags]. unfold is_flag, flag_bit.
  by destruct (c =? 45), (c =? 43), (c =? 32), (c =? 35), (c =? 48).
Qed.

Lemma parse_flags_spec (l rest : list Z) (flags : Z) :
  Forall (fun c => is_flag c = true) l -> is_flag (chr rest) = false ->
  parse_flags (l ++ rest) flags = (flag_mask l flags, rest).
Proof.
  intros Hl Hr. revert flags. induction Hl as [|c l Hc _ IH]; intros flags; cbn [app].
  - destruct rest as [|c rest]; [done|]. cbn [chr nth] in Hr. by rewrite parse_flags_cons, Hr.
  - by rewrite parse_flags_cons, Hc, IH.
Qed.

Lemma s32_add (x c : Z) : s32 (s32 x + c) = s32 (x + c).
Proof. unfold s32. apply swrap_cong. by rewrite <-Zplus_mod_idemp_l, swrap_mod, Zplus_mod_idemp_l by lia. Qed.

Lemma atoi_from_spec (ds rest : list Z) (i : Z) :
  Forall (fun c => is_digit c = true) ds -> is_digit (chr rest) = false -> 0 <= i ->
  digits_value 10 dec_digit ds i < 2 ^ 31 ->
  atoi_from (ds ++ rest) i = (digits_value 10 dec_digit ds i, rest).
Proof.
  intros Hds Hr. revert i. induction Hds as [|c ds Hc Hds IH]; intros i Hi Hv; cbn [app atoi_from].
  - destruct rest as [|c rest]; [done|]. cbn [chr nth] in Hr. cbn [atoi_from]. by rewrite Hr.
  - rewrite Hc. assert (Forall (fun c => digit_ok false c = true) (c :: ds)) as Hall by by constructor.
    pose proof (digits_value_first false c ds i Hi Hall) as [H1 H2].
    change (digit_of false) with dec_digit in *. change (base_of false) with 10 in *.
    change (digits_value 10 dec_digit (c :: ds) i) with (digits_value 10 dec_digit ds (i * 10 + dec_digit c)) in *.
    assert (s32 (s32 (s32 (i * 10) + c) - 48) = i * 10 + dec_digit c) as ->; [|apply IH; lia].
    assert (s32 (s32 (s32 (i * 10) + c) - 48) = s32 (i * 10 + dec_digit c)) as ->.
    { replace (s32 (s32 (i * 10) + c) - 48) with (s32 (s32 (i * 10) + c) + -48) by lia.
      rewrite (s32_add (i * 10) c), s32_add. apply (f_equal s32). unfold dec_digit. lia. }
    apply s32_id. unfold is_sint. change (2 ^ (32 - 1)) with (2 ^ 31). lia.
Qed.

Lemma dec_value_nonneg (ds : list Z) : Forall (fun c => is_digit c = true) ds -> 0 <= dec_value ds.
Proof.
  intros Hds. apply digits_value_mono; [lia|lia|]. eapply Forall_impl; [exact Hds|].
  intros c Hc%is_digit_iff. unfold dec_digit. lia.
Qed.

(** What may follow each part of a directive. *)
Definition stops_qual (c : Z) : Prop := is_flag c = false /\ is_digit c = false /\ c <> 42 /\ c <> 46.
Definition stops_prec (c : Z) : Prop := is_flag c = false /\ is_digit c = false /\ c <> 42.

Lemma chr_conv (d : dir) (rest : list Z) :
  dir_ok d -> stops_qual (chr (opt_text (fun q => [q]) (d_qual d) ++ [d_conv d] ++ rest)).
Proof.
  intros (_ & _ & _ & Hq & Hc). unfold conv_ok in Hc. destruct (d_qual d) as [q|]; cbn in *.
  - unfold stops_qual. destruct Hq as [-> | ->]; by split_and!.
  - repeat (apply andb_true_iff in Hc as [Hc ?]). repeat match goal with H : negb _ = true |- _ => apply negb_true_iff in H end.
    unfold stops_qual. repeat match goal with H : (_ =? _) = false |- _ => apply Z.eqb_neq in H end. by split_and!.
Qed.

Lemma atoi_spec (ds rest : list Z) :
  Forall (fun c => is_digit c = true) ds -> is_digit (chr rest) = false -> dec_value ds < 2 ^ 31 ->
  skip_atoi (ds ++ rest) = (dec_value ds, rest).
Proof. intros. by apply atoi_from_spec. Qed.

Lemma chr_digits (ds rest : list Z) :
  ds <> [] -> Forall (fun c => is_digit c = true) ds ->
  is_digit (chr (ds ++ rest)) = true /\ chr (ds ++ rest) = hd 0 ds.
Proof. intros Hne Hds. destruct ds as [|c ds]; [done|]. apply Forall_cons in Hds as [Hc _]. by split. Qed.

Lemma parse_width_spec (w : option count) (rest : list Z) (flags : Z) (args : list varg) :
  from_option (count_ok (fun c => negb (c =? 48))) True w -> stops_prec (chr rest) ->
  parse_width (opt_text count_text w ++ rest) flags args =
    ('(v, fl, args) ← width_value w flags args; Some (v, fl, rest, args)).
Proof.
  intros Hw (_ & Hd & Hs). unfold parse_width. destruct w as [[ds|]|]; cbn [opt_text count_text from_option count_ok] in *.
  - destruct Hw as (Hne & Hds & _ & Hv). destruct (chr_digits ds rest Hne Hds) as [-> _]. by rewrite atoi_spec.
  - cbn. destruct (arg_word args) as [[z args']|]; [|done]. cbn. by destruct (s32 z <? 0).
  - cbn [app]. rewrite Hd. by destruct (Z.eqb_spec (chr rest) 42).
Qed.

Lemma parse_precision_spec (p : option (option count)) (rest : list Z) (args : list varg) :
  from_option (from_option (count_ok (fun _ => true)) True) True p -> stops_qual (chr rest) ->
  parse_precision (opt_text (fun p => 46 :: opt_text count_text p) p ++ rest) args =
    ('(v, args) ← prec_value p args; Some (v, rest, args)).
Proof.
  intros Hp (_ & Hd & Hs & H46). unfold parse_precision.
  destruct p as [[[ds|]|]|]; cbn [opt_text count_text from_option count_ok app chr nth tail Z.eqb Pos.eqb] in *.
  - destruct Hp as (Hne & Hds & _ & Hv). fold (chr (ds ++ rest)). destruct (chr_digits ds rest Hne Hds) as [-> _].
    rewrite atoi_spec by done. cbn. pose proof (dec_value_nonneg ds Hds). by destruct (Z.ltb_spec (dec_value ds) 0); [lia|].
  - cbn. destruct (arg_word args) as [[z args']|]; [|done]. cbn.
    destruct (Z.ltb_spec (s32 z) 0); [by rewrite Z.max_l by lia|by rewrite Z.max_r by lia].
  - fold (chr rest). rewrite Hd. by destruct (Z.eqb_spec (chr rest) 42).
  - change (nth 0 rest 0) with (chr rest). by destruct (Z.eqb_spec (chr rest) 46).
Qed.

Lemma parse_qualifier_spec (d : dir) (rest : list Z) :
  dir_ok d ->
  parse_qualifier (opt_text (fun q => [q]) (d_qual d) ++ [d_conv d] ++ rest) = (default (-1) (d_qual d), d_conv d :: rest).
Proof.
  intros (_ & _ & _ & Hq & Hc). unfold parse_qualifier. destruct (d_qual d) as [q|]; cbn in *.
  - by destruct Hq as [-> | ->].
  - unfold conv_ok in Hc. repeat (apply andb_true_iff in Hc as [Hc ?]).
    repeat match goal with H : negb _ = true |- _ => apply negb_true_iff in H end.
    by repeat match goal with H : (_ =? _) = false |- _ => rewrite H; clear H end.
Qed.

Lemma directive_spec (stack : list Z) (d : dir) (rest : list Z) (args : list varg) :
  dir_ok d ->
  directive stack (dir_text d ++ rest) args =
    ('(out, args) ← print_dir stack d args; Some (out, rest, args)).
Proof.
  intros Hd. pose proof (chr_conv d rest Hd) as Hq. pose proof (parse_qualifier_spec d rest Hd) as Hpq.
  destruct Hd as (Hf & Hw & Hp & _ & Hc). unfold directive, dir_text. rewrite <-!app_assoc.
  set (tail2 := opt_text (fun q => [q]) (d_qual d) ++ _) in *.
  set (tail1 := opt_text _ (d_prec d) ++ tail2).
  assert (stops_prec (chr tail1)) as H1 by (unfold tail1; destruct (d_prec d); [done|]; by destruct Hq as (? & ? & ? & ?)).
  rewrite parse_flags_spec; [|done|].
  2:{ destruct (d_width d) as [[ds|]|] eqn:Ew; cbn in Hw |- *; [|done|apply H1].
      destruct Hw as (Hne & Hds & Hz & _). destruct (chr_digits ds tail1 Hne Hds) as [Hdig Hhd]. unfold chr in Hdig, Hhd.
      apply is_digit_iff in Hdig. rewrite Hhd in *. apply negb_true_iff, Z.eqb_neq in Hz. unfold is_flag.
      zbool; cbn; (done || lia). }
  rewrite parse_width_spec by done. unfold print_dir.
  destruct (width_value _ _ args) as [[[w fl] args1]|]; [|done]. cbn [mbind option_bind].
  unfold tail1. rewrite parse_precision_spec by done.
  destruct (prec_value _ args1) as [[pr args2]|]; [|done]. cbn [mbind option_bind]. rewrite Hpq. cbn [chr nth].
  destruct (convert _ _ _ _ _ _ _) as [[out args3]|]; [|done]. cbn.
  assert (truthy (d_conv d) = true) as ->; [|done].
  unfold conv_ok in Hc. apply andb_true_iff in Hc as [_ Hc]. exact Hc.
Qed.

Lemma vsprintf_items (stack : list Z) (l : list item) (args : list varg) (f : nat) :
  Forall item_ok l -> (length l < f)%nat ->
  vsprintf_loop f stack (format_text l) args = print_items stack l args.
Proof.
  intros Hl. revert f args. induction Hl as [|i l Hi Hl IH]; intros [|f] args Hf; cbn [length] in Hf; try lia; [done|].
  cbn [vsprintf_loop]. unfold format_text in *. cbn [fmap list_fmap concat]. destruct i as [c|d]; cbn [item_text app chr nth tail].
  - destruct Hi as [H0 H37]. destruct (Z.eqb_spec c 0); [done|]. destruct (Z.eqb_spec c 37); [done|]. cbn [negb print_items].
    by rewrite IH by lia.
  - cbn [Z.eqb Pos.eqb negb print_items]. rewrite directive_spec by done.
    destruct (print_dir _ _ _) as [[out args']|]; [|done]. cbn [mbind option_bind]. by rewrite IH by lia.
Qed.

Lemma format_text_length (l : list item) : (length l <= length (format_text l))%nat.
Proof.
  induction l as [|i l IH]; [done|]. unfold format_text in *. cbn [fmap list_fmap concat length]. rewrite length_app.
  destruct i; cbn; lia.
Qed.

Lemma s32_sint (z : Z) : is_sint 32 (s32 z).
Proof. by apply swrap_range. Qed.

(** ** Room

    How long the text of a format can get.  [None] when an argument is missing
    or of the wrong type, a string is not shorter than 2^31, or [%f] is asked for
    more than 60 places or a number of 2^48 or more. *)








Lemma alen_for_upto (n k : Z) (body : Z -> list Z -> list Z) :
  0 <= n -> 0 <= k -> (forall i l, alen (body i l) <= alen l + k) -> alen (for_upto n body []) <= n * k.
Proof.
  intros Hn Hk Hb. apply (for_upto_inv (fun i l => alen l <= i * k)); [done|done|]. intros j l _ Hl.
  specialize (Hb j l). lia.
Qed.




Lemma has_lor_SIGN (flags : Z) : has (flags .| SIGN) SIGN = true.
Proof. rewrite has_lor_l. apply orb_true_r. Qed.



(** ** What a directive consumes

    The rest of the format and of the arguments are what is left of them. *)











(** ** Output characters *)





Lemma digits_byte (i : Z) : is_uint 8 (aget digits i).
Proof. apply aget_byte, bytes_text. Qed.
Lemma upper_digits_byte (i : Z) : is_uint 8 (aget upper_digits i).
Proof. apply aget_byte, bytes_text. Qed.
#[local] Hint Resolve digits_byte upper_digits_byte : bytes.













(** ** Properties *)

(** [number], on every flag combination: the text is sign, base prefix
    and at least [precision] digits of the magnitude in the base (no leading
    zero beyond those), padded to the field width with spaces on the left, zeros
    after the prefix, or spaces on the right; LEFT overrides ZEROPAD, and the
    most negative [long] prints its true magnitude. *)
Theorem number_layout (num base size precision type : Z) :
  2 <= base <= 36 -> is_sint 32 num ->
  exists ds, canonical base (magnitude type num) ds /\
    number num base size precision type =
      Some (layout type size (sign_text type num) (prefix_text type base)
              (repeat 48 (Z.to_nat (precision - alen ds)) ++ (aget (alphabet type) <$> ds))).
Proof. apply number_spec. Qed.

Lemma number_layout_witness :
  number (-2147483648) 10 14 (-1) (SIGN .| ZEROPAD) = Some (text "-0002147483648") /\
  exists ds, canonical 10 (magnitude (SIGN .| ZEROPAD) (-2147483648)) ds /\
    number (-2147483648) 10 14 (-1) (SIGN .| ZEROPAD) =
      Some (layout (SIGN .| ZEROPAD) 14 (sign_text (SIGN .| ZEROPAD) (-2147483648)) (prefix_text (SIGN .| ZEROPAD) 10)
              (repeat 48 (Z.to_nat (-1 - alen ds)) ++ (aget (alphabet (SIGN .| ZEROPAD)) <$> ds))).
Proof.
  split; [reflexivity|].
  apply (number_layout (-2147483648) 10 14 (-1) (SIGN .| ZEROPAD)); [lia|split; [discriminate|reflexivity]].
Defined.

(** C37: [ee_vsprintf] implements the grammar of formats: for every sequence of
    literal characters and directives (flags in any order, width and precision
    as numbers or [*], qualifier, conversion) its scanner hands each conversion
    exactly the parameters the directive denotes, consumes the right arguments
    and concatenates the results. *)
Theorem ee_vsprintf_grammar (stack : list Z) (l : list item) (args : list varg) :
  Forall item_ok l -> ee_vsprintf stack (format_text l) args = print_items stack l args.
Proof. intros Hl. apply vsprintf_items; [done|]. pose proof (format_text_length l). lia. Qed.

Lemma ee_vsprintf_grammar_witness :
  let l := [Lit 65; Dir (mk_dir [45; 43] (Some Star) (Some (Some (Digits [52]))) (Some 108) 100)] in
  format_text l = text "A%-+*.4ld" /\
  ee_vsprintf garbage (format_text l) [VWord 8; VWord 7] = print_items garbage l [VWord 8; VWord 7].
Proof.
  cbn zeta. split; [reflexivity|]. apply ee_vsprintf_grammar.
  repeat constructor; cbn; try (intros E; discriminate E); lia.
Defined.

(** C38: a printed number reads back. The text of [%d] (also zero-padded
    and with a precision) and of [%#x], for every 32-bit argument, is parsed by
    [parseval] to that argument as a signed integer. *)
Theorem printed_number_reads_back (stack : list Z) (hexmode zero : bool) (w p : option (list Z)) (z : Z) :
  let d := mk_dir ((if hexmode then [35] else []) ++ (if zero then [48] else [])) (Digits <$> w)
             ((fun ds => Some (Digits ds)) <$> p) None (if hexmode then 120 else 100) in
  dir_ok d -> zero = true \/ w = None ->
  exists out, ee_vsprintf stack (format_text [Dir d]) [VWord z] = Some out /\
    parseval (out ++ [0]) = Some (s32 z).
Proof.
  intros d Hd Hz. set (fl := flag_mask (d_flags d) 0 .| (if hexmode then 0 else SIGN)).
  set (width := from_option dec_value (-1) w). set (prec := from_option dec_value (-1) p).
  destruct (number_parse_back hexmode (s32 (u32 z)) width prec fl) as (out & Hout & Hp);
    [apply s32_sint|by destruct hexmode, zero|by destruct hexmode, zero| |].
  { destruct Hz as [-> | ->]; [left; by destruct hexmode|right; done]. }
  exists out. split; [|by rewrite Hp; unfold s32, u32; rewrite swrap_uwrap].
  unfold ee_vsprintf. pose proof (format_text_length [Dir d]).
  rewrite vsprintf_items by (lia || (constructor; [exact Hd|constructor])). cbn [print_items]. unfold print_dir.
  assert (width_value (d_width d) (flag_mask (d_flags d) 0) [VWord z] = Some (width, flag_mask (d_flags d) 0, [VWord z])) as ->
    by (unfold width; by destruct w).
  cbn [mbind option_bind].
  assert (prec_value (d_prec d) [VWord z] = Some (prec, [VWord z])) as -> by (unfold prec; by destruct p).
  cbn [mbind option_bind]. unfold d, convert. cbn [d_conv d_qual default].
  assert (forall b fl', fl' = fl -> b = base_of hexmode ->
    ('(out, args) ← (out ← number (s32 (u32 z)) b width prec fl'; Some (out, []));
     rest ← print_items stack [] args; Some (out ++ rest)) = Some out) as Hfin.
  { intros b fl' -> ->. rewrite Hout. cbn. by rewrite app_nil_r. }
  destruct hexmode; cbn [Z.eqb Pos.eqb orb arg_word mbind option_bind]; unfold integer_conv;
    cbn [Z.eqb Pos.eqb orb arg_word mbind option_bind]; apply Hfin; try done.
  unfold fl. by rewrite Z.lor_0_r.
Qed.

(** ["%#08x"] of a negative number. *)
Lemma printed_number_reads_back_witness :
  let d := mk_dir [35; 48] (Some (Digits [56])) None None 120 in
  format_text [Dir d] = text "%#08x" /\
  exists out, ee_vsprintf garbage (format_text [Dir d]) [VWord (-2)] = Some out /\
    parseval (out ++ [0]) = Some (s32 (-2)).
Proof.
  cbn zeta. split; [reflexivity|].
  apply (printed_number_reads_back garbage true true (Some [56]) None (-2)); [|by left].
  split; [by repeat constructor|]. split; [|by split]. cbn. split; [discriminate|]. split; [by repeat constructor|].
  split; [reflexivity|reflexivity].
Defined.





(** C40: what [%f] prints. For every flag combination, width and precision up
    to 60, and every [double] below 2^48 (six places when no precision is given):
    the sign, and a decimal with exactly that many places and no superfluous
    leading zero, padded to the field; the decimal is within half a unit of its
    last place, plus 2^-52, of the number. *)
Theorem printed_double_accurate (stack fl : list Z) (w p : option (list Z)) (x : double) :
  let d := mk_dir fl (Digits <$> w) ((fun ds => Some (Digits ds)) <$> p) None 102 in
  let type := flag_mask fl 0 .| SIGN in
  let n := from_option dec_value 6 p in
  dir_ok d -> n <= 60 -> small x = true -> alen stack = CVTBUFSIZE ->
  exists s v, ee_vsprintf stack (format_text [Dir d]) [VDouble x] =
      Some (layout type (from_option dec_value (-1) w) (double_sign type x) [] (s ++ point_text type n)) /\
    decimal n v s /\ 2 ^ 53 * Z.abs (v * ONE - val x * 10 ^ n) <= (2 ^ 52 + 2 * 10 ^ n) * ONE.
Proof.
  intros d type n Hd Hn Hx Hst. set (prec := from_option dec_value (-1) p).
  assert ((if prec <? 0 then 6 else prec) = n /\ prec <= 60) as [En Hp].
  { unfold prec, n in *. destruct p as [ds|]; cbn in *; [|done]. destruct Hd as (_ & _ & (_ & Hds & _) & _).
    pose proof (dec_value_nonneg ds Hds). destruct (Z.ltb_spec (dec_value ds) 0); lia. }
  destruct (flt_spec stack x (from_option dec_value (-1) w) prec type (has_lor_SIGN _) Hx Hp Hst) as (s & v & Hf & Hs & Hr & _).
  rewrite En in *. exists s, v. split; [|by split]. unfold ee_vsprintf. pose proof (format_text_length [Dir d]).
  rewrite vsprintf_items by (lia || (constructor; [exact Hd|constructor])). cbn [print_items]. unfold print_dir.
  assert (width_value (d_width d) (flag_mask (d_flags d) 0) [VDouble x] =
    Some (from_option dec_value (-1) w, flag_mask fl 0, [VDouble x])) as -> by by destruct w.
  cbn [mbind option_bind]. assert (prec_value (d_prec d) [VDouble x] = Some (prec, [VDouble x])) as -> by by destruct p.
  cbn [mbind option_bind]. unfold convert. cbn [d d_conv Z.eqb Pos.eqb orb]. fold type. rewrite Hf. cbn. by rewrite app_nil_r.
Qed.

(** ["%010.3f"] of -22/7. *)
Lemma printed_double_accurate_witness :
  let x := ddiv (double_of (-22)) (double_of 7) in
  let d := mk_dir [48] (Some (Digits [49; 48])) (Some (Some (Digits [51]))) None 102 in
  format_text [Dir d] = text "%010.3f" /\ ee_vsprintf garbage (format_text [Dir d]) [VDouble x] = Some (text "-00003.143") /\
  exists s v, ee_vsprintf garbage (format_text [Dir d]) [VDouble x] =
      Some (layout (ZEROPAD .| SIGN) 10 (double_sign (ZEROPAD .| SIGN) x) [] (s ++ point_text (ZEROPAD .| SIGN) 3)) /\
    decimal 3 v s /\ 2 ^ 53 * Z.abs (v * ONE - val x * 10 ^ 3) <= (2 ^ 52 + 2 * 10 ^ 3) * ONE.
Proof.
  cbn zeta. split; [reflexivity|]. split; [vm_compute; reflexivity|].
  apply (printed_double_accurate garbage [48] (Some [49; 48]) (Some [51]) (ddiv (double_of (-22)) (double_of 7)));
    [|vm_compute; discriminate|vm_compute; reflexivity|reflexivity].
  repeat constructor; cbn; try (intros E; discriminate E); lia.
Defined.

(** With more places the text can outgrow [tmp]: here [%.200f] of 2^-997, and
    [%.78f] of zero by its final zero. *)
Example flt_overruns_tmp :
  let f c x := ee_vsprintf garbage (text c) [VDouble x] in
  f "%.200f"%string (S754_finite false 4503599627370496 (-1049)) = None /\
  f "%.78f"%string D0 = None /\ is_Some (f "%.77f"%string D0).
Proof. split; [by vm_compute|]. split; [by vm_compute|]. vm_compute. by eexists. Qed.



