(* ===== verification/CoreMain.v ===== *)
(** * CoreMark's main program, [src/fpga/coremark/src/core_main.c]

    The set-up of the benchmark from its seeds, the iterations, the automatic
    choice of their number, the timing and the validation of the results, for
    the configuration of this repository's port: one context, a static memory
    block, volatile seeds, floating-point seconds. *)

From Stdlib Require Import SpecFloat.
From S2P Require Import Prelude CoreUtil Matrix StateMachine ListJoin ListBench PortTime.

(** ** Definitions *)

Definition ID_LIST : Z := 1 .<< 0.
Definition ID_MATRIX : Z := 1 .<< 1.
Definition ID_STATE : Z := 1 .<< 2.
Definition ALL_ALGORITHMS_MASK : Z := ID_LIST .| ID_MATRIX .| ID_STATE.
Definition NUM_ALGORITHMS : Z := 3.

Definition list_known_crc : Datatypes.list Z := [0xd4b0; 0x3340; 0x6a79; 0xe714; 0xe3c1].
Definition matrix_known_crc : Datatypes.list Z := [0xbe52; 0x1199; 0x5608; 0x1fd7; 0x0747].
Definition state_known_crc : Datatypes.list Z := [0x5e47; 0x39bf; 0xe5a4; 0x8e3a; 0x8d84].

Definition set_iterations (n : Z) (r : core_results) : core_results :=
  mk_results (seed1 r) (seed2 r) (seed3 r) (size r) n (execs r) (list r) (state_mem r)
    (mat r) (crc r) (crclist r) (crcmatrix r) (crcstate r) (err r).
Definition set_list (p : Z) (r : core_results) : core_results :=
  mk_results (seed1 r) (seed2 r) (seed3 r) (size r) (iterations r) (execs r) p (state_mem r)
    (mat r) (crc r) (crclist r) (crcmatrix r) (crcstate r) (err r).
Definition set_crclist (c : Z) (r : core_results) : core_results :=
  set_crcs (crc r) c (crcmatrix r) (crcstate r) r.

(** [iterate] *)
Section Iterate.
Variables state_fuel fuel : nat.

Definition add_crc (c : Z) : M world () := modify_res (fun res => set_crc (crcu16 c (crc res)) res).

Definition iter_step (i : Z) : M world () :=
  crc ← core_bench_list state_fuel fuel 1;
  _ ← add_crc crc;
  crc ← core_bench_list state_fuel fuel (-1);
  _ ← add_crc crc;
  if i =? 0 then modify_res (fun res => set_crclist (ListBench.crc res) res) else mret ().

Fixpoint iter_loop (n : nat) (i : Z) : M world () :=
  match n with
  | O => mret ()
  | S n' => _ ← iter_step i; iter_loop n' (i + 1)
  end.

Definition iterate : M world () :=
  res ← get_res;
  _ ← modify_res (set_crcs 0 0 0 0);
  iter_loop (Z.to_nat (iterations res)) 0.

(** *** Set-up

    [stack] is what the uninitialised [results[0]] holds, [memblk] the address
    of [static_memblk], [seeds] the five volatile seeds. *)

(** The defaults for all-zero and validation seeds. *)
Definition seed_defaults (s : Z * Z * Z) : Z * Z * Z :=
  let s := if decide (s = (0, 0, 0)) then (0, 0, 0x66) else s in
  if decide (s = (1, 0, 0)) then (0x3415, 0x3415, 0x66) else s.

Definition exec_bit (execs i : Z) : bool := truthy ((1 .<< i) .& execs).

Definition num_algorithms (execs : Z) : Z :=
  for_upto NUM_ALGORITHMS (fun i n => if exec_bit execs i then u16 (n + 1) else n) 0.

(** [memblock[i + 1] = memblock[0] + size * j] for the algorithms to run. *)
Definition memblocks (execs size base : Z) : Datatypes.list Z :=
  (for_upto NUM_ALGORITHMS
     (fun i '(mb, j) => if exec_bit execs i then (aset mb (i + 1) (u32 (base + u32 (size * j))), u16 (j + 1))
                        else (mb, j)) ([base; 0; 0; 0], 0)).1.

(** The inits; the list's block is zero-initialised static memory. *)
Definition init_list (memblock : Z) (r : core_results) : option world :=
  if truthy (execs r .& ID_LIST) then
    '(p, w) ← core_list_init fuel (size r) memblock (seed1 r) (raw_block memblock (list_items (size r)) r);
    Some (mk_world (heads w) (datas w) (set_list p (env w)))
  else Some (mk_world ∅ ∅ r).

Definition init_matrix (memblock : Z) (r : core_results) : option core_results :=
  if truthy (execs r .& ID_MATRIX) then
    '(_, m) ← core_init_matrix fuel (size r) memblock (s32 (seed1 r .| (seed2 r .<< 16)));
    Some (set_mat m r)
  else Some r.

Definition init_state (r : core_results) : option core_results :=
  if truthy (execs r .& ID_STATE) then
    b ← core_init_state fuel (size r) (seed1 r) (tabulate (size r) (fun _ => 0));
    Some (set_state_mem b r)
  else Some r.

(** Memory partition, pointers and inits, from the defaults on. *)
Definition init_all (stack : core_results) (total memblk : Z) (s : Z * Z * Z) (iterations execs : Z)
  : option world :=
  let '(s1, s2, s3) := seed_defaults s in
  let n := num_algorithms execs in
  if n =? 0 then None
  else
    let size := total / n in
    let mb := memblocks execs size memblk in
    let r := mk_results s1 s2 s3 size iterations execs (list stack) (state_mem stack) (mat stack)
               (crc stack) (crclist stack) (crcmatrix stack) (crcstate stack) 0 in
    w ← init_list (aget mb 1) r;
    r ← init_matrix (aget mb 2) (env w);
    r ← init_state r;
    Some (mk_world (heads w) (datas w) r).

Definition setup (stack : core_results) (total memblk : Z) (seeds : Datatypes.list Z) : option world :=
  let s1 := s16 (get_seed_32 seeds 1) in
  let s2 := s16 (get_seed_32 seeds 2) in
  let s3 := s16 (get_seed_32 seeds 3) in
  let iterations := u32 (get_seed_32 seeds 4) in
  let execs := u32 (get_seed_32 seeds 5) in
  let execs := if execs =? 0 then ALL_ALGORITHMS_MASK else execs in
  init_all stack total memblk (s1, s2, s3) iterations execs.

(** *** Timed runs

    [cost n] is the number of cycles between the two readings of the clock
    around [n] iterations, a parameter of the hardware. *)
Variable cost : Z -> Z.

Record machine : Type := mk_machine { wld : world; clk : clock }.

Definition with_iterations (n : Z) (m : machine) : machine :=
  mk_machine (mk_world (heads (wld m)) (datas (wld m)) (set_iterations n (env (wld m)))) (clk m).

Definition iterations_of (m : machine) : Z := iterations (env (wld m)).

Definition timed_iterate (m : machine) : option machine :=
  let c := start_time (clk m) in
  '(_, w) ← iterate (wld m);
  Some (mk_machine w (stop_time (elapse (cost (iterations_of m)) c))).

(** [while (secs_passed < (secs_ret)1)] *)
Fixpoint calibrate_loop (rounds : nat) (secs_passed : double) (m : machine) : option (double * machine) :=
  if SFltb secs_passed (double_of 1) then
    match rounds with
    | O => None
    | S n =>
        m ← timed_iterate (with_iterations (u32 (iterations_of m * 10)) m);
        calibrate_loop n (time_in_secs (get_time (clk m))) m
    end
  else Some (secs_passed, m).

Definition calibrate (rounds : nat) (m : machine) : option machine :=
  if iterations_of m =? 0 then
    '(secs_passed, m) ← calibrate_loop rounds (S754_zero false) (with_iterations 1 m);
    divisor ← u32_of_double secs_passed;
    let divisor := if divisor =? 0 then 1 else divisor in
    Some (with_iterations (u32 (iterations_of m * u32 (1 + 10 / divisor))) m)
  else Some m.
End Iterate.

(** *** Validation *)

Inductive message : Type :=
  | Err_list (crc should_be : Z)
  | Err_matrix (crc should_be : Z)
  | Err_state (crc should_be : Z)
  | Err_short.

Inductive verdict : Type := Correct_operation | Errors_detected | Cannot_validate.

Record report : Type := mk_report {
  rp_seedcrc : Z;
  rp_known_id : Z;
  rp_messages : Datatypes.list message;
  rp_total_errors : Z;
  rp_verdict : verdict;
}.

Definition seedcrc (r : core_results) : Z :=
  crc16 (s16 (size r)) (crc16 (seed3 r) (crc16 (seed2 r) (crc16 (seed1 r) 0))).

Definition known_id_of (seedcrc : Z) : Z :=
  if seedcrc =? 0x8a02 then 0
  else if seedcrc =? 0x7b05 then 1
  else if seedcrc =? 0x4eaf then 2
  else if seedcrc =? 0xe9f5 then 3
  else if seedcrc =? 0x18f2 then 4
  else -1.

(** One CRC check: a message when the algorithm ran and its CRC differs. *)
Definition check_crc (execs id crc should_be : Z) (msg : Z -> Z -> message) : Datatypes.list message :=
  if truthy (execs .& id) && negb (crc =? should_be) then [msg crc should_be] else [].

Definition check_crcs (known_id : Z) (r : core_results) : Datatypes.list message :=
  check_crc (execs r) ID_LIST (crclist r) (aget list_known_crc known_id) Err_list ++
  check_crc (execs r) ID_MATRIX (crcmatrix r) (aget matrix_known_crc known_id) Err_matrix ++
  check_crc (execs r) ID_STATE (crcstate r) (aget state_known_crc known_id) Err_state.

Definition verdict_of (total_errors : Z) : verdict :=
  if total_errors =? 0 then Correct_operation
  else if 0 <? total_errors then Errors_detected else Cannot_validate.

Definition validate (sz : type_sizes) (total_time : Z) (r : core_results) : report :=
  let known_id := known_id_of (seedcrc r) in
  let crc_errors := if 0 <=? known_id then check_crcs known_id r else [] in
  let total_errors := if 0 <=? known_id then s16 (0 + s16 (Z.of_nat (length crc_errors))) else -1 in
  let total_errors := s16 (total_errors + check_data_types sz) in
  let short := SFltb (time_in_secs total_time) (double_of 10) in
  let total_errors := if short then s16 (total_errors + 1) else total_errors in
  mk_report (seedcrc r) known_id (crc_errors ++ if short then [Err_short] else []) total_errors
    (verdict_of total_errors).

Definition main (state_fuel fuel rounds : nat) (cost : Z -> Z) (sz : type_sizes) (stack : core_results)
    (total memblk : Z) (seeds : Datatypes.list Z) (c : clock) : option (machine * report) :=
  w ← setup fuel stack total memblk seeds;
  m ← calibrate state_fuel fuel cost rounds (mk_machine w c);
  m ← timed_iterate state_fuel fuel cost m;
  Some (m, validate sz (get_time (clk m)) (env (wld m))).

(** The target's types have the sizes that [check_data_types] expects. *)
Definition rv32_sizes : type_sizes := {|
  sizeof_u8 := 1; sizeof_u16 := 2; sizeof_s16 := 2; sizeof_s32 := 4; sizeof_u32 := 4;
  sizeof_ptr_int := 4; sizeof_int_ptr := 4 |}.

(** ** The iterations *)

Section IterateProofs.
Variables state_fuel fuel : nat.
Variable L : Datatypes.list Z.

(** The benchmark can run: the list, its items and the other kernels' inputs
    are as the set-up leaves them. *)
Record ready (w : world) : Prop := {
  rdy_path : path (heads w) (list (env w)) L 0;
  rdy_nodup : NoDup L;
  rdy_items : items_ok L w;
  rdy_res : res_ok state_fuel (env w);
  rdy_pristine : pristine L w;
  rdy_length : (3 <= length L < fuel)%nat;
  rdy_bound : Z.of_nat (length L) < 2 ^ 30;
}.

(** The same list, items and inputs. *)
Definition restored (w w' : world) : Prop :=
  heads w' = heads w /\ (forall x, x ∈ L -> item w' x = item w x) /\ inputs (env w') = inputs (env w).

#[local] Instance restored_preorder : PreOrder restored.
Proof.
  split; unfold restored; [done|]. intros w1 w2 w3 (E1 & E2 & E3) (F1 & F2 & F3).
  split; [congruence|]. split; [|congruence]. intros x Hx. by rewrite F2, E2.
Qed.

Lemma ready_restored (w w' : world) :
  ready w -> restored w w' -> res_ok state_fuel (env w') -> ready w'.
Proof.
  intros [Hp Hn Hi Hr [Hs Hg] Hl Hb] (E1 & E2 & E3) Hr'. split; try done.
  - rewrite E1. assert (list (env w') = list (env w)) as -> by exact (f_equal list E3). done.
  - intros x Hx. rewrite E2 by done. by apply Hi.
  - split.
    + assert (forall l, (forall x, x ∈ l -> x ∈ L) -> StronglySorted (fun a b => key w a < key w b) l ->
        StronglySorted (fun a b => key w' a < key w' b) l) as H; [|by apply H].
      intros l Hin. induction 1 as [|x l Hss IH Hf]; constructor.
      * apply IH. intros y Hy. apply Hin. by right.
      * rewrite Forall_forall in *. intros y Hy. unfold key.
        rewrite !E2; [by apply Hf|apply Hin; by right|apply Hin; left].
    + rewrite Forall_forall in *. intros x Hx. unfold regen_at. rewrite E2 by done. by apply Hg.
Qed.

Lemma restored_modify (w : world) (f : core_results -> core_results) :
  inputs (f (env w)) = inputs (env w) -> restored w (mk_world (heads w) (datas w) (f (env w))).
Proof. by split. Qed.

(** A benchmark call and its addition to the CRC. *)
Lemma bench_and_crc (w : world) (finder_idx : Z) :
  ready w ->
  exists w', (crc ← core_bench_list state_fuel fuel finder_idx; add_crc crc) w = Some ((), w') /\
    ready w' /\ restored w w' /\ crcs_kept (env w) (env w').
Proof.
  intros Hr. pose proof Hr as [Hp Hn Hi Hres Hpr Hl Hb].
  destruct (core_bench_list_run state_fuel fuel w finder_idx L)
    as (c & w1 & Hrun & Hc & Hh & Hit & Hin & Hk & Hres1); [done..|].
  rewrite (M_bind_Some _ _ _ _ _ Hrun). eexists. split; [reflexivity|].
  set (f := fun res => set_crc (crcu16 c (crc res)) res).
  assert (restored w (mk_world (heads w1) (datas w1) (f (env w1)))) as Hsame.
  { transitivity w1; [by split_and!|by apply restored_modify]. }
  split; [|split; [done|]].
  - apply (ready_restored w); [done|done|]. destruct Hres1. split; try done.
    apply crcu16_range. done.
  - destruct Hk as (K1 & K2 & K3). by split_and!.
Qed.

Lemma iter_step_run (w : world) (i : Z) :
  ready w ->
  exists w', iter_step state_fuel fuel i w = Some ((), w') /\ ready w' /\ restored w w' /\
    (i <> 0 -> crcs_kept (env w) (env w')).
Proof.
  intros Hr. unfold iter_step.
  destruct (bench_and_crc w 1 Hr) as (w1 & H1 & Hr1 & Hs1 & Hk1).
  destruct (bench_and_crc w1 (-1) Hr1) as (w2 & H2 & Hr2 & Hs2 & Hk2).
  rewrite <-M_bind_assoc, (M_bind_Some _ _ _ _ _ H1), <-M_bind_assoc, (M_bind_Some _ _ _ _ _ H2).
  destruct (Z.eqb_spec i 0) as [->|Hi].
  - eexists. split; [reflexivity|]. set (f := fun res => set_crclist (crc res) res).
    assert (restored w2 (mk_world (heads w2) (datas w2) (f (env w2)))) as Hs3 by by apply restored_modify.
    split; [apply (ready_restored w2); [done|done|]|].
    + destruct (rdy_res _ Hr2). by split.
    + split; [|done]. etransitivity; [|exact Hs3]. by etransitivity.
  - exists w2. split; [done|]. split; [done|]. split; [by etransitivity|]. intros _. by etransitivity.
Qed.

(** After the first iteration the recorded CRCs stay. *)
Lemma iter_loop_run (n : nat) (w : world) (i : Z) :
  ready w -> 0 < i ->
  exists w', iter_loop state_fuel fuel n i w = Some ((), w') /\ ready w' /\ restored w w' /\
    crcs_kept (env w) (env w').
Proof.
  revert w i. induction n as [|n IH]; intros w i Hr Hi; cbn [iter_loop].
  { exists w. split; [done|]. split; [done|]. split; reflexivity. }
  destruct (iter_step_run w i Hr) as (w1 & H1 & Hr1 & Hs1 & Hk1).
  rewrite (M_bind_Some _ _ _ _ _ H1).
  destruct (IH w1 (i + 1) Hr1) as (w2 & H2 & Hr2 & Hs2 & Hk2); [lia|].
  exists w2. split; [done|]. split; [done|]. split; [by etransitivity|].
  etransitivity; [|exact Hk2]. apply Hk1. lia.
Qed.

(** The world with which the first iteration starts. *)
Definition cleared (w : world) : world := mk_world (heads w) (datas w) (set_crcs 0 0 0 0 (env w)).

Lemma iterate_unfold (w : world) :
  iterate state_fuel fuel w = iter_loop state_fuel fuel (Z.to_nat (iterations (env w))) 0 (cleared w).
Proof. done. Qed.

Lemma ready_cleared (w : world) : ready w -> ready (cleared w) /\ restored w (cleared w).
Proof.
  intros Hr. assert (restored w (cleared w)) as Hs by by split. split; [|done].
  apply (ready_restored w); [done|done|]. destruct (rdy_res _ Hr). by split.
Qed.

(** [iterate] in terms of its first iteration. *)
Lemma iterate_run (w : world) :
  ready (cleared w) -> 0 < iterations (env w) ->
  exists w1 w', iter_step state_fuel fuel 0 (cleared w) = Some ((), w1) /\
    iterate state_fuel fuel w = Some ((), w') /\
    ready w' /\ restored w w' /\ crcs_kept (env w1) (env w').
Proof.
  intros Hr0 Hn. rewrite iterate_unfold.
  destruct (iter_step_run (cleared w) 0 Hr0) as (w1 & H1 & Hr1 & Hs1 & _).
  destruct (Z.to_nat (iterations (env w))) as [|n] eqn:En; [lia|]. cbn [iter_loop].
  destruct (iter_loop_run n w1 1 Hr1) as (w2 & H2 & Hr2 & Hs2 & Hk2); [lia|].
  exists w1, w2. split; [done|]. rewrite (M_bind_Some _ _ _ _ _ H1).
  split; [done|]. split; [done|]. split; [|done].
  transitivity (cleared w); [by split|]. by etransitivity.
Qed.

(** C32: [iterate] terminates for every positive iteration count, leaves the
    list, its items and the kernels' inputs as they were, and reports the CRCs
    of its first iteration: [crclist] exactly, [crcmatrix] and [crcstate] as
    soon as the first iteration recorded a nonzero one. *)
Theorem iterate_reports_first (w : world) :
  ready (cleared w) -> 0 < iterations (env w) ->
  exists w1 w', iter_step state_fuel fuel 0 (cleared w) = Some ((), w1) /\
    iterate state_fuel fuel w = Some ((), w') /\
    crclist (env w') = crclist (env w1) /\
    (crcmatrix (env w1) <> 0 -> crcmatrix (env w') = crcmatrix (env w1)) /\
    (crcstate (env w1) <> 0 -> crcstate (env w') = crcstate (env w1)) /\
    heads w' = heads w /\ (forall x, x ∈ L -> item w' x = item w x) /\
    inputs (env w') = inputs (env w).
Proof.
  intros Hr Hn. destruct (iterate_run w Hr Hn) as (w1 & w' & H1 & H & _ & (R1 & R2 & R3) & (K1 & K2 & K3)).
  by exists w1, w'.
Qed.
End IterateProofs.

(** ** The automatic choice of the iteration count *)

Section Calibration.
Variables state_fuel fuel : nat.
Variable L : Datatypes.list Z.

(** [n] iterations take [c] cycles each, and up to [overhead] more in all. *)
Variable cost : Z -> Z.
Variables c overhead : Z.
Hypothesis cost_linear : forall n, 0 < n -> c * n <= cost n <= c * n + overhead.
Hypothesis c_range : 1 <= c <= EE_TICKS_PER_SEC.
Hypothesis overhead_range : 0 <= overhead <= 1000000.

Abbreviation machine_ready m := (ready state_fuel fuel L (cleared (wld m))).

Lemma ready_iterations (m : machine) (n : Z) :
  machine_ready m -> machine_ready (with_iterations n m).
Proof. intros [Hp Hn Hi [] [Hs Hg] Hl Hb]. split; try done; by split. Qed.

Lemma timed_iterate_run (m : machine) :
  machine_ready m -> 0 < iterations_of m -> is_uint 32 (cost (iterations_of m)) ->
  exists m', timed_iterate state_fuel fuel cost m = Some m' /\ machine_ready m' /\
    iterations_of m' = iterations_of m /\ get_time (clk m') = cost (iterations_of m).
Proof.
  intros Hr Hn Hc. unfold timed_iterate.
  destruct (iterate_run state_fuel fuel L (wld m) Hr Hn) as (w1 & w' & _ & -> & Hr' & (_ & _ & Hin) & _).
  cbn [mbind option_bind]. eexists. split; [reflexivity|]. cbn [wld clk].
  split; [by apply ready_cleared|]. split; [|by apply get_time_exact].
  exact (f_equal iterations Hin).
Qed.

(** The loop ends with a count that takes between one and ten seconds. *)
Lemma calibrate_loop_run (rounds : nat) (m : machine) (secs : double) :
  machine_ready m -> 0 < iterations_of m -> c * iterations_of m <= EE_TICKS_PER_SEC ->
  EE_TICKS_PER_SEC < iterations_of m * 10 ^ Z.of_nat rounds ->
  SFltb secs (double_of 1) = true ->
  exists m', calibrate_loop state_fuel fuel cost rounds secs m =
      Some (time_in_secs (cost (iterations_of m')), m') /\
    machine_ready m' /\ 0 < iterations_of m' /\
    EE_TICKS_PER_SEC <= cost (iterations_of m') <= 10 * EE_TICKS_PER_SEC + overhead.
Proof.
  change EE_TICKS_PER_SEC with 60000000 in *.
  revert m secs. induction rounds as [|n IH]; intros m secs Hr Hn Hc Hpow Hs; cbn [calibrate_loop]; rewrite Hs.
  { change (10 ^ Z.of_nat 0) with 1 in Hpow. nia. }
  assert (iterations_of m <= 60000000) as Hle by nia.
  assert (u32 (iterations_of m * 10) = iterations_of m * 10) as ->
    by (apply uwrap_id; unfold is_uint; lia).
  set (m1 := with_iterations (iterations_of m * 10) m).
  assert (iterations_of m1 = iterations_of m * 10) as E1 by done.
  pose proof (cost_linear (iterations_of m1) ltac:(lia)) as Hcost.
  destruct (timed_iterate_run m1) as (m2 & -> & Hr2 & E2 & Ht);
    [by apply ready_iterations|lia|unfold is_uint; nia|].
  cbn [mbind option_bind]. rewrite Ht.
  destruct (SFltb (time_in_secs (cost (iterations_of m1))) (double_of 1)) eqn:Hlt.
  - pose proof Hlt as Hlt'. rewrite secs_lt in Hlt' by (unfold is_uint; nia). apply Z.ltb_lt in Hlt'.
    change (1 * EE_TICKS_PER_SEC) with 60000000 in Hlt'.
    apply IH; [done|lia|rewrite E2; lia| |done].
    rewrite E2, E1. rewrite Nat2Z.inj_succ, Z.pow_succ_r in Hpow by lia. lia.
  - exists m2. rewrite secs_lt in Hlt by (unfold is_uint; nia). apply Z.ltb_ge in Hlt.
    change (1 * EE_TICKS_PER_SEC) with 60000000 in Hlt. rewrite E2.
    assert (calibrate_loop state_fuel fuel cost n (time_in_secs (cost (iterations_of m1))) m2 =
      Some (time_in_secs (cost (iterations_of m1)), m2)) as ->.
    { destruct n; cbn [calibrate_loop]; rewrite secs_lt by (unfold is_uint; nia);
        change (1 * EE_TICKS_PER_SEC) with 60000000;
        destruct (Z.ltb_spec (cost (iterations_of m1)) 60000000); (lia || done). }
    split; [done|]. split; [done|]. split; [lia|]. nia.
Qed.

(** The multiplier brings a count of one to ten seconds above ten. *)
Lemma multiplier_bounds (t : Z) :
  EE_TICKS_PER_SEC <= t <= 10 * EE_TICKS_PER_SEC + overhead ->
  let k := 1 + 10 / (t / EE_TICKS_PER_SEC) in
  2 <= k <= 11 /\ 10 * EE_TICKS_PER_SEC <= (t - overhead) * k /\ t * k + overhead < 23 * EE_TICKS_PER_SEC.
Proof.
  change EE_TICKS_PER_SEC with 60000000. intros Ht k.
  pose proof (Z.div_mod t 60000000 ltac:(lia)) as Hd. pose proof (Z.mod_pos_bound t 60000000 ltac:(lia)) as Hm.
  set (d := t / 60000000) in *. set (r := t mod 60000000) in *. subst k. clearbody d r.
  assert (d = 1 \/ d = 2 \/ d = 3 \/ d = 4 \/ d = 5 \/ d = 6 \/ d = 7 \/ d = 8 \/ d = 9 \/ d = 10) as Hcases by lia.
  destruct_or! Hcases; subst d;
    match goal with |- context [10 / ?x] => let v := eval compute in (10 / x) in change (10 / x) with v end; lia.
Qed.

(** C31: with no iteration count given, the calibration terminates and chooses
    one whose run takes at least ten seconds and less than 23 (so the 32-bit
    cycle counter does not wrap), if an iteration takes at most a second. *)
Theorem calibrate_long_enough (rounds : nat) (m : machine) :
  machine_ready m -> iterations_of m = 0 -> (8 <= rounds)%nat ->
  exists m', calibrate state_fuel fuel cost rounds m = Some m' /\ machine_ready m' /\
    0 < iterations_of m' /\
    10 * EE_TICKS_PER_SEC <= cost (iterations_of m') < 23 * EE_TICKS_PER_SEC.
Proof.
  intros Hr H0 Hrounds. unfold calibrate. rewrite H0, Z.eqb_refl.
  destruct (calibrate_loop_run rounds (with_iterations 1 m) (S754_zero false))
    as (m1 & -> & Hr1 & Hn1 & Ht1).
  { by apply ready_iterations. }
  { done. }
  { change (iterations_of (with_iterations 1 m)) with 1. lia. }
  { change (iterations_of (with_iterations 1 m)) with 1.
    assert (10 ^ 8 <= 10 ^ Z.of_nat rounds) by (apply Z.pow_le_mono_r; lia).
    change EE_TICKS_PER_SEC with 60000000. lia. }
  { done. }
  cbn [mbind option_bind].
  pose proof (multiplier_bounds _ Ht1) as Hk. cbv zeta in Hk.
  pose proof (cost_linear _ Hn1) as Hc1.
  change EE_TICKS_PER_SEC with 60000000 in *.
  rewrite secs_truncate by (unfold is_uint; lia). cbn [mbind option_bind]. unfold CLOCKS_PER_SEC.
  set (t := cost (iterations_of m1)) in *. set (k := 1 + 10 / (t / 60000000)) in *.
  assert (t / 60000000 <> 0) as Hd0 by (clear -Ht1; divlia).
  destruct (Z.eqb_spec (t / 60000000) 0); [done|]. fold k. clearbody k t.
  assert (u32 k = k) as -> by (apply uwrap_id; unfold is_uint; lia).
  assert (iterations_of m1 <= t) by nia.
  assert (iterations_of m1 * k <= t * k) by nia.
  assert (0 < iterations_of m1 * k) as Hpos by nia.
  assert (u32 (iterations_of m1 * k) = iterations_of m1 * k) as -> by (apply uwrap_id; unfold is_uint; lia).
  eexists. split; [reflexivity|]. split; [by apply ready_iterations|].
  change (iterations_of (with_iterations _ m1)) with (iterations_of m1 * k).
  split; [exact Hpos|].
  pose proof (cost_linear _ Hpos) as Hc2. rewrite Z.mul_assoc in Hc2.
  pose proof (Z.mul_le_mono_nonneg_r (t - overhead) (c * iterations_of m1) k ltac:(lia) ltac:(lia)).
  pose proof (Z.mul_le_mono_nonneg_r (c * iterations_of m1) t k ltac:(lia) ltac:(lia)). lia.
Qed.
End Calibration.

(** ** Deciding that a set-up is ready *)

(** The cells from [p] to NULL. *)
Fixpoint walk (h : gmap Z list_head) (n : nat) (p : Z) : option (Datatypes.list Z) :=
  if p =? 0 then Some []
  else match n with
       | O => None
       | S n' => c ← h !! p; l ← walk h n' (next c); Some (p :: l)
       end.

Lemma walk_path (h : gmap Z list_head) (n : nat) (p : Z) (l : Datatypes.list Z) :
  walk h n p = Some l -> path h p l 0.
Proof.
  revert p l. induction n as [|n IH]; intros p l; cbn; (destruct (Z.eqb_spec p 0) as [->|Hp]; [by intros [= <-]|]).
  { done. }
  intros (c & Hc & (l' & Hl & [= <-])%bind_Some)%bind_Some. cbn. split_and!; [done..|]. eauto.
Qed.

Definition sintb (v : Z) : bool := (- 2 ^ 15 <=? v) && (v <? 2 ^ 15).

Lemma sintb_spec (v : Z) : sintb v = true -> is_sint 16 v.
Proof. unfold sintb, is_sint. intros [?%Z.leb_le ?%Z.ltb_lt]%andb_prop. cbn in *. lia. Qed.

Definition item_okb (w : world) (x : Z) : bool :=
  match item w x with
  | Some d => sintb (data16 d) && sintb (idx d) && ((data16 d .& 0xff) =? ((data16 d .>> 8) .& 0xff))
  | None => false
  end.

(** Strictly ascending keys. *)
Fixpoint ascending (l : Datatypes.list Z) : bool :=
  match l with
  | [] => true
  | x :: l' => match l' with [] => true | y :: _ => (x <? y) && ascending l' end
  end.

Lemma ascending_sorted (f : Z -> Z) (l : Datatypes.list Z) :
  ascending (f <$> l) = true -> StronglySorted (fun a b => f a < f b) l.
Proof.
  intros H. apply Sorted_StronglySorted; [intros a b c; lia|].
  induction l as [|x l IH]; [constructor|]. destruct l as [|y l]; [by repeat constructor|].
  change (ascending (f <$> x :: y :: l)) with ((f x <? f y) && ascending (f <$> y :: l)) in H.
  apply andb_prop in H as [Hxy Hl]. constructor; [by apply IH|].
  constructor. by apply Z.ltb_lt.
Qed.

Definition matb (m : mat_params) : bool :=
  (0 <=? N m) && (N m * N m <? 2 ^ 32) &&
  (alen (A m) =? N m * N m) && forallb sintb (A m) &&
  (alen (B m) =? N m * N m) && forallb sintb (B m) && (alen (C m) =? N m * N m).

Definition blockb (r : core_results) : bool :=
  let b := state_mem r in
  (alen b =? size r) && (0 <=? alen b - 2) && (aget b (alen b - 2) =? 0) && (aget b (alen b - 1) =? 0) &&
  forallb (fun c => (0 <=? c) && (c <? 256) && ((c =? 44) || negb (c =? 44 .^ u8 (seed1 r)))) b.

Definition readyb (state_fuel fuel : nat) (L : Datatypes.list Z) (w : world) : bool :=
  let r := env w in
  bool_decide (walk (heads w) fuel (list r) = Some L) && bool_decide (NoDup L) &&
  (3 <=? length L)%nat && (length L <? fuel)%nat && (Z.of_nat (length L) <? 2 ^ 30) &&
  forallb (item_okb w) L && ascending (key w <$> L) &&
  (seed2 r =? seed1 r) && blockb r && (Z.to_nat (size r) <? state_fuel)%nat && matb (mat r) &&
  (0 <=? crc r) && (crc r <? 2 ^ 16).

Lemma forallb_Forall {A : Type} (f : A -> bool) (P : A -> Prop) (l : Datatypes.list A) :
  (forall x, f x = true -> P x) -> forallb f l = true -> Forall P l.
Proof. intros H Hf. rewrite forallb_forall in Hf. apply List.Forall_forall. auto. Qed.

Ltac andbs :=
  repeat match goal with
  | H : _ && _ = true |- _ => apply andb_prop in H as [? ?]
  | H : (_ <=? _) = true |- _ => apply Z.leb_le in H
  | H : (_ <? _) = true |- _ => apply Z.ltb_lt in H
  | H : (_ =? _) = true |- _ => apply Z.eqb_eq in H
  | H : (_ <=? _)%nat = true |- _ => apply Nat.leb_le in H
  | H : (_ <? _)%nat = true |- _ => apply Nat.ltb_lt in H
  | H : bool_decide _ = true |- _ => apply bool_decide_eq_true in H
  end.

Lemma matb_spec (m : mat_params) : matb m = true -> wf_mat m.
Proof.
  unfold matb. intros H. andbs. split; [done|]. split; [done|].
  split; [|split; [|done]]; (split; [done|by apply (forallb_Forall _ _ _ sintb_spec)]).
Qed.

Lemma blockb_spec (r : core_results) :
  blockb r = true ->
  input_block (size r) (state_mem r) /\ Forall (is_uint 8) (state_mem r) /\
  Forall (fun c => c <> 44 -> c <> 44 .^ u8 (seed1 r)) (state_mem r).
Proof.
  unfold blockb. intros H. andbs. split_and!.
  - split; [done|]. exists (alen (state_mem r) - 2).
    split; (split; [lia|]); [done|]. by replace (alen (state_mem r) - 2 + 1) with (alen (state_mem r) - 1) by lia.
  - eapply forallb_Forall; [|done]. intros c Hc. cbv beta in Hc. andbs. unfold is_uint. lia.
  - eapply forallb_Forall; [|done]. intros c Hc. cbv beta in Hc. andbs. intros Hne He. subst c.
    rewrite Z.eqb_refl, orb_false_r in *. andbs. done.
Qed.

Lemma readyb_spec (state_fuel fuel : nat) (L : Datatypes.list Z) (w : world) :
  readyb state_fuel fuel L w = true -> ready state_fuel fuel L w.
Proof.
  unfold readyb. cbv zeta. intros H. andbs.
  match goal with Hm : matb _ = true, Hb : blockb _ = true |- _ =>
    apply matb_spec in Hm; apply blockb_spec in Hb as (? & ? & ?) end.
  assert (Forall (fun x => exists d, item w x = Some d /\
    is_sint 16 (data16 d) /\ is_sint 16 (idx d) /\ regenerated d) L) as HL.
  { eapply forallb_Forall; [|eassumption]. intros x Hx. unfold item_okb in Hx.
    destruct (item w x) as [d|]; [|done]. andbs.
    exists d. split; [done|]. split; [by apply sintb_spec|]. split; [by apply sintb_spec|done]. }
  rewrite Forall_forall in HL. split; try done.
  - by eapply walk_path.
  - intros x Hx. destruct (HL x Hx) as (d & ? & ? & ? & ?). by exists d.
  - split; [by apply ascending_sorted|]. apply Forall_forall. intros x Hx.
    destruct (HL x Hx) as (d & ? & ? & ? & ?). exists d. by split_and!.
Qed.

(** ** The known runs *)

Section KnownRuns.
Variables state_fuel fuel : nat.

(** What decides the report of a run: whether the set-up is ready, the CRCs
    after the first iteration, and the parameters of the seed CRC. *)
Definition first_run (w : world) : bool * option (Z * Z * Z) * (Z * Z * Z * Z * Z) :=
  let L := default [] (walk (heads w) fuel (list (env w))) in
  (readyb state_fuel fuel L (cleared w),
   (fun '(_, w1) => (crclist (env w1), crcmatrix (env w1), crcstate (env w1))) <$>
     iter_step state_fuel fuel 0 (cleared w),
   (seed1 (env w), seed2 (env w), seed3 (env w), size (env w), execs (env w))).

Lemma validate_known (t id : Z) (r : core_results) :
  0 <= id -> known_id_of (seedcrc r) = id -> is_uint 32 t -> 10 * EE_TICKS_PER_SEC <= t ->
  crclist r = aget list_known_crc id -> crcmatrix r = aget matrix_known_crc id ->
  crcstate r = aget state_known_crc id ->
  validate rv32_sizes t r = mk_report (seedcrc r) id [] 0 Correct_operation.
Proof.
  intros Hid Hk Ht H10 H1 H2 H3. unfold validate. rewrite Hk, secs_lt by done.
  destruct (Z.ltb_spec t (10 * EE_TICKS_PER_SEC)); [lia|].
  destruct (Z.leb_spec 0 id); [|lia]. unfold check_crcs, check_crc.
  rewrite H1, H2, H3, !Z.eqb_refl, !andb_false_r. done.
Qed.

Lemma known_run (rounds : nat) (cost : Z -> Z) (stack : core_results) (total memblk : Z)
    (seeds : Datatypes.list Z) (c : clock) (w : world) (id s1 s2 s3 sz ex : Z) :
  setup fuel stack total memblk seeds = Some w ->
  first_run w = (true, Some (aget list_known_crc id, aget matrix_known_crc id, aget state_known_crc id),
                 (s1, s2, s3, sz, ex)) ->
  known_id_of (crc16 (s16 sz) (crc16 s3 (crc16 s2 (crc16 s1 0)))) = id -> 0 <= id ->
  aget matrix_known_crc id <> 0 -> aget state_known_crc id <> 0 ->
  0 < iterations (env w) ->
  10 * EE_TICKS_PER_SEC <= cost (iterations (env w)) < 2 ^ 32 ->
  exists m, main state_fuel fuel rounds cost rv32_sizes stack total memblk seeds c =
    Some (m, mk_report (crc16 (s16 sz) (crc16 s3 (crc16 s2 (crc16 s1 0)))) id [] 0 Correct_operation).
Proof.
  intros Hset Hf Hid Hid0 Hm Hs Hn Hc. unfold first_run in Hf. cbv zeta in Hf.
  set (L := default [] _) in Hf. clearbody L. injection Hf as Hr Hi E1 E2 E3 E4 E5.
  assert (is_uint 32 (cost (iterations (env w)))) as Hu
    by (change EE_TICKS_PER_SEC with 60000000 in Hc; unfold is_uint; lia).
  apply readyb_spec in Hr.
  destruct (iterate_run state_fuel fuel L w Hr Hn) as (w1 & w' & H1 & Hit & _ & (_ & _ & Hin) & (K1 & K2 & K3)).
  rewrite H1 in Hi. cbn in Hi. injection Hi as C1 C2 C3. rewrite C1 in K1. rewrite C2 in K2. rewrite C3 in K3.
  unfold main. rewrite Hset. cbn [mbind option_bind]. unfold calibrate, iterations_of. cbn [wld].
  destruct (Z.eqb_spec (iterations (env w)) 0); [lia|]. cbn [mbind option_bind].
  unfold timed_iterate. cbn [wld clk]. rewrite Hit. cbn [mbind option_bind clk wld].
  eexists. do 2 f_equal. unfold iterations_of. cbn [wld]. rewrite get_time_exact by done.
  assert (seedcrc (env w') = crc16 (s16 sz) (crc16 s3 (crc16 s2 (crc16 s1 0)))) as Hsc.
  { unfold seedcrc. subst s1 s2 s3 sz.
    assert (forall g : core_results -> Z, (forall r, g (inputs r) = g r) -> g (env w') = g (env w)) as Hg.
    { intros g Hg. by rewrite <-Hg, Hin, Hg. }
    by rewrite (Hg size), (Hg seed1), (Hg seed2), (Hg seed3). }
  rewrite (validate_known _ id); rewrite ?Hsc; try done; [lia| |].
  - by apply K2.
  - by apply K3.
Qed.
End KnownRuns.

(** The static block's address in the runs below; any build gives it some
    word-aligned value. *)
Definition static_memblk : Z := 0x10000.

Lemma performance_first (it : Z) (stack : core_results) :
  (fun w => (first_run 2000 1000 w, iterations (env w))) <$>
    init_all 1000 stack 2000 static_memblk (0, 0, 0x66) it ALL_ALGORITHMS_MASK =
  Some ((true, Some (0xe714, 0x1fd7, 0x8e3a), (0, 0, 0x66, 666, 7)), it).
Proof. vm_compute. reflexivity. Qed.

Lemma validation_first (it : Z) (stack : core_results) :
  (fun w => (first_run 2000 1000 w, iterations (env w))) <$>
    init_all 1000 stack 2000 static_memblk (0x3415, 0x3415, 0x66) it ALL_ALGORITHMS_MASK =
  Some ((true, Some (0xe3c1, 0x0747, 0x8d84), (0x3415, 0x3415, 0x66, 666, 7)), it).
Proof. vm_compute. reflexivity. Qed.

Lemma profile_first (it : Z) (stack : core_results) :
  (fun w => (first_run 2000 1000 w, iterations (env w))) <$>
    init_all 1000 stack 1200 static_memblk (8, 8, 8) it ALL_ALGORITHMS_MASK =
  Some ((true, Some (0x6a79, 0x5608, 0xe5a4), (8, 8, 8, 400, 7)), it).
Proof. vm_compute. reflexivity. Qed.

(** A set-up whose first run is known, with a count given in the seeds. *)
Lemma known_run_at (id total size s1 s2 s3 : Z) (rounds : nat) (cost : Z -> Z) (stack : core_results) (n : Z) (c : clock) :
  (forall it, (fun w => (first_run 2000 1000 w, iterations (env w))) <$>
     init_all 1000 stack total static_memblk (s1, s2, s3) it ALL_ALGORITHMS_MASK =
     Some ((true, Some (aget list_known_crc id, aget matrix_known_crc id, aget state_known_crc id),
            (s1, s2, s3, size, 7)), it)) ->
  s16 s1 = s1 -> s16 s2 = s2 -> s16 s3 = s3 ->
  known_id_of (crc16 (s16 size) (crc16 s3 (crc16 s2 (crc16 s1 0)))) = id -> 0 <= id ->
  aget matrix_known_crc id <> 0 -> aget state_known_crc id <> 0 ->
  0 < n < 2 ^ 31 -> 10 * EE_TICKS_PER_SEC <= cost n < 2 ^ 32 ->
  exists m, main 2000 1000 rounds cost rv32_sizes stack total static_memblk [s1; s2; s3; n; 0] c =
    Some (m, mk_report (crc16 (s16 size) (crc16 s3 (crc16 s2 (crc16 s1 0)))) id [] 0 Correct_operation).
Proof.
  intros Hf E1 E2 E3 Hid H0 Hm Hs Hn Hc. specialize (Hf n).
  apply fmap_Some in Hf as (w & Hw & Hf).
  pose proof (f_equal fst Hf) as H1. pose proof (f_equal snd Hf) as Hit. cbn [fst snd] in H1, Hit.
  apply (known_run 2000 1000 rounds cost stack total static_memblk _ c w id s1 s2 s3 size 7); [|exact (eq_sym H1)|done|done|done|done|rewrite <-Hit; lia|by rewrite <-Hit].
  unfold setup. cbn [get_seed_32 nth]. rewrite E1, E2, E3. change (u32 0) with 0. cbn [Z.eqb].
    assert (u32 n = n) as -> by (apply uwrap_id; unfold is_uint; lia). exact Hw.
Qed.

(** C5: the 2K performance run of this port (seeds 0, 0, 0x66, 2000 bytes of
    data) terminates and validates: for every iteration count that runs for ten
    seconds and less than the counter's period, the reported CRCs are CoreMark's
    published ones, no error is reported and the parameters are recognised. It
    is the run the port selects by default for this size. *)
Theorem performance_run_validates (rounds : nat) (cost : Z -> Z) (stack : core_results) (n : Z) (c : clock) :
  0 < n < 2 ^ 31 -> 10 * EE_TICKS_PER_SEC <= cost n < 2 ^ 32 ->
  exists m, main 2000 1000 rounds cost rv32_sizes stack 2000 static_memblk (volatile_seeds (default_run 2000) n) c =
    Some (m, mk_report 0xe9f5 3 [] 0 Correct_operation).
Proof.
  intros Hn Hc. apply (known_run_at 3 2000 666 0 0 0x66);
    [intros; apply performance_first|reflexivity|reflexivity|reflexivity|reflexivity|done|done|done|done|done].
Qed.

(** C10: so do the 2K validation run (seeds 0x3415, 0x3415, 0x66) and the profile
    run, which the port selects for 1200 bytes of data (seeds 8, 8, 8). *)
Theorem validation_run_validates (rounds : nat) (cost : Z -> Z) (stack : core_results) (n : Z) (c : clock) :
  0 < n < 2 ^ 31 -> 10 * EE_TICKS_PER_SEC <= cost n < 2 ^ 32 ->
  (exists m, main 2000 1000 rounds cost rv32_sizes stack 2000 static_memblk (volatile_seeds VALIDATION_RUN n) c =
    Some (m, mk_report 0x18f2 4 [] 0 Correct_operation)) /\
  (exists m, main 2000 1000 rounds cost rv32_sizes stack 1200 static_memblk (volatile_seeds (default_run 1200) n) c =
    Some (m, mk_report 0x4eaf 2 [] 0 Correct_operation)).
Proof.
  intros Hn Hc. split.
  - apply (known_run_at 4 2000 666 0x3415 0x3415 0x66);
      [intros; apply validation_first|reflexivity|reflexivity|reflexivity|reflexivity|done|done|done|done|done].
  - apply (known_run_at 2 1200 400 8 8 8);
      [intros; apply profile_first|reflexivity|reflexivity|reflexivity|reflexivity|done|done|done|done|done].
Qed.

(** ** What the verdict means *)

Lemma check_data_types_range (sz : type_sizes) : 0 <= check_data_types sz <= 6.
Proof.
  assert (forall b v k, 0 <= v <= k -> k < 6 -> 0 <= (if b : bool then u8 (v + 1) else v) <= k + 1) as H.
  { intros [|] v k Hv Hk; [|lia]. unfold u8. rewrite uwrap_id; unfold is_uint; lia. }
  unfold check_data_types. cbv zeta.
  apply (H _ _ 5); [|lia]. apply (H _ _ 4); [|lia]. apply (H _ _ 3); [|lia].
  apply (H _ _ 2); [|lia]. apply (H _ _ 1); [|lia]. apply (H _ _ 0); lia.
Qed.

Definition crc_right (execs id crc should_be : Z) : Prop := execs .& id <> 0 -> crc = should_be.

Lemma check_crc_nil (ex id crc should : Z) (msg : Z -> Z -> message) :
  (length (check_crc ex id crc should msg) <= 1)%nat /\
  (check_crc ex id crc should msg = [] <-> crc_right ex id crc should).
Proof.
  unfold check_crc, crc_right, truthy.
  destruct (Z.eqb_spec (ex .& id) 0), (Z.eqb_spec crc should); cbn; (split; [lia|]); split; (done || naive_solver).
Qed.

(** C33: for known parameters the program reports correct operation exactly when
    every CRC of an executed algorithm is the published one, the data types have
    the right sizes and the run took at least ten seconds; otherwise it reports
    errors. *)
Theorem verdict_sound (sz : type_sizes) (t : Z) (r : core_results) :
  is_uint 32 t -> 0 <= known_id_of (seedcrc r) ->
  let id := known_id_of (seedcrc r) in
  let ok := crc_right (execs r) ID_LIST (crclist r) (aget list_known_crc id) /\
            crc_right (execs r) ID_MATRIX (crcmatrix r) (aget matrix_known_crc id) /\
            crc_right (execs r) ID_STATE (crcstate r) (aget state_known_crc id) /\
            check_data_types sz = 0 /\ 10 * EE_TICKS_PER_SEC <= t in
  (ok -> rp_verdict (validate sz t r) = Correct_operation) /\
  (~ ok -> rp_verdict (validate sz t r) = Errors_detected).
Proof.
  intros Ht Hid id ok. unfold validate. fold id in Hid |- *. rewrite secs_lt by done.
  destruct (Z.leb_spec 0 id); [|lia]. cbn [rp_verdict].
  pose proof (check_data_types_range sz) as Hsz.
  destruct (check_crc_nil (execs r) ID_LIST (crclist r) (aget list_known_crc id) Err_list) as [L1 N1].
  destruct (check_crc_nil (execs r) ID_MATRIX (crcmatrix r) (aget matrix_known_crc id) Err_matrix) as [L2 N2].
  destruct (check_crc_nil (execs r) ID_STATE (crcstate r) (aget state_known_crc id) Err_state) as [L3 N3].
  assert ((length (check_crcs id r) <= 3)%nat /\
    (length (check_crcs id r) = 0%nat <-> crc_right (execs r) ID_LIST (crclist r) (aget list_known_crc id) /\
       crc_right (execs r) ID_MATRIX (crcmatrix r) (aget matrix_known_crc id) /\
       crc_right (execs r) ID_STATE (crcstate r) (aget state_known_crc id))) as [Hlen Hnil].
  { unfold check_crcs. rewrite !length_app. split; [lia|].
    rewrite <-N1, <-N2, <-N3, <-!length_zero_iff_nil. lia. }
  set (k := length (check_crcs id r)) in *. set (d := check_data_types sz) in *.
  change (10 * EE_TICKS_PER_SEC) with 600000000 in *.
  assert (forall v, 0 <= v <= 20 -> s16 v = v) as Hs by (intros; apply swrap_id; unfold is_sint; lia).
  set (te := if t <? 600000000 then _ else _).
  assert (te = Z.of_nat k + d + (if t <? 600000000 then 1 else 0)) as ->.
  { unfold te. rewrite (Hs (Z.of_nat k)), (Hs (0 + Z.of_nat k)), (Hs (0 + Z.of_nat k + d)) by lia.
    destruct (t <? 600000000); [rewrite Hs by lia|]; lia. }
  unfold verdict_of. subst ok. clearbody k d. destruct (Z.ltb_spec t 600000000).
  - split; [intros (_ & _ & _ & _ & ?); lia|]. intros _.
    destruct (Z.eqb_spec (Z.of_nat k + d + 1) 0), (Z.ltb_spec 0 (Z.of_nat k + d + 1)); (lia || done).
  - split.
    + intros (C1 & C2 & C3 & -> & _). assert (k = 0%nat) as -> by by apply Hnil. done.
    + intros Hno. destruct (Z.eqb_spec (Z.of_nat k + d + 0) 0) as [E|E].
      * exfalso. apply Hno. assert (k = 0%nat) as Hk by lia. apply Hnil in Hk as (? & ? & ?). split_and!; (done || lia).
      * destruct (Z.ltb_spec 0 (Z.of_nat k + d + 0)); (lia || done).
Qed.

(** A run with unknown parameters that is also too short is reported as
    correct: the error for its length brings the total from -1, the mark of
    unknown parameters, to 0. *)
Theorem short_unknown_run_passes (t : Z) (r : core_results) :
  is_uint 32 t -> t < 10 * EE_TICKS_PER_SEC -> known_id_of (seedcrc r) = -1 ->
  validate rv32_sizes t r = mk_report (seedcrc r) (-1) [Err_short] 0 Correct_operation.
Proof.
  intros Ht H10 Hid. unfold validate. rewrite Hid, secs_lt by done.
  destruct (Z.ltb_spec t (10 * EE_TICKS_PER_SEC)); [done|lia].
Qed.

Module CoreMainWitness.
Import ListBenchWitness.

Lemma ready0 (n : Z) : ready 100 10 L0 (cleared (mk_world (heads w0) (datas w0) (set_iterations n r0))).
Proof. apply readyb_spec. by vm_compute. Qed.

Lemma iterate_reports_first_witness : exists w1 w',
  iter_step 100 10 0 (cleared w0) = Some ((), w1) /\ iterate 100 10 w0 = Some ((), w') /\
  crclist (env w') = crclist (env w1) /\
  (crcmatrix (env w1) <> 0 -> crcmatrix (env w') = crcmatrix (env w1)) /\
  (crcstate (env w1) <> 0 -> crcstate (env w') = crcstate (env w1)) /\
  heads w' = heads w0 /\ (forall x, x ∈ L0 -> item w' x = item w0 x) /\
  inputs (env w') = inputs (env w0).
Proof. apply (iterate_reports_first 100 10 L0 w0); [apply (ready0 1)|done]. Defined.

(** 3 million cycles per iteration, as many iterations as the build script's default. *)
Lemma performance_run_validates_witness : exists m,
  main 2000 1000 0 (fun n => 3000000 * n + 100) rv32_sizes r0 2000 static_memblk [0; 0; 0x66; 200; 0] (mk_clock 0 0 0) =
    Some (m, mk_report 0xe9f5 3 [] 0 Correct_operation).
Proof. apply (performance_run_validates 0 (fun n => 3000000 * n + 100) r0 200 (mk_clock 0 0 0)); [lia|done]. Defined.

Lemma validation_run_validates_witness :
  (exists m, main 2000 1000 0 (fun n => 3000000 * n + 100) rv32_sizes r0 2000 static_memblk
    [0x3415; 0x3415; 0x66; 200; 0] (mk_clock 0 0 0) = Some (m, mk_report 0x18f2 4 [] 0 Correct_operation)) /\
  (exists m, main 2000 1000 0 (fun n => 3000000 * n + 100) rv32_sizes r0 1200 static_memblk
    [8; 8; 8; 200; 0] (mk_clock 0 0 0) = Some (m, mk_report 0x4eaf 2 [] 0 Correct_operation)).
Proof. apply (validation_run_validates 0 (fun n => 3000000 * n + 100) r0 200 (mk_clock 0 0 0)); [lia|done]. Defined.

Definition m0 : machine := mk_machine (mk_world (heads w0) (datas w0) (set_iterations 0 r0)) (mk_clock 0 0 0).

Lemma calibrate_long_enough_witness : exists m',
  calibrate 100 10 (fun n => 3000000 * n + 100) 8 m0 = Some m' /\
  ready 100 10 L0 (cleared (wld m')) /\ 0 < iterations_of m' /\
  10 * EE_TICKS_PER_SEC <= 3000000 * iterations_of m' + 100 < 23 * EE_TICKS_PER_SEC.
Proof.
  apply (calibrate_long_enough 100 10 L0 (fun n => 3000000 * n + 100) 3000000 100);
    [lia|done|lia|apply (ready0 0)|reflexivity|lia].
Defined.

Definition r1 : core_results := mk_results 0 0 0x66 666 200 7 0 [] (mk_mat 0 [] [] []) 0 0xe714 0x1fd7 0x8e3b 0.

Lemma verdict_sound_witness :
  rp_verdict (validate rv32_sizes 600000000 r1) = Errors_detected.
Proof.
  assert (known_id_of (seedcrc r1) = 3) as Hid by (vm_compute; reflexivity).
  pose proof (verdict_sound rv32_sizes 600000000 r1 ltac:(unfold is_uint; lia) ltac:(rewrite Hid; lia)) as H.
  cbv zeta in H. rewrite Hid in H. apply (proj2 H). clear H. intros (_ & _ & H & _). specialize (H ltac:(done)). discriminate H.
Defined.

Definition r2 : core_results := mk_results 1 2 3 666 1 7 0 [] (mk_mat 0 [] [] []) 0 1 2 3 0.

Lemma short_unknown_run_passes_witness :
  validate rv32_sizes 1000 r2 = mk_report (seedcrc r2) (-1) [Err_short] 0 Correct_operation.
Proof. apply (short_unknown_run_passes 1000 r2); [done|reflexivity|reflexivity]. Defined.
End CoreMainWitness.
